(* ===== verification/_CoqProject ===== *)
-Q . S2P
Prelude.v
RustStr.v
Utf16.v
SipHash.v
Content.v
Codec.v
Transfer.v
TransferSpec.v
Libp2p.v
NetAddr.v
NetLoop.v
RetryThread.v
Sync.v
MdnsConfig.v
Dns.v
MdnsQuery.v
MdnsIface.v
MdnsRuntime.v
MdnsBehaviour.v
MdnsExpiry.v
Discovery.v
Startup.v
Certificate.v
TlsVerifier.v
UriList.v
DropFiles.v
Files.v
Dedup.v
Clipboards.v
EndToEnd.v
Main.v
Convergence.v
Threads.v
Fleet.v
FleetProgress.v
