(* ===== verification/Prelude.v ===== *)
(** * p2p-clipboard: a verified model

    p2p-clipboard shares the clipboard of the machines of one user: a change on
    one is sent through a libp2p network (gossipsub over TCP with TLS, peers found
    by mDNS or given on the command line) and written to the clipboards of the
    others.  This library is a shallow embedding of the program with theorems about
    it.  Definitions carry the names of the code; each file names its source.

    ** The program and the files

    A change travels along these parts:

    - [Files.v] (src/src/main.rs): the files of a copied directory
      ([collect_dir_files]), saving received files ([save_received_files]), the
      paths that go to the clipboard ([deduplicate_to_top_level_paths]);
    - [UriList.v] (src/src/native_clipboard.rs): the file lists of the Linux
      clipboard, read and written through xclip, xsel, wl-paste and wl-copy;
    - [DropFiles.v] (src/src/native_clipboard.rs): those of the Windows clipboard, a
      block of memory in the format CF_HDROP, and the calls of Win32 around it;
    - [Dedup.v] (src/src/main.rs): [get_clipboard_content], called when the clipboard
      changes, [set_clipboard_content], called for a received content, and the
      [DeduplicationState] they share.  The state [App] adds the clipboard, the file
      system and the channel to the network;
    - [Clipboards.v]: the two native clipboards as instances of the interface
      [Dedup.v] is proved against, over the tools of an X11 desktop, Win32 and
      arboard;
    - [Threads.v] (src/src/main.rs): the same two functions cut into steps at their
      accesses to what they share, and the interleavings of their threads;
    - [Content.v] (src/src/clipboard_content.rs): [ClipboardContent],
      [NetworkMessage], and [split_to_network_messages], which cuts a large content
      into chunks;
    - [NetLoop.v] (src/src/network.rs, [run]): the event loop between the channels,
      the retry thread and the swarm.  [RunState] holds the loop's variables, one
      definition per event handles it, [iteration] is the loop's body, and what the
      loop asks of the swarm is a list of [Cmd];
    - [Sync.v] (src/src/network.rs, [CompressionTransform]): compression, and the way
      of a content from the loop of one machine to the loop of another;
    - [Transfer.v] (src/src/network.rs, [handle_incoming_message]): the table of
      chunked transfers being received, and their timeout; [TransferSpec.v] says what
      they promise in terms of the messages alone;
    - [EndToEnd.v]: the parts above put together, for a directory that is copied;
      [Convergence.v]: for one copy in a group of machines; [Fleet.v]: as a transition
      system of any number of machines, with everything going on at once, and
      [FleetProgress.v]: what can still happen from each of its states.

    The network is set up by:

    - [NetAddr.v] (src/src/network.rs): parsing of [IP:PORT], predicates on
      multiaddresses;
    - [Startup.v] (src/src/network.rs, [start_network]): keys, boot peer, listen
      address, the configurations of gossipsub, kademlia, identify and mDNS;
    - [RetryThread.v] (src/src/network.rs, [retry_waiting_thread]): the thread that
      holds back failed connections, and its system with the loop;
    - [MdnsConfig.v], [Dns.v], [MdnsQuery.v], [MdnsIface.v], [MdnsBehaviour.v]
      (src/lib/mdns/src: lib.rs, behaviour/iface/dns.rs, behaviour/iface/query.rs,
      behaviour/iface.rs, behaviour.rs): the configuration; the encoder of DNS
      packets; the classification of received packets; the instance that probes
      and answers on an interface; the behaviour that runs the instances and keeps
      the nodes found.  Each file uses the one before;
    - [MdnsRuntime.v] (timer.rs, socket.rs of the same directory): the wrappers of
      tokio's timers and sockets, and an instance driven by such a timer;
    - [MdnsExpiry.v]: the behaviour's expiry on such timers;
    - [Discovery.v]: the events of the mDNS behaviour taken by the loop, and the way
      from a neighbour's answer to a dial;
    - [Certificate.v], [TlsVerifier.v] (src/lib/tls/src: certificate.rs; verifier.rs,
      lib.rs, upgrade.rs): self-signed certificates whose libp2p extension may be
      encrypted under a pre-shared key; the certificate verifier, the TLS
      configurations and the connection upgrades;
    - [Main.v] (src/src/main.rs, [main], [init_logging]): the log, and the loop that
      starts all this again when the network has returned.

    [Prelude.v] holds integers, results, panics and lists; [RustStr.v] the parts of
    Rust's strings in use, [Utf16.v] their UTF-16 conversions; [SipHash.v] the standard
    library's [DefaultHasher]; [Libp2p.v] peers and multiaddresses; [Codec.v] a concrete
    codec for the witnesses.

    ** How the code is modelled

    Machine integers are [Z], with casts written as [wrap] and checks written out.
    Strings are their UTF-8 bytes.  A [Result] is [result] or [option]; code that may
    panic returns an [outcome] ([startup] in [Startup.v], which can also exit); the
    program is taken in its release profile, without overflow checks, on a 64-bit
    little-endian Unix, and [debug_assert!] is a parameter where it occurs.
    An iteration of the main loop reads the clock at its head, where stale transfers are
    dropped, and again when the event it waited for is handled: its [Times].
    Mutable state is passed along; the clock, random numbers and what the
    operating system and the swarm answer are arguments.  In [MdnsIface.v] they are
    a script with one [Round] for each round of the poll loop, in [MdnsBehaviour.v] an
    [Env] for each iteration.  Interleavings are sequences of such steps:
    [NetLoop.reachable] and [iterations], [RetryThread.sys_step],
    [Transfer.receive_all], [MdnsIface.poll], [MdnsRuntime.life],
    [MdnsBehaviour.life], [Threads.execution], [Fleet.fleet_step].  In [DropFiles.v] an access outside the
    locked block or unaligned is undefined behaviour, the result [None]; the functions
    also return the Win32 calls they made, in order.

    Crates are type classes of operations, with a second class of the laws the code
    relies on: [Bincode], [Digest], [Zstd], [Libp2p] (laws [MultiaddrLaws]), [Hickory]
    (the DNS parser; its laws relate it to the reader of RFC 1035 messages in
    [Dns.v], for the simple messages the encoder writes), [TlsCrypto], [Keys], [ClipboardApi], [ImageCodec], [FileSystem] (with
    [FileIdentity], which file a path denotes), [Tokio] and [TokioUdp]; so are the
    programs xclip, wl-copy and so on ([ClipboardTools]), [Win32] and [Arboard].
    [UnicodeTables] are the two tables Debug's escaping consults.
    [ClipboardScope] says which paths and texts a clipboard keeps; [BincodeTyped],
    [BincodeSizes] and [ZstdBound] are further laws of the codecs, which single
    theorems use: values have their types, encodings the length of their fields, and
    compression adds little.  For each there is an instance that satisfies the laws, on which the witnesses
    (lemmas named [..._witness]) evaluate the theorems.  The idealised hypotheses
    are those of [different_psk_no_upgrade] (a ciphertext opens under its own key
    only) and [same_service_iff_same_psk] (no collisions of derived secrets).  In
    [Fleet.v] a transfer id is never generated twice; each machine has a clock of its
    own, which does not go back.

    ** What is proved

    - Synchronisation: whatever a machine receives had been copied on one of them, under
      every interleaving, loss, repetition and restart ([Fleet.received_was_copied]), and
      whatever has happened, what waits for the network can still be delivered
      ([FleetProgress.delivery_always_possible]); a directory copied on one machine is in the receive directory
      and on the clipboard of the other - of a directory with one file only the file is
      ([EndToEnd.copied_directory_arrives]); one copy
      reaches everyone and then nobody has anything to send
      ([Convergence.content_reaches_everyone]), but an image
      is passed on at every turn ([image_never_rests]); any content is published whole, arrives as it was sent and is handed to the other
      clipboard ([Sync.clipboard_synchronised], [NetLoop.local_content_published],
      [Transfer.transfer_delivers]) in messages that fit
      ([Sync.messages_fit_transmit_size]); the table of transfers implements its
      specification over every history ([TransferSpec.reception_refines_history],
      with [reception_keeps_types]), so that what a transfer delivers was checked
      ([Transfer.chunk_end_delivers_verified]) and transfers end
      ([cleanup_keeps_fresh]); which messages gossipsub identifies
      ([Startup.same_message_id_iff]).
    - The clipboard: a change is sent once ([Dedup.clipboard_change_sent],
      [unchanged_clipboard_not_resent]) and a received content is not sent back
      ([received_not_echoed]), except for images ([received_image_echoed_iff]).
      These are about uninterrupted calls; [Threads.steps_compose] relates them to
      the steps, [waiting_was_copied] holds in every interleaving, and
      [received_text_echoed] is one in which a received text is sent back.  The
      native clipboards satisfy what these theorems ask of a clipboard
      ([Clipboards.native_clipboards_keep_contents]), which is not to give back every
      text: [file_uri_text_becomes_file].
    - Files: directories are read whole ([Files.collect_dir_files_complete]), saved
      files have the bytes received when their names denote different files
      ([saved_files_readable]) and lie in the receive
      directory when their names are harmless ([saved_inside_receive_dir]); the
      clipboard gets the top-level paths ([clipboard_gets_top_level]); file lists are
      read back on Linux, unless wl-copy took them ([UriList.file_list_roundtrip], and
      [url_decode_encode]), and
      on Windows ([DropFiles.dropfiles_roundtrip]), where the writer stays in its
      block ([dropfiles_write_in_bounds]), the reader is defined exactly on
      well-formed blocks ([read_dropfiles_iff]) and both follow the protocol of Win32
      ([windows_calls_follow_protocol]).
    - The loop: its invariant ([NetLoop.reachable_run_ok]), the messages that make it
      panic ([identify_received_panics_iff], [Transfer.incoming_panics_iff]); with
      the retry thread, a failing connection is only forgotten when the swarm refuses a
      dial or does not name the endpoint in its outcome
      ([RetryThread.retries_not_forgotten], [retry_forgotten]), and the times of the retries
      ([unreachable_peer_schedule]; [NetLoop.retries_give_up]); with mDNS, the nodes
      found are dialled ([Discovery.discovered_nodes_dialled]), from a neighbour's answer
      on ([answer_leads_to_dial]).
    - The start: [Startup.start_network_connects], [same_service_iff_same_psk],
      [NetAddr.parse_display_ipv4_with_port]; the loop of main tells the tasks
      of a round to stop before it starts the next ([Main.main_stops_earlier_rounds]).
    - mDNS: packets are read back ([Dns.build_query_response_read],
      [build_service_discovery_response_read], sizes in [build_query_response_size],
      panics in [build_query_response_panics_iff]) and understood by the receiver
      ([MdnsQuery.query_response_understood], [query_classified]); an exchange between
      two instances makes them known to each other
      ([MdnsIface.query_answer_exchange]); an instance does not panic, follows its
      schedule and loses nothing it queued ([instance_never_panics],
      [instance_schedule], [instance_queues_fifo]), and with tokio's timers it queries
      exactly at the times meant ([MdnsRuntime.queries_follow_schedule]); the events of
      the behaviour account for its nodes ([MdnsBehaviour.events_account_for_nodes])
      and its polls end ([poll_terminates], [poll_result], [renewal_takes_latest]);
      [MdnsExpiry.node_expires_on_time] says when nodes that are not renewed expire.
    - TLS: which certificates are accepted ([Certificate.parse_accepts_iff]), and that
      the pre-shared key decides who can connect ([TlsVerifier.same_psk_upgrade],
      [different_psk_no_upgrade], [verify_server_cert_result]).

    ** Fuel

    Loops over a list that shrinks take its length as fuel ([chunks], [from_utf8_lossy],
    [trim_start], [chars], [get_non_p2p_multiaddr], the reader of DNS names); the loops
    over a Windows block take the number of bytes of the block, which every step
    shortens by one at least; decimal formatting takes 20 digits, which a [u64] needs
    at most, hexadecimal digits of a character six.  [collect_dir_files] takes the
    depth of the directory tree, and its theorem holds for every fuel not below it.
    [MdnsBehaviour.poll_terminates] bounds the poll loop; [MdnsIface.poll] and
    [MdnsRuntime.life] are structural on the script.

    ** What comes next

    In this order: an instance of [MdnsRuntime.v] that also receives packets; the retry
    thread and the mDNS behaviour of each machine in [Fleet.v]; the
    proxy and the sleeping callbacks of a round of [main] beside those of the next.

    ** What is not modelled

    macOS; saving files on Windows, where paths have other rules; the parsing of the command line, which clap derives from [Args]; the
    filtering and formatting that fern does with a [Dispatch]; what gossipsub,
    kademlia and identify make of their configurations; the [Provider] that names the
    types of the mDNS behaviour; the clipboard monitor that calls the handler, which is
    the clipboard-master crate; failing allocations below the limit of a [Vec]; the text
    of log lines.  Gossipsub's own behaviour (routing, duplicate
    suppression) is not assumed: [Sync.delivered] says how messages may arrive. *)

From Stdlib Require Export ZArith Lia.
From stdpp Require Export base tactics numbers fin_maps gmap strings pretty option.
From stdpp Require Export list.

Declare Scope p2p_scope.
Delimit Scope p2p_scope with p2p.

Create HintDb p2p.
Create Rewrite HintDb p2p_rw.

(** ** Machine-width integers

    An unsigned [w]-bit integer is a [Z]; a Rust [as uN] cast is [wrap N]. *)

Abbreviation u8 := Z (only parsing).
Abbreviation u16 := Z (only parsing).
Abbreviation u32 := Z (only parsing).
Abbreviation u64 := Z (only parsing).
Abbreviation usize := Z (only parsing).

Definition wrap (w z : Z) : Z := (z mod 2 ^ w)%Z.
Definition fits (w z : Z) : Prop := (0 ≤ z < 2 ^ w)%Z.

Abbreviation as_u8 := (wrap 8).
Abbreviation as_u16 := (wrap 16).
Abbreviation as_u32 := (wrap 32).
Abbreviation as_u64 := (wrap 64).

Definition U16_MAX : Z := 65535.
Definition U32_MAX : Z := 4294967295.
Definition U64_MAX : Z := 18446744073709551615.
(** [isize::MAX] of the 64-bit targets the program is built for: the largest
    capacity a [Vec] accepts. *)
Definition ISIZE_MAX : Z := 9223372036854775807.

Lemma wrap_small (w z : Z) : fits w z → wrap w z = z.
Proof. apply Z.mod_small. Qed.

Lemma fits_u32 (z : Z) : (0 ≤ z ≤ U32_MAX)%Z → fits 32 z.
Proof. unfold U32_MAX, fits. change (2 ^ 32)%Z with 4294967296%Z. lia. Qed.

Lemma wrap_fits (w z : Z) : (0 ≤ w)%Z → fits w (wrap w z).
Proof. intros. apply Z.mod_pos_bound. by apply Z.pow_pos_nonneg. Qed.

#[export] Hint Resolve wrap_fits : p2p.

(** ** Fallible and panicking code

    [result E A] is Rust's [Result<A, E>]; [outcome A] is the value of code that
    may panic instead of returning. *)

Inductive result (E A : Type) : Type :=
| Ok (a : A)
| Err (e : E).
Arguments Ok {E A} a.
Arguments Err {E A} e.

Inductive outcome (A : Type) : Type :=
| Done (a : A)
| Panic.
Arguments Done {A} a.
Arguments Panic {A}.

#[export] Instance result_ret {E} : MRet (result E) := λ A a, Ok a.
#[export] Instance result_bind {E} : MBind (result E) := λ A B f r,
  match r with Ok a => f a | Err e => Err e end.
#[export] Instance result_fmap {E} : FMap (result E) := λ A B f r,
  match r with Ok a => Ok (f a) | Err e => Err e end.

#[export] Instance outcome_ret : MRet outcome := λ A a, Done a.
#[export] Instance outcome_bind : MBind outcome := λ A B f r,
  match r with Done a => f a | Panic => Panic end.
#[export] Instance outcome_fmap : FMap outcome := λ A B f r,
  match r with Done a => Done (f a) | Panic => Panic end.

#[export] Instance result_eq_dec {E A} `{EqDecision E, EqDecision A} :
  EqDecision (result E A).
Proof. solve_decision. Defined.
#[export] Instance outcome_eq_dec {A} `{EqDecision A} : EqDecision (outcome A).
Proof. solve_decision. Defined.

(** [Result::ok] and [Result::map_err]. *)
Definition res_ok {E A} (r : result E A) : option A :=
  match r with Ok a => Some a | Err _ => None end.
Definition map_err {E F A} (f : E → F) (r : result E A) : result F A :=
  match r with Ok a => Ok a | Err e => Err (f e) end.
(** [Option::ok_or]. *)
Definition ok_or {E A} (o : option A) (e : E) : result E A :=
  match o with Some a => Ok a | None => Err e end.

Lemma bind_Ok {E A B} (r : result E A) (f : A → result E B) b :
  (r ≫= f) = Ok b ↔ ∃ a, r = Ok a ∧ f a = Ok b.
Proof. destruct r; naive_solver. Qed.

Lemma bind_Done {A B} (r : outcome A) (f : A → outcome B) b :
  (r ≫= f) = Done b ↔ ∃ a, r = Done a ∧ f a = Done b.
Proof. destruct r; naive_solver. Qed.

Lemma bind_Panic {A B} (r : outcome A) (f : A → outcome B) :
  (r ≫= f) = Panic ↔ r = Panic ∨ ∃ a, r = Done a ∧ f a = Panic.
Proof. destruct r; naive_solver. Qed.

(** Case analysis on the matches of goal and hypotheses, closing the
    impossible branches. *)
Ltac cases_p2p :=
  repeat (simplify_eq/=; case_match; simplify_eq/=; try done).

(** ** Strings as UTF-8 bytes *)

Fixpoint bytes_of_string (s : string) : list u8 :=
  match s with
  | EmptyString => []
  | String a s' => Z.of_N (Ascii.N_of_ascii a) :: bytes_of_string s'
  end.

Fixpoint string_of_bytes (l : list u8) : string :=
  match l with
  | [] => EmptyString
  | b :: l' => String (Ascii.ascii_of_N (Z.to_N b)) (string_of_bytes l')
  end.

Lemma string_of_bytes_of_string (s : string) :
  string_of_bytes (bytes_of_string s) = s.
Proof.
  induction s as [|a s IH]; simpl; [done|].
  by rewrite N2Z.id, Ascii.ascii_N_embedding, IH.
Qed.

Lemma bytes_of_string_of_bytes (l : list u8) :
  Forall (fits 8) l → bytes_of_string (string_of_bytes l) = l.
Proof.
  induction 1 as [|b l [Hlo Hhi] Hl IH]; simpl; [done|]. change (2 ^ 8)%Z with 256%Z in Hhi.
  rewrite Ascii.N_ascii_embedding, Z2N.id, IH by lia. done.
Qed.

Lemma bytes_of_string_inj (s1 s2 : string) :
  bytes_of_string s1 = bytes_of_string s2 → s1 = s2.
Proof.
  intros Heq%(f_equal string_of_bytes). by rewrite !string_of_bytes_of_string in Heq.
Qed.

Lemma string_app_cons (a : Ascii.ascii) (s1 s2 : string) :
  String a s1 +:+ s2 = String a (s1 +:+ s2).
Proof. done. Qed.

Lemma string_app_nil (s : string) : EmptyString +:+ s = s.
Proof. done. Qed.

Lemma bytes_of_string_app (s1 s2 : string) :
  bytes_of_string (s1 +:+ s2) = bytes_of_string s1 ++ bytes_of_string s2.
Proof. induction s1 as [|a s1 IH]; [done|]. cbn. by rewrite <- IH. Qed.

Lemma bytes_of_string_fits (s : string) : Forall (fits 8) (bytes_of_string s).
Proof.
  induction s as [|a s IH]; simpl; constructor; [|done].
  pose proof (Ascii.N_ascii_bounded a). unfold fits. change (2 ^ 8)%Z with 256%Z. lia.
Qed.

#[export] Hint Rewrite string_app_cons string_app_nil string_of_bytes_of_string
  bytes_of_string_app : p2p_rw.
#[export] Hint Resolve bytes_of_string_fits : p2p.

Section little_endian.
Local Open Scope Z_scope.

(** ** Little-endian integers *)

Fixpoint le_bytes (k : nat) (z : Z) : list u8 :=
  match k with
  | O => []
  | S k' => z mod 256 :: le_bytes k' (z / 256)
  end.

Fixpoint le_value (l : list u8) : Z :=
  match l with [] => 0 | b :: l' => b + 256 * le_value l' end.

Lemma le_bytes_length k z : length (le_bytes k z) = k.
Proof. revert z. induction k; intros; simpl; auto. Qed.

Lemma le_value_bytes k z : 0 ≤ z < 256 ^ Z.of_nat k → le_value (le_bytes k z) = z.
Proof.
  revert z. induction k as [|k IH]; intros z Hz; simpl; [simpl in Hz; lia|].
  rewrite IH; [pose proof (Z.div_mod z 256); lia|].
  rewrite Nat2Z.inj_succ, Z.pow_succ_r in Hz by lia.
  split; [apply Z.div_pos; lia|]. apply Z.div_lt_upper_bound; lia.
Qed.
Lemma le_value_fits l : Forall (fits 8) l → fits (8 * Z.of_nat (length l)) (le_value l).
Proof.
  induction 1 as [|b l Hb Hl IH]; [by split|]. cbn [le_value length].
  rewrite Nat2Z.inj_succ, Z.mul_succ_r. unfold fits in *. change (2 ^ 8) with 256 in Hb.
  rewrite Z.pow_add_r by lia. change (2 ^ 8) with 256. lia.
Qed.

End little_endian.

(** ** [slice::chunks] *)

Fixpoint chunks_fuel {A} (fuel n : nat) (l : list A) : list (list A) :=
  match fuel with
  | O => []
  | S fuel' =>
      match l with
      | [] => []
      | _ => take n l :: chunks_fuel fuel' n (drop n l)
      end
  end.

(** A slice of length [k] has at most [k] chunks of non-zero size, so [k] is
    enough fuel. *)
Definition chunks {A} (n : nat) (l : list A) : list (list A) :=
  chunks_fuel (length l) n l.

Section chunks.
Context {A : Type} (n : nat) (Hn : 0 < n).
Implicit Types l : list A.

Lemma chunks_fuel_concat fuel l :
  length l ≤ fuel → concat (chunks_fuel fuel n l) = l.
Proof using Hn.
  revert l. induction fuel as [|fuel IH]; intros [|x l]; simpl; try done; [lia|].
  intros Hl. rewrite IH.
  - apply take_drop.
  - rewrite length_drop. simpl. lia.
Qed.

Lemma chunks_concat l : concat (chunks n l) = l.
Proof using Hn. by apply chunks_fuel_concat. Qed.

Lemma chunks_fuel_bounds fuel l :
  Forall (λ c, 0 < length c ≤ n) (chunks_fuel fuel n l).
Proof using Hn.
  revert l. induction fuel as [|fuel IH]; intros [|x l]; simpl; constructor; [|done].
  rewrite length_take. simpl. lia.
Qed.

Lemma chunks_bounds l : Forall (λ c, 0 < length c ≤ n) (chunks n l).
Proof using Hn. apply chunks_fuel_bounds. Qed.

Lemma chunks_fuel_length fuel l :
  length l ≤ fuel →
  Z.of_nat (length (chunks_fuel fuel n l)) =
    ((Z.of_nat (length l) + Z.of_nat n - 1) / Z.of_nat n)%Z.
Proof using Hn.
  revert l. induction fuel as [|fuel IH]; intros l Hl.
  - destruct l; simpl in *; [|lia]. symmetry. apply Z.div_small. lia.
  - destruct l as [|x l]; [symmetry; apply Z.div_small; simpl; lia|].
    change (Z.of_nat (S (length (chunks_fuel fuel n (drop n (x :: l))))) =
      (Z.of_nat (length (x :: l)) + Z.of_nat n - 1) / Z.of_nat n)%Z.
    rewrite Nat2Z.inj_succ, IH by (rewrite length_drop; simpl in *; lia).
    rewrite length_drop.
    destruct (decide (n ≤ length (x :: l))) as [Hle|Hgt].
    + rewrite Nat2Z.inj_sub by done.
      replace (Z.of_nat (length (x :: l)) + Z.of_nat n - 1)%Z
        with (Z.of_nat (length (x :: l)) - Z.of_nat n + Z.of_nat n - 1 + 1 * Z.of_nat n)%Z by lia.
      rewrite Z.div_add by lia. lia.
    + replace (length (x :: l) - n) with 0 by lia.
      rewrite (Z.div_small (Z.of_nat 0 + Z.of_nat n - 1)) by lia.
      rewrite <- (Z.div_unique_pos _ _ 1 (Z.of_nat (length (x :: l)) - 1)); simpl in *; lia.
Qed.

(** The [i]-th chunk is the slice [l[i*n .. min((i+1)*n, len)]]. *)
Lemma chunks_fuel_lookup fuel l i c :
  chunks_fuel fuel n l !! i = Some c → c = take n (drop (i * n) l).
Proof using Hn.
  revert l i. induction fuel as [|fuel IH]; intros [|x l] [|i] Hc; simplify_eq/=; try done.
  apply IH in Hc. rewrite Hc, drop_drop. f_equal.
Qed.

Lemma chunks_lookup l i c :
  chunks n l !! i = Some c → c = take n (drop (i * n) l).
Proof using Hn. apply chunks_fuel_lookup. Qed.

Lemma chunks_length l :
  Z.of_nat (length (chunks n l)) =
    ((Z.of_nat (length l) + Z.of_nat n - 1) / Z.of_nat n)%Z.
Proof using Hn. by apply chunks_fuel_length. Qed.
End chunks.

(** ** [slice::split] *)

Fixpoint split_on {A} (is_sep : A → bool) (l : list A) : list (list A) :=
  match l with
  | [] => [[]]
  | x :: l' =>
      if is_sep x then [] :: split_on is_sep l'
      else match split_on is_sep l' with
           | piece :: pieces => (x :: piece) :: pieces
           | [] => [[x]]
           end
  end.

Lemma split_on_none {A} (is_sep : A → bool) l :
  Forall (λ x, is_sep x = false) l → split_on is_sep l = [l].
Proof. induction 1 as [|x l Hx Hl IH]; [done|]. simpl. by rewrite Hx, IH. Qed.

Lemma split_on_elem {A} (is_sep : A → bool) (P : A → Prop) l :
  Forall P l → Forall (Forall P) (split_on is_sep l).
Proof.
  induction 1 as [|x l Hx Hl IH]; simpl; [by repeat constructor|].
  destruct (is_sep x); [by constructor|].
  destruct (split_on is_sep l) as [|p ps]; [by repeat constructor|].
  inversion IH; subst. constructor; [by constructor|done].
Qed.

(** The pieces account for all bytes but the separators. *)
Lemma split_on_length {A} (is_sep : A → bool) l :
  sum_list_with (λ p, S (length p)) (split_on is_sep l) = S (length l).
Proof.
  induction l as [|x l IH]; simpl; [done|]. destruct (is_sep x); simpl; [lia|].
  destruct (split_on is_sep l) as [|p ps]; simpl in *; lia.
Qed.

(** The pieces, each followed by its separator. *)
Lemma split_on_concat {A} (is_sep : A → bool) (sep : A) l :
  (∀ x, is_sep x = true → x = sep) →
  concat ((λ p, p ++ [sep]) <$> split_on is_sep l) = l ++ [sep].
Proof.
  intros Hsep. induction l as [|x l IH]; [done|]. cbn [split_on].
  destruct (is_sep x) eqn:Hx; [rewrite fmap_cons; cbn [concat app]; by rewrite IH, (Hsep x Hx)|].
  destruct (split_on is_sep l) as [|p ps]; rewrite ?fmap_cons, ?fmap_nil in *;
    cbn [concat app] in *; [by destruct l|by rewrite <- IH].
Qed.

(** A list cut in groups after a map is the map of a list cut in groups. *)
Lemma concat_fmap_inv {A B} (f : A → B) (gs : list (list B)) (l : list A) :
  concat gs = f <$> l →
  ∃ hs : list (list A), concat hs = l ∧ gs = (λ h : list A, f <$> h) <$> hs.
Proof.
  revert l. induction gs as [|g gs IH]; intros l Hl.
  - exists []. by destruct l.
  - simpl in Hl. symmetry in Hl. apply fmap_app_inv in Hl as (l1 & l2 & Hg & Hgs & ->).
    destruct (IH l2) as (hs & <- & ->); [done|]. exists (l1 :: hs). by rewrite Hg.
Qed.

Lemma filter_all {A} (P : A → Prop) `{∀ x, Decision (P x)} l : Forall P l → filter P l = l.
Proof. induction 1 as [|x l Hx Hl IH]; [done|]. by rewrite filter_cons_True, IH. Qed.
Lemma filter_nothing {A} (P : A → Prop) `{∀ x, Decision (P x)} (l : list A) :
  Forall (λ x, ¬ P x) l → filter P l = [].
Proof. induction 1 as [|x l Hx Hl IH]; [done|]. by rewrite filter_cons_False. Qed.

Lemma split_on_app_none {A} (is_sep : A → bool) l1 l2 :
  Forall (λ x, is_sep x = false) l1 →
  split_on is_sep (l1 ++ l2) =
    match split_on is_sep l2 with p :: ps => (l1 ++ p) :: ps | [] => [l1] end.
Proof.
  assert (split_on is_sep l2 ≠ []) as Hne
    by (destruct l2; simpl; [done|]; repeat case_match; done).
  induction 1 as [|x l1 Hx Hl IH]; simpl; [by destruct (split_on is_sep l2)|].
  rewrite Hx, IH. by destruct (split_on is_sep l2).
Qed.

Lemma split_on_app_sep {A} (is_sep : A → bool) sep l1 l2 :
  is_sep sep = true → Forall (λ x, is_sep x = false) l1 →
  split_on is_sep (l1 ++ sep :: l2) = l1 :: split_on is_sep l2.
Proof.
  intros Hsep Hl1. rewrite split_on_app_none by done. simpl. by rewrite Hsep, app_nil_r.
Qed.
