(* ===== verification/RustStr.v ===== *)
(** * The parts of Rust's [str] and integer formatting the program uses

    A Rust [String] or [&str] is a [string] holding its UTF-8 bytes.  Modelled
    here: UTF-8 validation and lossy decoding, prefix and substring tests,
    splitting, joining, decimal formatting and digit parsing. *)

From Stdlib Require Export Ascii.
From S2P Require Import Prelude.

Local Open Scope Z_scope.

#[global] Arguments Ascii.eqb : simpl never.

(** ** UTF-8

    [utf8_step] reads the first sequence of a byte list: the number of bytes it
    spans and whether it is well formed.  An ill-formed sequence spans the
    maximal prefix of a well-formed one, as in [core::str::lossy]. *)

Definition is_cont (b : u8) : bool := (128 <=? b) && (b <=? 191).
Definition between (lo hi b : u8) : bool := (lo <=? b) && (b <=? hi).

(** The admissible second byte of a three-byte and of a four-byte sequence. *)
Definition second3 (b0 b1 : u8) : bool :=
  if b0 =? 224 then between 160 191 b1
  else if b0 =? 237 then between 128 159 b1
  else is_cont b1.
Definition second4 (b0 b1 : u8) : bool :=
  if b0 =? 240 then between 144 191 b1
  else if b0 =? 244 then between 128 143 b1
  else is_cont b1.

Definition utf8_step (b0 : u8) (rest : list u8) : nat * bool :=
  let get i := default 0 (rest !! i) in
  if b0 <? 128 then (1%nat, true)
  else if between 194 223 b0 then
    if is_cont (get 0%nat) then (2%nat, true) else (1%nat, false)
  else if between 224 239 b0 then
    if second3 b0 (get 0%nat) then
      if is_cont (get 1%nat) then (3%nat, true) else (2%nat, false)
    else (1%nat, false)
  else if between 240 244 b0 then
    if second4 b0 (get 0%nat) then
      if is_cont (get 1%nat) then
        if is_cont (get 2%nat) then (4%nat, true) else (3%nat, false)
      else (2%nat, false)
    else (1%nat, false)
  else (1%nat, false).

(** [U+FFFD] in UTF-8. *)
Definition REPLACEMENT : list u8 := [239; 191; 189].

Fixpoint lossy_fuel (fuel : nat) (l : list u8) : list u8 :=
  match fuel, l with
  | S fuel', b :: l' =>
      let '(n, ok) := utf8_step b l' in
      (if ok then take n l else REPLACEMENT) ++ lossy_fuel fuel' (drop n l)
  | _, _ => []
  end.

(** [String::from_utf8_lossy]. Every step consumes a byte, so the length of the
    input is enough fuel. *)
Definition from_utf8_lossy (l : list u8) : string :=
  string_of_bytes (lossy_fuel (length l) l).

Fixpoint utf8_valid_fuel (fuel : nat) (l : list u8) : bool :=
  match fuel, l with
  | _, [] => true
  | O, _ => false
  | S fuel', b :: l' =>
      let '(n, ok) := utf8_step b l' in ok && utf8_valid_fuel fuel' (drop n l)
  end.

(** [str::from_utf8(l).is_ok()]. *)
Definition utf8_valid (l : list u8) : bool := utf8_valid_fuel (length l) l.

Lemma utf8_step_pos b l : (1 ≤ (utf8_step b l).1)%nat.
Proof. unfold utf8_step. repeat case_match; simpl; lia. Qed.

Lemma lossy_fuel_valid fuel l :
  utf8_valid_fuel fuel l = true → lossy_fuel fuel l = l.
Proof.
  revert l. induction fuel as [|fuel IH]; intros [|b l]; try done.
  cbn -[utf8_step take drop]. pose proof (utf8_step_pos b l) as Hpos.
  destruct (utf8_step b l) as [n ok]; simpl in Hpos.
  intros [-> Hv]%andb_true_iff. rewrite IH by done. apply take_drop.
Qed.

(** Decoding valid UTF-8 loses nothing. *)
Lemma from_utf8_lossy_valid (s : string) :
  utf8_valid (bytes_of_string s) = true → from_utf8_lossy (bytes_of_string s) = s.
Proof.
  intros Hv. unfold from_utf8_lossy. rewrite lossy_fuel_valid by done.
  apply string_of_bytes_of_string.
Qed.

(** [to_string_lossy] of a path; a path is its bytes. *)
Definition to_string_lossy (p : string) : string := from_utf8_lossy (bytes_of_string p).

Definition NL : string := String "010" EmptyString.

(** ** Prefixes and substrings *)

(** [str::strip_prefix] and [str::starts_with]. *)
Fixpoint strip_prefix (p s : string) : option string :=
  match p, s with
  | EmptyString, _ => Some s
  | String a p', String b s' => if Ascii.eqb a b then strip_prefix p' s' else None
  | String _ _, EmptyString => None
  end.
Definition starts_with (p s : string) : bool := bool_decide (is_Some (strip_prefix p s)).

(** [str::contains]. *)
Fixpoint contains (p s : string) : bool :=
  starts_with p s ||
  match s with EmptyString => false | String _ s' => contains p s' end.

Lemma strip_prefix_app p s : strip_prefix p (p +:+ s) = Some s.
Proof. induction p as [|a p IH]; [done|].
  rewrite string_app_cons. cbn. by rewrite Ascii.eqb_refl.
Qed.

Lemma strip_prefix_Some p s r : strip_prefix p s = Some r → s = p +:+ r.
Proof.
  revert s. induction p as [|a p IH]; intros [|b s]; cbn; intros Hs; simplify_eq; try done.
  destruct (Ascii.eqb_spec a b) as [->|]; [|done]. rewrite string_app_cons. f_equal. by apply IH.
Qed.

#[export] Hint Rewrite strip_prefix_app : p2p_rw.

(** [str::split(c)] for an ASCII separator: always at least one piece. *)
Fixpoint split_char (c : Ascii.ascii) (s : string) : list string :=
  match s with
  | EmptyString => [EmptyString]
  | String a s' =>
      if Ascii.eqb a c then EmptyString :: split_char c s'
      else match split_char c s' with
           | piece :: pieces => String a piece :: pieces
           | [] => [String a EmptyString]
           end
  end.

(** [[T]::join] with a string separator. *)
Fixpoint join (sep : string) (l : list string) : string :=
  match l with
  | [] => EmptyString
  | [s] => s
  | s :: l' => s +:+ sep +:+ join sep l'
  end.

Fixpoint mem_char (c : Ascii.ascii) (s : string) : bool :=
  match s with
  | EmptyString => false
  | String a s' => Ascii.eqb a c || mem_char c s'
  end.

Lemma split_char_not_nil c s : split_char c s ≠ [].
Proof. destruct s; cbn; [done|]. repeat case_match; done. Qed.

Lemma split_char_app_sep c s1 s2 :
  mem_char c s1 = false →
  split_char c (s1 +:+ String c s2) = s1 :: split_char c s2.
Proof.
  induction s1 as [|a s1 IH]; autorewrite with p2p_rw; cbn.
  - by rewrite Ascii.eqb_refl.
  - intros [Hac Hmem]%orb_false_iff. rewrite Hac, IH by done. done.
Qed.

Lemma split_char_no_sep c s : mem_char c s = false → split_char c s = [s].
Proof.
  induction s as [|a s IH]; cbn; [done|].
  intros [-> Hmem]%orb_false_iff. by rewrite IH.
Qed.

Lemma split_char_join c l :
  l ≠ [] → Forall (λ s, mem_char c s = false) l →
  split_char c (join (String c EmptyString) l) = l.
Proof.
  intros Hl Hall. induction Hall as [|s [|s' l] Hs Hall IH]; [done| |].
  - by apply split_char_no_sep.
  - change (join _ (s :: s' :: l))
      with (s +:+ String c EmptyString +:+ join (String c EmptyString) (s' :: l)).
    autorewrite with p2p_rw. rewrite split_char_app_sep, IH by done. done.
Qed.

(** ** Decimal numbers *)

Definition digit_char (d : Z) : Ascii.ascii := Ascii.ascii_of_N (Z.to_N (48 + d)).

(** [char::to_digit(10)]. *)
Definition to_digit (a : Ascii.ascii) : option Z :=
  let v := Z.of_N (Ascii.N_of_ascii a) in
  if (48 <=? v) && (v <=? 57) then Some (v - 48) else None.

Fixpoint dec_digits (fuel : nat) (n : Z) (acc : string) : string :=
  match fuel with
  | O => acc
  | S fuel' =>
      let acc' := String (digit_char (n mod 10)) acc in
      if n <? 10 then acc' else dec_digits fuel' (n / 10) acc'
  end.

(** [Display] of an unsigned integer of at most 64 bits (20 digits). *)
Definition display_u (n : Z) : string := dec_digits 20 n EmptyString.

Lemma to_digit_char d : 0 ≤ d < 10 → to_digit (digit_char d) = Some d.
Proof.
  intros Hd. unfold to_digit, digit_char. rewrite Ascii.N_ascii_embedding by lia.
  rewrite Z2N.id by lia. repeat case_match; f_equal; lia.
Qed.

#[export] Hint Resolve to_digit_char : p2p.

(** The text and the value of a list of decimal digits, most significant first. *)
Fixpoint digits_string (ds : list Z) : string :=
  match ds with [] => EmptyString | d :: ds' => String (digit_char d) (digits_string ds') end.
Definition push_digit (r d : Z) : Z := r * 10 + d.
Definition digits_value (ds : list Z) : Z := foldl push_digit 0 ds.
Definition is_digit (d : Z) : Prop := 0 ≤ d < 10.

Lemma digits_string_app ds1 ds2 :
  digits_string (ds1 ++ ds2) = digits_string ds1 +:+ digits_string ds2.
Proof. induction ds1 as [|d ds1 IH]; simpl; [done|]. by rewrite IH. Qed.

Lemma string_app_assoc (s1 s2 s3 : string) : (s1 +:+ s2) +:+ s3 = s1 +:+ s2 +:+ s3.
Proof. induction s1 as [|a s1 IH]; [done|]. rewrite !string_app_cons. by rewrite IH. Qed.

(** [digits ds n]: [ds] is the canonical decimal writing of [n]. *)
Record digits (ds : list Z) (n : Z) : Prop := {
  digits_range : Forall is_digit ds;
  digits_eq : digits_value ds = n;
  digits_pos : (0 < length ds)%nat;
  digits_length k : (0 < k)%nat → n < 10 ^ Z.of_nat k → (length ds ≤ k)%nat;
  digits_head : head ds = Some 0 → n = 0;
}.

Lemma digits_snoc ds n d :
  digits ds n → 0 < n → is_digit d → digits (ds ++ [d]) (n * 10 + d).
Proof.
  intros [Hr He Hp Hl Hh] Hn Hd. split.
  - apply Forall_app. split; [done|]. by apply Forall_singleton.
  - unfold digits_value in *. by rewrite foldl_snoc, He.
  - rewrite length_app. simpl. lia.
  - intros [|[|k]] Hk Hlt; [lia| |].
    + unfold is_digit in Hd. change (10 ^ Z.of_nat 1) with 10 in Hlt. lia.
    + rewrite length_app. simpl length. specialize (Hl (S k)). enough (length ds ≤ S k)%nat by lia.
      apply Hl; [lia|]. rewrite (Nat2Z.inj_succ (S k)), Z.pow_succ_r in Hlt by lia.
      unfold is_digit in Hd. lia.
  - destruct ds as [|d' ds]; [simpl in Hp; lia|]. simpl in *. intros Hz. specialize (Hh Hz). lia.
Qed.

Lemma dec_digits_spec fuel n acc :
  0 ≤ n < 10 ^ Z.of_nat (S fuel) →
  ∃ ds, dec_digits (S fuel) n acc = digits_string ds +:+ acc ∧ digits ds n.
Proof.
  revert n acc. induction fuel as [|fuel IH]; intros n acc Hn; cbn [dec_digits].
  all: destruct (Z.ltb_spec n 10) as [Hlt|Hge].
  1,3: exists [n]; rewrite Z.mod_small by lia; split; [done|]; split; try done;
    [apply Forall_singleton; unfold is_digit; lia|simpl; lia|by simpl; intros [= ->]].
  - change (10 ^ Z.of_nat 1) with 10 in Hn. lia.
  - destruct (IH (n / 10) (String (digit_char (n mod 10)) acc)) as (ds & Hds & Hdig).
    { split; [apply Z.div_pos; lia|]. apply Z.div_lt_upper_bound; [lia|].
      rewrite (Nat2Z.inj_succ (S fuel)), Z.pow_succ_r in Hn by lia. lia. }
    exists (ds ++ [n mod 10]). cbn [dec_digits] in Hds. rewrite Hds. split.
    + rewrite digits_string_app, string_app_assoc. done.
    + pose proof (Z.div_mod n 10 ltac:(lia)). pose proof (Z.mod_pos_bound n 10 ltac:(lia)).
      replace n with (n / 10 * 10 + n mod 10) at 2 by lia.
      apply digits_snoc; [done| |done]. apply Z.div_str_pos. lia.
Qed.

(** The digits of a 64-bit integer. *)
Lemma display_u_digits n : fits 64 n → ∃ ds, display_u n = digits_string ds ∧ digits ds n.
Proof.
  intros Hn. destruct (dec_digits_spec 19 n EmptyString) as (ds & Hds & Hdig).
  { unfold fits in Hn. change (2 ^ 64) with 18446744073709551616 in Hn.
    change (10 ^ Z.of_nat 20) with 100000000000000000000. lia. }
  exists ds. split; [|done]. unfold display_u. rewrite Hds.
  clear. induction (digits_string ds) as [|a s IH]; [done|]. by rewrite string_app_cons, IH.
Qed.

(** [s] does not start with a decimal digit. *)
Definition no_digit (s : string) : Prop :=
  match s with EmptyString => True | String a _ => to_digit a = None end.

Lemma mem_char_app c s1 s2 : mem_char c (s1 +:+ s2) = mem_char c s1 || mem_char c s2.
Proof.
  induction s1 as [|a s1 IH]; [done|]. rewrite string_app_cons. simpl. rewrite IH.
  by rewrite orb_assoc.
Qed.

Lemma mem_char_digits c ds :
  to_digit c = None → Forall is_digit ds → mem_char c (digits_string ds) = false.
Proof.
  intros Hc. induction 1 as [|d ds Hd Hds IH]; [done|]. simpl.
  rewrite IH, orb_false_r. destruct (Ascii.eqb_spec (digit_char d) c) as [<-|]; [|done].
  by rewrite (to_digit_char d Hd) in Hc.
Qed.

(** Different numbers have different texts. *)
Lemma digits_string_inj ds1 ds2 :
  Forall is_digit ds1 → Forall is_digit ds2 → digits_string ds1 = digits_string ds2 → ds1 = ds2.
Proof.
  intros Hd1. revert ds2. induction Hd1 as [|d ds1 Hd Hds IH]; intros [|d' ds2] Hd2; try done.
  apply Forall_cons in Hd2 as [Hd' Hd2]. cbn [digits_string]. intros [= Hc Hs].
  apply (f_equal to_digit) in Hc. rewrite !to_digit_char in Hc by done.
  injection Hc as ->. f_equal. by apply IH.
Qed.

Lemma display_u_inj n1 n2 : fits 64 n1 → fits 64 n2 → display_u n1 = display_u n2 → n1 = n2.
Proof.
  intros (ds1 & -> & [Hr1 <- _ _ _])%display_u_digits (ds2 & -> & [Hr2 <- _ _ _])%display_u_digits Heq.
  by rewrite (digits_string_inj ds1 ds2).
Qed.
