(* ===== verification/Utf16.v ===== *)
(** * Characters, UTF-8 and UTF-16 ([char] and [str] of the standard library)

    [str::chars], [char::encode_utf8], [str::encode_utf16] and
    [String::from_utf16_lossy].  A [char] is its scalar value, a [String] its
    UTF-8 bytes, a UTF-16 text a list of 16-bit units. *)

From S2P Require Import Prelude RustStr.

Local Open Scope Z_scope.

Abbreviation char := Z (only parsing).

Definition REPLACEMENT_CHARACTER : char := 65533.

(** A scalar value: a code point that is not a surrogate. *)
Definition is_scalar (c : char) : Prop := 0 ≤ c < 55296 ∨ 57344 ≤ c < 1114112.

(** ** UTF-8 *)

(** The character that a well-formed sequence encodes. *)
Definition char_of_utf8 (l : list u8) : char :=
  match l with
  | [b0] => b0
  | [b0; b1] => (b0 - 192) * 64 + (b1 - 128)
  | [b0; b1; b2] => (b0 - 224) * 4096 + (b1 - 128) * 64 + (b2 - 128)
  | [b0; b1; b2; b3] =>
      (b0 - 240) * 262144 + (b1 - 128) * 4096 + (b2 - 128) * 64 + (b3 - 128)
  | _ => REPLACEMENT_CHARACTER
  end.

Fixpoint chars_fuel (fuel : nat) (l : list u8) : list char :=
  match fuel, l with
  | S fuel', b :: l' =>
      let n := (utf8_step b l').1 in char_of_utf8 (take n l) :: chars_fuel fuel' (drop n l)
  | _, _ => []
  end.

(** [str::chars]. Every character spans a byte at least, so the number of bytes is
    enough fuel. *)
Definition chars (s : string) : list char :=
  chars_fuel (length (bytes_of_string s)) (bytes_of_string s).

Definition encode_utf8 (c : char) : list u8 :=
  if c <? 128 then [c]
  else if c <? 2048 then [192 + c / 64; 128 + c mod 64]
  else if c <? 65536 then [224 + c / 4096; 128 + c / 64 mod 64; 128 + c mod 64]
  else [240 + c / 262144; 128 + c / 4096 mod 64; 128 + c / 64 mod 64; 128 + c mod 64].

(** [String] from characters. *)
Definition collect_string (cs : list char) : string :=
  string_of_bytes (concat (encode_utf8 <$> cs)).

(** ** UTF-16 *)

Definition encode_utf16_char (c : char) : list u16 :=
  if c <? 65536 then [c]
  else [55296 + (c - 65536) / 1024; 56320 + (c - 65536) mod 1024].
Definition encode_utf16 (s : string) : list u16 := concat (encode_utf16_char <$> chars s).

(** [char::decode_utf16] with each error replaced by [U+FFFD]: a leading surrogate
    takes the trailing one after it; any other surrogate is an error. *)
Fixpoint decode_utf16 (l : list u16) : list char :=
  match l with
  | [] => []
  | u :: l' =>
      if negb (between 55296 57343 u) then u :: decode_utf16 l'
      else if 56320 <=? u then REPLACEMENT_CHARACTER :: decode_utf16 l'
      else
        match l' with
        | u2 :: l'' =>
            if between 56320 57343 u2
            then (u - 55296) * 1024 + (u2 - 56320) + 65536 :: decode_utf16 l''
            else REPLACEMENT_CHARACTER :: decode_utf16 l'
        | [] => [REPLACEMENT_CHARACTER]
        end
  end.
Definition from_utf16_lossy (l : list u16) : string := collect_string (decode_utf16 l).

(** ** Round trips *)

Lemma between_spec lo hi b : between lo hi b = true ↔ lo ≤ b ≤ hi.
Proof. unfold between. rewrite andb_true_iff, !Z.leb_le. done. Qed.

Lemma decode_encode_utf16 cs :
  Forall is_scalar cs → decode_utf16 (concat (encode_utf16_char <$> cs)) = cs.
Proof.
  induction 1 as [|c cs Hc Hcs IH]; [done|]. rewrite fmap_cons. cbn [concat].
  unfold encode_utf16_char at 1. unfold is_scalar in Hc.
  destruct (Z.ltb_spec c 65536) as [Hlt|Hge]; cbn [app decode_utf16].
  - assert (between 55296 57343 c = false) as ->
      by (apply not_true_iff_false; rewrite between_spec; lia).
    cbn [negb]. by rewrite IH.
  - pose proof (Z.div_mod (c - 65536) 1024 ltac:(lia)).
    pose proof (Z.mod_pos_bound (c - 65536) 1024 ltac:(lia)).
    rewrite (proj2 (between_spec _ _ (55296 + _))) by lia. cbn [negb].
    rewrite (proj2 (Z.leb_gt _ _)) by lia. rewrite (proj2 (between_spec _ _ (56320 + _))) by lia.
    rewrite IH. f_equal. lia.
Qed.

(** Reading a continuation byte found one. *)
Lemma is_cont_lookup (l : list u8) (i : nat) :
  is_cont (default 0 (l !! i)) = true → ∃ b, l !! i = Some b ∧ 128 ≤ b ≤ 191.
Proof.
  intros Hc%(between_spec 128 191). destruct (l !! i) as [b|]; simpl in Hc; [by exists b|lia].
Qed.

Ltac div_mod_lia := Z.div_mod_to_equations; lia.

Lemma char2 b0 b1 :
  194 ≤ b0 ≤ 223 → 128 ≤ b1 ≤ 191 →
  let c := char_of_utf8 [b0; b1] in is_scalar c ∧ encode_utf8 c = [b0; b1].
Proof.
  intros H0 H1. cbn [char_of_utf8]. unfold is_scalar, encode_utf8.
  set (c := (b0 - 192) * 64 + (b1 - 128)). split; [lia|].
  rewrite (proj2 (Z.ltb_ge _ _)) by lia. rewrite (proj2 (Z.ltb_lt _ _)) by lia.
  repeat f_equal; div_mod_lia.
Qed.

Lemma char3 b0 b1 b2 :
  224 ≤ b0 ≤ 239 → 128 ≤ b1 ≤ 191 → (b0 = 224 → 160 ≤ b1) → (b0 = 237 → b1 ≤ 159) →
  128 ≤ b2 ≤ 191 →
  let c := char_of_utf8 [b0; b1; b2] in is_scalar c ∧ encode_utf8 c = [b0; b1; b2].
Proof.
  intros H0 H1 Hlo Hhi H2. cbn [char_of_utf8]. unfold is_scalar, encode_utf8.
  set (c := (b0 - 224) * 4096 + (b1 - 128) * 64 + (b2 - 128)). split; [lia|].
  rewrite (proj2 (Z.ltb_ge c 128)) by lia. rewrite (proj2 (Z.ltb_ge c 2048)) by lia.
  rewrite (proj2 (Z.ltb_lt c 65536)) by lia. repeat f_equal; div_mod_lia.
Qed.

Lemma char4 b0 b1 b2 b3 :
  240 ≤ b0 ≤ 244 → 128 ≤ b1 ≤ 191 → (b0 = 240 → 144 ≤ b1) → (b0 = 244 → b1 ≤ 143) →
  128 ≤ b2 ≤ 191 → 128 ≤ b3 ≤ 191 →
  let c := char_of_utf8 [b0; b1; b2; b3] in is_scalar c ∧ encode_utf8 c = [b0; b1; b2; b3].
Proof.
  intros H0 H1 Hlo Hhi H2 H3. cbn [char_of_utf8]. unfold is_scalar, encode_utf8.
  set (c := (b0 - 240) * 262144 + (b1 - 128) * 4096 + (b2 - 128) * 64 + (b3 - 128)).
  split; [lia|]. rewrite (proj2 (Z.ltb_ge c 128)) by lia. rewrite (proj2 (Z.ltb_ge c 2048)) by lia.
  rewrite (proj2 (Z.ltb_ge c 65536)) by lia. repeat f_equal; div_mod_lia.
Qed.

Lemma second3_spec b0 b1 :
  second3 b0 b1 = true → 128 ≤ b1 ≤ 191 ∧ (b0 = 224 → 160 ≤ b1) ∧ (b0 = 237 → b1 ≤ 159).
Proof.
  unfold second3. destruct (Z.eqb_spec b0 224); [intros ?%between_spec; lia|].
  destruct (Z.eqb_spec b0 237); [intros ?%between_spec; lia|].
  intros ?%(between_spec 128 191). lia.
Qed.
Lemma second4_spec b0 b1 :
  second4 b0 b1 = true → 128 ≤ b1 ≤ 191 ∧ (b0 = 240 → 144 ≤ b1) ∧ (b0 = 244 → b1 ≤ 143).
Proof.
  unfold second4. destruct (Z.eqb_spec b0 240); [intros ?%between_spec; lia|].
  destruct (Z.eqb_spec b0 244); [intros ?%between_spec; lia|].
  intros ?%(between_spec 128 191). lia.
Qed.

(** The first sequence of a valid text is the encoding of its character. *)
Lemma utf8_step_char b l n :
  0 ≤ b → utf8_step b l = (n, true) →
  let c := char_of_utf8 (take n (b :: l)) in is_scalar c ∧ encode_utf8 c = take n (b :: l).
Proof.
  intros Hb. unfold utf8_step. destruct (Z.ltb_spec b 128) as [Hlt|].
  { intros [= <-]. replace (take 1 (b :: l)) with [b] by by rewrite firstn_cons, take_0.
    cbn [char_of_utf8]. unfold is_scalar, encode_utf8.
    rewrite (proj2 (Z.ltb_lt _ _) Hlt). split; [lia|done]. }
  destruct (between 194 223 b) eqn:H2.
  { destruct (is_cont _) eqn:Hc; [|done]. intros [= <-]. apply between_spec in H2.
    apply is_cont_lookup in Hc as (b1 & Hl & Hb1). destruct l as [|b1' l]; simplify_eq/=.
    by apply char2. }
  destruct (between 224 239 b) eqn:H3.
  { destruct (second3 _ _) eqn:Hs; [|done]. destruct (is_cont _) eqn:Hc; [|done].
    intros [= <-]. apply between_spec in H3. apply is_cont_lookup in Hc as (b2 & Hl & Hb2).
    destruct l as [|b1 [|b2' l]]; simplify_eq/=. apply second3_spec in Hs as (? & ? & ?).
    by apply char3. }
  destruct (between 240 244 b) eqn:H4; [|done].
  destruct (second4 _ _) eqn:Hs; [|done]. destruct (is_cont _) eqn:Hc2; [|done].
  destruct (is_cont (default 0 (l !! 2%nat))) eqn:Hc3; [|done]. intros [= <-].
  apply between_spec in H4. apply is_cont_lookup in Hc2 as (b2 & Hl2 & Hb2).
  apply is_cont_lookup in Hc3 as (b3 & Hl3 & Hb3).
  destruct l as [|b1 [|b2' [|b3' l]]]; simplify_eq/=. apply second4_spec in Hs as (? & ? & ?).
  by apply char4.
Qed.

Lemma chars_fuel_valid fuel l :
  Forall (fits 8) l → utf8_valid_fuel fuel l = true →
  Forall is_scalar (chars_fuel fuel l) ∧ concat (encode_utf8 <$> chars_fuel fuel l) = l.
Proof.
  revert l. induction fuel as [|fuel IH]; intros [|b l] Hbytes; try done.
  cbn [utf8_valid_fuel chars_fuel]. destruct (utf8_step b l) as [n ok] eqn:Hstep.
  intros [-> Hv]%andb_true_iff. cbn [fst].
  assert (0 ≤ b) as Hb by by apply Forall_cons in Hbytes as [[? _] _].
  destruct (utf8_step_char b l n Hb Hstep) as [Hc He].
  destruct (IH (drop n (b :: l))) as [Hcs Hes]; [by apply Forall_drop|done|].
  split; [by constructor|]. rewrite fmap_cons. cbn [concat]. rewrite He, Hes. apply take_drop.
Qed.

Definition valid_str (s : string) : Prop := utf8_valid (bytes_of_string s) = true.

(** A Rust string is the string of its characters. *)
Lemma chars_valid s : valid_str s → Forall is_scalar (chars s) ∧ collect_string (chars s) = s.
Proof.
  intros Hv. unfold chars, collect_string.
  destruct (chars_fuel_valid _ _ (bytes_of_string_fits s) Hv) as [Hcs ->].
  split; [done|]. apply string_of_bytes_of_string.
Qed.

(** UTF-16 loses nothing of a Rust string. *)
Lemma from_utf16_encode s : valid_str s → from_utf16_lossy (encode_utf16 s) = s.
Proof.
  intros Hv. destruct (chars_valid s Hv) as [Hcs Hs]. unfold from_utf16_lossy, encode_utf16.
  by rewrite decode_encode_utf16.
Qed.

(** The units of characters that are not null are 16-bit numbers and not null. *)
Lemma encode_utf16_units s :
  valid_str s → 0 ∉ chars s → Forall (λ u, 0 < u < 65536) (encode_utf16 s).
Proof.
  intros Hv Hnul. destruct (chars_valid s Hv) as [Hcs _]. unfold encode_utf16.
  apply Forall_concat, Forall_fmap. apply Forall_forall. intros c Hc.
  rewrite Forall_forall in Hcs. specialize (Hcs c Hc). unfold is_scalar in Hcs.
  assert (c ≠ 0) by (by intros ->). cbn [compose]. unfold encode_utf16_char.
  destruct (Z.ltb_spec c 65536); repeat constructor; try lia; div_mod_lia.
Qed.

Lemma encode_utf16_not_nil s : valid_str s → s ≠ ""%string → encode_utf16 s ≠ [].
Proof.
  intros Hv Hs Hnil. apply Hs. rewrite <- (from_utf16_encode s Hv), Hnil. done.
Qed.
