(* ===== verification/SipHash.v ===== *)
(** * [std::collections::hash_map::DefaultHasher]

    The hasher of the standard library that the program uses for images, file lists
    and message ids: SipHash-1-3 under the key zero, over the bytes written to it. *)

From S2P Require Import Prelude RustStr.

Local Open Scope Z_scope.

Definition wrapping_add (a b : u64) : u64 := as_u64 (a + b).
Definition rotate_left (x : u64) (n : Z) : u64 :=
  Z.lor (as_u64 (Z.shiftl x n)) (Z.shiftr x (64 - n)).

Record SipState := mk_SipState { v0 : u64; v1 : u64; v2 : u64; v3 : u64 }.

(** The state under the key zero. *)
Definition sip_init : SipState :=
  mk_SipState 8317987319222330741 7237128888997146477 7816392313619706465 8387220255154660723.

Definition sip_round (s : SipState) : SipState :=
  let '(mk_SipState v0 v1 v2 v3) := s in
  let v0 := wrapping_add v0 v1 in let v2 := wrapping_add v2 v3 in
  let v1 := Z.lxor (rotate_left v1 13) v0 in let v3 := Z.lxor (rotate_left v3 16) v2 in
  let v0 := rotate_left v0 32 in
  let v2 := wrapping_add v2 v1 in let v0 := wrapping_add v0 v3 in
  let v1 := Z.lxor (rotate_left v1 17) v2 in let v3 := Z.lxor (rotate_left v3 21) v0 in
  let v2 := rotate_left v2 32 in
  mk_SipState v0 v1 v2 v3.

(** One word of eight bytes. *)
Definition sip_word (s : SipState) (m : u64) : SipState :=
  let s := sip_round (mk_SipState (v0 s) (v1 s) (v2 s) (Z.lxor (v3 s) m)) in
  mk_SipState (Z.lxor (v0 s) m) (v1 s) (v2 s) (v3 s).

(** The last word: the bytes left, and the length in the highest byte. *)
Definition last_word (written : list u8) : u64 :=
  let n := Z.of_nat (length written) in
  let tail := drop (8 * (length written / 8)) written in
  Z.lor (le_value tail) (Z.shiftl (n mod 256) 56).

Definition sip_finalize (s : SipState) : u64 :=
  let s := mk_SipState (v0 s) (v1 s) (Z.lxor (v2 s) 255) (v3 s) in
  let s := sip_round (sip_round (sip_round s)) in
  Z.lxor (Z.lxor (v0 s) (v1 s)) (Z.lxor (v2 s) (v3 s)).

Definition sip_finish (written : list u8) : u64 :=
  let words := le_value <$> chunks 8 (take (8 * (length written / 8)) written) in
  sip_finalize (sip_word (foldl sip_word sip_init words) (last_word written)).

(** [Hash] of a byte slice writes its length, then the bytes. *)
Definition hash_slice (data : list u8) : list u8 := le_bytes 8 (Z.of_nat (length data)) ++ data.

(** [DefaultHasher::new().finish()]. *)
Example empty_hash : sip_finish [] = 15130871412783076140.
Proof. by vm_compute. Qed.

(** ** The hash is a [u64] *)

Definition bits64 (z : Z) : Prop := fits 64 z.

Lemma bits64_testbit z : bits64 z ↔ 0 ≤ z ∧ ∀ i, 64 ≤ i → Z.testbit z i = false.
Proof.
  unfold bits64, fits. split.
  - intros [H0 Hlt]. split; [done|]. intros i Hi. destruct (decide (z = 0)) as [->|];
      [apply Z.testbit_0_l|]. apply Z.bits_above_log2; [lia|].
    apply Z.log2_lt_pow2 in Hlt; lia.
  - intros [H0 Hb]. split; [done|]. destruct (decide (z = 0)) as [->|]; [done|].
    apply Z.log2_lt_pow2; [lia|]. destruct (Z.lt_ge_cases (Z.log2 z) 64) as [|Hge]; [done|].
    specialize (Hb _ Hge). by rewrite Z.bit_log2 in Hb by lia.
Qed.

Lemma bits64_lxor a b : bits64 a → bits64 b → bits64 (Z.lxor a b).
Proof.
  rewrite !bits64_testbit. intros [Ha Hai] [Hb Hbi]. split; [by apply Z.lxor_nonneg|].
  intros i Hi. by rewrite Z.lxor_spec, Hai, Hbi.
Qed.

Lemma bits64_lor a b : bits64 a → bits64 b → bits64 (Z.lor a b).
Proof.
  rewrite !bits64_testbit. intros [Ha Hai] [Hb Hbi]. split; [by apply Z.lor_nonneg|].
  intros i Hi. by rewrite Z.lor_spec, Hai, Hbi.
Qed.

Lemma bits64_rotate x n : 0 ≤ n ≤ 64 → bits64 x → bits64 (rotate_left x n).
Proof.
  intros Hn Hx. apply bits64_lor; [by apply wrap_fits|].
  rewrite bits64_testbit in *. destruct Hx as [Hx Hb]. split; [by apply Z.shiftr_nonneg|].
  intros i Hi. rewrite Z.shiftr_spec by lia. apply Hb. lia.
Qed.

Definition sip_ok (s : SipState) : Prop :=
  bits64 (v0 s) ∧ bits64 (v1 s) ∧ bits64 (v2 s) ∧ bits64 (v3 s).

Lemma sip_round_ok s : sip_ok s → sip_ok (sip_round s).
Proof.
  destruct s as [a b c d]. unfold sip_ok, sip_round. cbn [v0 v1 v2 v3].
  intros (Ha & Hb & Hc & Hd).
  refine (conj _ (conj _ (conj _ _))); repeat first [apply bits64_lxor | apply bits64_rotate | apply wrap_fits];
    done || lia.
Qed.

Lemma sip_word_ok s m : sip_ok s → bits64 m → sip_ok (sip_word s m).
Proof.
  intros (Ha & Hb & Hc & Hd) Hm. unfold sip_word. set (s' := sip_round _).
  assert (sip_ok s') as (Ha' & Hb' & Hc' & Hd')
    by (apply sip_round_ok; refine (conj _ (conj _ (conj _ _))); try done; by apply bits64_lxor).
  refine (conj _ (conj _ (conj _ _))); try done. by apply bits64_lxor.
Qed.

Lemma le_value_bits64 l : Forall (fits 8) l → (length l ≤ 8)%nat → bits64 (le_value l).
Proof.
  intros Hl Hlen. destruct (le_value_fits l Hl) as [H0 Hlt]. split; [done|].
  eapply Z.lt_le_trans; [exact Hlt|]. apply Z.pow_le_mono_r; lia.
Qed.

Lemma sip_finalize_fits s : sip_ok s → bits64 (sip_finalize s).
Proof.
  intros (Ha & Hb & Hc & Hd). unfold sip_finalize. set (s1 := mk_SipState _ _ _ _).
  assert (sip_ok s1) as Hs
    by exact (conj Ha (conj Hb (conj (bits64_lxor _ 255 Hc ltac:(by split)) Hd))).
  clearbody s1. do 3 apply sip_round_ok in Hs. destruct Hs as (? & ? & ? & ?).
  apply bits64_lxor; apply bits64_lxor; assumption.
Qed.

(** The hash of any bytes fits its type. *)
Lemma sip_finish_fits written : Forall (fits 8) written → fits 64 (sip_finish written).
Proof.
  intros Hw. unfold sip_finish. set (n := (length written / 8)%nat).
  assert (sip_ok sip_init) as Hinit by (refine (conj _ (conj _ (conj _ _))); by split).
  assert (∀ s, sip_ok s → sip_ok (foldl sip_word s (le_value <$> chunks 8 (take (8 * n) written)))) as Hwords.
  { assert (Forall (λ c, Forall (fits 8) c ∧ (length c ≤ 8)%nat) (chunks 8 (take (8 * n) written))) as Hc.
    { apply Forall_and. split.
      - apply Forall_concat. rewrite chunks_concat by lia. by apply Forall_take.
      - eapply Forall_impl; [apply chunks_bounds; lia|]. simpl. lia. }
    induction Hc as [|c cs [Hc Hlen] Hcs IH]; intros s Hs; [done|]. rewrite fmap_cons.
    cbn [foldl]. apply IH, sip_word_ok; [done|]. by apply le_value_bits64. }
  assert (bits64 (last_word written)) as Hlast.
  { apply bits64_lor.
    - apply le_value_bits64; [by apply Forall_drop|]. rewrite length_drop. fold n.
      pose proof (Nat.div_mod (length written) 8 ltac:(lia)).
      pose proof (Nat.mod_upper_bound (length written) 8 ltac:(lia)). lia.
    - rewrite Z.shiftl_mul_pow2 by lia.
      pose proof (Z.mod_pos_bound (Z.of_nat (length written)) 256 ltac:(lia)).
      unfold bits64, fits. change (2 ^ 64) with (256 * 2 ^ 56). nia. }
  apply sip_finalize_fits, sip_word_ok; [by apply Hwords|done].
Qed.

Lemma hash_slice_fits data : Forall (fits 8) data → Forall (fits 8) (hash_slice data).
Proof.
  intros Hd. apply Forall_app. split; [|done]. generalize (Z.of_nat (length data)).
  generalize 8%nat. intros k. induction k as [|k IH]; intros z; [constructor|].
  constructor; [|apply IH]. apply Z.mod_pos_bound. lia.
Qed.
