(* ===== verification/Content.v ===== *)
(** * Clipboard contents and their network messages ([src/clipboard_content.rs])

    The data types, the two codecs, the SHA-256 fingerprint and the splitting of
    a large content into [ChunkStart], [Chunk]* and [ChunkEnd].  The [bincode],
    [sha2] and [hex] crates are parameters ([Bincode], [Digest]); the law of
    [Bincode] the code relies on is [BincodeLaws]. *)

From S2P Require Import Prelude RustStr Utf16.

Local Open Scope Z_scope.

(** Maximal data size of one chunk (1.5 MB). *)
Definition CHUNK_DATA_SIZE : usize := 1500000.

Record FileEntry := mk_FileEntry { fe_name : string; fe_bytes : list u8 }.

Inductive ClipboardContent :=
| Text (s : string)
| Image (png_bytes : list u8)
| File (name : string) (bytes : list u8)
| Files (files : list FileEntry).

Inductive NetworkMessage :=
| Direct (content : ClipboardContent)
| ChunkStart (transfer_id : string) (total_chunks : u32) (data_hash : string)
    (total_size : u64)
| Chunk (transfer_id : string) (index : u32) (data : list u8)
| ChunkEnd (transfer_id : string).

#[export] Instance FileEntry_eq_dec : EqDecision FileEntry.
Proof. solve_decision. Defined.
#[export] Instance ClipboardContent_eq_dec : EqDecision ClipboardContent.
Proof. solve_decision. Defined.
#[export] Instance NetworkMessage_eq_dec : EqDecision NetworkMessage.
Proof. solve_decision. Defined.

(** The [bincode] crate at the two types it is used at. *)
Class Bincode := {
  bincode_error : Type;
  serialize_content : ClipboardContent → result bincode_error (list u8);
  deserialize_content : list u8 → result bincode_error ClipboardContent;
  serialize_message : NetworkMessage → result bincode_error (list u8);
  deserialize_message : list u8 → result bincode_error NetworkMessage;
}.

(** What [bincode] documents: deserialising what was serialised gives the value
    back. *)
Class BincodeLaws `{Bincode} : Prop := {
  deserialize_serialize_content c b :
    serialize_content c = Ok b → deserialize_content b = Ok c;
  deserialize_serialize_message m b :
    serialize_message m = Ok b → deserialize_message b = Ok m;
}.

(** The [sha2] digest and [hex::encode]. *)
Class Digest := {
  sha256 : list u8 → list u8;
  hex_encode : list u8 → string;
}.

Section content.
Context `{Bincode} `{Digest}.

(** [ClipboardContent::to_bytes], [ClipboardContent::from_bytes]. *)
Definition content_to_bytes (self : ClipboardContent) :
    result bincode_error (list u8) :=
  serialize_content self.
Definition content_from_bytes (data : list u8) :
    result bincode_error ClipboardContent :=
  deserialize_content data.

(** [NetworkMessage::to_bytes], [NetworkMessage::from_bytes]. *)
Definition message_to_bytes (self : NetworkMessage) :
    result bincode_error (list u8) :=
  serialize_message self.
Definition message_from_bytes (data : list u8) :
    result bincode_error NetworkMessage :=
  deserialize_message data.

Definition sha256_hex (data : list u8) : string := hex_encode (sha256 data).

(** [split_to_network_messages]; [uuid] is the value of
    [Uuid::new_v4().to_string()]. *)
Definition split_to_network_messages (uuid : string) (content : ClipboardContent) :
    result bincode_error (list NetworkMessage) :=
  raw ← content_to_bytes content;
  if bool_decide (Z.of_nat (length raw) ≤ CHUNK_DATA_SIZE) then
    Ok [Direct content]
  else
    let data_hash := sha256_hex raw in
    let transfer_id := uuid in
    let total_chunks :=
      as_u32 ((Z.of_nat (length raw) + CHUNK_DATA_SIZE - 1) / CHUNK_DATA_SIZE) in
    Ok ([ChunkStart transfer_id total_chunks data_hash (as_u64 (Z.of_nat (length raw)))]
        ++ imap (λ i chunk, Chunk transfer_id (as_u32 (Z.of_nat i)) chunk)
             (chunks (Z.to_nat CHUNK_DATA_SIZE) raw)
        ++ [ChunkEnd transfer_id]).
End content.

(** ** Descriptions for the log *)

(** The tables of the standard library beyond ASCII: which characters [{:?}] prints as
    they are, and which extend the character before. *)
Class UnicodeTables := { is_printable : char → bool; is_grapheme_extended : char → bool }.

Definition quote : char := 34.
Definition backslash : char := 92.

(** Lower-case hexadecimal digits; a character has six at most. *)
Fixpoint hex_digits (fuel : nat) (c : Z) (acc : list u8) : list u8 :=
  match fuel with
  | O => acc
  | S fuel' =>
      let d := c mod 16 in
      let acc := (if d <? 10 then 48 + d else 87 + d) :: acc in
      if c / 16 =? 0 then acc else hex_digits fuel' (c / 16) acc
  end.

(** [char::escape_debug_ext] as [{:?}] of a [str] uses it. *)
Definition escape_debug `{UnicodeTables} (c : char) : list u8 :=
  let unicode := bytes_of_string "\u{" ++ hex_digits 6 c [] ++ bytes_of_string "}" in
  if c =? 0 then bytes_of_string "\0"
  else if c =? 9 then bytes_of_string "\t"
  else if c =? 13 then bytes_of_string "\r"
  else if c =? 10 then bytes_of_string "\n"
  else if (c =? backslash) || (c =? quote) then [backslash; c]
  else if c <? 32 then unicode
  else if c <? 127 then [c]
  else if is_grapheme_extended c then unicode
  else if is_printable c then encode_utf8 c
  else unicode.

(** [{:?}] of a [str] and of a vector of them. *)
Definition debug_str `{UnicodeTables} (s : string) : string :=
  string_of_bytes ([quote] ++ concat (escape_debug <$> chars s) ++ [quote]).
Definition debug_strs `{UnicodeTables} (l : list string) : string :=
  "[" +:+ join ", " (debug_str <$> l) +:+ "]".

Definition display_len {A} (l : list A) : string := display_u (Z.of_nat (length l)).

(** [ClipboardContent::description] *)
Definition description `{UnicodeTables} (self : ClipboardContent) : string :=
  let q := string_of_bytes [quote] in
  match self with
  | Text s =>
      let preview := collect_string (take 50 (chars s)) in
      "Text(" +:+ display_len (bytes_of_string s) +:+ " bytes, preview: " +:+ q
      +:+ preview +:+ "..." +:+ q +:+ ")"
  | Image png_bytes => "Image(PNG, " +:+ display_len png_bytes +:+ " bytes)"
  | File name bytes =>
      "File(" +:+ q +:+ name +:+ q +:+ ", " +:+ display_len bytes +:+ " bytes)"
  | Files files =>
      let names := fe_name <$> files in
      "Files(" +:+ display_len files +:+ " files: " +:+ debug_strs names +:+ ")"
  end.

(** With a table that prints everything. *)
Example description_files :
  let _ : UnicodeTables := Build_UnicodeTables (λ _, true) (λ _, false) in
  description (Files [mk_FileEntry "a\é" []; mk_FileEntry "b" [1]]) =
    "Files(2 files: [" +:+ string_of_bytes [quote] +:+ "a\\é" +:+ string_of_bytes [quote]
    +:+ ", " +:+ string_of_bytes [quote] +:+ "b" +:+ string_of_bytes [quote] +:+ "])".
Proof. reflexivity. Qed.

(** The messages of a transfer [tid] whose chunks are [cs]. *)
Definition chunk_messages (tid : string) (cs : list (list u8)) : list NetworkMessage :=
  imap (λ i c, Chunk tid (as_u32 (Z.of_nat i)) c) cs.

Lemma chunk_size_pos : (0 < Z.to_nat CHUNK_DATA_SIZE)%nat.
Proof. apply Nat2Z.inj_lt. rewrite Z2Nat.id by done. done. Qed.

Lemma chunk_size_Z : Z.of_nat (Z.to_nat CHUNK_DATA_SIZE) = CHUNK_DATA_SIZE.
Proof. by apply Z2Nat.id. Qed.

#[export] Hint Resolve chunk_size_pos : p2p.

(** Sizes the program can meet: a [Vec] holds at most [isize::MAX] bytes, and the
    chunk count fits the [u32] of the protocol. *)
Definition transferable (raw : list u8) : Prop :=
  Z.of_nat (length raw) ≤ CHUNK_DATA_SIZE * U32_MAX.

Section content_props.
Context `{Bincode} `{Digest}.

(** The shape of a split of a large content. *)
Lemma split_large uuid content raw :
  content_to_bytes content = Ok raw →
  CHUNK_DATA_SIZE < Z.of_nat (length raw) →
  transferable raw →
  let cs := chunks (Z.to_nat CHUNK_DATA_SIZE) raw in
  split_to_network_messages uuid content =
    Ok (ChunkStart uuid (Z.of_nat (length cs)) (sha256_hex raw) (Z.of_nat (length raw))
        :: chunk_messages uuid cs ++ [ChunkEnd uuid])
  ∧ Z.of_nat (length cs) ≤ U32_MAX.
Proof.
  intros Hraw Hlarge Htrans cs. unfold transferable, CHUNK_DATA_SIZE, U32_MAX in Htrans.
  assert (Hlen : Z.of_nat (length cs) =
      (Z.of_nat (length raw) + CHUNK_DATA_SIZE - 1) / CHUNK_DATA_SIZE).
  { unfold cs. rewrite chunks_length by apply chunk_size_pos. by rewrite Z2Nat.id. }
  assert (Hbound : Z.of_nat (length cs) ≤ U32_MAX).
  { rewrite Hlen. unfold CHUNK_DATA_SIZE, U32_MAX.
    apply Z.lt_succ_r, Z.div_lt_upper_bound; lia. }
  split; [|done]. unfold split_to_network_messages. rewrite Hraw. cbn [mbind result_bind].
  rewrite bool_decide_false by lia. rewrite <- Hlen.
  rewrite !wrap_small; [done| |]; unfold fits, U32_MAX in *; split; try lia.
  all: eapply Z.le_lt_trans; [eassumption|done].
Qed.

Lemma split_small uuid content raw :
  content_to_bytes content = Ok raw →
  Z.of_nat (length raw) ≤ CHUNK_DATA_SIZE →
  split_to_network_messages uuid content = Ok [Direct content].
Proof.
  intros Hraw Hsmall. unfold split_to_network_messages. rewrite Hraw.
  cbn [mbind result_bind]. by rewrite bool_decide_true.
Qed.

(** A split into several messages is the announcement, the chunks and the end. *)
Lemma split_chunked uuid content raw first body last :
  content_to_bytes content = Ok raw → transferable raw →
  split_to_network_messages uuid content = Ok (first :: body ++ [last]) →
  ∃ cs, concat cs = raw
    ∧ first = ChunkStart uuid (Z.of_nat (length cs)) (sha256_hex raw) (Z.of_nat (length raw))
    ∧ body = chunk_messages uuid cs ∧ last = ChunkEnd uuid
    ∧ Z.of_nat (length cs) ≤ U32_MAX ∧ Z.of_nat (length raw) ≤ ISIZE_MAX.
Proof.
  intros Hraw Htrans Hsplit.
  destruct (decide (Z.of_nat (length raw) ≤ CHUNK_DATA_SIZE)) as [Hsmall|Hlarge].
  { rewrite (split_small uuid content raw) in Hsplit by done. by destruct body. }
  destruct (split_large uuid content raw Hraw ltac:(lia) Htrans) as [Heq Hcnt].
  rewrite Heq in Hsplit. injection Hsplit as <- Hl. apply app_inj_tail in Hl as [<- <-].
  eexists. split; [by apply chunks_concat, chunk_size_pos|]. repeat (split; [done|]).
  unfold transferable, CHUNK_DATA_SIZE, U32_MAX, ISIZE_MAX in *. lia.
Qed.
End content_props.
