(* ===== verification/Codec.v ===== *)
(** * A concrete codec for the witnesses

    [bincode] is not part of the repository, so the development is parametric in
    it ([Content.Bincode]).  This file gives one concrete instance that satisfies
    [BincodeLaws]: fixed-width little-endian integers, length-prefixed byte
    strings and tagged variants.  Only witnesses use it. *)

From S2P Require Import Prelude Content.

Local Open Scope Z_scope.

(** A decoder returns the value and the remaining input. *)
Abbreviation decoder A := (list u8 → option (A * list u8)).

Definition dec_int (k : nat) : decoder Z := λ l,
  if bool_decide (k ≤ length l)%nat then Some (le_value (take k l), drop k l) else None.

Definition enc_int (k : nat) (z : Z) : option (list u8) :=
  if bool_decide (0 ≤ z < 256 ^ Z.of_nat k) then Some (le_bytes k z) else None.

Definition enc_blob (b : list u8) : option (list u8) :=
  n ← enc_int 8 (Z.of_nat (length b)); Some (n ++ b).

Definition dec_blob : decoder (list u8) := λ l,
  '(n, r) ← dec_int 8 l;
  if bool_decide (Z.to_nat n ≤ length r)%nat
  then Some (take (Z.to_nat n) r, drop (Z.to_nat n) r) else None.

Definition enc_str (s : string) : option (list u8) := enc_blob (bytes_of_string s).
Definition dec_str : decoder string := λ l,
  '(b, r) ← dec_blob l; Some (string_of_bytes b, r).

Definition enc_entry (e : FileEntry) : option (list u8) :=
  n ← enc_str (fe_name e); b ← enc_blob (fe_bytes e); Some (n ++ b).
Definition dec_entry : decoder FileEntry := λ l,
  '(n, r) ← dec_str l; '(b, r) ← dec_blob r; Some (mk_FileEntry n b, r).

Fixpoint enc_entries (l : list FileEntry) : option (list u8) :=
  match l with
  | [] => Some []
  | e :: l' => b ← enc_entry e; bs ← enc_entries l'; Some (b ++ bs)
  end.
Fixpoint dec_entries (n : nat) : decoder (list FileEntry) := λ l,
  match n with
  | O => Some ([], l)
  | S n' => '(e, r) ← dec_entry l; '(es, r) ← dec_entries n' r; Some (e :: es, r)
  end.

Definition enc_content (c : ClipboardContent) : option (list u8) :=
  match c with
  | Text s => b ← enc_str s; Some (0 :: b)
  | Image p => b ← enc_blob p; Some (1 :: b)
  | File n p => a ← enc_str n; b ← enc_blob p; Some (2 :: a ++ b)
  | Files l => n ← enc_int 8 (Z.of_nat (length l)); b ← enc_entries l; Some (3 :: n ++ b)
  end.

Definition dec_content : decoder ClipboardContent := λ l,
  match l with
  | 0 :: r => '(s, r) ← dec_str r; Some (Text s, r)
  | 1 :: r => '(p, r) ← dec_blob r; Some (Image p, r)
  | 2 :: r => '(n, r) ← dec_str r; '(p, r) ← dec_blob r; Some (File n p, r)
  | 3 :: r => '(n, r) ← dec_int 8 r; '(es, r) ← dec_entries (Z.to_nat n) r; Some (Files es, r)
  | _ => None
  end.

Definition enc_message (m : NetworkMessage) : option (list u8) :=
  match m with
  | Direct c => b ← enc_content c; Some (0 :: b)
  | ChunkStart t n h s =>
      a ← enc_str t; b ← enc_int 4 n; c ← enc_str h; d ← enc_int 8 s;
      Some (1 :: a ++ b ++ c ++ d)
  | Chunk t i p => a ← enc_str t; b ← enc_int 4 i; c ← enc_blob p; Some (2 :: a ++ b ++ c)
  | ChunkEnd t => a ← enc_str t; Some (3 :: a)
  end.

Definition dec_message : decoder NetworkMessage := λ l,
  match l with
  | 0 :: r => '(c, r) ← dec_content r; Some (Direct c, r)
  | 1 :: r =>
      '(t, r) ← dec_str r; '(n, r) ← dec_int 4 r; '(h, r) ← dec_str r;
      '(s, r) ← dec_int 8 r; Some (ChunkStart t n h s, r)
  | 2 :: r =>
      '(t, r) ← dec_str r; '(i, r) ← dec_int 4 r; '(p, r) ← dec_blob r; Some (Chunk t i p, r)
  | 3 :: r => '(t, r) ← dec_str r; Some (ChunkEnd t, r)
  | _ => None
  end.

(** [dec] undoes [enc], whatever follows the encoding. *)
Definition inverts {A} (enc : A → option (list u8)) (dec : decoder A) : Prop :=
  ∀ a b r, enc a = Some b → dec (b ++ r) = Some (a, r).

Lemma dec_enc_int k : inverts (enc_int k) (dec_int k).
Proof.
  intros z b r. unfold enc_int, dec_int. case_bool_decide as Hz; intros [= <-].
  rewrite bool_decide_true by (rewrite length_app, le_bytes_length; lia).
  rewrite take_app_length', drop_app_length' by (by rewrite le_bytes_length).
  by rewrite le_value_bytes.
Qed.

Lemma dec_enc_blob : inverts enc_blob dec_blob.
Proof.
  intros p b r. unfold enc_blob, dec_blob.
  destruct (enc_int _ _) as [n|] eqn:Hn; intros Hb; simplify_eq/=.
  rewrite <- app_assoc, (dec_enc_int _ _ _ _ Hn). cbn.
  rewrite Nat2Z.id, bool_decide_true by (rewrite length_app; lia).
  by rewrite take_app_length, drop_app_length.
Qed.

Lemma dec_enc_str : inverts enc_str dec_str.
Proof.
  intros s b r Hb. unfold dec_str. rewrite (dec_enc_blob _ _ _ Hb). cbn.
  by rewrite string_of_bytes_of_string.
Qed.

(** Split an encoder into its parts and run the decoder on them. *)
Ltac run_decoder :=
  repeat match goal with
  | H : (_ ≫= _) = Some _ |- _ => apply bind_Some in H as (? & ? & H)
  | H : Some _ = Some _ |- _ => injection H as <-
  | H : enc_int _ _ = Some ?b |- context [dec_int _ (?b ++ _)] =>
      rewrite (dec_enc_int _ _ _ _ H)
  | H : enc_str _ = Some ?b |- context [dec_str (?b ++ _)] => rewrite (dec_enc_str _ _ _ H)
  | H : enc_blob _ = Some ?b |- context [dec_blob (?b ++ _)] => rewrite (dec_enc_blob _ _ _ H)
  | _ => progress (rewrite <- ?app_assoc, <- ?app_comm_cons; cbn)
  end.

Lemma dec_enc_entry : inverts enc_entry dec_entry.
Proof. intros [n p] b r Hb. unfold enc_entry, dec_entry in *. by run_decoder. Qed.

Lemma dec_enc_entries l b r :
  enc_entries l = Some b → dec_entries (length l) (b ++ r) = Some (l, r).
Proof.
  revert b r. induction l as [|e l IH]; intros b r Hb; cbn in *; [by simplify_eq|].
  apply bind_Some in Hb as (b1 & Hb1 & (b2 & Hb2 & [= <-])%bind_Some).
  rewrite <- app_assoc, (dec_enc_entry _ _ _ Hb1). cbn. by rewrite (IH _ _ Hb2).
Qed.

Lemma dec_enc_content : inverts enc_content dec_content.
Proof.
  intros [s|p|n p|l] b r Hb; unfold enc_content in Hb; run_decoder; [done..|].
  rewrite Nat2Z.id. by erewrite dec_enc_entries.
Qed.

Lemma dec_enc_message : inverts enc_message dec_message.
Proof.
  intros [c|t n h s|t i p|t] b r Hb; unfold enc_message in Hb; run_decoder; try done.
  by erewrite dec_enc_content.
Qed.

Definition ser {A} (enc : A → option (list u8)) (a : A) : result unit (list u8) :=
  ok_or (enc a) tt.
Definition de {A} (dec : decoder A) (b : list u8) : result unit A :=
  match dec b with Some (a, _) => Ok a | None => Err tt end.

Lemma de_ser {A} (enc : A → option (list u8)) (dec : decoder A) a b :
  inverts enc dec → ser enc a = Ok b → de dec b = Ok a.
Proof.
  intros Hinv. unfold ser, de. destruct (enc a) as [b'|] eqn:Ha; [|done]. intros [= <-].
  specialize (Hinv a b' [] Ha). rewrite app_nil_r in Hinv. by rewrite Hinv.
Qed.

#[export] Instance codec : Bincode := {|
  bincode_error := unit;
  serialize_content := ser enc_content;
  deserialize_content := de dec_content;
  serialize_message := ser enc_message;
  deserialize_message := de dec_message;
|}.

#[export] Instance codec_laws : BincodeLaws.
Proof.
  split; intros ??; apply de_ser; [apply dec_enc_content|apply dec_enc_message].
Qed.

(** A stand-in digest: the byte sum, printed as one character. *)
#[export] Instance digest : Digest := {|
  sha256 := λ data, [foldr Z.add 0 data mod 256];
  hex_encode := λ l, string_of_bytes l;
|}.
