(* ===== verification/Transfer.v ===== *)
(** * Receiving chunked transfers ([src/network.rs])

    [handle_incoming_message] with its table of running transfers
    ([ChunkReceiveState]) and [cleanup_stale_chunk_states].  A call returns the new
    table and the content to put on the clipboard, or panics.  Instants are
    nanoseconds of the monotonic clock. *)

From S2P Require Import Prelude RustStr Content.

Local Open Scope Z_scope.

Definition CHUNK_TRANSFER_TIMEOUT_SECS : u64 := 120.
Definition NANOS_PER_SEC : Z := 1000000000.

Record ChunkReceiveState := mk_ChunkReceiveState {
  total_chunks : u32;
  data_hash : string;
  total_size : u64;
  received : gmap Z (list u8);
  started_at : Z;
}.

Definition set_received (st : ChunkReceiveState) (r : gmap Z (list u8)) :
    ChunkReceiveState :=
  mk_ChunkReceiveState (total_chunks st) (data_hash st) (total_size st) r (started_at st).

(** The loop [for i in 0..total_chunks] that appends the chunks to [full_data]
    and gives up at the first missing one. *)
Fixpoint gather_chunks (rcv : gmap Z (list u8)) (idxs : list Z) (full_data : list u8) :
    option (list u8) :=
  match idxs with
  | [] => Some full_data
  | i :: idxs' =>
      match rcv !! i with
      | Some chunk => gather_chunks rcv idxs' (full_data ++ chunk)
      | None => None
      end
  end.

(** [Vec::<u8>::with_capacity(n)] panics when [n] exceeds [isize::MAX]. *)
Definition vec_with_capacity (n : usize) : outcome (list u8) :=
  if ISIZE_MAX <? n then Panic else Done [].

Section transfer.
Context `{Bincode} `{Digest}.
Implicit Types chunk_states : gmap string ChunkReceiveState.

(** The [ChunkEnd] arm once the transfer's state was taken out of the table. *)
Definition finish_transfer (state : ChunkReceiveState) :
    outcome (option ClipboardContent) :=
  if as_u32 (Z.of_nat (size (received state))) =? total_chunks state then
    full_data ← vec_with_capacity (total_size state);
    match gather_chunks (received state) (seqZ 0 (total_chunks state)) full_data with
    | None => Done None
    | Some full_data =>
        let actual_hash := sha256_hex full_data in
        if bool_decide (actual_hash ≠ data_hash state) then Done None
        else Done (res_ok (content_from_bytes full_data))
    end
  else Done None.

(** The arms of [match net_msg]; [now] is [Instant::now()]. *)
Definition handle_net_msg (now : Z) (net_msg : NetworkMessage)
    (chunk_states : gmap string ChunkReceiveState) :
    outcome (gmap string ChunkReceiveState * option ClipboardContent) :=
  match net_msg with
  | Direct content => Done (chunk_states, Some content)
  | ChunkStart transfer_id total_chunks data_hash total_size =>
      Done (<[transfer_id :=
                mk_ChunkReceiveState total_chunks data_hash total_size ∅ now]> chunk_states,
            None)
  | Chunk transfer_id index data =>
      match chunk_states !! transfer_id with
      | Some state =>
          Done (<[transfer_id := set_received state (<[index := data]> (received state))]>
                  chunk_states, None)
      | None => Done (chunk_states, None)
      end
  | ChunkEnd transfer_id =>
      match chunk_states !! transfer_id with
      | Some state =>
          out ← finish_transfer state;
          Done (delete transfer_id chunk_states, out)
      | None => Done (chunk_states, None)
      end
  end.

Definition handle_incoming_message (now : Z) (data : list u8)
    (chunk_states : gmap string ChunkReceiveState) :
    outcome (gmap string ChunkReceiveState * option ClipboardContent) :=
  match message_from_bytes data with
  | Ok net_msg => handle_net_msg now net_msg chunk_states
  | Err _ =>
      match content_from_bytes data with
      | Ok content => Done (chunk_states, Some content)
      | Err _ => Done (chunk_states, Some (Text (from_utf8_lossy data)))
      end
  end.

(** The clock of an iteration of the main loop: at its head, and when the event it
    waited for is handled. *)
Record Times := mk_Times { t_head : Z; t_event : Z }.
Definition at_once (t : Z) : Times := mk_Times t t.

(** The head of an iteration is not later than the timeout after an earlier event. *)
Definition within_timeout (t0 t : Times) : Prop :=
  t_head t - t_event t0 ≤ CHUNK_TRANSFER_TIMEOUT_SECS * NANOS_PER_SEC.

(** [Instant::elapsed], which saturates at zero. *)
Definition elapsed (now started : Z) : Z := Z.max 0 (now - started).

Definition stale (now : Z) (state : ChunkReceiveState) : bool :=
  CHUNK_TRANSFER_TIMEOUT_SECS * NANOS_PER_SEC <? elapsed now (started_at state).

(** First the ids of the stale transfers are collected, then each is removed. *)
Definition cleanup_stale_chunk_states (now : Z)
    (chunk_states : gmap string ChunkReceiveState) : gmap string ChunkReceiveState :=
  let stale_ids :=
    fst <$> filter (λ p, stale now p.2 = true) (map_to_list chunk_states) in
  foldl (λ m id, delete id m) chunk_states stale_ids.

(** What the main loop does with one gossipsub message: the stale transfers are
    dropped at the head of the iteration, then the message is awaited and handled. *)
Definition receive_step (now : Times) (data : list u8)
    (chunk_states : gmap string ChunkReceiveState) :
    outcome (gmap string ChunkReceiveState * option ClipboardContent) :=
  handle_incoming_message (t_event now) data
    (cleanup_stale_chunk_states (t_head now) chunk_states).

(** A sequence of timed messages; the contents delivered, in order. *)
Fixpoint receive_all (trace : list (Times * list u8))
    (chunk_states : gmap string ChunkReceiveState) :
    outcome (gmap string ChunkReceiveState * list ClipboardContent) :=
  match trace with
  | [] => Done (chunk_states, [])
  | (now, data) :: trace' =>
      '(chunk_states, out) ← receive_step now data chunk_states;
      '(chunk_states, outs) ← receive_all trace' chunk_states;
      Done (chunk_states, option_list out ++ outs)
  end.
End transfer.

(** ** Cleaning up *)

Lemma foldl_delete_lookup {A} (m : gmap string A) ids k :
  foldl (λ m id, delete id m) m ids !! k = if decide (k ∈ ids) then None else m !! k.
Proof.
  revert m. induction ids as [|id ids IH]; intros m; cbn [foldl].
  { case_decide as Hk; [by apply not_elem_of_nil in Hk|done]. }
  rewrite IH, lookup_delete. 
  repeat case_decide; set_solver.
Qed.

Lemma cleanup_lookup now cs k :
  cleanup_stale_chunk_states now cs !! k =
    match cs !! k with Some st => if stale now st then None else Some st | None => None end.
Proof.
  unfold cleanup_stale_chunk_states. rewrite foldl_delete_lookup.
  destruct (cs !! k) as [st|] eqn:Hk; [|by case_decide].
  destruct (stale now st) eqn:Hst.
  - rewrite decide_True; [done|]. apply list_elem_of_fmap. exists (k, st).
    split; [done|]. apply list_elem_of_filter. by rewrite elem_of_map_to_list.
  - rewrite decide_False; [done|]. intros ([k' st'] & -> & [Hs Hin]%list_elem_of_filter)%list_elem_of_fmap.
    apply elem_of_map_to_list in Hin. simplify_eq/=. congruence.
Qed.

(** ** Reassembling *)

Lemma gather_chunks_seqZ (rcv : gmap Z (list u8)) cs (start : Z) acc :
  (∀ k c, cs !! k = Some c → rcv !! (start + Z.of_nat k) = Some c) →
  gather_chunks rcv (seqZ start (Z.of_nat (length cs))) acc = Some (acc ++ concat cs).
Proof.
  revert start acc. induction cs as [|c cs IH]; intros start acc Hrcv.
  { by rewrite seqZ_nil, app_nil_r by done. }
  rewrite seqZ_cons by (simpl; lia). cbn [gather_chunks].
  pose proof (Hrcv 0%nat c eq_refl) as H0. rewrite Z.add_0_r in H0. rewrite H0.
  replace (Z.pred (Z.of_nat (length (c :: cs)))) with (Z.of_nat (length cs)) by (simpl; lia).
  rewrite IH.
  - simpl. by rewrite app_assoc.
  - intros k d Hk. rewrite <- (Hrcv (S k) d Hk). f_equal. lia.
Qed.

Lemma gather_chunks_Some rcv idxs acc full :
  gather_chunks rcv idxs acc = Some full →
  ∃ cs, Forall2 (λ i c, rcv !! i = Some c) idxs cs ∧ full = acc ++ concat cs.
Proof.
  revert acc. induction idxs as [|i idxs IH]; intros acc; simpl.
  - intros [= <-]. exists []. split; [constructor|by rewrite app_nil_r].
  - destruct (rcv !! i) as [c|] eqn:Hi; [|done]. intros (cs & Hcs & ->)%IH.
    exists (c :: cs). split; [by constructor|]. simpl. by rewrite app_assoc.
Qed.

(** The map that holds exactly the chunks [cs], indexed from 0. *)
Lemma received_complete (rcv : gmap Z (list u8)) cs :
  (∀ i d, rcv !! i = Some d → ∃ k, i = Z.of_nat k ∧ cs !! k = Some d) →
  (∀ k c, cs !! k = Some c → rcv !! Z.of_nat k = Some c) →
  rcv = map_seqZ 0 cs.
Proof.
  intros Hsound Hcompl. apply map_eq. intros i. apply option_eq. intros d.
  rewrite lookup_map_seqZ_Some, Z.sub_0_r. split.
  - intros (k & -> & Hk)%Hsound. split; [lia|]. by rewrite Nat2Z.id.
  - intros [Hi Hk]. rewrite <- (Z2Nat.id i) by done. by apply Hcompl.
Qed.

Lemma map_size_seqZ (cs : list (list u8)) :
  size (map_seqZ (M := gmap Z (list u8)) 0 cs) = length cs.
Proof.
  rewrite <- length_map_to_list, map_to_list_seqZ, length_zip_with, length_seqZ. lia.
Qed.

(** The transfer a message belongs to. *)
Definition message_tid (m : NetworkMessage) : option string :=
  match m with
  | Direct _ => None
  | ChunkStart t _ _ _ | Chunk t _ _ | ChunkEnd t => Some t
  end.

(** No announced total size exceeds the capacity of a [Vec]. *)
Definition sizes_ok (sts : gmap string ChunkReceiveState) : Prop :=
  map_Forall (λ _ st, total_size st ≤ ISIZE_MAX) sts.
Definition message_size_ok (m : NetworkMessage) : Prop :=
  match m with ChunkStart _ _ _ s => s ≤ ISIZE_MAX | _ => True end.

Section transfer_props.
Context `{Bincode} `{Digest}.
Implicit Types sts : gmap string ChunkReceiveState.

Lemma finish_transfer_done st :
  total_size st ≤ ISIZE_MAX → ∃ out, finish_transfer st = Done out.
Proof.
  intros Hsz. unfold finish_transfer, vec_with_capacity.
  rewrite (proj2 (Z.ltb_ge _ _) Hsz). cbn. repeat case_match; eauto.
Qed.

Lemma handle_net_msg_done now m sts :
  sizes_ok sts → message_size_ok m →
  ∃ sts' out, handle_net_msg now m sts = Done (sts', out) ∧ sizes_ok sts'.
Proof.
  intros Hsts Hm. destruct m as [c|t n h s|t i d|t]; simpl.
  - eauto.
  - eexists _, _. split; [done|]. by apply map_Forall_insert_2.
  - destruct (sts !! t) as [st|] eqn:Ht; [|eauto]. eexists _, _. split; [done|].
    apply map_Forall_insert_2; [|done]. apply (Hsts t st Ht).
  - destruct (sts !! t) as [st|] eqn:Ht; [|eauto].
    destruct (finish_transfer_done st (Hsts t st Ht)) as [out ->].
    eexists _, _. split; [done|]. by apply map_Forall_delete.
Qed.

Lemma cleanup_sizes_ok now sts :
  sizes_ok sts → sizes_ok (cleanup_stale_chunk_states now sts).
Proof.
  intros Hsts t st. rewrite cleanup_lookup. intros Hl. apply (Hsts t).
  by cases_p2p.
Qed.

(** Messages of other transfers do not touch the state of transfer [t]. *)
Lemma handle_net_msg_other now m sts sts' out t :
  message_tid m ≠ Some t → handle_net_msg now m sts = Done (sts', out) →
  sts' !! t = sts !! t.
Proof.
  intros Hne Hh. destruct m as [c|t' n h s|t' i d|t']; simpl in *.
  - by simplify_eq.
  - simplify_eq. by rewrite lookup_insert_ne by congruence.
  - case_match; simplify_eq; [|done]. by rewrite lookup_insert_ne by congruence.
  - case_match; [|by simplify_eq].
    apply bind_Done in Hh as (o & _ & [= <- <-]). by rewrite lookup_delete_ne by congruence.
Qed.

Lemma handle_message_bytes now data m sts :
  message_from_bytes data = Ok m →
  handle_incoming_message now data sts = handle_net_msg now m sts.
Proof. intros Hm. unfold handle_incoming_message. by rewrite Hm. Qed.

Section tracking.
Context (uuid : string) (cs : list (list u8)) (h : string) (sz : Z) (t0 : Times).

(** [sts] holds the transfer with some of its chunks [rcv] received. *)
Definition tracks (sts : gmap string ChunkReceiveState) (rcv : gmap Z (list u8)) : Prop :=
  sts !! uuid =
    Some (mk_ChunkReceiveState (Z.of_nat (length cs)) h sz rcv (t_event t0)) ∧
  ∀ i d, rcv !! i = Some d → ∃ k, i = Z.of_nat k ∧ cs !! k = Some d.

(** A message of another transfer, or one of the chunks. *)
Definition benign (m : NetworkMessage) : Prop :=
  message_tid m ≠ Some uuid ∨ ∃ k c, m = Chunk uuid (Z.of_nat k) c ∧ cs !! k = Some c.

Lemma cleanup_tracks now sts rcv :
  within_timeout t0 now →
  tracks sts rcv → tracks (cleanup_stale_chunk_states (t_head now) sts) rcv.
Proof.
  intros Hnow [Hst Hrcv]. split; [|done]. rewrite cleanup_lookup, Hst.
  unfold stale, elapsed. cbn [started_at].
  destruct (Z.ltb_spec (CHUNK_TRANSFER_TIMEOUT_SECS * NANOS_PER_SEC)
    (Z.max 0 (t_head now - t_event t0))); [|done].
  unfold within_timeout, CHUNK_TRANSFER_TIMEOUT_SECS, NANOS_PER_SEC in *. lia.
Qed.

Lemma benign_step now data m sts rcv :
  tracks sts rcv → sizes_ok sts → benign m → message_size_ok m →
  within_timeout t0 now →
  message_from_bytes data = Ok m →
  ∃ sts' out rcv', receive_step now data sts = Done (sts', out) ∧ sizes_ok sts' ∧
    tracks sts' rcv' ∧ rcv ⊆ rcv' ∧
    (∀ i c, m = Chunk uuid i c → rcv' !! i = Some c).
Proof.
  intros Htr Hsz Hben Hmsz Hnow Hm. unfold receive_step.
  rewrite (handle_message_bytes _ _ _ _ Hm).
  apply (cleanup_tracks now) in Htr; [|done]. apply (cleanup_sizes_ok (t_head now)) in Hsz.
  destruct (handle_net_msg_done (t_event now) m _ Hsz Hmsz) as (sts' & out & Hh & Hsz').
  exists sts', out. rewrite Hh. destruct Htr as [Hst Hrcv].
  destruct Hben as [Hne|(k & c & -> & Hk)].
  - exists rcv. rewrite <- (handle_net_msg_other _ _ _ _ _ _ Hne Hh) in Hst.
    repeat split; try done. intros i c ->. done.
  - simpl in Hh. rewrite Hst in Hh. injection Hh as <- <-.
    exists (<[Z.of_nat k := c]> rcv). split; [done|]. split; [done|]. split; [split|split].
    + by rewrite lookup_insert_eq.
    + intros i d. rewrite lookup_insert. case_decide; [|apply Hrcv].
      intros [= ->]. subst. eauto.
    + apply map_subseteq_spec. intros i d Hi. rewrite lookup_insert. case_decide; [|done].
      subst. apply Hrcv in Hi as (k' & Heq & Hk'). apply Nat2Z.inj in Heq. congruence.
    + intros i d [= <- <-]. by rewrite lookup_insert_eq.
Qed.

Lemma benign_run mid ms sts rcv :
  tracks sts rcv → sizes_ok sts →
  Forall2 (λ p m, message_from_bytes p.2 = Ok m ∧
    within_timeout t0 p.1) mid ms →
  Forall benign ms → Forall message_size_ok ms →
  ∃ sts' outs rcv', receive_all mid sts = Done (sts', outs) ∧ sizes_ok sts' ∧
    tracks sts' rcv' ∧ rcv ⊆ rcv' ∧
    (∀ i c, Chunk uuid i c ∈ ms → rcv' !! i = Some c).
Proof.
  intros Htr Hsz Hmid. revert sts rcv Htr Hsz.
  induction Hmid as [|[now data] m mid ms [Hm Hnow] Hmid IH]; intros sts rcv Htr Hsz Hben Hmsz.
  - exists sts, [], rcv. repeat split; try done; try apply Htr. by intros ?? ?%not_elem_of_nil.
  - apply Forall_cons in Hben as [Hb Hben]. apply Forall_cons in Hmsz as [Hs Hmsz].
    destruct (benign_step now data m sts rcv) as (s1 & o1 & r1 & E1 & Z1 & T1 & S1 & C1);
      [done..|].
    destruct (IH s1 r1) as (s2 & o2 & r2 & E2 & Z2 & T2 & S2 & C2); [done..|].
    exists s2, (option_list o1 ++ o2), r2. cbn [receive_all]. rewrite E1. cbn.
    rewrite E2. cbn. repeat split; try done; try apply T2.
    + by transitivity r1.
    + intros i c [Heq|Hin]%elem_of_cons; [|by apply C2].
      eapply lookup_weaken; [|done]. by apply C1.
Qed.

(** The end marker after all the chunks delivers the content. *)
Lemma finish_tracked now sts rcv content :
  tracks sts rcv → (∀ k c, cs !! k = Some c → rcv !! Z.of_nat k = Some c) →
  Z.of_nat (length cs) ≤ U32_MAX → sz ≤ ISIZE_MAX → h = sha256_hex (concat cs) →
  content_from_bytes (concat cs) = Ok content →
  handle_net_msg now (ChunkEnd uuid) sts = Done (delete uuid sts, Some content).
Proof.
  intros [Hst Hrcv] Hall Hlen Hsz Hh Hc. simpl. rewrite Hst.
  rewrite (received_complete rcv cs) by done. unfold finish_transfer.
  cbn [received total_chunks total_size data_hash].
  rewrite map_size_seqZ, wrap_small by (by apply fits_u32; lia).
  rewrite Z.eqb_refl. unfold vec_with_capacity. rewrite (proj2 (Z.ltb_ge _ _) Hsz). cbn.
  rewrite gather_chunks_seqZ.
  - cbn. rewrite bool_decide_false by (intros Hne; by apply Hne). by rewrite Hc.
  - intros k c Hk. by apply lookup_map_seqZ_Some_inv.
Qed.
End tracking.
End transfer_props.

(** ** Properties *)

Section transfer_theorems.
Context `{Bincode} `{!BincodeLaws} `{Digest}.

Lemma receive_all_app l1 l2 sts :
  receive_all (l1 ++ l2) sts =
    ('(sts, o1) ← receive_all l1 sts; '(sts, o2) ← receive_all l2 sts;
     Done (sts, o1 ++ o2)).
Proof.
  revert sts. induction l1 as [|[now data] l1 IH]; intros sts; cbn [receive_all app].
  { cbn. by destruct (receive_all l2 sts) as [[??]|]. }
  destruct (receive_step now data sts) as [[s o]|]; cbn; [|done]. rewrite IH.
  destruct (receive_all l1 s) as [[s1 o1]|]; cbn; [|done].
  destruct (receive_all l2 s1) as [[s2 o2]|]; cbn; [|done]. by rewrite app_assoc.
Qed.

(** A chunked transfer from its first message to its end marker. *)
Lemma chunked_transfer_delivers uuid content cs bs be t0 t1
    (mid : list (Times * list u8)) (ms : list NetworkMessage) sts :
  content_from_bytes (concat cs) = Ok content →
  Z.of_nat (length cs) ≤ U32_MAX → Z.of_nat (length (concat cs)) ≤ ISIZE_MAX →
  message_from_bytes bs = Ok (ChunkStart uuid (Z.of_nat (length cs))
    (sha256_hex (concat cs)) (Z.of_nat (length (concat cs)))) →
  message_from_bytes be = Ok (ChunkEnd uuid) →
  Forall2 (λ p m, message_from_bytes p.2 = Ok m ∧
    within_timeout t0 p.1) mid ms →
  within_timeout t0 t1 →
  chunk_messages uuid cs ⊆ ms →
  (∀ m, m ∈ ms → message_tid m = Some uuid → m ∈ chunk_messages uuid cs) →
  Forall message_size_ok ms → sizes_ok sts →
  ∃ sts' outs,
    receive_all ((t0, bs) :: mid ++ [(t1, be)]) sts = Done (sts', outs ++ [content]) ∧
    sts' !! uuid = None.
Proof.
  intros Hcontent Hcnt Hrsz Hbs Hbe Hmid Ht1 Hbody Hmine Hmsz Hsz.
  set (h := sha256_hex (concat cs)) in *. set (sz := Z.of_nat (length (concat cs))) in *.
  assert (Hidx : ∀ k c, cs !! k = Some c → as_u32 (Z.of_nat k) = Z.of_nat k)
    by (intros k c Hk%lookup_lt_Some; apply wrap_small, fits_u32; lia).
  assert (Hin : ∀ k c, cs !! k = Some c → Chunk uuid (Z.of_nat k) c ∈ ms).
  { intros k c Hk. apply Hbody, elem_of_lookup_imap. exists k, c. by rewrite (Hidx k c). }
  pose (s0 := cleanup_stale_chunk_states (t_head t0) sts).
  pose (s1 := <[uuid := mk_ChunkReceiveState (Z.of_nat (length cs)) h sz ∅ (t_event t0)]> s0).
  destruct (benign_run uuid cs h sz t0 mid ms s1 ∅)
    as (s2 & outs & rcv & Hrun & Hsz2 & Htr & _ & Hrcv); try done.
  { split; [apply lookup_insert_eq|]. intros i d. by rewrite lookup_empty. }
  { by apply map_Forall_insert_2; [|apply cleanup_sizes_ok]. }
  { apply Forall_forall. intros m Hm.
    destruct (decide (message_tid m = Some uuid)) as [Ht|]; [right|by left].
    apply Hmine in Hm as (k & c & -> & Hk)%elem_of_lookup_imap; [|done].
    exists k, c. by rewrite (Hidx k c). }
  exists (delete uuid (cleanup_stale_chunk_states (t_head t1) s2)), outs.
  split; [|by rewrite lookup_delete_eq].
  cbn [receive_all]. unfold receive_step at 1.
  rewrite (handle_message_bytes _ _ _ _ Hbs). cbn. fold s0 s1.
  rewrite receive_all_app, Hrun. cbn. unfold receive_step.
  rewrite (handle_message_bytes _ _ _ _ Hbe).
  rewrite (finish_tracked uuid cs h sz t0 _ _ rcv content); [done| |by eauto|done..].
  by apply cleanup_tracks.
Qed.

(** C6: a large content that was split is put back together and delivered by the
    receiver, whatever the order of its chunks, with duplicated chunks and with
    the messages of other transfers in between, provided the transfer is over
    within the timeout and no announced size exceeds a [Vec]'s capacity; its
    state is gone afterwards. *)
Theorem transfer_delivers uuid content raw first body last bs be t0 t1
    (mid : list (Times * list u8)) (ms : list NetworkMessage) sts :
  content_to_bytes content = Ok raw →
  transferable raw →
  split_to_network_messages uuid content = Ok (first :: body ++ [last]) →
  message_to_bytes first = Ok bs → message_to_bytes last = Ok be →
  Forall2 (λ p m, message_from_bytes p.2 = Ok m ∧
    within_timeout t0 p.1) mid ms →
  within_timeout t0 t1 →
  body ⊆ ms →
  (∀ m, m ∈ ms → message_tid m = Some uuid → m ∈ body) →
  Forall message_size_ok ms → sizes_ok sts →
  ∃ sts' outs,
    receive_all ((t0, bs) :: mid ++ [(t1, be)]) sts = Done (sts', outs ++ [content]) ∧
    sts' !! uuid = None.
Proof.
  intros Hraw Htrans Hsplit Hbs Hbe Hmid Ht1 Hbody Hmine Hmsz Hsz.
  apply deserialize_serialize_message in Hbs, Hbe.
  destruct (split_chunked uuid content raw first body last Hraw Htrans Hsplit)
    as (cs & <- & -> & -> & -> & Hcnt & Hrsz).
  apply (chunked_transfer_delivers uuid content cs bs be t0 t1 mid ms); try done.
  by apply deserialize_serialize_content.
Qed.

(** What a transfer delivers was announced and verified: all its chunks
    [0 .. total_chunks - 1] were received, their concatenation has the announced
    hash and deserialises to the delivered content; and the transfer's state is
    removed whether or not the content is delivered. *)
Theorem chunk_end_delivers_verified now tid sts sts' out :
  handle_net_msg now (ChunkEnd tid) sts = Done (sts', out) →
  sts' = delete tid sts ∧
  ∀ content, out = Some content →
    ∃ st cs, sts !! tid = Some st ∧
      Forall2 (λ i c, received st !! i = Some c) (seqZ 0 (total_chunks st)) cs ∧
      as_u32 (Z.of_nat (size (received st))) = total_chunks st ∧
      sha256_hex (concat cs) = data_hash st ∧
      content_from_bytes (concat cs) = Ok content.
Proof.
  simpl. destruct (sts !! tid) as [st|] eqn:Hst.
  2: { intros [= <- <-]. split; [by rewrite delete_id|by intros ? [=]]. }
  intros (o & Hfin & [= <- <-])%bind_Done. split; [done|]. intros content ->.
  unfold finish_transfer, vec_with_capacity in Hfin.
  destruct (Z.eqb_spec (as_u32 (Z.of_nat (size (received st)))) (total_chunks st)); [|done].
  destruct (ISIZE_MAX <? total_size st); [done|]. cbn in Hfin.
  destruct (gather_chunks _ _ _) as [full|] eqn:Hg; [|done].
  apply gather_chunks_Some in Hg as (cs & Hcs & ->). cbn in Hfin.
  case_bool_decide as Hh; [done|]. exists st, cs. split; [done|]. split; [done|].
  split; [done|]. split; [done|].
  unfold res_ok in Hfin. by destruct (content_from_bytes _); simplify_eq.
Qed.

(** Transfers do not interfere: a message of another transfer, or a direct
    message, leaves the state of a transfer as it is. *)
Theorem transfers_independent now m sts sts' out t :
  message_tid m ≠ Some t → handle_net_msg now m sts = Done (sts', out) →
  sts' !! t = sts !! t.
Proof. apply handle_net_msg_other. Qed.

(** The cleanup keeps exactly the transfers that started at most
    [CHUNK_TRANSFER_TIMEOUT_SECS] ago, unchanged. *)
Theorem cleanup_keeps_fresh now sts :
  cleanup_stale_chunk_states now sts =
    filter (λ p, elapsed now (started_at p.2) ≤ CHUNK_TRANSFER_TIMEOUT_SECS * NANOS_PER_SEC)
      sts.
Proof.
  apply map_eq. intros t. rewrite cleanup_lookup, map_lookup_filter.
  destruct (sts !! t) as [st|]; [|done]. cbn. unfold stale.
  destruct (Z.ltb_spec (CHUNK_TRANSFER_TIMEOUT_SECS * NANOS_PER_SEC)
    (elapsed now (started_at st))); case_guard; cbn in *; done || lia.
Qed.

(** C33: handling a gossipsub payload panics exactly when it is the end marker of
    a transfer that has as many chunks as announced and whose announced total
    size exceeds [isize::MAX] ([Vec::with_capacity] is called with it). *)
Theorem incoming_panics_iff now data sts :
  handle_incoming_message now data sts = Panic ↔
  ∃ tid st, message_from_bytes data = Ok (ChunkEnd tid) ∧ sts !! tid = Some st ∧
    as_u32 (Z.of_nat (size (received st))) = total_chunks st ∧ ISIZE_MAX < total_size st.
Proof.
  unfold handle_incoming_message. split.
  - destruct (message_from_bytes data) as [[c|t n h s|t i d|t]|e] eqn:Hm; simpl.
    1-3: by repeat case_match.
    2: by repeat case_match.
    destruct (sts !! t) as [st|] eqn:Hst; [|done].
    intros [Hfin|(o & _ & [=])]%bind_Panic. exists t, st.
    unfold finish_transfer, vec_with_capacity in Hfin.
    destruct (Z.eqb_spec (as_u32 (Z.of_nat (size (received st)))) (total_chunks st)); [|done].
    destruct (Z.ltb_spec ISIZE_MAX (total_size st)); [done|].
    cbn in Hfin. by repeat case_match.
  - intros (t & st & -> & Hst & Hn & Hs). simpl. rewrite Hst.
    unfold finish_transfer, vec_with_capacity. rewrite Hn, Z.eqb_refl.
    by rewrite (proj2 (Z.ltb_lt _ _) Hs).
Qed.

(** A payload that is not a network message is never dropped: it is delivered
    as the content it deserialises to, or else as text (the legacy formats), and
    the running transfers are untouched. *)
Theorem legacy_payload_delivered now data sts e :
  message_from_bytes data = Err e →
  ∃ content, handle_incoming_message now data sts = Done (sts, Some content) ∧
    (content_from_bytes data = Ok content ∨
     (∃ e', content_from_bytes data = Err e') ∧ content = Text (from_utf8_lossy data)).
Proof.
  intros Hm. unfold handle_incoming_message. rewrite Hm.
  destruct (content_from_bytes data) as [c|e'] eqn:Hc; eauto 6.
Qed.
End transfer_theorems.

(** ** Witnesses, with the codec of [Codec] *)

From S2P Require Import Codec.

Lemma enc_int_fits k z : 0 ≤ z < 256 ^ Z.of_nat k → enc_int k z = Some (le_bytes k z).
Proof. intros. unfold enc_int. by rewrite bool_decide_true. Qed.

Lemma enc_blob_fits p :
  Z.of_nat (length p) < 256 ^ 8 →
  enc_blob p = Some (le_bytes 8 (Z.of_nat (length p)) ++ p).
Proof. intros. unfold enc_blob. rewrite enc_int_fits by lia. done. Qed.

Lemma codec_chunk_exists uuid i c :
  Z.of_nat (length (bytes_of_string uuid)) < 256 ^ 8 → 0 ≤ i ≤ U32_MAX →
  Z.of_nat (length c) < 256 ^ 8 → ∃ b, message_to_bytes (Chunk uuid i c) = Ok b.
Proof.
  intros Hu Hi Hc. unfold message_to_bytes. cbn -[le_bytes Z.pow]. unfold ser, enc_message, enc_str.
  rewrite enc_blob_fits by done. cbn -[le_bytes Z.pow].
  rewrite enc_int_fits by (change (256 ^ Z.of_nat 4) with 4294967296; unfold U32_MAX in *; lia).
  cbn -[le_bytes Z.pow]. rewrite enc_blob_fits by done. eauto.
Qed.

Lemma codec_wire uuid (cs : list (list u8)) :
  Z.of_nat (length (bytes_of_string uuid)) < 256 ^ 8 →
  Z.of_nat (length cs) ≤ U32_MAX → Forall (λ c, Z.of_nat (length c) < 256 ^ 8) cs →
  ∃ mid, Forall2 (λ p m, message_from_bytes p.2 = Ok m ∧
    within_timeout (at_once 0) p.1) mid (chunk_messages uuid cs).
Proof.
  intros Hu Hn Hcs.
  assert (Hall : Forall (λ m, ∃ b, message_to_bytes m = Ok b) (chunk_messages uuid cs)).
  { apply Forall_forall. intros m Hm.
    apply elem_of_lookup_imap in Hm as (k & c & -> & Hk).
    pose proof (lookup_lt_Some _ _ _ Hk). apply codec_chunk_exists; [done| |].
    - rewrite wrap_small by (apply fits_u32; lia). lia.
    - by eapply (Forall_lookup_1 _ _ _ _ Hcs). }
  induction Hall as [|m ms [b Hb] _ [mid IH]]; [by exists []|].
  exists ((at_once 0, b) :: mid). constructor; [|done]. split; [|done].
  by apply deserialize_serialize_message.
Qed.

Lemma codec_image_raw p :
  Z.of_nat (length p) < 256 ^ 8 →
  content_to_bytes (Image p) = Ok (1 :: le_bytes 8 (Z.of_nat (length p)) ++ p).
Proof.
  intros Hp. unfold content_to_bytes. cbn -[le_bytes]. unfold ser, enc_content.
  by rewrite enc_blob_fits.
Qed.

(** A two-megabyte image is received as it was sent. *)
Lemma transfer_delivers_witness :
  let content := Image (replicate (Z.to_nat 2000000) 0) in
  ∃ (raw : list u8) first body last bs be mid sts' outs,
    CHUNK_DATA_SIZE < Z.of_nat (length raw) ∧
    split_to_network_messages "id" content = Ok (first :: body ++ [last]) ∧
    receive_all ((at_once 0, bs) :: mid ++ [(at_once 1, be)]) ∅ = Done (sts', outs ++ [content]) ∧
    sts' !! "id" = None.
Proof.
  intros content.
  assert (Hc : ∃ p, content = Image p ∧ Z.of_nat (length p) = 2000000).
  { eexists. split; [reflexivity|]. rewrite length_replicate. by apply Z2Nat.id. }
  clearbody content. destruct Hc as (p & -> & Hp).
  assert (Hraw : ∃ raw, content_to_bytes (Image p) = Ok raw ∧ Z.of_nat (length raw) = 2000009).
  { eexists. split; [apply codec_image_raw; by rewrite Hp|].
    rewrite length_cons, length_app, le_bytes_length. lia. }
  destruct Hraw as (raw & Hraw & Hlen).
  assert (Hlarge : CHUNK_DATA_SIZE < Z.of_nat (length raw)) by (rewrite Hlen; done).
  assert (Htr : transferable raw) by (unfold transferable; rewrite Hlen; done).
  destruct (split_large "id" (Image p) raw Hraw Hlarge Htr) as [Hsplit Hcnt].
  set (cs := chunks (Z.to_nat CHUNK_DATA_SIZE) raw) in *.
  assert (Hcs : Forall (λ c, Z.of_nat (length c) < 256 ^ 8) cs).
  { apply (list.Forall_impl _ _ _ (chunks_bounds _ chunk_size_pos raw)). intros c [_ Hc].
    apply inj_le in Hc. rewrite chunk_size_Z in Hc.
    change (256 ^ 8) with 18446744073709551616. unfold CHUNK_DATA_SIZE in Hc. lia. }
  clearbody cs. destruct (codec_wire "id" cs) as [mid Hmid]; [done..|].
  assert (Hbs : ∃ b, message_to_bytes (ChunkStart "id" (Z.of_nat (length cs)) (sha256_hex raw)
      (Z.of_nat (length raw))) = Ok b).
  { rewrite Hlen. unfold message_to_bytes. cbn -[le_bytes Z.pow foldr Z.of_nat]. unfold ser, enc_message.
    unfold enc_str, sha256_hex. cbn [hex_encode sha256 digest].
    rewrite !enc_blob_fits by done. cbn -[le_bytes Z.pow foldr Z.of_nat].
    rewrite !enc_int_fits by (unfold U32_MAX in *; cbn [Z.of_nat]; split; lia || done). eauto. }
  destruct Hbs as [bs Hbs].
  eexists raw, _, _, _, bs, _, mid.
  destruct (transfer_delivers "id" (Image p) raw _ _ _ bs _ (at_once 0) (at_once 1) mid (chunk_messages "id" cs) ∅
    Hraw Htr Hsplit Hbs eq_refl Hmid) as (sts' & outs & Hrun & Hgone).
  - done.
  - by intros m Hm.
  - by intros m Hm.
  - apply Forall_forall. intros m Hm.
    by apply elem_of_lookup_imap in Hm as (? & ? & -> & ?).
  - intros t st Ht. by rewrite lookup_empty in Ht.
  - exists sts', outs. split; [exact Hlarge|]. split; [exact Hsplit|]. split; [exact Hrun|exact Hgone].
Defined.

Lemma chunk_end_delivers_verified_witness :
  let raw := [0; 2; 0; 0; 0; 0; 0; 0; 0; 104; 105] in
  let st := mk_ChunkReceiveState 2 (sha256_hex raw) 11
    {[ 1 := drop 5 raw; 0 := take 5 raw ]} 0 in
  ∃ cs, Forall2 (λ i c, received st !! i = Some c) (seqZ 0 (total_chunks st)) cs ∧
    content_from_bytes (concat cs) = Ok (Text "hi").
Proof.
  intros raw st.
  destruct (chunk_end_delivers_verified 5 "id" {[ "id" := st ]} ∅ (Some (Text "hi")))
    as [_ Hd]; [vm_compute; reflexivity|].
  destruct (Hd (Text "hi") eq_refl) as (st' & cs & Hst & Hcs & _ & _ & Hc).
  rewrite lookup_singleton_eq in Hst. injection Hst as <-. by exists cs.
Defined.

Lemma transfers_independent_witness :
  let st := mk_ChunkReceiveState 1 "h" 5 ∅ 0 in
  (<[ "b" := st ]> {[ "a" := st ]} : gmap string ChunkReceiveState) !! "a" = Some st.
Proof.
  intros st.
  rewrite (transfers_independent 0 (ChunkStart "b" 1 "h" 5) {[ "a" := st ]} _ None "a");
    [reflexivity|done|reflexivity].
Defined.

Lemma legacy_payload_delivered_witness :
  message_from_bytes [104; 105] = @Err (@bincode_error codec) _ tt ∧
  ∃ content, handle_incoming_message 0 [104; 105] ∅ = Done (∅, Some content).
Proof.
  split; [reflexivity|].
  edestruct (legacy_payload_delivered 0 [104; 105] ∅) as (c & Hc & _);
    [vm_compute; reflexivity|by exists c].
Defined.

(** Two small messages of a remote peer stop the receiver: a [ChunkStart] that
    announces no chunk and [2^63] bytes, then its [ChunkEnd]. *)
Example oversized_transfer_panics :
  ∃ b1 b2, message_to_bytes (ChunkStart "t" 0 "" (2 ^ 63)) = Ok b1 ∧
    message_to_bytes (ChunkEnd "t") = Ok b2 ∧
    receive_all [(at_once 0, b1); (at_once 1, b2)] ∅ = Panic.
Proof.
  eexists _, _. split; [vm_compute; reflexivity|].
  split; [vm_compute; reflexivity|]. vm_compute. reflexivity.
Qed.
