(* ===== verification/TransferSpec.v ===== *)
(** * What the reception of transfers promises

    A specification of [handle_incoming_message] and [cleanup_stale_chunk_states]
    without a table: what a message delivers is a function of the messages that came
    before it.  [Transfer.v] is shown to implement it. *)

From S2P Require Import Prelude RustStr Content Transfer.

Local Open Scope Z_scope.

(** ** Types of messages and of the table *)

(** The fields of a message fit their machine types. *)
Definition typed_message (m : NetworkMessage) : Prop :=
  match m with
  | ChunkStart _ total_chunks _ total_size => fits 32 total_chunks ∧ fits 64 total_size
  | Chunk _ index data => fits 32 index ∧ Forall (fits 8) data
  | _ => True
  end.

Record typed_state (now : Z) (st : ChunkReceiveState) : Prop := {
  typed_total_chunks : fits 32 (total_chunks st);
  typed_total_size : fits 64 (total_size st);
  typed_received : map_Forall (λ i d, fits 32 i ∧ Forall (fits 8) d) (received st);
  typed_started : started_at st ≤ now;
}.
Definition typed_table (now : Z) (sts : gmap string ChunkReceiveState) : Prop :=
  map_Forall (λ _, typed_state now) sts.

(** [bincode] returns values of the types it is asked for. *)
Class BincodeTyped `{Bincode} : Prop :=
  message_typed b m : Forall (fits 8) b → message_from_bytes b = Ok m → typed_message m.

(** ** The specification *)

(** A transfer as its messages tell it: the announcement and its time, and the chunks
    since, the latest first. *)
Record Session := mk_Session {
  s_started : Z; s_total : u32; s_hash : string; s_size : u64; s_chunks : list (Z * list u8) }.

Definition add_chunk (i : Z) (d : list u8) (s : Session) : Session :=
  mk_Session (s_started s) (s_total s) (s_hash s) (s_size s) ((i, d) :: s_chunks s).

(** The running transfer [tid] after the messages [hist], the latest first: the last
    announcement, unless an end marker came after it. *)
Fixpoint session (tid : string) (hist : list (Times * NetworkMessage)) : option Session :=
  match hist with
  | [] => None
  | (t, m) :: hist' =>
      match m with
      | ChunkStart tid' n h s =>
          if decide (tid' = tid) then Some (mk_Session (t_event t) n h s []) else session tid hist'
      | Chunk tid' i d =>
          if decide (tid' = tid) then add_chunk i d <$> session tid hist' else session tid hist'
      | ChunkEnd tid' => if decide (tid' = tid) then None else session tid hist'
      | Direct _ => session tid hist'
      end
  end.

(** A chunk sent again replaces the former. *)
Fixpoint latest (i : Z) (chunks : list (Z * list u8)) : option (list u8) :=
  match chunks with
  | [] => None
  | (j, d) :: chunks' => if decide (j = i) then Some d else latest i chunks'
  end.

(** The chunks [0 .. n-1], and no other, have been received. *)
Definition complete (n : u32) (chunks : list (Z * list u8)) : Prop :=
  Forall (λ i, is_Some (latest i chunks)) (seqZ 0 n) ∧ Forall (λ p, 0 ≤ p.1 < n) chunks.

#[export] Instance complete_dec n chunks : Decision (complete n chunks).
Proof. unfold complete. apply _. Defined.

(** At the head of the iteration that handles a message. *)
Definition timely (now : Times) (s : Session) : Prop :=
  t_head now - s_started s ≤ CHUNK_TRANSFER_TIMEOUT_SECS * NANOS_PER_SEC.

#[export] Instance timely_dec now s : Decision (timely now s).
Proof. unfold timely. apply _. Defined.

Section spec.
Context `{Bincode} `{Digest}.

(** The content of a complete transfer, if it is what was announced. *)
Definition assembled (s : Session) : option ClipboardContent :=
  let data := concat (omap (λ i, latest i (s_chunks s)) (seqZ 0 (s_total s))) in
  if decide (sha256_hex data = s_hash s) then res_ok (content_from_bytes data) else None.

(** What the message [m] delivers at [now] after [hist]. *)
Definition delivers (hist : list (Times * NetworkMessage)) (now : Times) (m : NetworkMessage) :
    option ClipboardContent :=
  match m with
  | Direct content => Some content
  | ChunkEnd tid =>
      s ← session tid hist;
      if decide (timely now s ∧ complete (s_total s) (s_chunks s)) then assembled s else None
  | _ => None
  end.

Fixpoint delivers_all (hist trace : list (Times * NetworkMessage)) : list ClipboardContent :=
  match trace with
  | [] => []
  | (now, m) :: trace' =>
      option_list (delivers hist now m) ++ delivers_all ((now, m) :: hist) trace'
  end.

(** A payload as a message: one that is not a network message counts as a direct
    content. *)
Definition as_message (data : list u8) : NetworkMessage :=
  match message_from_bytes data with
  | Ok m => m
  | Err _ =>
      match content_from_bytes data with
      | Ok content => Direct content
      | Err _ => Direct (Text (from_utf8_lossy data))
      end
  end.

Lemma handle_as_message now data sts :
  handle_incoming_message now data sts = handle_net_msg now (as_message data) sts.
Proof.
  unfold handle_incoming_message, as_message.
  destruct (message_from_bytes data); [done|]. by destruct (content_from_bytes data).
Qed.

(** ** The table against the history *)

Definition state_of (s : Session) : ChunkReceiveState :=
  mk_ChunkReceiveState (s_total s) (s_hash s) (s_size s)
    (list_to_map (s_chunks s)) (s_started s).

(** What the table has of [tid] at [now]. *)
Definition view (now : Times) (hist : list (Times * NetworkMessage)) (tid : string) :
    option ChunkReceiveState :=
  s ← session tid hist; if decide (timely now s) then Some (state_of s) else None.

(** Past messages, of the announced types. *)
Definition hist_ok (now : Times) (hist : list (Times * NetworkMessage)) : Prop :=
  Forall (λ p, t_event p.1 ≤ t_event now ∧ typed_message p.2 ∧ message_size_ok p.2) hist.

Definition implements (now : Times) (hist : list (Times * NetworkMessage))
    (sts : gmap string ChunkReceiveState) : Prop :=
  (∀ tid, sts !! tid = view now hist tid) ∧ hist_ok now hist.

Lemma latest_map i chunks : latest i chunks = (list_to_map chunks : gmap Z (list u8)) !! i.
Proof.
  induction chunks as [|[j d] chunks IH]; [done|]. cbn [latest list_to_map foldr fst snd].
  rewrite lookup_insert. by case_decide.
Qed.

Lemma session_ok tid hist now s :
  hist_ok now hist → session tid hist = Some s →
  s_started s ≤ t_event now ∧ fits 32 (s_total s) ∧ s_size s ≤ ISIZE_MAX
    ∧ (length (s_chunks s) ≤ length hist)%nat.
Proof.
  intros Hh. revert s. induction Hh as [|[t m] hist (Ht & Hty & Hsz) Hh IH]; intros s; [done|].
  assert (∀ s', session tid hist = Some s' → s_started s' ≤ t_event now ∧ fits 32 (s_total s')
    ∧ s_size s' ≤ ISIZE_MAX ∧ (S (length (s_chunks s')) ≤ S (length hist))%nat) as IH'
    by (intros s' Hs; apply IH in Hs; repeat split; lia || apply Hs).
  cbn [session length]. simpl in Ht. destruct m as [c|tid' n h sz|tid' i d|tid'].
  - intros Hs%IH'. repeat split; lia || apply Hs.
  - case_decide; [intros [= <-]|intros Hs%IH'; repeat split; lia || apply Hs].
    cbn [s_started s_total s_size s_chunks length]. repeat split; lia || apply Hty || done.
  - case_decide; [|intros Hs%IH'; repeat split; lia || apply Hs].
    intros (s' & Hs%IH' & ->)%fmap_Some. cbn [add_chunk s_started s_total s_size s_chunks length].
    repeat split; lia || apply Hs.
  - case_decide; [done|intros Hs%IH'; repeat split; lia || apply Hs].
Qed.

Lemma stale_timely now s :
  stale (t_head now) (state_of s) = negb (bool_decide (timely now s)).
Proof.
  unfold stale, elapsed, timely, CHUNK_TRANSFER_TIMEOUT_SECS, NANOS_PER_SEC.
  cbn [state_of started_at].
  destruct (Z.ltb_spec (120 * 1000000000) (Z.max 0 (t_head now - s_started s)));
    case_bool_decide; done || lia.
Qed.

(** An iteration after the events up to [now]. *)
Definition later (now t : Times) : Prop := t_event now ≤ t_head t ≤ t_event t.

(** The cleanup brings the table to the present. *)
Lemma cleanup_implements now now' hist sts :
  t_head now ≤ t_event now → later now now' → implements now hist sts →
  implements now' hist (cleanup_stale_chunk_states (t_head now') sts).
Proof.
  intros Hnow [Hle Hle'] [Hsts Hh].
  assert (hist_ok now' hist) as Hh' by (eapply Forall_impl; [exact Hh|]; intros p (? & ? & ?);
    split; [lia|done]).
  split; [|done]. intros tid. rewrite cleanup_lookup, Hsts. unfold view.
  destruct (session tid hist) as [s|] eqn:Hs; [|done]. cbn [mbind option_bind].
  case_decide as Ht; [rewrite stale_timely|].
  - case_bool_decide; case_decide; done.
  - case_decide as Ht'; [|done]. unfold timely in *. lia.
Qed.

(** *** A complete transfer *)

Lemma gather_latest chunks idxs acc :
  gather_chunks (list_to_map chunks) idxs acc =
    if decide (Forall (λ i, is_Some (latest i chunks)) idxs)
    then Some (acc ++ concat (omap (λ i, latest i chunks) idxs)) else None.
Proof.
  revert acc. induction idxs as [|i idxs IH]; intros acc; cbn [gather_chunks].
  { rewrite decide_True by constructor. cbn. by rewrite app_nil_r. }
  rewrite <- latest_map. cbn [omap list_omap]. destruct (latest i chunks) as [d|] eqn:Hd.
  - rewrite IH. cbn [concat]. case_decide as H1.
    + rewrite decide_True; [by rewrite app_assoc|]. by constructor.
    + rewrite decide_False; [done|]. by intros [_ ?]%Forall_cons.
  - rewrite decide_False; [done|]. intros [Hi _]%Forall_cons. rewrite Hd in Hi.
    by destruct Hi.
Qed.

Definition chunk_map (chunks : list (Z * list u8)) : gmap Z (list u8) := list_to_map chunks.

Lemma chunk_map_size chunks : (size (chunk_map chunks) ≤ length chunks)%nat.
Proof.
  induction chunks as [|[i d] chunks IH]; [done|]. unfold chunk_map in *. cbn [list_to_map foldr].
  rewrite map_size_insert. cbn [length]. case_match; simpl in *; lia.
Qed.

(** The test of the code on the number of chunks and its search for all of them amount
    to the chunks being those announced. *)
Lemma complete_iff n chunks :
  0 ≤ n → Z.of_nat (length chunks) ≤ U32_MAX →
  complete n chunks ↔
  as_u32 (Z.of_nat (size (chunk_map chunks))) = n
    ∧ Forall (λ i, is_Some (latest i chunks)) (seqZ 0 n).
Proof.
  intros Hn Hlen. pose proof (chunk_map_size chunks) as Hsize.
  rewrite wrap_small by (apply fits_u32; lia). unfold complete.
  set (S := list_to_set (seqZ 0 n) : gset Z).
  assert (size S = Z.to_nat n) as HS
    by (unfold S; rewrite size_list_to_set by apply NoDup_seqZ; apply length_seqZ).
  assert (Forall (λ i, is_Some (latest i chunks)) (seqZ 0 n) → S ⊆ dom (chunk_map chunks)) as Hsub.
  { intros Hall i Hi%elem_of_list_to_set. rewrite Forall_forall in Hall.
    apply elem_of_dom. unfold chunk_map. rewrite <- latest_map. by apply Hall. }
  assert (∀ i, i ∈ dom (chunk_map chunks) ↔ ∃ d, (i, d) ∈ chunks) as Hdom.
  { intros i. unfold chunk_map. rewrite dom_list_to_map_L, elem_of_list_to_set, list_elem_of_fmap.
    split; [intros ([j d] & -> & ?); eauto|intros [d ?]; by exists (i, d)]. }
  rewrite <- (size_dom (D := gset Z)). split.
  - intros [Hall Hin]. split; [|done].
    assert (dom (chunk_map chunks) = S) as ->; [|rewrite HS; lia].
    apply set_eq. intros i. split; [|by apply Hsub]. intros [d Hd]%Hdom.
    rewrite Forall_forall in Hin. apply Hin in Hd. apply elem_of_list_to_set, elem_of_seqZ.
    simpl in Hd. lia.
  - intros [Heq Hall]. split; [done|]. apply Forall_forall. intros [i d] Hd. simpl.
    assert (i ∈ S) as Hi%elem_of_list_to_set%elem_of_seqZ; [|lia].
    rewrite (set_subseteq_size_eq S (dom (chunk_map chunks))); [|by apply Hsub|rewrite HS; lia].
    apply Hdom. eauto.
Qed.

Lemma finish_transfer_delivers s :
  fits 32 (s_total s) → Z.of_nat (length (s_chunks s)) ≤ U32_MAX → s_size s ≤ ISIZE_MAX →
  finish_transfer (state_of s) =
    Done (if decide (complete (s_total s) (s_chunks s)) then assembled s else None).
Proof.
  intros [Hn _] Hlen Hsize. unfold finish_transfer.
  cbn [state_of received Transfer.total_chunks total_size data_hash].
  pose proof (complete_iff _ _ Hn Hlen) as Hc. unfold chunk_map in Hc.
  destruct (Z.eqb_spec (as_u32 (Z.of_nat (size (list_to_map (s_chunks s) : gmap Z (list u8)))))
    (s_total s)) as [Heq|Hne].
  2: { by rewrite decide_False by by intros [? _]%Hc. }
  unfold vec_with_capacity. rewrite (proj2 (Z.ltb_ge _ _)) by done. cbn [mbind outcome_bind].
  rewrite gather_latest. case_decide as Hall.
  - rewrite decide_True by (by apply Hc). unfold assembled.
    cbn [app]. case_bool_decide; case_decide; done.
  - by rewrite decide_False by by intros [_ ?]%Hc.
Qed.

(** *** The simulation *)

Lemma session_other t now m hist :
  message_tid m ≠ Some t → session t ((now, m) :: hist) = session t hist.
Proof.
  intros Hm. cbn [session]. destruct m; simpl in Hm; try done;
    rewrite decide_False by congruence; done.
Qed.

(** Only the transfer a message belongs to has to be looked at. *)
Lemma implements_step now m hist sts sts' out :
  implements now hist sts → typed_message m → message_size_ok m →
  handle_net_msg (t_event now) m sts = Done (sts', out) →
  (∀ tid, message_tid m = Some tid → sts' !! tid = view now ((now, m) :: hist) tid) →
  implements now ((now, m) :: hist) sts'.
Proof.
  intros [Hsts Hh] Htyped Hsize Hstep Hm. split.
  - intros t. destruct (decide (message_tid m = Some t)) as [Ht|Ht]; [by apply Hm|].
    rewrite (handle_net_msg_other (t_event now) m sts sts' out t Ht Hstep), Hsts.
    unfold view. by rewrite session_other.
  - by constructor.
Qed.

(** One message: the table goes on implementing the history, and what is delivered is
    what the specification says. *)
Lemma handle_implements now m hist sts :
  t_head now ≤ t_event now →
  implements now hist sts → typed_message m → message_size_ok m →
  Z.of_nat (length hist) ≤ U32_MAX →
  ∃ sts', handle_net_msg (t_event now) m sts = Done (sts', delivers hist now m)
    ∧ implements now ((now, m) :: hist) sts'.
Proof.
  intros Hnow Himpl Htyped Hsize Hlen. pose proof Himpl as [Hsts Hh].
  assert (∃ sts', handle_net_msg (t_event now) m sts = Done (sts', delivers hist now m)
    ∧ (∀ tid, message_tid m = Some tid → sts' !! tid = view now ((now, m) :: hist) tid))
    as (sts' & Hstep & Hm); [|exists sts'; split; [done|by eapply implements_step]].
  destruct m as [c|tid n h sz|tid i d|tid]; cbn [handle_net_msg delivers message_tid].
  - by eexists.
  - eexists. split; [done|]. intros t [= <-]. rewrite lookup_insert_eq. unfold view, timely.
    cbn [session]. rewrite decide_True by done. cbn [mbind option_bind s_started].
    rewrite decide_True; [done|].
    unfold CHUNK_TRANSFER_TIMEOUT_SECS, NANOS_PER_SEC. lia.
  - rewrite Hsts. unfold view. cbn [session].
    destruct (session tid hist) as [s|] eqn:Hs; cbn [mbind option_bind].
    + case_decide as Ht; (eexists; split; [done|]); intros t [= <-];
        rewrite decide_True, Hs by done; cbn [fmap option_fmap option_map mbind option_bind].
      * rewrite lookup_insert_eq. by rewrite decide_True.
      * rewrite Hsts. unfold view. rewrite Hs. cbn [mbind option_bind]. by rewrite !decide_False.
    + eexists. split; [done|]. intros t [= <-]. rewrite decide_True, Hs by done.
      rewrite Hsts. unfold view. by rewrite Hs.
  - rewrite Hsts. unfold view. cbn [session].
    destruct (session tid hist) as [s|] eqn:Hs; cbn [mbind option_bind].
    + destruct (session_ok tid hist now s Hh Hs) as (_ & Hn & Hz & Hl). case_decide as Ht.
      * rewrite finish_transfer_delivers by (done || lia). cbn [mbind outcome_bind].
        eexists. split; [do 2 f_equal; repeat case_decide; tauto|].
        intros t [= <-]. by rewrite lookup_delete_eq, decide_True.
      * eexists. split; [by rewrite decide_False by by intros [? _]|]. intros t [= <-].
        rewrite decide_True, Hsts by done. unfold view. rewrite Hs. cbn [mbind option_bind].
        by rewrite decide_False.
    + eexists. split; [done|]. intros t [= <-]. rewrite decide_True, Hsts by done.
      unfold view. by rewrite Hs.
Qed.

(** *** Traces *)

(** Timed payloads from [now] on, one iteration after the other. *)
Fixpoint increasing {A} (now : Times) (trace : list (Times * A)) : Prop :=
  match trace with
  | [] => True
  | (t, _) :: trace' => later now t ∧ increasing t trace'
  end.
Definition last_time {A} (now : Times) (trace : list (Times * A)) : Times := foldl (λ _ p, p.1) now trace.

Definition messages (trace : list (Times * list u8)) : list (Times * NetworkMessage) :=
  (λ p, (p.1, as_message p.2)) <$> trace.

(** Messages of their types that do not announce more than a [Vec] can hold. *)
Definition payload_ok (p : Times * list u8) : Prop :=
  typed_message (as_message p.2) ∧ message_size_ok (as_message p.2).

Lemma receive_all_implements now hist sts trace :
  t_head now ≤ t_event now → implements now hist sts → increasing now trace → Forall payload_ok trace →
  Z.of_nat (length hist + length trace) ≤ U32_MAX →
  ∃ sts', receive_all trace sts = Done (sts', delivers_all hist (messages trace))
    ∧ implements (last_time now trace) (reverse (messages trace) ++ hist) sts'.
Proof.
  revert now hist sts. induction trace as [|[t data] trace IH]; intros now hist sts Hnow Himpl Hinc Hok Hlen.
  { by exists sts. }
  destruct Hinc as [Ht Hinc]. apply Forall_cons in Hok as [[Htyped Hsize] Hok].
  cbn [length] in Hlen. apply (cleanup_implements now t) in Himpl; [|done..].
  destruct Ht as [_ Ht].
  destruct (handle_implements t (as_message data) hist _ Ht Himpl Htyped Hsize ltac:(lia))
    as (sts1 & Hstep & Himpl1).
  destruct (IH t ((t, as_message data) :: hist) sts1 Ht Himpl1 Hinc Hok) as (sts2 & Hrest & Himpl2);
    [cbn [length]; lia|].
  exists sts2. split.
  - cbn [receive_all]. unfold receive_step. rewrite handle_as_message, Hstep.
    cbn [mbind outcome_bind]. rewrite Hrest. done.
  - unfold messages in *. rewrite fmap_cons, reverse_cons, <- app_assoc. exact Himpl2.
Qed.
End spec.

(** ** Properties *)

Section transfer_spec.
Context `{Bincode} `{Digest}.

(** C5: the table of transfers implements its specification. From the start, for
    payloads that arrive at increasing times, the contents handed to the clipboard are
    exactly those that the history of messages calls for: each direct content, and for
    each end marker the content of the transfer last announced under its id, if at the
    head of the iteration it was announced at most 120 s before, its chunks are all there and no other, and their
    concatenation has the announced hash. *)
Theorem reception_refines_history (t0 : Z) (trace : list (Times * list u8)) :
  increasing (at_once t0) trace → Forall payload_ok trace → Z.of_nat (length trace) ≤ U32_MAX →
  ∃ sts, receive_all trace ∅ = Done (sts, delivers_all [] (messages trace))
    ∧ ∀ tid, sts !! tid = view (last_time (at_once t0) trace) (reverse (messages trace)) tid.
Proof.
  intros Hinc Hok Hlen.
  destruct (receive_all_implements (at_once t0) [] ∅ trace) as (sts & Hrun & [Hview _]); try done.
  { split; [intros tid; by rewrite lookup_empty|by constructor]. }
  exists sts. split; [done|]. by rewrite app_nil_r in Hview.
Qed.

Lemma typed_table_cleanup now now' sts :
  now ≤ now' → typed_table now sts → typed_table now' (cleanup_stale_chunk_states now' sts).
Proof.
  intros Hle Hsts tid st Hst. rewrite cleanup_lookup in Hst.
  destruct (sts !! tid) as [st'|] eqn:Hl; [|done]. destruct (stale now' st'); simplify_eq.
  destruct (Hsts tid st Hl) as [? ? ? ?]. split; try done. lia.
Qed.

(** The types of the table. The fields of the transfers keep to their machine types
    and no transfer started in the future, whatever well-formed bytes arrive. *)
Theorem reception_keeps_types `{!BincodeTyped} now data t sts sts' out :
  typed_table now sts → now ≤ t_head t ≤ t_event t → Forall (fits 8) data →
  receive_step t data sts = Done (sts', out) → typed_table (t_event t) sts'.
Proof.
  intros Hsts [Hle Hle'] Hdata. apply (typed_table_cleanup now (t_head t)) in Hsts; [|done].
  unfold receive_step. rewrite handle_as_message.
  set (sts1 := cleanup_stale_chunk_states (t_head t) sts) in *.
  assert (typed_table (t_event t) sts1) as Hsts1
    by (intros tid st Hst; destruct (Hsts tid st Hst); split; done || lia).
  clear Hsts. rename Hsts1 into Hsts.
  assert (typed_message (as_message data)) as Hm.
  { unfold as_message. destruct (message_from_bytes data) as [m|] eqn:Hb;
      [by eapply message_typed|]. by destruct (content_from_bytes data). }
  destruct (as_message data) as [c|tid n h sz|tid i d|tid]; cbn [handle_net_msg]; intros Hh.
  - by injection Hh as <- <-.
  - injection Hh as <- <-. apply map_Forall_insert_2; [|done]. destruct Hm.
    by split.
  - destruct (sts1 !! tid) as [st|] eqn:Hl; injection Hh as <- <-; [|done].
    apply map_Forall_insert_2; [|done]. destruct (Hsts tid st Hl) as [? ? ? ?].
    split; try done. by apply map_Forall_insert_2.
  - destruct (sts1 !! tid) as [st|]; [|by injection Hh as <- <-].
    apply bind_Done in Hh as (o & _ & [= <- <-]). by apply map_Forall_delete.
Qed.
End transfer_spec.

(** ** Witnesses *)

From S2P Require Import Codec.

Lemma dec_int_typed k l z r :
  Forall (fits 8) l → dec_int k l = Some (z, r) → fits (8 * Z.of_nat k) z ∧ Forall (fits 8) r.
Proof.
  intros Hl. unfold dec_int. case_bool_decide as Hk; [|done]. intros [= <- <-]. split.
  - pose proof (le_value_fits (take k l) (Forall_take _ _ _ Hl)) as Hv.
    by rewrite length_take, Nat.min_l in Hv by done.
  - by apply Forall_drop.
Qed.

Lemma dec_blob_typed l p r :
  Forall (fits 8) l → dec_blob l = Some (p, r) → Forall (fits 8) p ∧ Forall (fits 8) r.
Proof.
  intros Hl. unfold dec_blob. intros ([n r'] & Hn & Hb)%bind_Some.
  apply dec_int_typed in Hn as [_ Hr]; [|done]. case_bool_decide; simplify_eq/=.
  split; [by apply Forall_take|by apply Forall_drop].
Qed.

Lemma dec_str_typed l s r : Forall (fits 8) l → dec_str l = Some (s, r) → Forall (fits 8) r.
Proof.
  intros Hl. unfold dec_str. intros ([p r'] & Hp & Hb)%bind_Some. simplify_eq/=.
  by eapply dec_blob_typed.
Qed.

#[export] Instance codec_typed : BincodeTyped.
Proof.
  intros b m Hb. cbn [message_from_bytes deserialize_message codec]. unfold message_from_bytes.
  cbn [deserialize_message codec]. unfold de.
  destruct (dec_message b) as [[m' r]|] eqn:Hm; [|done]. intros [= ->].
  destruct b as [|tag b]; [done|]. apply Forall_cons in Hb as [_ Hb]. unfold dec_message in Hm.
  repeat case_match; try done.
  all: repeat match goal with
    | H : (_ ≫= _) = Some _ |- _ => apply bind_Some in H as ([? ?] & ? & H)
    | H : dec_str _ = Some _ |- _ => apply dec_str_typed in H; [|done]
    | H : dec_int _ _ = Some _ |- _ => apply dec_int_typed in H as [? ?]; [|done]
    | H : dec_blob _ = Some _ |- _ => apply dec_blob_typed in H as [? ?]; [|done]
    | H : Some _ = Some _ |- _ => injection H as <- <-
    end; simpl; done.
Qed.

Definition wire (m : NetworkMessage) : list u8 :=
  match message_to_bytes m with Ok b => b | Err _ => [] end.

(** A text in two chunks, out of order and one of them twice, with another transfer that
    is late. *)
Definition two_transfers : list (Times * list u8) :=
  let raw := [0; 2; 0; 0; 0; 0; 0; 0; 0; 104; 105] in
  let at_s h e := mk_Times (h * NANOS_PER_SEC) (e * NANOS_PER_SEC) in
  [(at_s 0 0, wire (ChunkStart "a" 2 (sha256_hex raw) 11));
   (at_s 0 1, wire (Chunk "a" 1 (drop 5 raw)));
   (at_s 1 2, wire (ChunkStart "b" 1 (sha256_hex raw) 11));
   (at_s 2 3, wire (Chunk "a" 0 [])); (at_s 3 3, wire (Chunk "b" 0 raw));
   (at_s 3 4, wire (Chunk "a" 0 (take 5 raw)));
   (at_s 120 121, wire (ChunkEnd "a")); (at_s 123 123, wire (ChunkEnd "b"));
   (at_s 123 124, [104])].

Lemma reception_refines_history_witness :
  ∃ sts, receive_all two_transfers ∅ = Done (sts, [Text "hi"; Text "h"]).
Proof.
  destruct (reception_refines_history 0 two_transfers) as (sts & Hrun & _).
  - repeat (split; [split; vm_compute; discriminate|]). exact I.
  - unfold two_transfers. repeat (apply Forall_cons; split); try apply Forall_nil_2; vm_compute;
      repeat first [exact I | discriminate | split | constructor].
  - done.
  - exists sts. rewrite Hrun. reflexivity.
Defined.

Lemma reception_keeps_types_witness :
  ∃ sts', receive_step (at_once 1) (wire (Chunk "a" 7 [255])) {[ "a" := mk_ChunkReceiveState 9 "h" 11 ∅ 0 ]}
    = Done (sts', None) ∧ typed_table 1 sts'.
Proof.
  eexists. split; [vm_compute; reflexivity|].
  eapply (reception_keeps_types 0 (wire (Chunk "a" 7 [255])) (at_once 1)
    {[ "a" := mk_ChunkReceiveState 9 "h" 11 ∅ 0 ]} _ None).
  - intros tid st [<- <-]%lookup_singleton_Some. split; cbn;
      [by split|by split|apply map_Forall_empty|done].
  - done.
  - vm_compute. repeat constructor; discriminate.
  - vm_compute. reflexivity.
Defined.
