(* ===== verification/Libp2p.v ===== *)
(** * The libp2p types the program handles

    [PeerId] and [Multiaddr] come from the [libp2p] crates, which are not part of
    the repository: the development is parametric in them.  The class lists the
    operations the code calls; [MultiaddrLaws] states the documented behaviour it
    relies on.  [list_libp2p] is a concrete instance for the witnesses. *)

From S2P Require Import Prelude RustStr.

Local Open Scope Z_scope.

(** [std::net::Ipv4Addr]. *)
Record Ipv4Addr := ipv4 { oct0 : u8; oct1 : u8; oct2 : u8; oct3 : u8 }.

#[export] Instance Ipv4Addr_eq_dec : EqDecision Ipv4Addr.
Proof. solve_decision. Defined.

Definition ipv4_fits (a : Ipv4Addr) : Prop :=
  fits 8 (oct0 a) ∧ fits 8 (oct1 a) ∧ fits 8 (oct2 a) ∧ fits 8 (oct3 a).

(** [Ipv4Addr::is_link_local]: 169.254.0.0/16. *)
Definition is_link_local (a : Ipv4Addr) : bool := (oct0 a =? 169) && (oct1 a =? 254).

Class Libp2p := {
  PeerId : Type;
  PeerId_eq_dec :: EqDecision PeerId;
  PeerId_countable :: Countable PeerId;
  (** [str::parse::<PeerId>]. *)
  parse_peer_id : string → option PeerId;
  Multiaddr : Type;
  Multiaddr_eq_dec :: EqDecision Multiaddr;
  Multiaddr_countable :: Countable Multiaddr;
  Protocol : Type;
  (** [Multiaddr::iter], [Multiaddr::pop] and [str::parse::<Multiaddr>]. *)
  ma_iter : Multiaddr → list Protocol;
  ma_pop : Multiaddr → Multiaddr * option Protocol;
  parse_multiaddr : string → option Multiaddr;
  (** The payload of [Protocol::Ip4] and [Protocol::P2p]. *)
  as_ip4 : Protocol → option Ipv4Addr;
  as_p2p : Protocol → option PeerId;
  (** [PeerId::to_base58] and [Display] of a [Multiaddr]. *)
  to_base58 : PeerId → string;
  display_multiaddr : Multiaddr → string;
}.

(** A [Multiaddr] is a sequence of protocols; [pop] removes the last one. *)
Class MultiaddrLaws `{Libp2p} : Prop := {
  ma_pop_iter a : ma_iter (ma_pop a).1 = take (pred (length (ma_iter a))) (ma_iter a);
  ma_pop_last a : (ma_pop a).2 = last (ma_iter a);
}.

(** ** A concrete instance: a peer is a number, an address a list of protocols,
    a protocol an IPv4 address (as four numbers), a peer or something else. *)

Definition toy_protocol : Type := (Z * Z * Z * Z) + (positive + Z).

Definition display_toy_protocol (p : toy_protocol) : string :=
  match p with
  | inl (a, b, c, d) => "/ip4/" +:+ join "." (display_u <$> [a; b; c; d])
  | inr (inl i) => "/p2p/" +:+ display_u (Zpos i)
  | inr (inr n) => "/tcp/" +:+ display_u n
  end.
Definition display_toy_protocols (a : list toy_protocol) : string :=
  join "" (display_toy_protocol <$> a).

(** The reader of these texts. *)
Fixpoint parse_dec (acc : Z) (s : string) : option Z :=
  match s with
  | EmptyString => Some acc
  | String a s' => match to_digit a with Some d => parse_dec (acc * 10 + d) s' | None => None end
  end.
Definition parse_toy_protocol (kind value : string) : option toy_protocol :=
  if decide (kind = "tcp"%string) then n ← parse_dec 0 value; Some (inr (inr n))
  else if decide (kind = "p2p"%string) then n ← parse_dec 0 value; Some (inr (inl (Z.to_pos n)))
  else if decide (kind = "ip4"%string) then
    match mapM (parse_dec 0) (split_char "." value) with
    | Some [a; b; c; d] => Some (inl (a, b, c, d))
    | _ => None
    end
  else None.
Fixpoint parse_toy_protocols (tokens : list string) : option (list toy_protocol) :=
  match tokens with
  | [] => Some []
  | kind :: value :: tokens' =>
      p ← parse_toy_protocol kind value; ps ← parse_toy_protocols tokens'; Some (p :: ps)
  | _ => None
  end.
Definition parse_toy_multiaddr (s : string) : option (list toy_protocol) :=
  match split_char "/" s with
  | EmptyString :: tokens => parse_toy_protocols tokens
  | _ => None
  end.

#[export] Instance list_libp2p : Libp2p := {|
  PeerId := positive;
  parse_peer_id s := if decide (s = "peer1"%string) then Some 1%positive else None;
  Multiaddr := list toy_protocol;
  Protocol := toy_protocol;
  ma_iter a := a;
  ma_pop a := (take (pred (length a)) a, last a);
  parse_multiaddr s := parse_toy_multiaddr s;
  as_ip4 p := match p with inl (a, b, c, d) => Some (ipv4 a b c d) | _ => None end;
  as_p2p p := match p with inr (inl i) => Some i | _ => None end;
  to_base58 i := display_u (Zpos i);
  display_multiaddr a := display_toy_protocols a;
|}.

#[export] Instance list_libp2p_laws : MultiaddrLaws.
Proof. by split. Qed.
