(* ===== verification/NetAddr.v ===== *)
(** * Addresses ([src/network.rs])

    [parse_ipv4_with_port] on top of the standard library's parsers of
    [Ipv4Addr] and [SocketAddrV4], the predicates on multiaddresses and
    [get_non_p2p_multiaddr]. *)

From S2P Require Import Prelude RustStr Libp2p.

Local Open Scope Z_scope.

(** ** [core::net::parser]

    A parser returns the value read and the remaining input. *)

(** [read_number(10, Some(max_digits), _)] up to its final checks: the value of the
    digits read, how many there are, and the rest; fails beyond [max_digits]. *)
Fixpoint read_digits_max (max_digits count : nat) (result : u32) (s : string) :
    option (u32 * nat * string) :=
  match s with
  | EmptyString => Some (result, count, s)
  | String a s' =>
      match to_digit a with
      | None => Some (result, count, s)
      | Some d =>
          if bool_decide (max_digits < S count)%nat then None
          else read_digits_max max_digits (S count) (result * 10 + d) s'
      end
  end.

(** An octet: [read_number(10, Some(3), false)] at [u8]. *)
Definition read_octet (s : string) : option (u8 * string) :=
  let has_leading_zero := starts_with "0" s in
  '(v, digit_count, r) ← read_digits_max 3 0 0 s;
  if bool_decide (digit_count = 0%nat) then None
  else if has_leading_zero && bool_decide (1 < digit_count)%nat then None
  else if v <=? 255 then Some (v, r) else None.

(** A port: [read_number(10, None, true)] at [u16], with checked arithmetic. *)
Fixpoint read_digits_u16 (count : nat) (result : u16) (s : string) :
    option (u16 * nat * string) :=
  match s with
  | EmptyString => Some (result, count, s)
  | String a s' =>
      match to_digit a with
      | None => Some (result, count, s)
      | Some d =>
          if U16_MAX <? result * 10 then None
          else if U16_MAX <? result * 10 + d then None
          else read_digits_u16 (S count) (result * 10 + d) s'
      end
  end.
Definition read_port_number (s : string) : option (u16 * string) :=
  '(v, digit_count, r) ← read_digits_u16 0 0 s;
  if bool_decide (digit_count = 0%nat) then None else Some (v, r).

Definition read_given_char (c : Ascii.ascii) (s : string) : option string :=
  match s with
  | String a s' => if Ascii.eqb a c then Some s' else None
  | EmptyString => None
  end.

Definition read_ipv4_addr (s : string) : option (Ipv4Addr * string) :=
  '(a, s) ← read_octet s;
  s ← read_given_char "."%char s; '(b, s) ← read_octet s;
  s ← read_given_char "."%char s; '(c, s) ← read_octet s;
  s ← read_given_char "."%char s; '(d, s) ← read_octet s;
  Some (ipv4 a b c d, s).

(** [<Ipv4Addr as FromStr>::from_str]. *)
Definition parse_ipv4 (s : string) : option Ipv4Addr :=
  if bool_decide (15 < String.length s)%nat then None
  else match read_ipv4_addr s with Some (ip, EmptyString) => Some ip | _ => None end.

(** [<SocketAddrV4 as FromStr>::from_str]. *)
Definition parse_socket_addr_v4 (s : string) : option (Ipv4Addr * u16) :=
  match ('(ip, s) ← read_ipv4_addr s; s ← read_given_char ":"%char s;
         '(port, s) ← read_port_number s; Some (ip, port, s)) with
  | Some (ip, port, EmptyString) => Some (ip, port)
  | _ => None
  end.

(** ** [parse_ipv4_with_port] *)

Definition parse_ipv4_with_port (input : option string) :
    result string (Ipv4Addr * u16) :=
  match input with
  | Some input_str =>
      let parts := split_char ":"%char input_str in
      match parts with
      | [_; _] =>
          match parse_socket_addr_v4 input_str with
          | Some (ip, port) => Ok (ip, port)
          | None => Err "Invalid input format"
          end
      | [part] =>
          match parse_ipv4 part with
          | Some ip => Ok (ip, 0)
          | None => Err "Invalid IP address or port number"
          end
      | _ => Err "Invalid input format"
      end
  | None => Err "Input is None"
  end%string.

(** [Display] of an [Ipv4Addr] and the multiaddress text built from it. *)
Definition display_ipv4 (a : Ipv4Addr) : string :=
  display_u (oct0 a) +:+ "." +:+ display_u (oct1 a) +:+ "." +:+
  display_u (oct2 a) +:+ "." +:+ display_u (oct3 a).
Definition tcp_multiaddr_text (ip : Ipv4Addr) (port : u16) : string :=
  "/ip4/" +:+ display_ipv4 ip +:+ "/tcp/" +:+ display_u port.

(** ** Multiaddresses *)

Section multiaddr.
Context `{Libp2p}.

Fixpoint pop_while (fuel : nat) (origin_addr : Multiaddr) : Multiaddr :=
  match fuel with
  | O => origin_addr
  | S fuel' =>
      if bool_decide (2 < length (ma_iter origin_addr))%nat
      then pop_while fuel' (ma_pop origin_addr).1 else origin_addr
  end.

(** Every round of the loop drops a protocol, so the number of protocols is
    enough fuel. *)
Definition get_non_p2p_multiaddr (origin_addr : Multiaddr) : Multiaddr :=
  pop_while (length (ma_iter origin_addr)) origin_addr.

(** Both predicates index the collected protocols at 0, which panics on the
    empty address. *)
Definition is_multiaddr_link_local (addr : Multiaddr) : outcome bool :=
  match ma_iter addr with
  | [] => Panic
  | p :: _ => Done (match as_ip4 p with Some ip => is_link_local ip | None => false end)
  end.

Definition is_multiaddr_local (addr : Multiaddr) : outcome bool :=
  match ma_iter addr with
  | [] => Panic
  | p :: _ => Done (bool_decide (as_ip4 p = Some (ipv4 127 0 0 1)))
  end.
End multiaddr.

(** ** Reading back what was displayed *)

Lemma read_given_char_eq c s : read_given_char c (String c s) = Some s.
Proof. simpl. by rewrite Ascii.eqb_refl. Qed.

#[local] Arguments read_given_char : simpl never.
#[local] Arguments read_octet : simpl never.
#[local] Arguments read_ipv4_addr : simpl never.
#[local] Arguments read_port_number : simpl never.
#[local] Arguments display_u : simpl never.
#[local] Arguments display_ipv4 : simpl never.

Lemma read_digits_max_spec max count r ds rest :
  Forall is_digit ds → no_digit rest → (count + length ds ≤ max)%nat →
  read_digits_max max count r (digits_string ds +:+ rest) =
    Some (foldl push_digit r ds, (count + length ds)%nat, rest).
Proof.
  intros Hds Hrest. revert count r.
  induction Hds as [|d ds Hd Hds IH]; intros count r Hlen; cbn [digits_string foldl length].
  - rewrite string_app_nil, Nat.add_0_r. destruct rest as [|a rest]; simpl in *; [done|].
    by rewrite Hrest.
  - rewrite string_app_cons. cbn [read_digits_max]. rewrite to_digit_char by done.
    cbn [length] in Hlen. rewrite bool_decide_false by lia.
    rewrite IH by lia. by rewrite Nat.add_succ_r.
Qed.

Lemma foldl_push_digit_le r ds :
  Forall is_digit ds → 0 ≤ r → r ≤ foldl push_digit r ds.
Proof.
  intros Hds. revert r. induction Hds as [|d ds Hd Hds IH]; intros r Hr; simpl; [lia|].
  specialize (IH (push_digit r d)). unfold push_digit, is_digit in *. lia.
Qed.

Lemma read_digits_u16_spec count r ds rest :
  Forall is_digit ds → no_digit rest → 0 ≤ r → foldl push_digit r ds ≤ U16_MAX →
  read_digits_u16 count r (digits_string ds +:+ rest) =
    Some (foldl push_digit r ds, (count + length ds)%nat, rest).
Proof.
  intros Hds Hrest. revert count r.
  induction Hds as [|d ds Hd Hds IH]; intros count r Hr Hmax; cbn [digits_string foldl length].
  - rewrite string_app_nil, Nat.add_0_r. destruct rest as [|a rest]; simpl in *; [done|].
    by rewrite Hrest.
  - rewrite string_app_cons. cbn [read_digits_u16]. rewrite to_digit_char by done.
    cbn [foldl] in Hmax. unfold is_digit in Hd.
    pose proof (foldl_push_digit_le (push_digit r d) ds Hds) as Hle.
    unfold push_digit in Hle at 1 2.
    rewrite (proj2 (Z.ltb_ge _ _)) by lia. rewrite (proj2 (Z.ltb_ge _ _)) by lia.
    change (r * 10 + d) with (push_digit r d). rewrite IH; [by rewrite Nat.add_succ_r| |done].
    unfold push_digit. lia.
Qed.

Lemma fits_8_64 n : fits 8 n → fits 64 n.
Proof. unfold fits. change (2 ^ 8) with 256. change (2 ^ 64) with 18446744073709551616. lia. Qed.
Lemma fits_16_64 n : fits 16 n → fits 64 n.
Proof. unfold fits. change (2 ^ 16) with 65536. change (2 ^ 64) with 18446744073709551616. lia. Qed.

Lemma starts_with_zero_digits ds rest :
  Forall is_digit ds → (0 < length ds)%nat →
  starts_with "0" (digits_string ds +:+ rest) = true → head ds = Some 0.
Proof.
  intros Hds Hlen. destruct Hds as [|d ds Hd Hds]; [simpl in Hlen; lia|].
  cbn [digits_string]. rewrite string_app_cons. unfold starts_with. cbn.
  destruct (Ascii.eqb_spec "0"%char (digit_char d)) as [Heq|]; [intros _; f_equal|done].
  pose proof (to_digit_char d Hd) as Hto. rewrite <- Heq in Hto. by injection Hto.
Qed.

Lemma read_octet_display n rest :
  fits 8 n → no_digit rest → read_octet (display_u n +:+ rest) = Some (n, rest).
Proof.
  intros Hn Hrest. destruct (display_u_digits n) as (ds & -> & Hdig); [by apply fits_8_64|].
  unfold fits in Hn. change (2 ^ 8) with 256 in Hn. destruct Hdig as [Hr He Hp Hl Hh].
  assert (length ds ≤ 3)%nat by (apply Hl; simpl; lia).
  unfold read_octet. rewrite read_digits_max_spec by (done || lia). cbn.
  rewrite bool_decide_false by lia. fold (digits_value ds). rewrite He.
  destruct (starts_with "0" _) eqn:Hz; cbn.
  - apply starts_with_zero_digits in Hz; [|done..]. specialize (Hh Hz).
    rewrite bool_decide_false by (enough (length ds ≤ 1)%nat by lia; apply Hl; simpl; lia).
    by rewrite (proj2 (Z.leb_le _ _)) by lia.
  - by rewrite (proj2 (Z.leb_le _ _)) by lia.
Qed.

Lemma read_port_display n rest :
  fits 16 n → no_digit rest → read_port_number (display_u n +:+ rest) = Some (n, rest).
Proof.
  intros Hn Hrest. destruct (display_u_digits n) as (ds & -> & Hdig); [by apply fits_16_64|].
  unfold fits in Hn. change (2 ^ 16) with 65536 in Hn. destruct Hdig as [Hr He Hp Hl Hh].
  unfold read_port_number. rewrite read_digits_u16_spec; [|done|done|done|].
  - cbn. rewrite bool_decide_false by lia. fold (digits_value ds). by rewrite He.
  - fold (digits_value ds). unfold U16_MAX. lia.
Qed.

Lemma read_ipv4_display ip rest :
  ipv4_fits ip → no_digit rest →
  read_ipv4_addr (display_ipv4 ip +:+ rest) = Some (ip, rest).
Proof.
  destruct ip as [a b c d]. intros (Ha & Hb & Hc & Hd) Hrest. simpl in *.
  unfold read_ipv4_addr, display_ipv4. cbn [oct0 oct1 oct2 oct3].
  rewrite !string_app_assoc, !string_app_cons, !string_app_nil.
  do 3 (rewrite read_octet_display by done; cbn; rewrite read_given_char_eq; cbn).
  by rewrite read_octet_display.
Qed.

Lemma string_app_nil_r (s : string) : s +:+ EmptyString = s.
Proof. induction s as [|a s IH]; [done|]. by rewrite string_app_cons, IH. Qed.

Lemma length_digits_string ds : String.length (digits_string ds) = length ds.
Proof. induction ds; simpl; congruence. Qed.

Lemma length_display_octet n : fits 8 n → (String.length (display_u n) ≤ 3)%nat.
Proof.
  intros Hn. destruct (display_u_digits n) as (ds & -> & [_ _ _ Hl _]); [by apply fits_8_64|].
  rewrite length_digits_string. apply Hl; [lia|]. unfold fits in Hn. simpl in *. lia.
Qed.

Lemma length_string_app s1 s2 :
  String.length (s1 +:+ s2) = (String.length s1 + String.length s2)%nat.
Proof. induction s1 as [|a s1 IH]; [done|]. rewrite string_app_cons. simpl. by rewrite IH. Qed.

Lemma length_display_ipv4 ip : ipv4_fits ip → (String.length (display_ipv4 ip) ≤ 15)%nat.
Proof.
  intros (Ha & Hb & Hc & Hd). unfold display_ipv4. rewrite !length_string_app.
  apply length_display_octet in Ha, Hb, Hc, Hd. simpl. lia.
Qed.

Lemma mem_colon_display_u n : fits 64 n → mem_char ":" (display_u n) = false.
Proof.
  intros Hn. destruct (display_u_digits n Hn) as (ds & -> & [Hr _ _ _ _]).
  by apply mem_char_digits.
Qed.

Lemma mem_colon_display_ipv4 ip : ipv4_fits ip → mem_char ":" (display_ipv4 ip) = false.
Proof.
  intros (Ha & Hb & Hc & Hd). unfold display_ipv4. rewrite !mem_char_app.
  by rewrite !mem_colon_display_u by (by apply fits_8_64).
Qed.

Lemma parse_socket_text ip port :
  ipv4_fits ip → fits 16 port →
  parse_ipv4_with_port (Some (display_ipv4 ip +:+ ":" +:+ display_u port)) = Ok (ip, port).
Proof.
  intros Hip Hport. unfold parse_ipv4_with_port. rewrite !string_app_cons, !string_app_nil.
  rewrite split_char_app_sep by by apply mem_colon_display_ipv4.
  rewrite split_char_no_sep by (by apply mem_colon_display_u, fits_16_64).
  unfold parse_socket_addr_v4. rewrite read_ipv4_display by done. cbn.
  rewrite read_given_char_eq. cbn. rewrite <- (string_app_nil_r (display_u port)).
  by rewrite read_port_display.
Qed.

(** Addresses round trip: the text [IP:PORT] of any IPv4 address and port, and
    the text of an address alone (with port 0), are parsed back. *)
Theorem parse_display_ipv4_with_port ip port :
  ipv4_fits ip → fits 16 port →
  parse_ipv4_with_port (Some (display_ipv4 ip +:+ ":" +:+ display_u port)) = Ok (ip, port) ∧
  parse_ipv4_with_port (Some (display_ipv4 ip)) = Ok (ip, 0).
Proof.
  intros Hip Hport. split; [by apply parse_socket_text|].
  unfold parse_ipv4_with_port. rewrite split_char_no_sep by by apply mem_colon_display_ipv4.
  unfold parse_ipv4.
  rewrite bool_decide_false by (pose proof (length_display_ipv4 ip Hip); lia).
  rewrite <- (string_app_nil_r (display_ipv4 ip)). by rewrite read_ipv4_display.
Qed.

Lemma parse_display_ipv4_with_port_witness :
  parse_ipv4_with_port (Some "192.168.0.7:12450"%string) = Ok (ipv4 192 168 0 7, 12450).
Proof.
  apply (parse_display_ipv4_with_port (ipv4 192 168 0 7) 12450); by repeat split.
Defined.

(** ** What is parsed fits its width *)

Lemma to_digit_range a d : to_digit a = Some d → is_digit d.
Proof. unfold to_digit, is_digit. case_match eqn:E; [|done]. intros [= <-]. lia. Qed.

Lemma read_digits_max_nonneg max count r s v n rest :
  0 ≤ r → read_digits_max max count r s = Some (v, n, rest) → 0 ≤ v.
Proof.
  revert count r. induction s as [|a s IH]; intros count r Hr; cbn [read_digits_max].
  - by intros [= <- _ _].
  - destruct (to_digit a) as [d|] eqn:Hd; [|by intros [= <- _ _]].
    case_bool_decide; [done|]. apply IH. apply to_digit_range in Hd. unfold is_digit in Hd. lia.
Qed.

Lemma read_octet_fits s v rest : read_octet s = Some (v, rest) → fits 8 v.
Proof.
  unfold read_octet. intros ([[v' n] r] & Hr & Hv)%bind_Some. cbn in Hv.
  apply read_digits_max_nonneg in Hr; [|done]. unfold fits. change (2 ^ 8) with 256.
  repeat (case_match; try done). simplify_eq. lia.
Qed.

Lemma read_ipv4_addr_fits s ip rest : read_ipv4_addr s = Some (ip, rest) → ipv4_fits ip.
Proof.
  unfold read_ipv4_addr. intros H.
  repeat match goal with
  | H : _ ≫= _ = Some _ |- _ => apply bind_Some in H as (? & ? & H)
  | p : _ * _ |- _ => destruct p
  | H : Some _ = Some _ |- _ => injection H as <- <-
  | H : read_octet _ = Some _ |- _ => apply read_octet_fits in H
  end. unfold ipv4_fits. simpl. tauto.
Qed.

Lemma read_digits_u16_fits count r s v n rest :
  0 ≤ r ≤ U16_MAX → read_digits_u16 count r s = Some (v, n, rest) → 0 ≤ v ≤ U16_MAX.
Proof.
  revert count r. induction s as [|a s IH]; intros count r Hr; cbn [read_digits_u16].
  - by intros [= <- _ _].
  - destruct (to_digit a) as [d|] eqn:Hd; [|by intros [= <- _ _]].
    apply to_digit_range in Hd. unfold is_digit in Hd.
    destruct (Z.ltb_spec U16_MAX (r * 10)); [done|].
    destruct (Z.ltb_spec U16_MAX (r * 10 + d)); [done|]. apply IH. lia.
Qed.

(** A parsed address has octets of 8 bits and a port of 16 bits: the checked
    arithmetic of the parsers rejects every larger number; and the port of an
    input without colon is 0. *)
Theorem parse_ipv4_with_port_fits input ip port :
  parse_ipv4_with_port input = Ok (ip, port) →
  ipv4_fits ip ∧ fits 16 port ∧
  (∀ s, input = Some s → mem_char ":" s = false → port = 0).
Proof.
  unfold parse_ipv4_with_port. destruct input as [s|]; [|done].
  destruct (split_char ":" s) as [|p1 [|p2 [|]]] eqn:Hs; [done| | |done].
  - unfold parse_ipv4. case_bool_decide; [done|].
    destruct (read_ipv4_addr p1) as [[ip' [|]]|] eqn:Hip; [|done..].
    intros [= <- <-]. split; [by eapply read_ipv4_addr_fits|]. by split.
  - unfold parse_socket_addr_v4.
    destruct (_ ≫= _) as [[[ip' port'] [|]]|] eqn:Hb; [|done..]. intros [= <- <-].
    apply bind_Some in Hb as ([ip'' r1] & Hip & (r2 & _ & ([v r3] & Hp & Heq)%bind_Some)%bind_Some); simplify_eq.
    split; [by eapply read_ipv4_addr_fits|]. split.
    + unfold read_port_number in Hp. apply bind_Some in Hp as ([[v' n] r] & Hv & Hif).
      cbn in Hif. case_bool_decide; [done|]. simplify_eq.
      apply read_digits_u16_fits in Hv; [|done]. unfold fits, U16_MAX in *.
      change (2 ^ 16) with 65536. lia.
    + intros s' [= <-] Hc. rewrite split_char_no_sep in Hs by done. done.
Qed.

Lemma parse_ipv4_with_port_fits_witness : ipv4_fits (ipv4 10 0 0 255) ∧ fits 16 65535.
Proof.
  destruct (parse_ipv4_with_port_fits (Some "10.0.0.255:65535"%string) (ipv4 10 0 0 255) 65535)
    as (H1 & H2 & _); [vm_compute; reflexivity|by split].
Defined.

(** ** Multiaddresses *)

Section multiaddr_props.
Context `{Libp2p} `{!MultiaddrLaws}.

Lemma pop_while_iter fuel a :
  (length (ma_iter a) ≤ fuel)%nat → ma_iter (pop_while fuel a) = take 2 (ma_iter a).
Proof.
  revert a. induction fuel as [|fuel IH]; intros a Hlen; cbn [pop_while].
  - destruct (ma_iter a); [done|simpl in Hlen; lia].
  - case_bool_decide as Hlt; [|by rewrite take_ge by lia].
    rewrite IH; rewrite ma_pop_iter; [|rewrite length_take; lia].
    rewrite take_take. f_equal. lia.
Qed.

(** [get_non_p2p_multiaddr] terminates with the first two protocols of the
    address (host and transport), dropping the [/p2p/...] suffix. *)
Theorem get_non_p2p_multiaddr_iter a :
  ma_iter (get_non_p2p_multiaddr a) = take 2 (ma_iter a).
Proof. by apply pop_while_iter. Qed.
End multiaddr_props.

Lemma get_non_p2p_multiaddr_iter_witness :
  let a : Multiaddr := [inl (10, 0, 0, 1); inr (inr 4001); inr (inl 7%positive)] in
  ma_iter (get_non_p2p_multiaddr a) = [inl (10, 0, 0, 1); inr (inr 4001)].
Proof. intros a. by rewrite (get_non_p2p_multiaddr_iter a). Defined.
