(* ===== verification/NetLoop.v ===== *)
(** * The network event loop ([src/network.rs])

    The state of [run], one handler per arm of its [select!], and one iteration of
    the loop.  The libp2p swarm is outside the repository: what the handlers read
    from it is a [SwarmView], what they ask of it (and of the retry queue and the
    clipboard channel) is the list of [Cmd]s they issue, in order.  The task
    [retry_waiting_thread] is in RetryThread.v; the delay it gives a retry is here. *)

From S2P Require Import Prelude RustStr Content Transfer Libp2p NetAddr.

Local Open Scope Z_scope.

(** The limit given to gossipsub: 2 MiB. *)
Definition MAX_TRANSMIT_SIZE : usize := 2 * 1024 * 1024.

(** ** Data *)

Section data.
Context `{Libp2p}.

Record PeerEndpointCache := mk_PeerEndpointCache {
  ep_peer_id : PeerId;
  ep_address : Multiaddr;
}.

#[export] Instance PeerEndpointCache_eq_dec : EqDecision PeerEndpointCache.
Proof. solve_decision. Defined.
#[export] Instance PeerEndpointCache_countable : Countable PeerEndpointCache.
Proof.
  by apply (inj_countable' (λ c, (ep_peer_id c, ep_address c))
    (λ p, mk_PeerEndpointCache p.1 p.2)); intros [].
Defined.

Record ConnectionRetryTask := mk_ConnectionRetryTask {
  target : PeerEndpointCache;
  retry_count : usize;
}.

(** The local variables of [run] that live across iterations. *)
Record RunState := mk_RunState {
  endpoint_cache : list PeerEndpointCache;
  unique_endpoints : gset PeerEndpointCache;
  current_listen_addresses : gset Multiaddr;
  announced_identities : gmap PeerId (list Multiaddr);
  failing_connections : gmap PeerEndpointCache ConnectionRetryTask;
  chunk_states : gmap string ChunkReceiveState;
  pending_chunks : list (list u8);
}.

Definition init_state : RunState := mk_RunState [] ∅ ∅ ∅ ∅ ∅ [].

Definition set_endpoints (cache : list PeerEndpointCache)
    (uniq : gset PeerEndpointCache) (st : RunState) : RunState :=
  mk_RunState cache uniq (current_listen_addresses st) (announced_identities st)
    (failing_connections st) (chunk_states st) (pending_chunks st).
Definition set_listen (l : gset Multiaddr) (st : RunState) : RunState :=
  mk_RunState (endpoint_cache st) (unique_endpoints st) l (announced_identities st)
    (failing_connections st) (chunk_states st) (pending_chunks st).
Definition set_announced (a : gmap PeerId (list Multiaddr)) (st : RunState) : RunState :=
  mk_RunState (endpoint_cache st) (unique_endpoints st) (current_listen_addresses st) a
    (failing_connections st) (chunk_states st) (pending_chunks st).
Definition set_failing (f : gmap PeerEndpointCache ConnectionRetryTask)
    (st : RunState) : RunState :=
  mk_RunState (endpoint_cache st) (unique_endpoints st) (current_listen_addresses st)
    (announced_identities st) f (chunk_states st) (pending_chunks st).
Definition set_chunks (c : gmap string ChunkReceiveState) (st : RunState) : RunState :=
  mk_RunState (endpoint_cache st) (unique_endpoints st) (current_listen_addresses st)
    (announced_identities st) (failing_connections st) c (pending_chunks st).
Definition set_pending (p : list (list u8)) (st : RunState) : RunState :=
  mk_RunState (endpoint_cache st) (unique_endpoints st) (current_listen_addresses st)
    (announced_identities st) (failing_connections st) (chunk_states st) p.

(** What the handlers ask for. *)
Inductive Cmd :=
| Dial (a : Multiaddr)
| KadAddAddress (p : PeerId) (a : Multiaddr)
| KadRemoveAddress (p : PeerId) (a : Multiaddr)
| KadRemovePeer (p : PeerId)
| KadBootstrap
| KadGetClosestPeers (p : PeerId)
| IdentifyPush (ps : list PeerId)
| DisconnectPeerId (p : PeerId)
| RetrySend (t : ConnectionRetryTask)
| ClipboardSend (c : ClipboardContent)
| Publish (data : list u8).

(** What the handlers read from the swarm. [all_peers] lists gossipsub's peers
    with their topics. *)
Record SwarmView := mk_SwarmView {
  connected_peers_count : nat;
  is_connected : PeerId → bool;
  all_peers : list (PeerId * list string);
  local_peer_id : PeerId;
}.

(** The distinctions the code makes on libp2p's errors. A transport error of the
    kind [Other] carries the debug text of its inner error, if it has one. *)
Inductive ConnectionError := ConnectionIO | ConnectionOther.
Inductive TransportError :=
| MultiaddrNotSupported (a : Multiaddr)
| TransportOther (inner : option string).
Inductive DialError :=
| DialTransport (errors : list (Multiaddr * TransportError))
| NoAddresses
| Aborted
| DialPeerConditionFalse
| LocalPeerId
| WrongPeerId
| Denied.

(** The event an iteration's [select!] returns. *)
Inductive LoopEvent :=
| LocalClipboard (uuid : string) (message : ClipboardContent)
| GossipMessage (data : list u8)
| GossipOther
| IdentifyReceived (peer_id : PeerId) (listen_addrs : list Multiaddr)
| IdentifyOther
| KademliaEvent
| NewListenAddr (address : Multiaddr)
| ExpiredListenAddr (address : Multiaddr)
| ConnectionEstablished (peer_id : PeerId) (remote_address : Multiaddr)
| ConnectionClosed (peer_id : PeerId) (cause : option ConnectionError)
    (remote_address : Multiaddr) (is_dialer : bool) (num_established : u32)
| OutgoingConnectionError (peer_id : option PeerId) (error : DialError)
| MdnsDiscovered (list : list (PeerId * Multiaddr))
| MdnsExpired (list : list (PeerId * Multiaddr))
| OtherSwarmEvent
| RetryCallback (failing_connection : PeerEndpointCache)
| IdleTick.
End data.

(** ** Handlers

    A handler returns the new state, the commands and the data to publish. *)

Section handlers.
Context `{Libp2p} `{Bincode} `{Digest}.

Definition handled : Type := RunState * list Cmd * option (list u8).
Implicit Types st : RunState.

(** The loop over [net_msgs]: the first serialised message is published at once,
    the others are queued; a message that fails to serialise is skipped. *)
Fixpoint queue_messages (net_msgs : list NetworkMessage) (first : option (list u8))
    (pending : list (list u8)) : option (list u8) * list (list u8) :=
  match net_msgs with
  | [] => (first, pending)
  | msg :: net_msgs' =>
      match message_to_bytes msg with
      | Ok bytes =>
          match first with
          | None => queue_messages net_msgs' (Some bytes) pending
          | Some _ => queue_messages net_msgs' first (pending ++ [bytes])
          end
      | Err _ => queue_messages net_msgs' first pending
      end
  end.

Definition on_local_clipboard (uuid : string) (message : ClipboardContent)
    (st : RunState) : handled :=
  match split_to_network_messages uuid message with
  | Ok [msg] => (st, [], res_ok (message_to_bytes msg))
  | Ok net_msgs =>
      let '(first, pending) := queue_messages net_msgs None (pending_chunks st) in
      (set_pending pending st, [], first)
  | Err _ => (st, [], None)
  end.

Definition on_gossip_message (now : Z) (data : list u8) (st : RunState) :
    outcome handled :=
  '(cs, content) ← handle_incoming_message now data (chunk_states st);
  Done (set_chunks cs st, ClipboardSend <$> option_list content, None).

(** The addresses of a list that are not local; panics like [is_multiaddr_local]. *)
Fixpoint non_local (addrs : list Multiaddr) : outcome (list Multiaddr) :=
  match addrs with
  | [] => Done []
  | addr :: addrs' =>
      b ← is_multiaddr_local addr;
      rest ← non_local addrs';
      Done (if (b : bool) then rest else addr :: rest)
  end.

Fixpoint link_local (addrs : list Multiaddr) : outcome (list Multiaddr) :=
  match addrs with
  | [] => Done []
  | addr :: addrs' =>
      b ← is_multiaddr_link_local addr;
      rest ← link_local addrs';
      Done (if (b : bool) then addr :: rest else rest)
  end.

Definition non_local_count (l : gset Multiaddr) : outcome nat :=
  length <$> non_local (elements l).
Definition link_local_count (l : gset Multiaddr) : outcome nat :=
  length <$> link_local (elements l).

Definition on_identify_received (peer_id : PeerId) (listen_addrs : list Multiaddr)
    (st : RunState) : outcome handled :=
  let old_addrs := announced_identities st !! peer_id in
  let st := set_announced (<[peer_id := listen_addrs]> (announced_identities st)) st in
  let removals :=
    match old_addrs with
    | Some old_vec =>
        KadRemoveAddress peer_id <$>
          elements (list_to_set old_vec ∖ list_to_set listen_addrs : gset Multiaddr)
    | None => []
    end in
  additions ← non_local listen_addrs;
  Done (st, removals ++ (KadAddAddress peer_id <$> additions), None).

Definition peers_to_push (boot_node : option PeerEndpointCache) : list PeerId :=
  ep_peer_id <$> option_list boot_node.

Definition on_new_listen_addr (boot_node : option PeerEndpointCache) (view : SwarmView)
    (address : Multiaddr) (st : RunState) : outcome handled :=
  non_local_addr_count ← non_local_count (current_listen_addresses st);
  let st := set_listen ({[address]} ∪ current_listen_addresses st) st in
  let dial :=
    match boot_node with
    | None => []
    | Some real_boot_node =>
        if (connected_peers_count view =? 0)%nat || (non_local_addr_count =? 0)%nat
        then [Dial (ep_address real_boot_node)] else []
    end in
  Done (st, IdentifyPush (peers_to_push boot_node) :: dial ++ [KadBootstrap], None).

(** The entry of a failing connection, or a new one with no retry yet. *)
Definition retry_task_of (st : RunState) (c : PeerEndpointCache) : ConnectionRetryTask :=
  match failing_connections st !! c with
  | Some task => task
  | None => mk_ConnectionRetryTask c 0
  end.

Definition record_failure (c : PeerEndpointCache) (st : RunState) : RunState * list Cmd :=
  let retry_task := retry_task_of st c in
  (set_failing (<[c := retry_task]> (failing_connections st)) st, [RetrySend retry_task]).

Definition on_expired_listen_addr (boot_node : option PeerEndpointCache)
    (address : Multiaddr) (st : RunState) : outcome handled :=
  let st := set_listen (current_listen_addresses st ∖ {[address]}) st in
  non_local_addr_count ← non_local_count (current_listen_addresses st);
  let push := IdentifyPush (peers_to_push boot_node) in
  Done (if (0 <? non_local_addr_count)%nat then
          match boot_node with
          | Some real_boot_node =>
              let '(st, cmds) := record_failure real_boot_node st in (st, push :: cmds, None)
          | None => (st, [push], None)
          end
        else (st, [push], None)).

Definition on_connection_established (peer_id : PeerId) (remote_address : Multiaddr)
    (st : RunState) : handled :=
  let real_address := get_non_p2p_multiaddr remote_address in
  let cache := mk_PeerEndpointCache peer_id real_address in
  let known := bool_decide (cache ∈ unique_endpoints st) in
  let kept := if known then filter (λ c, c ≠ cache) (endpoint_cache st)
              else endpoint_cache st in
  let st := set_failing (filter (λ p, ep_peer_id p.1 ≠ peer_id) (failing_connections st)) st in
  (set_endpoints (cache :: kept) ({[cache]} ∪ unique_endpoints st) st, [], None).

(** [retain] on both endpoint collections. *)
Definition retain_endpoints (P : PeerEndpointCache → Prop) `{∀ c, Decision (P c)}
    (st : RunState) : RunState :=
  set_endpoints (filter P (endpoint_cache st)) (filter P (unique_endpoints st)) st.

Definition on_connection_closed (peer_id : PeerId) (cause : option ConnectionError)
    (remote_address : Multiaddr) (is_dialer : bool) (num_established : u32)
    (st : RunState) : handled :=
  let st := if num_established =? 0
            then retain_endpoints (λ x, ep_peer_id x ≠ peer_id) st else st in
  match cause with
  | None => (st, [], None)
  | Some connection_error =>
      let st := retain_endpoints (λ x, ep_address x ≠ remote_address) st in
      match connection_error with
      | ConnectionIO =>
          if is_dialer then
            let '(st, cmds) :=
              record_failure (mk_PeerEndpointCache peer_id remote_address) st in
            (st, cmds, None)
          else (st, [], None)
      | ConnectionOther => (st, [], None)
      end
  end.

Definition should_hold_and_retry : list string := ["NetworkUnreachable"; "Timeout"]%string.

(** One round of [for (addr, err) in errors]. *)
Definition on_transport_error (peer_id : option PeerId) (addr : Multiaddr)
    (err : TransportError) (st : RunState) : RunState * list Cmd * bool :=
  match err with
  | MultiaddrNotSupported _ => (st, [], true)
  | TransportOther (Some error_msg) =>
      match peer_id with
      | Some peer =>
          let fc := mk_PeerEndpointCache peer addr in
          if existsb (λ e, contains e error_msg) should_hold_and_retry then
            (record_failure fc st, false)
          else
            let st := retain_endpoints (λ ep, ep_address ep ≠ addr) st in
            (set_failing (delete fc (failing_connections st)) st,
             [KadRemoveAddress peer addr], false)
      | None => (st, [], false)
      end
  | TransportOther None => (st, [], false)
  end.

Fixpoint on_transport_errors (peer_id : option PeerId)
    (errors : list (Multiaddr * TransportError)) (non_recoverable : bool)
    (st : RunState) : RunState * list Cmd * bool :=
  match errors with
  | [] => (st, [], non_recoverable)
  | (addr, err) :: errors' =>
      let '(st, cmds, b) := on_transport_error peer_id addr err st in
      let '(st, cmds', b') := on_transport_errors peer_id errors' (non_recoverable || b) st in
      (st, cmds ++ cmds', b')
  end.

Definition on_outgoing_connection_error (peer_id : option PeerId) (error : DialError)
    (st : RunState) : handled :=
  let '(st, cmds, should_clean_peer) :=
    match error with
    | DialTransport errors => on_transport_errors peer_id errors false st
    | NoAddresses => (st, [], true)
    | Aborted => (st, [], false)
    | DialPeerConditionFalse => (st, [], false)
    | LocalPeerId => (st, [], true)
    | WrongPeerId => (st, [], true)
    | Denied => (st, [], true)
    end in
  if should_clean_peer then
    match peer_id with
    | Some dead_peer =>
        (retain_endpoints (λ ep, ep_peer_id ep ≠ dead_peer) st,
         cmds ++ [KadRemovePeer dead_peer], None)
    | None => (st, cmds, None)
    end
  else (st, cmds, None).

(** Whether a retry has a chance: some peer is connected, or the machine has an
    address of the right scope. *)
Definition is_network_ok (view : SwarmView) (addr : Multiaddr) (st : RunState) :
    outcome bool :=
  non_local_listener_count ← non_local_count (current_listen_addresses st);
  if (0 <? connected_peers_count view)%nat then Done true
  else if (0 <? non_local_listener_count)%nat then
    link_local_count ← link_local_count (current_listen_addresses st);
    b ← is_multiaddr_link_local addr;
    Done (if (b : bool) then (0 <? link_local_count)%nat
          else (link_local_count <? non_local_listener_count)%nat)
  else Done false.

Definition on_retry_callback (view : SwarmView) (failing_connection : PeerEndpointCache)
    (st : RunState) : outcome handled :=
  match failing_connections st !! failing_connection with
  | None => Done (st, [], None)
  | Some retry_task =>
      network_ok ← is_network_ok view (ep_address (target retry_task)) st;
      let is_task_ok := retry_count retry_task <=? 3 in
      let already_connected := is_connected view (ep_peer_id (target retry_task)) in
      Done (if negb network_ok then (st, [RetrySend retry_task], None)
            else if negb is_task_ok then
              (set_failing (delete failing_connection (failing_connections st)) st, [], None)
            else if already_connected then
              (set_failing (delete failing_connection (failing_connections st)) st, [], None)
            else
              let retry_task' :=
                mk_ConnectionRetryTask (target retry_task) (retry_count retry_task + 1) in
              (set_failing (<[failing_connection := retry_task']> (failing_connections st)) st,
               [Dial (ep_address (target retry_task))], None))
  end.

Definition on_idle (boot_node : option PeerEndpointCache) (view : SwarmView)
    (st : RunState) : handled :=
  let stale_peers :=
    fst <$> filter (λ p : PeerId * list string, p.2 = []) (all_peers view) in
  let dial :=
    match boot_node with
    | Some boot =>
        if (connected_peers_count view <? 1)%nat then [Dial (ep_address boot)] else []
    | None => []
    end in
  (st, (DisconnectPeerId <$> stale_peers) ++ dial
         ++ [KadGetClosestPeers (local_peer_id view)], None).

(** The events of the mDNS behaviour: what is found is dialled, what expired leaves
    the routing table. *)
Definition on_mdns_discovered (list : list (PeerId * Multiaddr)) (st : RunState) : handled :=
  (st, (λ p, Dial p.2) <$> list, None).
Definition on_mdns_expired (list : list (PeerId * Multiaddr)) (st : RunState) : handled :=
  (st, (λ p, KadRemoveAddress p.1 p.2) <$> list, None).

(** ** One iteration *)

Definition handle_event (boot_node : option PeerEndpointCache) (now : Z)
    (view : SwarmView) (ev : LoopEvent) (st : RunState) : outcome handled :=
  match ev with
  | LocalClipboard uuid message => Done (on_local_clipboard uuid message st)
  | GossipMessage data => on_gossip_message now data st
  | IdentifyReceived peer_id addrs => on_identify_received peer_id addrs st
  | NewListenAddr address => on_new_listen_addr boot_node view address st
  | ExpiredListenAddr address => on_expired_listen_addr boot_node address st
  | ConnectionEstablished peer_id address =>
      Done (on_connection_established peer_id address st)
  | ConnectionClosed peer_id cause address is_dialer n =>
      Done (on_connection_closed peer_id cause address is_dialer n st)
  | OutgoingConnectionError peer_id error =>
      Done (on_outgoing_connection_error peer_id error st)
  | MdnsDiscovered l => Done (on_mdns_discovered l st)
  | MdnsExpired l => Done (on_mdns_expired l st)
  | RetryCallback c => on_retry_callback view c st
  | IdleTick => Done (on_idle boot_node view st)
  | GossipOther | IdentifyOther | KademliaEvent | OtherSwarmEvent => Done (st, [], None)
  end.

Definition HANDLER_TIMEOUT : Z := 60 * NANOS_PER_SEC.

Inductive iteration_result :=
| Continue (st : RunState) (cmds : list Cmd)
| Restart (cmds : list Cmd).

(** The loop body: drop the stale transfers, publish a pending chunk or else wait
    for an event and handle it, return if the iteration took more than 60 s ([d] is its
    measured duration), publish. *)
Definition iteration (boot_node : option PeerEndpointCache) (now : Times) (d : Z)
    (view : SwarmView) (ev : LoopEvent) (st : RunState) : outcome iteration_result :=
  let st := set_chunks (cleanup_stale_chunk_states (t_head now) (chunk_states st)) st in
  '(st, cmds, to_publish) ←
    match pending_chunks st with
    | chunk_data :: pending => Done (set_pending pending st, [], Some chunk_data)
    | [] => handle_event boot_node (t_event now) view ev st
    end;
  Done (if HANDLER_TIMEOUT <? d then Restart cmds
        else Continue st (cmds ++ (Publish <$> option_list to_publish))).
End handlers.

(** ** The retry thread *)

(** [usize::checked_pow(2)] on a 64-bit target. *)
Definition checked_square (n : usize) : option usize :=
  if n * n <=? U64_MAX then Some (n * n) else None.

(** The seconds [retry_waiting_thread] waits before it calls back. *)
Definition retry_delay_secs (retry_count : usize) : u64 :=
  default 0 (checked_square retry_count) + 1.

(** ** Invariants *)

Section invariants.
Context `{Libp2p} `{Bincode} `{Digest}.
Implicit Types st : RunState.

(** The two endpoint collections hold the same endpoints, each once. *)
Definition endpoints_ok st : Prop :=
  NoDup (endpoint_cache st) ∧ ∀ c, c ∈ endpoint_cache st ↔ c ∈ unique_endpoints st.

(** A failing connection is filed under its own target and was dialled again at
    most four times. *)
Definition task_ok (c : PeerEndpointCache) (t : ConnectionRetryTask) : Prop :=
  target t = c ∧ 0 ≤ retry_count t ≤ 4.
Definition retries_ok st : Prop := map_Forall task_ok (failing_connections st).

Definition run_ok st : Prop := endpoints_ok st ∧ retries_ok st.

(** The invariant depends only on the endpoint collections and the table of
    failing connections. *)
Lemma run_ok_ext st st' :
  endpoint_cache st' = endpoint_cache st → unique_endpoints st' = unique_endpoints st →
  failing_connections st' = failing_connections st → run_ok st → run_ok st'.
Proof. unfold run_ok, endpoints_ok, retries_ok. by intros -> -> ->. Qed.

Lemma run_ok_set_listen l st : run_ok st → run_ok (set_listen l st).
Proof. by apply run_ok_ext. Qed.
Lemma run_ok_set_announced a st : run_ok st → run_ok (set_announced a st).
Proof. by apply run_ok_ext. Qed.
Lemma run_ok_set_chunks c st : run_ok st → run_ok (set_chunks c st).
Proof. by apply run_ok_ext. Qed.
Lemma run_ok_set_pending p st : run_ok st → run_ok (set_pending p st).
Proof. by apply run_ok_ext. Qed.

Lemma run_ok_set_failing f st :
  map_Forall task_ok f → run_ok st → run_ok (set_failing f st).
Proof. intros Hf [He _]. by split. Qed.

Lemma run_ok_retain (P : PeerEndpointCache → Prop) `{∀ c, Decision (P c)} st :
  run_ok st → run_ok (retain_endpoints P st).
Proof.
  intros [[Hnd Heq] Hr]. split; [|done]. split; cbn.
  - by apply NoDup_filter.
  - intros c. rewrite list_elem_of_filter, elem_of_filter. by rewrite Heq.
Qed.

Lemma retry_task_of_ok c st : run_ok st → task_ok c (retry_task_of st c).
Proof.
  intros [_ Hr]. unfold retry_task_of. destruct (failing_connections st !! c) eqn:Hc.
  - by apply (Hr c).
  - split; [done|simpl; lia].
Qed.

Lemma run_ok_record_failure c st : run_ok st → run_ok (record_failure c st).1.
Proof.
  intros Hok. apply run_ok_set_failing; [|done].
  apply map_Forall_insert_2; [by apply retry_task_of_ok|apply Hok].
Qed.

#[local] Hint Resolve run_ok_set_listen run_ok_set_announced run_ok_set_chunks
  run_ok_set_pending run_ok_retain run_ok_record_failure : p2p.

Lemma run_ok_connection_established p a st :
  run_ok st → run_ok (on_connection_established p a st).1.1.
Proof.
  intros [[Hnd Heq] Hr]. unfold on_connection_established.
  set (cache := mk_PeerEndpointCache p _). split.
  - split; cbn.
    + apply NoDup_cons. case_bool_decide as Hin.
      * split; [|by apply NoDup_filter]. rewrite list_elem_of_filter. naive_solver.
      * by rewrite Heq.
    + intros c. specialize (Heq c).
      rewrite elem_of_cons, elem_of_union, elem_of_singleton.
      case_bool_decide as Hin; [rewrite list_elem_of_filter|naive_solver].
      destruct (decide (c = cache)); naive_solver.
  - unfold retries_ok. cbn. apply map_Forall_lookup_2. intros c t Hc.
    apply map_lookup_filter_Some in Hc as [Hc _]. by apply (Hr c).
Qed.

Lemma run_ok_transport_error p a e st :
  run_ok st → run_ok (on_transport_error p a e st).1.1.
Proof.
  intros Hok. unfold on_transport_error. destruct e as [|[msg|]]; [done| |done].
  destruct p as [peer|]; [|done]. destruct (existsb _ _).
  - by apply run_ok_record_failure.
  - apply run_ok_set_failing; [|by apply run_ok_retain].
    apply map_Forall_delete, Hok.
Qed.

Lemma run_ok_transport_errors p es b st :
  run_ok st → run_ok (on_transport_errors p es b st).1.1.
Proof.
  revert b st. induction es as [|[a e] es IH]; intros b st Hok; [done|].
  cbn [on_transport_errors].
  pose proof (run_ok_transport_error p a e st Hok) as Hok1.
  destruct (on_transport_error p a e st) as [[s1 c1] b1]. cbn in Hok1.
  specialize (IH (b || b1) s1 Hok1).
  by destruct (on_transport_errors p es (b || b1) s1) as [[s2 c2] b2].
Qed.

Lemma run_ok_outgoing_error p e st :
  run_ok st → run_ok (on_outgoing_connection_error p e st).1.1.
Proof.
  intros Hok. unfold on_outgoing_connection_error.
  destruct e as [es| | | | | |].
  1: pose proof (run_ok_transport_errors p es false st Hok) as Hok1;
    destruct (on_transport_errors p es false st) as [[s1 c1] [|]]; cbn in Hok1.
  all: try destruct p; cbn; auto with p2p.
Qed.

Lemma run_ok_connection_closed p c a d n st :
  run_ok st → run_ok (on_connection_closed p c a d n st).1.1.
Proof.
  intros Hok. unfold on_connection_closed.
  set (st1 := if n =? 0 then _ else _).
  assert (Hok1 : run_ok st1) by (unfold st1; case_match; auto with p2p).
  destruct c as [[]|]; [|by apply run_ok_retain|done].
  destruct d; [|by apply run_ok_retain].
  set (st2 := retain_endpoints _ st1).
  assert (Hok2 : run_ok st2) by by apply run_ok_retain.
  by apply run_ok_record_failure.
Qed.

Lemma run_ok_retry_callback view c st st' cmds pub :
  run_ok st → on_retry_callback view c st = Done (st', cmds, pub) → run_ok st'.
Proof.
  intros Hok. unfold on_retry_callback.
  destruct (failing_connections st !! c) as [t|] eqn:Hc; [|by intros [= <- _ _]].
  intros (ok & _ & [= Hif])%bind_Done. revert Hif.
  pose proof (proj2 Hok c t Hc) as [Ht Hn]. cbn.
  repeat case_match; intros [= <- _ _]; try done.
  - apply run_ok_set_failing; [apply map_Forall_delete, Hok|done].
  - apply run_ok_set_failing; [apply map_Forall_delete, Hok|done].
  - apply run_ok_set_failing; [|done]. apply map_Forall_insert_2; [|apply Hok].
    split; [done|]. cbn. destruct (Z.leb_spec (retry_count t) 3); [lia|done].
Qed.

Lemma run_ok_handle_event boot now view ev st st' cmds pub :
  run_ok st → handle_event boot now view ev st = Done (st', cmds, pub) → run_ok st'.
Proof.
  intros Hok Hh.
  assert (Hpure : ∀ h : handled, run_ok h.1.1 → Done h = Done (st', cmds, pub) → run_ok st')
    by (intros [[??]?] ? [= <- _ _]; done).
  destruct ev; cbn [handle_event] in Hh; try by injection Hh as <- _ _.
  - refine (Hpure _ _ Hh). unfold on_local_clipboard. repeat case_match; auto with p2p.
  - apply bind_Done in Hh as ([cs o] & _ & [= <- _ _]). auto with p2p.
  - apply bind_Done in Hh as (l & _ & [= <- _ _]). auto with p2p.
  - apply bind_Done in Hh as (l & _ & [= <- _ _]). auto with p2p.
  - apply bind_Done in Hh as (l & _ & [= Heq]). revert Heq.
    destruct (0 <? l)%nat; [destruct boot as [c|]|]; intros [= <- _ _]; auto with p2p.
    change (run_ok (record_failure c (set_listen
      (current_listen_addresses st ∖ {[address]}) st)).1). auto with p2p.
  - refine (Hpure _ _ Hh). by apply run_ok_connection_established.
  - refine (Hpure _ _ Hh). by apply run_ok_connection_closed.
  - refine (Hpure _ _ Hh). by apply run_ok_outgoing_error.
  - by eapply run_ok_retry_callback.
Qed.

Lemma run_ok_iteration boot now d view ev st st' cmds :
  run_ok st → iteration boot now d view ev st = Done (Continue st' cmds) → run_ok st'.
Proof.
  intros Hok Hit. unfold iteration in Hit.
  apply bind_Done in Hit as ([[s c] p] & Hs & [= Hc]).
  destruct (HANDLER_TIMEOUT <? d); [done|]. injection Hc as <- _.
  set (st1 := set_chunks _ st) in *. assert (Hok1 : run_ok st1) by by apply run_ok_set_chunks.
  clearbody st1. destruct (pending_chunks st1) as [|x q].
  - by eapply run_ok_handle_event.
  - injection Hs as <- _ _. by apply run_ok_set_pending.
Qed.

(** States of the loop between two iterations. *)
Inductive reachable (boot : option PeerEndpointCache) : RunState → Prop :=
| reachable_init : reachable boot init_state
| reachable_step now d view ev st st' cmds :
    reachable boot st → iteration boot now d view ev st = Done (Continue st' cmds) →
    reachable boot st'.

Lemma reachable_ok boot st : reachable boot st → run_ok st.
Proof.
  induction 1 as [|now d view ev st st' cmds _ IH Hit].
  - split; [split|]; cbn; [by apply NoDup_nil|set_solver|by apply map_Forall_empty].
  - by eapply run_ok_iteration.
Qed.

(** C21: in every state the loop reaches, the list and the set of known endpoints
    hold the same endpoints without repetition, and every failing connection is
    recorded under its own endpoint with at most four retries. *)
Theorem reachable_run_ok boot st : reachable boot st → endpoints_ok st ∧ retries_ok st.
Proof. apply reachable_ok. Qed.
End invariants.

(** ** Retries *)

Section retries.
Context `{Libp2p} `{Bincode} `{Digest}.

(** [n] callbacks of the retry thread for one endpoint. *)
Fixpoint retry_callbacks (view : SwarmView) (c : PeerEndpointCache) (n : nat)
    (st : RunState) : outcome (RunState * list Cmd) :=
  match n with
  | O => Done (st, [])
  | S n' =>
      '(st, cmds, _) ← on_retry_callback view c st;
      '(st, cmds') ← retry_callbacks view c n' st;
      Done (st, cmds ++ cmds')
  end.

(** The answer of [is_network_ok] does not depend on the failing connections. *)
Lemma is_network_ok_set_failing view a f st :
  is_network_ok view a (set_failing f st) = is_network_ok view a st.
Proof. done. Qed.

(** The two outcomes of a callback when the network is up. *)
Lemma on_retry_callback_dial view c t st :
  failing_connections st !! c = Some t → target t = c →
  is_network_ok view (ep_address c) st = Done true →
  is_connected view (ep_peer_id c) = false → retry_count t ≤ 3 →
  on_retry_callback view c st =
    Done (set_failing (<[c := mk_ConnectionRetryTask c (retry_count t + 1)]>
            (failing_connections st)) st, [Dial (ep_address c)], None).
Proof.
  intros Hc Ht Hnet Hconn Hn. unfold on_retry_callback. rewrite Hc, Ht, Hnet. cbn -[Z.leb].
  by rewrite (proj2 (Z.leb_le _ _) Hn), Hconn.
Qed.

Lemma on_retry_callback_drop view c t st :
  failing_connections st !! c = Some t → target t = c →
  is_network_ok view (ep_address c) st = Done true → 3 < retry_count t →
  on_retry_callback view c st =
    Done (set_failing (delete c (failing_connections st)) st, [], None).
Proof.
  intros Hc Ht Hnet Hn. unfold on_retry_callback. rewrite Hc, Ht, Hnet. cbn -[Z.leb].
  by rewrite (proj2 (Z.leb_gt _ _) Hn).
Qed.

Lemma retry_callbacks_give_up view c t (k : nat) st :
  run_ok st → failing_connections st !! c = Some t →
  Z.of_nat k = 4 - retry_count t →
  is_network_ok view (ep_address c) st = Done true →
  is_connected view (ep_peer_id c) = false →
  ∃ st', retry_callbacks view c (S k) st = Done (st', replicate k (Dial (ep_address c))) ∧
    failing_connections st' !! c = None.
Proof.
  intros Hok Hc Hk Hnet Hconn. revert t st Hok Hc Hk Hnet.
  induction k as [|k IH]; intros t st Hok Hc Hk Hnet.
  all: destruct (proj2 Hok c t Hc) as [Ht Hn].
  - change (retry_callbacks view c 1 st) with
      ('(st, cmds, _) ← on_retry_callback view c st; Done (st, cmds ++ [])).
    rewrite (on_retry_callback_drop view c t st) by (done || lia).
    eexists. split; [done|]. apply lookup_delete_eq.
  - set (t' := mk_ConnectionRetryTask c (retry_count t + 1)).
    set (st1 := set_failing (<[c := t']> (failing_connections st)) st).
    destruct (IH t' st1) as (st' & Hrun & Hgone).
    + apply run_ok_set_failing; [|done]. apply map_Forall_insert_2; [|apply Hok].
      split; [done|]. cbn. lia.
    + apply lookup_insert_eq.
    + cbn. lia.
    + exact Hnet.
    + exists st'. split; [|done]. cbn [retry_callbacks].
      rewrite (on_retry_callback_dial view c t st) by (done || lia).
      fold t' st1. cbn [mbind outcome_bind]. cbn [retry_callbacks] in Hrun. by rewrite Hrun.
Qed.

(** Retries end: while the network is up and the peer stays unreachable, an
    endpoint that failed is dialled again [4 - retry_count] times by the
    callbacks of the retry thread, and the next callback drops it. *)
Theorem retries_give_up boot view c t st :
  reachable boot st → failing_connections st !! c = Some t →
  is_network_ok view (ep_address c) st = Done true →
  is_connected view (ep_peer_id c) = false →
  ∃ st',
    retry_callbacks view c (S (Z.to_nat (4 - retry_count t))) st =
      Done (st', replicate (Z.to_nat (4 - retry_count t)) (Dial (ep_address c))) ∧
    failing_connections st' !! c = None.
Proof.
  intros Hst Hc Hnet Hconn. pose proof (reachable_ok _ _ Hst) as Hok.
  apply (retry_callbacks_give_up view c t); try done.
  pose proof (proj2 Hok c t Hc) as [_ Hn]. lia.
Qed.
End retries.

Lemma square_bound n : 0 ≤ n → n * n ≤ U64_MAX ↔ n ≤ U32_MAX.
Proof. unfold U64_MAX, U32_MAX. intros. split; nia. Qed.

(** The retry delay never overflows: it is [count^2 + 1] seconds for a count
    below [2^32], where the square fits a [usize], and 1 second beyond. *)
Theorem retry_delay_bounds n :
  fits 64 n →
  fits 64 (retry_delay_secs n) ∧
  retry_delay_secs n = (if n <=? U32_MAX then n * n else 0) + 1.
Proof.
  intros [Hn _]. unfold retry_delay_secs, checked_square.
  pose proof (square_bound n Hn) as Hsq.
  destruct (Z.leb_spec (n * n) U64_MAX) as [Hle|Hgt], (Z.leb_spec n U32_MAX) as [Hle'|Hgt'];
    try lia; cbn; (split; [|done]); unfold fits; change (2 ^ 64) with 18446744073709551616.
  - unfold U32_MAX in Hle'. nia.
  - lia.
Qed.

Lemma retry_delay_bounds_witness :
  retry_delay_secs 4 = 17 ∧ fits 64 (retry_delay_secs U64_MAX).
Proof.
  split.
  - rewrite (proj2 (retry_delay_bounds 4 ltac:(by split))). reflexivity.
  - by apply (retry_delay_bounds U64_MAX).
Defined.

(** ** Publishing *)

Section publishing.
Context `{Libp2p} `{Bincode} `{Digest}.

(** Iterations of the loop, up to a restart. *)
Fixpoint iterations (boot : option PeerEndpointCache)
    (inputs : list (Times * Z * SwarmView * LoopEvent)) (st : RunState) :
    outcome (option RunState * list Cmd) :=
  match inputs with
  | [] => Done (Some st, [])
  | (now, d, view, ev) :: inputs' =>
      res ← iteration boot now d view ev st;
      match res with
      | Restart cmds => Done (None, cmds)
      | Continue st cmds =>
          '(ost, cmds') ← iterations boot inputs' st; Done (ost, cmds ++ cmds')
      end
  end.

(** No iteration takes longer than the limit. *)
Definition timely (inputs : list (Times * Z * SwarmView * LoopEvent)) : Prop :=
  Forall (λ i, i.1.1.2 ≤ HANDLER_TIMEOUT) inputs.

(** While chunks are pending they are published, one per iteration, whatever
    event the swarm or the clipboard has to offer. *)
Lemma pending_published boot inputs st :
  timely inputs → length inputs = length (pending_chunks st) →
  ∃ st', iterations boot inputs st = Done (Some st', Publish <$> pending_chunks st) ∧
    pending_chunks st' = [].
Proof.
  intros Ht. revert st. induction Ht as [|[[[now d] view] ev] inputs Hd _ IH]; intros st Hlen.
  - destruct (pending_chunks st) eqn:Hp; [|done]. by exists st.
  - destruct (pending_chunks st) as [|b q] eqn:Hp; [done|]. cbn [iterations].
    unfold iteration. cbn [pending_chunks set_chunks]. rewrite Hp. cbn -[Z.ltb].
    rewrite (proj2 (Z.ltb_ge _ _)) by done. cbn.
    destruct (IH (set_pending q (set_chunks
      (cleanup_stale_chunk_states (t_head now) (chunk_states st)) st))) as (st' & Hrun & Hq).
    { cbn in *. lia. }
    exists st'. unfold set_pending, set_chunks in *. cbn in *. rewrite Hrun. by split.
Qed.

Lemma queue_messages_some msgs bs b pending :
  Forall2 (λ m b, message_to_bytes m = Ok b) msgs bs →
  queue_messages msgs (Some b) pending = (Some b, pending ++ bs).
Proof.
  intros Hm. revert pending. induction Hm as [|m b' msgs bs Hb _ IH]; intros pending; cbn.
  - by rewrite app_nil_r.
  - rewrite Hb, IH. by rewrite <- app_assoc.
Qed.

Lemma queue_messages_all msgs b bs pending :
  Forall2 (λ m b, message_to_bytes m = Ok b) msgs (b :: bs) →
  queue_messages msgs None pending = (Some b, pending ++ bs).
Proof.
  destruct msgs as [|m msgs]; intros Hm; inversion Hm as [|? ? ? ? Hb Hrest]; subst.
  cbn. rewrite Hb. by apply queue_messages_some.
Qed.

(** What the handler publishes at once and what it queues. *)
Lemma on_local_clipboard_spec uuid content msgs b bs st :
  split_to_network_messages uuid content = Ok msgs →
  Forall2 (λ m b, message_to_bytes m = Ok b) msgs (b :: bs) →
  on_local_clipboard uuid content st =
    (set_pending (pending_chunks st ++ bs) st, [], Some b).
Proof.
  intros Hs Hm. unfold on_local_clipboard. rewrite Hs.
  destruct msgs as [|m [|m' msgs]].
  - by inversion Hm.
  - inversion Hm as [|? ? ? ? Hb Hrest]; subst. inversion Hrest; subst.
    rewrite app_nil_r, Hb. by destruct st.
  - by rewrite (queue_messages_all _ b bs).
Qed.

(** A content taken by an idle loop. *)
Lemma publish_content boot now d view uuid content msgs b bs rest st :
  pending_chunks st = [] →
  split_to_network_messages uuid content = Ok msgs →
  Forall2 (λ m b, message_to_bytes m = Ok b) msgs (b :: bs) →
  d ≤ HANDLER_TIMEOUT → timely rest → length rest = length bs →
  ∃ st',
    iterations boot ((now, d, view, LocalClipboard uuid content) :: rest) st =
      Done (Some st', Publish <$> b :: bs) ∧
    pending_chunks st' = [].
Proof.
  intros Hp Hs Hm Hd Ht Hlen. cbn [iterations]. unfold iteration.
  cbn [pending_chunks set_chunks handle_event]. rewrite Hp.
  set (st1 := set_chunks _ st).
  rewrite (on_local_clipboard_spec _ _ _ _ _ st1 Hs Hm).
  cbn -[Z.ltb set_pending]. rewrite (proj2 (Z.ltb_ge _ _)) by done.
  cbn -[set_pending].
  destruct (pending_published boot rest (set_pending (pending_chunks st1 ++ bs) st1))
    as (st' & Hrun & Hq); [done| |].
  - cbn. by rewrite Hp.
  - exists st'. cbn -[set_pending] in Hrun. rewrite Hrun. cbn. by rewrite Hp.
Qed.
Lemma iterations_app boot l1 l2 st st1 cmds1 :
  iterations boot l1 st = Done (Some st1, cmds1) →
  iterations boot (l1 ++ l2) st = ('(ost, cmds) ← iterations boot l2 st1; Done (ost, cmds1 ++ cmds)).
Proof.
  revert st cmds1. induction l1 as [|[[[now d] view] ev] l1 IH]; intros st cmds1; cbn [iterations app].
  { intros [= <- <-]. cbn. by destruct (iterations boot l2 st) as [[]|]. }
  intros ([s c|c] & Hit & Hrun)%bind_Done; [|done]. rewrite Hit. cbn [mbind outcome_bind].
  apply bind_Done in Hrun as ([o c'] & Hrun & [= -> <-]). rewrite (IH _ _ Hrun).
  destruct (iterations boot l2 st1) as [[o2 c2]|]; cbn; [by rewrite app_assoc|done].
Qed.

(** C13: a local clipboard content is published completely and in order: the
    messages of earlier contents go first, one per iteration whatever other events
    are waiting; once the loop takes the content, the messages it is split into
    are published one per iteration, consecutively; then nothing is left pending. *)
Theorem local_content_published boot earlier now d view uuid content msgs b bs rest st :
  timely earlier → length earlier = length (pending_chunks st) →
  split_to_network_messages uuid content = Ok msgs →
  Forall2 (λ m b, message_to_bytes m = Ok b) msgs (b :: bs) →
  d ≤ HANDLER_TIMEOUT → timely rest → length rest = length bs →
  ∃ st',
    iterations boot (earlier ++ (now, d, view, LocalClipboard uuid content) :: rest) st =
      Done (Some st', (Publish <$> pending_chunks st) ++ (Publish <$> b :: bs)) ∧
    pending_chunks st' = [].
Proof.
  intros Hearly Hlen Hs Hm Hd Ht Hrest.
  destruct (pending_published boot earlier st) as (st1 & Hrun1 & Hq1); [done..|].
  destruct (publish_content boot now d view uuid content msgs b bs rest st1)
    as (st2 & Hrun2 & Hq2); [done..|].
  exists st2. by rewrite (iterations_app _ _ _ _ _ _ Hrun1), Hrun2.
Qed.
End publishing.

(** ** Empty addresses *)

Section panics.
Context `{Libp2p} `{Bincode} `{Digest}.

Lemma is_multiaddr_local_panic a : is_multiaddr_local a = Panic ↔ ma_iter a = [].
Proof. unfold is_multiaddr_local. by destruct (ma_iter a). Qed.

Lemma non_local_panic addrs : non_local addrs = Panic ↔ Exists (λ a, ma_iter a = []) addrs.
Proof.
  induction addrs as [|a addrs IH]; cbn [non_local].
  - by rewrite Exists_nil.
  - rewrite Exists_cons, bind_Panic, is_multiaddr_local_panic, <- IH. split.
    + intros [Ha|(b & _ & [Hr|(r & _ & [=])]%bind_Panic)]; auto.
    + intros [Ha|Hr]; [by left|]. destruct (is_multiaddr_local a) as [b|] eqn:Hb.
      * right. exists b. split; [done|]. by rewrite Hr.
      * left. by apply is_multiaddr_local_panic.
Qed.

(** C34: an identify message of a remote peer stops the event loop with a panic
    exactly when one of its listen addresses is empty ([is_multiaddr_local]
    indexes the protocols at 0); otherwise its addresses are recorded, and every
    address that is not local is added to the routing table, in order. *)
Theorem identify_received_panics_iff peer addrs st :
  (on_identify_received peer addrs st = Panic ↔ Exists (λ a, ma_iter a = []) addrs) ∧
  ∀ st' cmds pub, on_identify_received peer addrs st = Done (st', cmds, pub) →
    announced_identities st' !! peer = Some addrs ∧ pub = None ∧
    ∀ a, KadAddAddress peer a ∈ cmds ↔ a ∈ addrs ∧ is_multiaddr_local a = Done false.
Proof.
  unfold on_identify_received. split.
  - rewrite bind_Panic, non_local_panic. naive_solver.
  - intros st' cmds pub Hd. apply bind_Done in Hd as (l & Hl & [= <- <- <-]).
    split; [apply lookup_insert_eq|]. split; [done|]. intros a. rewrite elem_of_app.
    assert (Hl' : a ∈ l ↔ a ∈ addrs ∧ is_multiaddr_local a = Done false).
    { revert l Hl. induction addrs as [|x addrs IH]; intros l Hl; cbn [non_local] in Hl.
      - injection Hl as <-. set_solver.
      - apply bind_Done in Hl as (b & Hb & (r & Hr & [= <-])%bind_Done).
        specialize (IH r Hr). destruct b; rewrite ?elem_of_cons, IH; naive_solver congruence. }
    rewrite <- Hl'. split.
    + intros [Hin|(a' & [= ->] & Ha)%list_elem_of_fmap]; [|done].
      case_match; [|by apply elem_of_nil in Hin].
      by apply list_elem_of_fmap in Hin as (? & ? & _).
    + intros Ha. right. apply list_elem_of_fmap. by exists a.
Qed.
End panics.

(** ** Witnesses *)

From S2P Require Import Codec.

Section witnesses.
Let addr : Multiaddr := [inl (10, 0, 0, 7); inr (inr 4001)].
Let local_addr : Multiaddr := [inl (127, 0, 0, 1); inr (inr 4001)].
Let peer : PeerId := 7%positive.
Let view : SwarmView := mk_SwarmView 1 (λ _, false) [] 1%positive.
Let endpoint := mk_PeerEndpointCache peer addr.

(** The state after a dialled connection failed. *)
Definition failed_state : RunState :=
  set_failing {[ endpoint := mk_ConnectionRetryTask endpoint 0 ]} init_state.

Lemma failed_reachable : reachable None failed_state.
Proof.
  apply (reachable_step None (at_once 0) 0 view
    (ConnectionClosed peer (Some ConnectionIO) addr true 0) init_state _
    [RetrySend (mk_ConnectionRetryTask endpoint 0)]).
  - apply reachable_init.
  - reflexivity.
Qed.

Lemma reachable_run_ok_witness :
  reachable None failed_state ∧ endpoints_ok failed_state ∧ retries_ok failed_state.
Proof.
  split; [exact failed_reachable|]. exact (reachable_run_ok None _ failed_reachable).
Defined.

Lemma retries_give_up_witness :
  ∃ st', retry_callbacks view endpoint 5 failed_state =
      Done (st', [Dial addr; Dial addr; Dial addr; Dial addr]) ∧
    failing_connections st' !! endpoint = None.
Proof.
  apply (retries_give_up None view endpoint (mk_ConnectionRetryTask endpoint 0) failed_state).
  - exact failed_reachable.
  - apply lookup_singleton_eq.
  - reflexivity.
  - reflexivity.
Defined.

Lemma local_content_published_witness :
  let b := [0; 0; 2; 0; 0; 0; 0; 0; 0; 0; 104; 105] in
  ∃ st', iterations None [(at_once 0, 0, view, LocalClipboard "id" (Text "hi"))] init_state =
      Done (Some st', [Publish b]) ∧ pending_chunks st' = [].
Proof.
  intros b.
  apply (local_content_published None [] (at_once 0) 0 view "id" (Text "hi") [Direct (Text "hi")]
    b [] [] init_state); [constructor|done|reflexivity| |done|constructor|done].
  constructor; [reflexivity|constructor].
Defined.

(** An identify message with an empty listen address. *)
Example empty_listen_addr_panics :
  handle_event None 0 view (IdentifyReceived peer [addr; [] : Multiaddr]) init_state = Panic.
Proof. reflexivity. Qed.

Lemma identify_received_panics_iff_witness :
  ∃ st' cmds, on_identify_received peer [addr; local_addr] init_state =
      Done (st', cmds, None) ∧ KadAddAddress peer addr ∈ cmds.
Proof.
  do 2 eexists. split; [reflexivity|].
  destruct (identify_received_panics_iff peer [addr; local_addr]
    init_state) as [_ Hd].
  edestruct Hd as (_ & _ & Hin); [reflexivity|].
  apply Hin. split; [|reflexivity]. apply elem_of_cons. by left.
Defined.
End witnesses.
