(* ===== verification/RetryThread.v ===== *)
(** * The retry thread and the loop together ([src/network.rs])

    [retry_waiting_thread] holds back a failed connection for a while and gives it back
    to the loop.  The system of both: the state of the loop, the two queues between
    them, and the callbacks that sleep. *)

From S2P Require Import Prelude RustStr Content Transfer Libp2p NetAddr NetLoop.

Local Open Scope Z_scope.

(** ** The thread *)

Section thread.
Context `{Libp2p}.

(** What the thread's [select!] receives, and what it does: spawn [delayed_callback],
    which sleeps until the deadline and sends the endpoint back, or return. *)
Inductive ThreadInput := RetryTask (task : ConnectionRetryTask) | Shutdown.
Inductive ThreadAction := SpawnDelayed (deadline : Z) (payload : PeerEndpointCache) | Return.

Definition retry_waiting_thread (now : Z) (i : ThreadInput) : ThreadAction :=
  match i with
  | RetryTask task =>
      let seconds := retry_delay_secs (retry_count task) in
      SpawnDelayed (now + seconds * NANOS_PER_SEC) (target task)
  | Shutdown => Return
  end.

(** [delayed_callback]: asleep until [deadline]. *)
Definition delayed_callback (deadline now : Z) (task : PeerEndpointCache) :
    option PeerEndpointCache :=
  if deadline <=? now then Some task else None.
End thread.

(** ** The system *)

Section system.
Context `{Libp2p} `{Bincode} `{Digest}.

(** Why a dial of a retry will not be heard of: the swarm refused it ([dial] returned an
    error, which the code ignores), or an event reported its outcome. *)
Inductive Loss := DialRefused | DialEnded (ev : LoopEvent).

(** The last two fields are not in the program: the endpoints whose dial by a retry has no
    outcome yet, and those whose dial has one and that were not sent to the thread
    since. *)
Record System := mk_System {
  sys_now : Z;
  sys_loop : RunState;
  retry_queue : list ConnectionRetryTask;
  sleeping : list (Z * PeerEndpointCache);
  callback_queue : list PeerEndpointCache;
  outstanding : gset PeerEndpointCache;
  lost : list (PeerEndpointCache * Loss);
}.

Definition retry_send (c : Cmd) : option ConnectionRetryTask :=
  match c with RetrySend t => Some t | _ => None end.
Definition retry_sends (cmds : list Cmd) : list ConnectionRetryTask := omap retry_send cmds.
Definition is_dial (c : Cmd) : bool := match c with Dial _ => true | _ => false end.

Definition sent_targets (cmds : list Cmd) : gset PeerEndpointCache :=
  list_to_set (target <$> retry_sends cmds).

(** An iteration of the loop that took the event [ev], which is the outcome of the dials
    to [ended]; and [callback] from the queue, if any, whose dial the swarm may have
    [refused]. *)
Definition after_iteration (now : Z) (s : System) (callback : option PeerEndpointCache)
    (refused : bool) (queue : list PeerEndpointCache) (ended : gset PeerEndpointCache) (ev : LoopEvent)
    (st : RunState) (cmds : list Cmd) : System :=
  let dialled := match callback with
                 | Some c => if existsb is_dial cmds then [c] else []
                 | None => []
                 end in
  mk_System now st (retry_queue s ++ retry_sends cmds) (sleeping s) queue
    ((outstanding s ∖ ended) ∪ (if refused then ∅ else list_to_set dialled))
    (filter (λ l, l.1 ∉ sent_targets cmds)
      (((λ c, (c, DialEnded ev)) <$> elements ended)
       ++ (if refused then (λ c, (c, DialRefused)) <$> dialled else []) ++ lost s)).

(** The events that report the outcome of a dial. *)
Definition is_outcome (ev : LoopEvent) : bool :=
  match ev with ConnectionEstablished _ _ | OutgoingConnectionError _ _ => true | _ => false end.

(** The event was taken: while chunks are pending the loop publishes them instead. *)
Definition is_callback (ev : LoopEvent) : bool :=
  match ev with RetryCallback _ => true | _ => false end.

Inductive sys_step (boot : option PeerEndpointCache) (s : System) : System → Prop :=
| step_event now d view ev ended st' cmds :
    sys_now s ≤ t_event now → is_callback ev = false ∨ pending_chunks (sys_loop s) ≠ [] →
    ended ⊆ outstanding s → ended = ∅ ∨ (is_outcome ev = true ∧ pending_chunks (sys_loop s) = []) →
    iteration boot now d view ev (sys_loop s) = Done (Continue st' cmds) →
    sys_step boot s (after_iteration (t_event now) s None false (callback_queue s) ended ev st' cmds)
| step_callback now d view c refused queue st' cmds :
    sys_now s ≤ t_event now → pending_chunks (sys_loop s) = [] → callback_queue s = c :: queue →
    iteration boot now d view (RetryCallback c) (sys_loop s) = Done (Continue st' cmds) →
    sys_step boot s (after_iteration (t_event now) s (Some c) refused queue ∅ (RetryCallback c) st' cmds)
| step_recv now task queue deadline payload :
    sys_now s ≤ now → retry_queue s = task :: queue →
    retry_waiting_thread now (RetryTask task) = SpawnDelayed deadline payload →
    sys_step boot s (mk_System now (sys_loop s) queue ((deadline, payload) :: sleeping s)
      (callback_queue s) (outstanding s) (lost s))
| step_wake now i deadline payload c :
    sys_now s ≤ now → sleeping s !! i = Some (deadline, payload) →
    delayed_callback deadline now payload = Some c →
    sys_step boot s (mk_System now (sys_loop s) (retry_queue s) (delete i (sleeping s))
      (callback_queue s ++ [c]) (outstanding s) (lost s)).

Definition init_system (now : Z) : System := mk_System now init_state [] [] [] ∅ [].

Inductive sys_reachable (boot : option PeerEndpointCache) : System → Prop :=
| sys_init now : sys_reachable boot (init_system now)
| sys_next s s' : sys_reachable boot s → sys_step boot s s' → sys_reachable boot s'.

(** ** Nothing is forgotten *)

(** What a handler that leads from [st] to [st'] has to see to: a new failing
    connection is sent to the retry thread, with a count in its bounds. *)
Definition covers (st st' : RunState) (cmds : list Cmd) : Prop :=
  (∀ c, is_Some (failing_connections st' !! c) →
     is_Some (failing_connections st !! c) ∨ c ∈ sent_targets cmds)
  ∧ Forall (λ t, task_ok (target t) t) (retry_sends cmds).

Lemma retry_sends_app c1 c2 : retry_sends (c1 ++ c2) = retry_sends c1 ++ retry_sends c2.
Proof. apply omap_app. Qed.
Lemma sent_targets_app c1 c2 : sent_targets (c1 ++ c2) = sent_targets c1 ∪ sent_targets c2.
Proof. unfold sent_targets. by rewrite retry_sends_app, fmap_app, list_to_set_app_L. Qed.

Lemma covers_app st st1 st2 c1 c2 :
  covers st st1 c1 → covers st1 st2 c2 → covers st st2 (c1 ++ c2).
Proof.
  intros [Hc1 F1] [Hc2 F2]. split.
  - intros c [[Hc|Hc]%Hc1|Hc]%Hc2; [by left|right..]; rewrite sent_targets_app; set_solver.
  - rewrite retry_sends_app. by apply Forall_app.
Qed.

(** Commands that are no retries, from a handler that adds no failing connection. *)
Lemma covers_subset st st' cmds :
  failing_connections st' ⊆ failing_connections st → retry_sends cmds = [] → covers st st' cmds.
Proof.
  intros Hsub Hc. split; [|by rewrite Hc]. intros c [t Ht]. left. exists t.
  by eapply lookup_weaken.
Qed.

Lemma covers_record_failure c st st0 :
  failing_connections st = failing_connections st0 → retries_ok st0 →
  covers st0 (record_failure c st).1 (record_failure c st).2.
Proof.
  intros Heq Hok. cbn [record_failure fst snd]. unfold covers, sent_targets. cbn [retry_sends omap list_omap retry_send].
  assert (task_ok c (retry_task_of st c)) as Ht.
  { unfold retry_task_of. rewrite Heq. destruct (failing_connections st0 !! c) as [t|] eqn:Hc;
      [by apply (Hok c)|split; [done|cbn; lia]]. }
  assert (target (retry_task_of st c) = c) as Htc by apply Ht. split.
  - intros c'. cbn [set_failing failing_connections]. rewrite Heq.
    destruct (decide (c' = c)) as [->|Hne]; [|rewrite lookup_insert_ne by done; by left].
    intros _. right. cbn. rewrite Htc. set_solver.
  - constructor; [by rewrite Htc|constructor].
Qed.

Lemma covers_transport_error p a e st st' cmds b :
  retries_ok st → on_transport_error p a e st = (st', cmds, b) → covers st st' cmds.
Proof.
  intros Hok. unfold on_transport_error.
  destruct e as [|[msg|]], p as [peer|]; try (intros [= <- <- <-]; by apply covers_subset).
  destruct (existsb _ _).
  - intros [= <- <- <-]. by apply (covers_record_failure _ st st).
  - intros [= <- <- <-]. apply covers_subset; [|done]. apply delete_subseteq.
Qed.

Lemma covers_transport_errors p es b st st' cmds b' :
  run_ok st → on_transport_errors p es b st = (st', cmds, b') → covers st st' cmds.
Proof.
  revert b st st' cmds. induction es as [|[a e] es IH]; intros b st st' cmds Hok; cbn [on_transport_errors].
  { intros [= <- <- <-]. by apply covers_subset. }
  pose proof (run_ok_transport_error p a e st Hok) as Hok1.
  destruct (on_transport_error p a e st) as [[s1 c1] b1] eqn:H1'.
  destruct (on_transport_errors p es (b || b1) s1) as [[s2 c2] b2] eqn:H2'.
  intros [= <- <- <-]. eapply covers_app; [eapply covers_transport_error; [apply Hok|done]|].
  by eapply IH.
Qed.

Lemma covers_outgoing_error p e st st' cmds pub :
  run_ok st → on_outgoing_connection_error p e st = (st', cmds, pub) → covers st st' cmds.
Proof.
  intros Hok. unfold on_outgoing_connection_error.
  destruct (match e with DialTransport errors => _ | _ => _ end) as [[s c] b] eqn:Hm.
  assert (covers st s c) as Hc.
  { destruct e; try (injection Hm as <- <- <-; by apply covers_subset).
    by eapply covers_transport_errors. }
  destruct b; [destruct p|]; intros [= <- <- <-]; try done.
  eapply covers_app; [done|]. by apply covers_subset.
Qed.

Lemma covers_connection_closed p cause a d n st st' cmds pub :
  retries_ok st → on_connection_closed p cause a d n st = (st', cmds, pub) → covers st st' cmds.
Proof.
  intros Hok. unfold on_connection_closed. set (st1 := if n =? 0 then _ else _).
  assert (failing_connections st1 = failing_connections st) as H1' by (unfold st1; by case_match).
  destruct cause as [[]|]; [destruct d|..];
    try (intros [= <- <- <-]; apply covers_subset; [cbn; by rewrite H1'|done]).
  intros [= <- <- <-]. by apply (covers_record_failure _ (retain_endpoints _ st1) st).
Qed.

Lemma covers_expired boot a st st' cmds pub :
  retries_ok st → on_expired_listen_addr boot a st = Done (st', cmds, pub) → covers st st' cmds.
Proof.
  intros Hok. unfold on_expired_listen_addr. intros (n & _ & [= Heq])%bind_Done. revert Heq.
  destruct (0 <? n)%nat; [destruct boot as [c|]|]; try (intros [= <- <- <-]; by apply covers_subset).
  intros [= <- <- <-]. set (st1 := set_listen (current_listen_addresses st ∖ {[a]}) st).
  apply (covers_app st st (record_failure c st1).1 [IdentifyPush (peers_to_push (Some c))]
    (record_failure c st1).2); [by apply covers_subset|].
  by apply (covers_record_failure c st1 st).
Qed.

Lemma retry_sends_none cmds :
  Forall (λ c, retry_send c = None) cmds → retry_sends cmds = [].
Proof. induction 1 as [|c cmds Hc Hcs IH]; [done|]. unfold retry_sends in *. simpl. by rewrite Hc. Qed.

(** Every handler but that of the callbacks covers its new failing connections. *)
Lemma covers_handle_event boot now view ev st st' cmds pub :
  run_ok st → is_callback ev = false →
  handle_event boot now view ev st = Done (st', cmds, pub) → covers st st' cmds.
Proof.
  intros Hok Hev Hh. pose proof (proj2 Hok) as Hr.
  destruct ev; cbn [handle_event is_callback] in *; try done;
    try (injection Hh as <- <- <-; by apply covers_subset).
  - injection Hh as Hh. unfold on_local_clipboard in Hh.
    repeat case_match; injection Hh as <- <- <-; by apply covers_subset.
  - apply bind_Done in Hh as ([cs o] & _ & [= <- <- <-]). apply covers_subset; [done|].
    by destruct o.
  - apply bind_Done in Hh as (l & _ & [= <- <- <-]). apply covers_subset; [done|].
    apply retry_sends_none, Forall_app. split; [case_match|];
      rewrite ?Forall_fmap; try constructor; by apply Forall_true.
  - apply bind_Done in Hh as (l & _ & [= <- <- <-]). apply covers_subset; [done|].
    apply retry_sends_none. constructor; [done|]. apply Forall_app.
    split; [|by constructor]. repeat case_match; by repeat constructor.
  - by eapply covers_expired.
  - injection Hh as <- <- <-. apply covers_subset; [|done]. cbn. apply map_filter_subseteq.
  - injection Hh as Hh. by eapply covers_connection_closed.
  - injection Hh as Hh. by eapply covers_outgoing_error.
  - injection Hh as <- <- <-. apply covers_subset; [done|]. apply retry_sends_none.
    rewrite Forall_fmap. by apply Forall_true.
  - injection Hh as <- <- <-. apply covers_subset; [done|]. apply retry_sends_none.
    rewrite Forall_fmap. by apply Forall_true.
  - injection Hh as <- <- <-. apply covers_subset; [done|]. apply retry_sends_none.
    apply Forall_app. split; [rewrite Forall_fmap; by apply Forall_true|].
    apply Forall_app. split; [repeat case_match; by repeat constructor|by constructor].
Qed.

(** The handler of the callbacks: the endpoint is forgotten, sent back to the thread, or
    dialled. *)
Lemma covers_retry_callback view c st st' cmds pub :
  run_ok st → on_retry_callback view c st = Done (st', cmds, pub) →
  (∀ c', is_Some (failing_connections st' !! c') →
     (c' ≠ c ∧ is_Some (failing_connections st !! c')) ∨ c' ∈ sent_targets cmds
     ∨ (c' = c ∧ existsb is_dial cmds = true))
  ∧ Forall (λ t, task_ok (target t) t) (retry_sends cmds).
Proof.
  intros [_ Hok]. unfold on_retry_callback.
  destruct (failing_connections st !! c) as [t|] eqn:Hc.
  2: { intros [= <- <- _]. split; [|constructor]. intros c' Hc'. left. split; [|done].
       intros ->. rewrite Hc in Hc'. by destruct Hc'. }
  pose proof (Hok c t Hc) as Ht. pose proof (proj1 Ht) as Htc.
  intros (ok & _ & [= Hif])%bind_Done. revert Hif.
  assert (∀ c', is_Some (delete c (failing_connections st) !! c') →
    c' ≠ c ∧ is_Some (failing_connections st !! c')) as Hdel.
  { intros c' [t' [? ?]%lookup_delete_Some]. split; [done|by exists t']. }
  repeat case_match; intros [= <- <- _].
  - split; [|by repeat constructor; rewrite ?Htc; apply Ht]. intros c' Hc'.
    destruct (decide (c' = c)) as [->|]; [right; left|by left].
    unfold sent_targets. cbn. rewrite Htc. set_solver.
  - split; [|constructor]. intros c' Hc'%Hdel. by left.
  - split; [|constructor]. intros c' Hc'%Hdel. by left.
  - split; [|constructor]. intros c'. cbn [set_failing failing_connections].
    destruct (decide (c' = c)) as [->|]; [by right; right|].
    rewrite lookup_insert_ne by done. by left.
Qed.

(** *** The outcome of a dial *)

(** The event names the endpoint: the connection to its peer, or an error of its address
    with a text, for its peer. *)
Definition names (c : PeerEndpointCache) (ev : LoopEvent) : Prop :=
  match ev with
  | ConnectionEstablished p _ => p = ep_peer_id c
  | OutgoingConnectionError (Some p) (DialTransport errors) =>
      p = ep_peer_id c ∧ ∃ msg, (ep_address c, TransportOther (Some msg)) ∈ errors
  | _ => False
  end.

Lemma transport_errors_named p es a msg b st st' cmds b' :
  (a, TransportOther (Some msg)) ∈ es → run_ok st →
  on_transport_errors (Some p) es b st = (st', cmds, b') →
  is_Some (failing_connections st' !! mk_PeerEndpointCache p a) →
  mk_PeerEndpointCache p a ∈ sent_targets cmds.
Proof.
  intros Hin. revert b st st' cmds b'. induction es as [|[a' e] es IH]; intros b st st' cmds b' Hok;
    [by apply elem_of_nil in Hin|]. cbn [on_transport_errors].
  pose proof (run_ok_transport_error (Some p) a' e st Hok) as Hok1.
  destruct (on_transport_error (Some p) a' e st) as [[s1 c1] b1] eqn:He.
  destruct (on_transport_errors (Some p) es (b || b1) s1) as [[s2 c2] b2] eqn:Hes.
  set (c := mk_PeerEndpointCache p a) in *.
  intros [= <- <- <-] Hc. rewrite sent_targets_app, elem_of_union.
  apply elem_of_cons in Hin as [[= <- <-]|Hin]; [|right; by eapply IH].
  pose proof (covers_transport_errors _ _ _ _ _ _ _ Hok1 Hes) as [Hcov _].
  apply Hcov in Hc as [Hc|Hc]; [left|by right]. cbn [on_transport_error] in He.
  destruct (existsb _ _).
  - injection He as _ <- _. apply elem_of_list_to_set, list_elem_of_fmap. cbn.
    exists (retry_task_of st c). split; [|by left]. unfold retry_task_of.
    destruct (failing_connections st !! c) as [t|] eqn:Hf; [|done]. symmetry. apply (proj2 Hok c t Hf).
  - injection He as <- <- <-. exfalso. cbn in Hc. rewrite lookup_delete_eq in Hc. by destruct Hc.
Qed.

(** An endpoint that is named is no longer failing, or is sent to the thread. *)
Lemma named_outcome boot now view c ev st st' cmds pub :
  run_ok st → names c ev → handle_event boot now view ev st = Done (st', cmds, pub) →
  is_Some (failing_connections st' !! c) → c ∈ sent_targets cmds.
Proof.
  intros Hok Hnames Hh Hc. destruct ev as [| | | | | | | |p a| |p e| | | | |]; try done; cbn [handle_event] in Hh.
  - cbn [names] in Hnames. subst p. injection Hh as <- _ _. exfalso. destruct Hc as [t Hc].
    cbn in Hc. apply map_lookup_filter_Some in Hc as [_ Hc]. by apply Hc.
  - destruct p as [p|]; [|done]. destruct e as [errors| | | | | |]; try done.
    destruct Hnames as [-> [msg Hin]]. injection Hh as Hh. unfold on_outgoing_connection_error in Hh.
    destruct (on_transport_errors _ errors false st) as [[s1 c1] b1] eqn:He.
    pose proof (transport_errors_named _ _ _ _ _ _ _ _ _ Hin Hok He) as Hsent.
    destruct c as [p a]. cbn [ep_peer_id ep_address] in *.
    destruct b1; injection Hh as <- <- <-; rewrite ?sent_targets_app; [apply elem_of_union_l|]; by apply Hsent.
Qed.

(** ** The invariant *)

Definition MAX_RETRY_DELAY_SECS : Z := 17.

(** Somebody will come back to the endpoint, or its dial has no outcome yet. *)
Definition responsible (s : System) (c : PeerEndpointCache) : Prop :=
  c ∈ target <$> retry_queue s ∨ c ∈ snd <$> sleeping s ∨ c ∈ callback_queue s ∨ c ∈ outstanding s.

(** The code could not know the outcome of the dial. *)
Definition unheard (c : PeerEndpointCache) (l : Loss) : Prop :=
  match l with DialRefused => True | DialEnded ev => is_outcome ev = true ∧ ¬ names c ev end.

Definition accounted (s : System) (c : PeerEndpointCache) : Prop :=
  responsible s c ∨ ∃ l, (c, l) ∈ lost s ∧ unheard c l.

Definition sys_ok (s : System) : Prop :=
  run_ok (sys_loop s)
  ∧ Forall (λ t, task_ok (target t) t) (retry_queue s)
  ∧ Forall (λ p, p.1 ≤ sys_now s + MAX_RETRY_DELAY_SECS * NANOS_PER_SEC) (sleeping s)
  ∧ ∀ c, is_Some (failing_connections (sys_loop s) !! c) → accounted s c.

Lemma later_deadlines now now' l :
  now ≤ now' → Forall (λ p : Z * PeerEndpointCache, p.1 ≤ now + MAX_RETRY_DELAY_SECS * NANOS_PER_SEC) l →
  Forall (λ p : Z * PeerEndpointCache, p.1 ≤ now' + MAX_RETRY_DELAY_SECS * NANOS_PER_SEC) l.
Proof. intros Hle Hl. eapply Forall_impl; [exact Hl|]. simpl. lia. Qed.

Lemma delay_bound c t : task_ok c t → retry_delay_secs (retry_count t) ≤ MAX_RETRY_DELAY_SECS.
Proof.
  intros [_ [Hlo Hhi]]. unfold retry_delay_secs, checked_square, MAX_RETRY_DELAY_SECS.
  case_match; cbn; nia.
Qed.

(** What an iteration of the loop does to the failing connections. *)
Lemma iteration_step boot now d view ev st st' cmds :
  run_ok st → iteration boot now d view ev st = Done (Continue st' cmds) →
  run_ok st' ∧ Forall (λ t, task_ok (target t) t) (retry_sends cmds) ∧
  ∀ c, is_Some (failing_connections st' !! c) → c ∉ sent_targets cmds →
    match ev with
    | RetryCallback c' =>
        if decide (pending_chunks st = []) then
          (c ≠ c' ∧ is_Some (failing_connections st !! c)) ∨ (c = c' ∧ existsb is_dial cmds = true)
        else is_Some (failing_connections st !! c)
    | _ => is_Some (failing_connections st !! c)
    end.
Proof.
  intros Hok Hit. split; [by eapply run_ok_iteration|]. unfold iteration in Hit.
  apply bind_Done in Hit as ([[s cs] p] & Hs & [= Hc]).
  destruct (HANDLER_TIMEOUT <? d); [done|]. injection Hc as <- <-.
  set (st1 := set_chunks _ st) in *. change (pending_chunks st) with (pending_chunks st1).
  assert (run_ok st1) as Hok1 by by apply run_ok_set_chunks.
  change (failing_connections st) with (failing_connections st1). clearbody st1.
  assert (retry_sends (cs ++ (Publish <$> option_list p)) = retry_sends cs) as Hsends
    by (rewrite retry_sends_app; destruct p; apply app_nil_r).
  unfold sent_targets. rewrite Hsends. destruct (pending_chunks st1) as [|x q].
  2: { injection Hs as <- <- <-. split; [constructor|]. intros c Hc _.
       destruct ev; exact Hc. }
  destruct (is_callback ev) eqn:Hev.
  - destruct ev as [| | | | | | | | | | | | | |c'|]; try done. cbn [handle_event] in Hs.
    destruct (covers_retry_callback view c' st1 s cs p Hok1 Hs) as [Hcov Htasks].
    split; [done|]. intros c Hc Hnot. rewrite decide_True by done.
    apply Hcov in Hc as [Hc|[Hc|[-> Hd]]]; [by left|done|right; split; [done|]].
    rewrite existsb_app, Hd. done.
  - destruct (covers_handle_event boot (t_event now) view ev st1 s cs p Hok1 Hev Hs) as [Hcov Htasks].
    split; [done|]. intros c Hc Hnot. apply Hcov in Hc as [Hc|Hc]; [|done].
    by destruct ev.
Qed.

(** An event that names a failing endpoint has it sent to the thread. *)
Lemma iteration_named boot now d view c ev st st' cmds :
  run_ok st → pending_chunks st = [] → names c ev →
  iteration boot now d view ev st = Done (Continue st' cmds) →
  is_Some (failing_connections st' !! c) → c ∈ sent_targets cmds.
Proof.
  intros Hok Hp Hnames Hit Hc. unfold iteration in Hit. cbn [NetLoop.set_chunks pending_chunks] in Hit.
  rewrite Hp in Hit. apply bind_Done in Hit as ([[s cs] p] & Hs & [= Hd]).
  destruct (HANDLER_TIMEOUT <? d); [done|]. injection Hd as <- <-. rewrite sent_targets_app.
  apply elem_of_union_l. eapply named_outcome; [|done..]. by apply run_ok_set_chunks.
Qed.

(** What becomes of an endpoint that was accounted for and is not dialled now. *)
Lemma accounted_kept boot s now d view ev callback refused queue ended st' cmds c :
  run_ok (sys_loop s) → iteration boot now d view ev (sys_loop s) = Done (Continue st' cmds) →
  ended = ∅ ∨ (is_outcome ev = true ∧ pending_chunks (sys_loop s) = []) →
  is_Some (failing_connections st' !! c) → c ∉ sent_targets cmds →
  (c ∈ callback_queue s → c ∈ queue) → accounted s c →
  accounted (after_iteration (t_event now) s callback refused queue ended ev st' cmds) c.
Proof.
  intros Hrun Hit Hended Hc Hnot Hq.
  unfold accounted, responsible. cbn [after_iteration retry_queue sleeping callback_queue outstanding lost].
  assert (∀ l, (c, l) ∈ lost s ∨ (c ∈ ended ∧ l = DialEnded ev) → (c, l) ∈
    lost (after_iteration (t_event now) s callback refused queue ended ev st' cmds)) as Hlost.
  { intros l Hl. apply list_elem_of_filter. split; [done|]. rewrite !elem_of_app.
    destruct Hl as [Hl|[Hl ->]]; [by right; right|left].
    apply list_elem_of_fmap. exists c. split; [done|]. by apply elem_of_elements. }
  intros [[Hr|[Hr|[Hr|Hr]]]|(l & Hl & Hun)].
  - left. left. rewrite fmap_app. apply elem_of_app. by left.
  - left. right. by left.
  - left. right. right. left. by apply Hq.
  - destruct (decide (c ∈ ended)) as [Hin|Hin]; [right|left; set_solver].
    exists (DialEnded ev). split; [by apply Hlost; right|].
    destruct Hended as [->|[Hout Hp]]; [by apply elem_of_empty in Hin|]. split; [done|].
    intros Hnames. by apply Hnot, (iteration_named boot now d view c ev (sys_loop s) st').
  - right. exists l. split; [by apply Hlost; left|done].
Qed.

Lemma sys_ok_iteration boot s now d view ev callback refused queue ended st' cmds :
  sys_ok s → sys_now s ≤ t_event now →
  iteration boot now d view ev (sys_loop s) = Done (Continue st' cmds) →
  ended = ∅ ∨ (is_outcome ev = true ∧ pending_chunks (sys_loop s) = []) →
  match callback with
  | Some c => ev = RetryCallback c ∧ pending_chunks (sys_loop s) = [] ∧ callback_queue s = c :: queue
  | None => (is_callback ev = false ∨ pending_chunks (sys_loop s) ≠ []) ∧ callback_queue s = queue
  end →
  sys_ok (after_iteration (t_event now) s callback refused queue ended ev st' cmds).
Proof.
  intros (Hrun & Htasks & Hsleep & Hresp) Hnow Hit Hended Hcb.
  destruct (iteration_step _ _ _ _ _ _ _ _ Hrun Hit) as (Hrun' & Htasks' & Hfail).
  split; [done|]. split; [by apply Forall_app|]. split; [by eapply later_deadlines|].
  intros c Hc. cbn [after_iteration sys_loop] in Hc.
  destruct (decide (c ∈ sent_targets cmds)) as [Hin|Hnot].
  { left. left. cbn [after_iteration retry_queue]. rewrite fmap_app, elem_of_app. right.
    by apply elem_of_list_to_set in Hin. }
  specialize (Hfail c Hc Hnot). destruct callback as [c0|].
  - destruct Hcb as (-> & Hp & Hq). rewrite decide_True in Hfail by done.
    destruct Hfail as [[Hne Hf]|[-> Hd]].
    + eapply accounted_kept; try done; [|by apply Hresp]. rewrite Hq. set_solver.
    + unfold accounted, responsible. cbn [after_iteration outstanding lost]. rewrite Hd.
      destruct refused; [right|left; right; right; right; set_solver].
      exists DialRefused. split; [|done]. apply list_elem_of_filter. split; [done|]. set_solver.
  - destruct Hcb as [Hev <-]. eapply accounted_kept; try done. apply Hresp.
    destruct ev; try exact Hfail. destruct Hev as [Hev|Hev]; [done|].
    by rewrite decide_False in Hfail.
Qed.

Lemma accounted_moved s s' c :
  outstanding s' = outstanding s → lost s' = lost s →
  (∀ c, c ∈ target <$> retry_queue s ∨ c ∈ snd <$> sleeping s ∨ c ∈ callback_queue s →
     c ∈ target <$> retry_queue s' ∨ c ∈ snd <$> sleeping s' ∨ c ∈ callback_queue s') →
  accounted s c → accounted s' c.
Proof.
  unfold accounted, responsible. intros -> -> Hmove [Hr|Hl]; [left|by right].
  specialize (Hmove c). tauto.
Qed.

Lemma sys_step_ok boot s s' : sys_ok s → sys_step boot s s' → sys_ok s'.
Proof.
  intros Hok Hstep. pose proof Hok as (Hrun & Htasks & Hsleep & Hresp).
  destruct Hstep as [now d view ev ended st' cmds Hnow Hev Hsub Hended Hit
    |now d view c refused queue st' cmds Hnow Hp Hq Hit
    |now task queue deadline payload Hnow Hq Hthread|now i deadline payload c Hnow Hi Hd].
  - by eapply sys_ok_iteration.
  - eapply sys_ok_iteration; [done..|by left|done].
  - injection Hthread as <- <-. rewrite Hq in Htasks. apply Forall_cons in Htasks as [Ht Htasks].
    split; [done|]. split; [done|]. split.
    + constructor; [|by eapply later_deadlines]. cbn [fst sys_now].
      pose proof (delay_bound _ _ Ht). unfold NANOS_PER_SEC. lia.
    + intros c Hc. apply (accounted_moved s); [done..| |by apply Hresp]. intros c'.
      rewrite Hq. cbn. set_solver.
  - unfold delayed_callback in Hd. destruct (deadline <=? now); [|done]. injection Hd as ->.
    split; [done|]. split; [done|]. split.
    + apply (later_deadlines (sys_now s)); [done|]. by apply Forall_delete.
    + intros c' Hc'. apply (accounted_moved s); [done..| |by apply Hresp]. clear c' Hc'. intros c'. cbn.
      intros [Hc'|[Hc'|Hc']]; [set_solver| |set_solver].
      apply list_elem_of_fmap in Hc' as ([due c''] & -> & Hin). cbn.
      rewrite (delete_Permutation _ _ _ Hi), elem_of_cons in Hin.
      destruct Hin as [[= -> ->]|Hin]; [set_solver|].
      right. left. apply list_elem_of_fmap. by exists (due, c'').
Qed.

Lemma sys_reachable_ok boot s : sys_reachable boot s → sys_ok s.
Proof.
  induction 1 as [now|s s' _ IH Hstep]; [|by eapply sys_step_ok].
  split; [apply (reachable_ok boot), reachable_init|]. split; [constructor|]. split; [constructor|].
  intros c [t Ht]. cbn in Ht. by rewrite lookup_empty in Ht.
Qed.


(** ** The schedule of the retries *)

(** One round: at [t] the failure of a dial to [c] is reported with the text [msg]; the
    retry goes to the thread, whose callback reaches the loop at the deadline. *)
Definition retry_round (view : SwarmView) (c : PeerEndpointCache) (msg : string) (t : Z)
    (st : RunState) : outcome (option (Z * RunState * list Cmd)) :=
  let '(st, cmds, _) :=
    on_outgoing_connection_error (Some (ep_peer_id c))
      (DialTransport [(ep_address c, TransportOther (Some msg))]) st in
  match retry_sends cmds with
  | task :: _ =>
      match retry_waiting_thread t (RetryTask task) with
      | SpawnDelayed deadline payload =>
          '(st, cmds, _) ← on_retry_callback view payload st;
          Done (Some (deadline, st, cmds))
      | Return => Done None
      end
  | [] => Done None
  end.

(** Rounds as long as the callback dials again; the dial of a round fails after the next
    latency. The times and commands of the callbacks. *)
Fixpoint retry_rounds (view : SwarmView) (c : PeerEndpointCache) (msg : string)
    (latencies : list Z) (t : Z) (st : RunState) : outcome (list (Z * list Cmd) * RunState) :=
  match latencies with
  | [] => Done ([], st)
  | latency :: latencies' =>
      r ← retry_round view c msg (t + latency) st;
      match r with
      | Some (deadline, st, cmds) =>
          if existsb is_dial cmds then
            '(log, st) ← retry_rounds view c msg latencies' deadline st;
            Done ((deadline, cmds) :: log, st)
          else Done ([(deadline, cmds)], st)
      | None => Done ([], st)
      end
  end.

Definition held (msg : string) : Prop :=
  existsb (λ e, contains e msg) should_hold_and_retry = true.

Lemma retry_round_eq view c msg t n st :
  held msg → retry_task_of st c = mk_ConnectionRetryTask c n → 0 ≤ n ≤ 4 →
  is_network_ok view (ep_address c) st = Done true → is_connected view (ep_peer_id c) = false →
  let f := <[c := mk_ConnectionRetryTask c n]> (failing_connections st) in
  retry_round view c msg t st =
    Done (Some (t + (n * n + 1) * NANOS_PER_SEC,
      set_failing (if n <=? 3 then <[c := mk_ConnectionRetryTask c (n + 1)]> f else delete c f) st,
      if n <=? 3 then [Dial (ep_address c)] else [])).
Proof.
  intros Hheld Htask Hn Hnet Hconn f. unfold retry_round, on_outgoing_connection_error.
  cbn [on_transport_errors on_transport_error]. destruct c as [peer addr]. cbn [ep_peer_id ep_address] in *.
  unfold held in Hheld. rewrite Hheld. unfold record_failure. rewrite Htask. cbn.
  fold f. unfold on_retry_callback. cbn [set_failing failing_connections]. unfold f at 1.
  rewrite lookup_insert_eq. cbn [target ep_address ep_peer_id retry_count].
  rewrite is_network_ok_set_failing, Hnet. cbn [mbind outcome_bind negb]. rewrite Hconn.
  assert (retry_delay_secs n = n * n + 1) as ->.
  { unfold retry_delay_secs, checked_square. rewrite (proj2 (Z.leb_le _ _)); [done|].
    unfold U64_MAX. nia. }
  destruct (n <=? 3); cbn [negb]; reflexivity.
Qed.

(** The time of the callback of each round, the count of the first being [n]. *)
Fixpoint callback_times (n : Z) (latencies : list Z) (t : Z) : list Z :=
  match latencies with
  | [] => []
  | latency :: latencies' =>
      let deadline := t + latency + (n * n + 1) * NANOS_PER_SEC in
      deadline :: callback_times (n + 1) latencies' deadline
  end.

Lemma retry_rounds_eq view c msg (k : nat) latencies t n st :
  held msg → retry_task_of st c = mk_ConnectionRetryTask c n → 0 ≤ n →
  Z.of_nat k = 4 - n → length latencies = S k →
  is_network_ok view (ep_address c) st = Done true → is_connected view (ep_peer_id c) = false →
  ∃ st', retry_rounds view c msg latencies t st =
      Done (zip (callback_times n latencies t) (replicate k [Dial (ep_address c)] ++ [[]]), st')
    ∧ failing_connections st' !! c = None.
Proof.
  intros Hheld. revert latencies t n st. induction k as [|k IH];
    intros [|latency latencies] t n st Htask Hn Hk Hlen Hnet Hconn; try done;
    cbn [retry_rounds callback_times]; rewrite (retry_round_eq view c msg _ n) by (done || lia);
    cbn [mbind outcome_bind].
  - destruct latencies; [|done]. rewrite (proj2 (Z.leb_gt n 3)) by lia. cbn [existsb].
    eexists. split; [reflexivity|]. cbn. apply lookup_delete_eq.
  - rewrite (proj2 (Z.leb_le n 3)) by lia. cbn [existsb is_dial orb].
    set (st1 := set_failing _ st).
    destruct (IH latencies (t + latency + (n * n + 1) * NANOS_PER_SEC) (n + 1) st1)
      as (st' & Hrun & Hgone).
    + unfold retry_task_of, st1. cbn [set_failing failing_connections]. by rewrite lookup_insert_eq.
    + lia.
    + lia.
    + by injection Hlen.
    + exact Hnet.
    + exact Hconn.
    + exists st'. rewrite Hrun. by split.
Qed.

(** C25: an unreachable peer is dialled again four times and then given up, on time:
    when each dial fails with an error worth a retry after [l1], ..., [l4], the
    callbacks come 1, 2, 5 and 10 seconds after the failures and dial; the callback 17
    seconds after the fifth failure drops the endpoint. *)
Theorem unreachable_peer_schedule view c msg l0 l1 l2 l3 l4 t st :
  held msg → failing_connections st !! c = None →
  is_network_ok view (ep_address c) st = Done true → is_connected view (ep_peer_id c) = false →
  let secs n := n * NANOS_PER_SEC in
  let t1 := t + l0 + secs 1 in let t2 := t1 + l1 + secs 2 in let t3 := t2 + l2 + secs 5 in
  let t4 := t3 + l3 + secs 10 in let t5 := t4 + l4 + secs 17 in
  let dial := [Dial (ep_address c)] in
  ∃ st', retry_rounds view c msg [l0; l1; l2; l3; l4] t st =
      Done ([(t1, dial); (t2, dial); (t3, dial); (t4, dial); (t5, [])], st')
    ∧ failing_connections st' !! c = None.
Proof.
  intros Hheld Hnone Hnet Hconn secs t1 t2 t3 t4 t5 dial.
  apply (retry_rounds_eq view c msg 4 [l0; l1; l2; l3; l4] t 0 st); try done.
  unfold retry_task_of. by rewrite Hnone.
Qed.
End system.

(** ** Witnesses *)

From S2P Require Import Codec.

Section witnesses.
Let addr : Multiaddr := [inl (10, 0, 0, 7); inr (inr 4001)].
Let peer : PeerId := 7%positive.
Let view : SwarmView := mk_SwarmView 1 (λ _, false) [] 1%positive.
Let endpoint := mk_PeerEndpointCache peer addr.

(** A dialled connection fails, and the thread takes the retry. *)
Definition failed_event : LoopEvent := ConnectionClosed peer (Some ConnectionIO) addr true 0.
Definition failed_system : System :=
  after_iteration 5 (init_system 0) None false [] ∅ failed_event failed_state
    [RetrySend (mk_ConnectionRetryTask endpoint 0)].
Definition sleeping_system : System :=
  mk_System 5 failed_state [] [(5 + 1 * NANOS_PER_SEC, endpoint)] [] ∅ [].

Lemma sleeping_reachable : sys_reachable None sleeping_system.
Proof.
  apply (sys_next None failed_system); [apply (sys_next None (init_system 0)); [apply sys_init|]|].
  - apply (step_event None (init_system 0) (at_once 5) 0 view failed_event ∅ failed_state
      [RetrySend (mk_ConnectionRetryTask endpoint 0)]); [done|by left|done|by left|reflexivity].
  - apply (step_recv None failed_system 5 (mk_ConnectionRetryTask endpoint 0) []
      (5 + 1 * NANOS_PER_SEC) endpoint); [done|reflexivity|reflexivity].
Qed.


(** The retry dials, the dial fails, and the error does not name the peer: the endpoint
    stays in the table, and nobody will come back to it. *)
Definition woken : Z := 5 + 1 * NANOS_PER_SEC.
Definition connected_view : SwarmView := mk_SwarmView 1 (λ _, false) [] 1%positive.
Definition dialled_state : RunState :=
  set_failing (<[endpoint := mk_ConnectionRetryTask endpoint 1]> (failing_connections failed_state))
    failed_state.
Definition nameless : LoopEvent :=
  OutgoingConnectionError None (DialTransport [(addr, TransportOther (Some "Timeout"%string))]).

Lemma callback_dials :
  on_retry_callback connected_view endpoint failed_state = Done (dialled_state, [Dial addr], None).
Proof.
  unfold on_retry_callback.
  assert (failing_connections failed_state !! endpoint = Some (mk_ConnectionRetryTask endpoint 0)) as ->
    by reflexivity.
  reflexivity.
Qed.

Lemma retry_forgotten :
  ∃ s, sys_reachable None s ∧ is_Some (failing_connections (sys_loop s) !! endpoint)
    ∧ retry_queue s = [] ∧ sleeping s = [] ∧ callback_queue s = [] ∧ outstanding s = ∅.
Proof.
  set (s1 := mk_System woken failed_state [] [] [endpoint] ∅ []).
  set (s2 := after_iteration woken s1 (Some endpoint) false [] ∅ (RetryCallback endpoint) dialled_state [Dial addr]).
  set (s3 := after_iteration woken s2 None false [] {[endpoint]} nameless dialled_state []).
  assert (sys_reachable None s1) as H1'.
  { apply (sys_next None sleeping_system); [exact sleeping_reachable|].
    by apply (step_wake None sleeping_system woken 0 woken endpoint endpoint). }
  assert (sys_reachable None s2) as H2'.
  { apply (sys_next None s1); [exact H1'|].
    apply (step_callback None s1 (at_once woken) 0 connected_view endpoint false []);
      [apply Z.le_refl|reflexivity|reflexivity|].
    unfold iteration. cbn [pending_chunks NetLoop.set_chunks s1 sys_loop].
    change (NetLoop.set_chunks _ failed_state) with failed_state.
    change (pending_chunks failed_state) with (@nil (list u8)). cbn [handle_event].
    by rewrite callback_dials. }
  assert (sys_reachable None s3) as H3'.
  { apply (sys_next None s2); [exact H2'|].
    apply (step_event None s2 (at_once woken) 0 connected_view nameless {[endpoint]});
      [apply Z.le_refl|by left| |by right|reflexivity].
    change (outstanding s2) with ((∅ ∖ ∅ : gset PeerEndpointCache) ∪ ({[endpoint]} ∪ ∅)).
    intros x Hx. by apply elem_of_union_r, elem_of_union_l. }
  exists s3. split; [exact H3'|]. split; [by eexists|]. split; [done|]. split; [done|]. split; [done|].
  change (outstanding s3) with ((((∅ ∖ ∅ : gset PeerEndpointCache) ∪ ({[endpoint]} ∪ ∅)) ∖ {[endpoint]}) ∪ ∅).
  clear. set_solver.
Qed.

Lemma unreachable_peer_schedule_witness :
  ∃ st', retry_rounds view endpoint "Transport(Timeout)" [0; 3; 3; 3; 3] 0 init_state =
      Done ([(1 * NANOS_PER_SEC, [Dial addr]); (3 + 3 * NANOS_PER_SEC, [Dial addr]);
             (6 + 8 * NANOS_PER_SEC, [Dial addr]); (9 + 18 * NANOS_PER_SEC, [Dial addr]);
             (12 + 35 * NANOS_PER_SEC, [])], st')
    ∧ failing_connections st' !! endpoint = None.
Proof.
  apply (unreachable_peer_schedule view endpoint "Transport(Timeout)" 0 3 3 3 3 0 init_state);
    reflexivity.
Defined.
End witnesses.
