(* ===== verification/Sync.v ===== *)
(** * From clipboard to clipboard ([src/network.rs])

    The compression of gossipsub messages ([CompressionTransform]) and the path of
    a content through the whole program: the sender's event loop, compression,
    the network, decompression, the receiver's event loop.  The [zstd] crate is a
    parameter; the network is the list of messages that arrive. *)

From S2P Require Import Prelude RustStr Content Transfer Libp2p NetAddr NetLoop.

Local Open Scope Z_scope.

(** ** Compression *)

(** [zstd::encode_all] at level 0 and [zstd::decode_all]. *)
Class Zstd := {
  encode_all : list u8 → option (list u8);
  decode_all : list u8 → option (list u8);
}.

Class ZstdLaws `{Zstd} : Prop := {
  decode_encode data z : encode_all data = Some z → decode_all z = Some data;
}.

Section sync.
Context `{Libp2p} `{Bincode} `{Digest} `{Zstd}.

(** The parts of gossipsub's messages the transformation passes on. *)
Record RawMessage := mk_RawMessage {
  raw_source : option PeerId;
  raw_data : list u8;
  raw_sequence_number : option u64;
  raw_topic : string;
}.
Record Message := mk_Message {
  source : option PeerId;
  data : list u8;
  sequence_number : option u64;
  topic : string;
}.


Definition inbound_transform (raw_message : RawMessage) : option Message :=
  buf ← decode_all (raw_data raw_message);
  Some (mk_Message (raw_source raw_message) buf (raw_sequence_number raw_message)
          (raw_topic raw_message)).

Definition outbound_transform (_topic : string) (data : list u8) : option (list u8) :=
  compressed_bytes ← encode_all data;
  Some compressed_bytes.

(** ** The receiver's loop on gossipsub messages *)

(** A message that arrives: the clock, the duration of its iteration, what the
    swarm answers, and the raw message.  Gossipsub drops what cannot be
    transformed. *)
Definition arrival : Type := Times * Z * SwarmView * RawMessage.
Definition arrival_time (a : arrival) : Times := a.1.1.1.
Definition arrival_duration (a : arrival) : Z := a.1.1.2.

Definition gossip_input (i : Times * Z * SwarmView * list u8) : Times * Z * SwarmView * LoopEvent :=
  (i.1, GossipMessage i.2).
Definition as_input (a : arrival) : option (Times * Z * SwarmView * LoopEvent) :=
  message ← inbound_transform a.2;
  Some (gossip_input (a.1, data message)).

(** An idle loop hands the messages over one by one. *)
Lemma iterations_gossip boot (l : list (Times * Z * SwarmView * list u8)) st :
  pending_chunks st = [] → Forall (λ i, i.1.1.2 ≤ HANDLER_TIMEOUT) l →
  ∀ cs outs, receive_all ((λ i, (i.1.1.1, i.2)) <$> l) (chunk_states st) = Done (cs, outs) →
  ∃ st', iterations boot (gossip_input <$> l) st = Done (Some st', ClipboardSend <$> outs)
    ∧ chunk_states st' = cs ∧ pending_chunks st' = [].
Proof.
  intros Hp Hd. revert st Hp. induction Hd as [|[[[now d] view] bytes] l Hd Hl IH];
    intros st Hp cs outs; rewrite ?fmap_cons, ?fmap_nil.
  - intros [= <- <-]. by exists st.
  - cbn [receive_all fst snd]. intros ([s out] & Hs & ([cs' outs'] & Hrest & [= -> <-])%bind_Done)%bind_Done.
    cbn [iterations gossip_input fst snd]. unfold iteration.
    cbn [pending_chunks set_chunks chunk_states handle_event]. rewrite Hp.
    unfold on_gossip_message. cbn [chunk_states set_chunks].
    unfold receive_step in Hs. rewrite Hs. cbn [mbind outcome_bind fst snd] in *.
    rewrite (proj2 (Z.ltb_ge _ _)) by exact Hd.
    destruct (IH (set_chunks s (set_chunks (cleanup_stale_chunk_states (t_head now) (chunk_states st)) st))
      Hp _ _ Hrest) as (st' & Hrun & Hcs & Hq).
    exists st'. rewrite Hrun. cbn. rewrite app_nil_r. split; [|done].
    by destruct out.
Qed.

(** [z] is the compressed form of a message. *)
Definition carries (m : NetworkMessage) (z : list u8) : Prop :=
  ∃ bytes, decode_all z = Some bytes ∧ message_from_bytes bytes = Ok m.

Lemma carries_fun m1 m2 z : carries m1 z → carries m2 z → m1 = m2.
Proof. intros (b1 & Hd1 & Hm1) (b2 & Hd2 & Hm2). congruence. Qed.

(** Arrivals that carry messages, as messages handed over by gossipsub. *)
Lemma arrivals_input (P : arrival → NetworkMessage → Prop) arrivals ms :
  Forall2 (λ a m, carries m (raw_data a.2) ∧ P a m) arrivals ms →
  Forall (λ a, arrival_duration a ≤ HANDLER_TIMEOUT) arrivals →
  ∃ l, omap as_input arrivals = gossip_input <$> l
    ∧ Forall (λ i, i.1.1.2 ≤ HANDLER_TIMEOUT) l
    ∧ Forall2 (λ p m, message_from_bytes p.2 = Ok m ∧ ∃ a, P a m ∧ p.1 = arrival_time a)
        ((λ i, (i.1.1.1, i.2)) <$> l) ms
    ∧ (λ i, i.1.1.1) <$> l = arrival_time <$> arrivals.
Proof.
  induction 1 as [|a m arrivals ms [(bytes & Hb & Hm) HP] Hall IH]; intros Hd.
  { exists []. by repeat split. }
  apply Forall_cons in Hd as [Hda Hd]. destruct (IH Hd) as (l & Hl & Hdl & Hml & Htl).
  exists ((a.1, bytes) :: l). split; [|split; [by constructor|split]].
  - cbn [omap list_omap]. unfold as_input at 1, inbound_transform. rewrite Hb. cbn. by rewrite Hl.
  - rewrite fmap_cons. constructor; [|done]. cbn [fst snd]. split; [done|]. by exists a.
  - rewrite !fmap_cons. by rewrite Htl.
Qed.

(** ** Delivery *)

Definition in_time (a0 a : arrival) : Prop :=
  within_timeout (arrival_time a0) (arrival_time a).
(** A message of another transfer, or a direct one. *)
Definition foreign (uuid : string) (a : arrival) : Prop :=
  ∃ m, carries m (raw_data a.2) ∧ message_tid m ≠ Some uuid ∧ message_size_ok m.

(** How the compressed messages [zs] of transfer [uuid] may arrive: a single one;
    or the first before and the last after the others, these in any order, more
    than once, and with messages of other transfers in between, within the
    timeout. *)
Inductive delivered (uuid : string) : list (list u8) → list arrival → Prop :=
| delivered_one a : delivered uuid [raw_data a.2] [a]
| delivered_chunked a0 (mid : list arrival) a1 body :
    body ⊆ ((λ a : arrival, raw_data a.2) <$> mid) →
    Forall (λ a, in_time a0 a ∧ (raw_data a.2 ∈ body ∨ foreign uuid a)) mid → in_time a0 a1 →
    delivered uuid (raw_data a0.2 :: body ++ [raw_data a1.2]) (a0 :: mid ++ [a1]).

Lemma sent_carry `{!BincodeLaws, !ZstdLaws} topic msgs bss zs :
  Forall2 (λ m b, message_to_bytes m = Ok b) msgs bss →
  mapM (outbound_transform topic) bss = Some zs → Forall2 carries msgs zs.
Proof.
  intros Hm. revert zs. induction Hm as [|m b msgs bss Hb Hm IH]; intros zs; cbn [mapM].
  { intros [= <-]. constructor. }
  intros (z & Hz & (zs' & Hzs & [= <-])%bind_Some)%bind_Some. constructor; [|by apply IH].
  apply bind_Some in Hz as (z' & Hz & [= ->]). exists b.
  split; [by apply decode_encode|by apply deserialize_serialize_message].
Qed.

(** The messages that arrive in the middle of a transfer. *)
Lemma mid_messages uuid a0 (mid : list arrival) body bodym :
  Forall2 carries bodym body → Forall message_size_ok bodym →
  body ⊆ ((λ a : arrival, raw_data a.2) <$> mid) →
  Forall (λ a, in_time a0 a ∧ (raw_data a.2 ∈ body ∨ foreign uuid a)) mid →
  ∃ ms, Forall2 (λ a m, carries m (raw_data a.2) ∧ in_time a0 a) mid ms
    ∧ bodym ⊆ ms ∧ Forall message_size_ok ms
    ∧ ∀ m, m ∈ ms → message_tid m = Some uuid → m ∈ bodym.
Proof.
  intros Hbody Hok Hsub Hmid.
  assert (∃ ms, Forall2 (λ a m, (carries m (raw_data a.2) ∧ in_time a0 a)
    ∧ message_size_ok m ∧ (message_tid m = Some uuid → m ∈ bodym)) mid ms) as [ms Hms].
  { clear Hsub. induction Hmid as [|a mid [Ht Ha] Hmid [ms IH]]; [by exists []|].
    destruct Ha as [Ha|(m & Hc & Htid & Hsz)]; [|by exists (m :: ms); constructor].
    apply list_elem_of_lookup in Ha as [i Hi].
    destruct (Forall2_lookup_r _ _ _ _ _ Hbody Hi) as (m & Hmi & Hc).
    exists (m :: ms). constructor; [|done]. split; [done|]. rewrite Forall_forall in Hok.
    assert (m ∈ bodym) by by eapply list_elem_of_lookup_2. auto. }
  exists ms. split; [by eapply Forall2_impl; [exact Hms|]; intros ?? []|]. split; [|split].
  - intros m Hm. apply list_elem_of_lookup in Hm as [i Hi].
    destruct (Forall2_lookup_l _ _ _ _ _ Hbody Hi) as (z & Hz & Hc).
    apply list_elem_of_lookup_2, Hsub, list_elem_of_fmap in Hz as (a & -> & [j Hj]%list_elem_of_lookup).
    destruct (Forall2_lookup_l _ _ _ _ _ Hms Hj) as (m' & Hm' & [Hc' _] & _).
    rewrite (carries_fun _ _ _ Hc Hc'). by eapply list_elem_of_lookup_2.
  - eapply Forall2_Forall_r; [exact Hms|]. apply Forall_true. by intros a m (_ & ? & _).
  - intros m Hm. apply list_elem_of_lookup in Hm as [i Hi].
    by destruct (Forall2_lookup_r _ _ _ _ _ Hms Hi) as (a & _ & _ & _ & Hin).
Qed.

(** An idle receiver of a content sent in one message. *)
Lemma single_received uuid content msgs raw a boot st :
  content_to_bytes content = Ok raw → transferable raw →
  split_to_network_messages uuid content = Ok msgs → Forall2 carries msgs [raw_data a.2] →
  arrival_duration a ≤ HANDLER_TIMEOUT → pending_chunks st = [] →
  ∃ st', iterations boot (omap as_input [a]) st = Done (Some st', [ClipboardSend content]).
Proof.
  intros Hraw Htrans Hsplit Hc Hd Hp.
  inversion Hc as [|m ? msgs' ? Hm Hnil]; subst. inversion Hnil; subst.
  destruct (arrivals_input (λ _ _, True) [a] [m]) as (l & -> & Hdl & Hml & _); [by repeat constructor|by constructor|].
  destruct l as [|i [|]]; [by inversion Hml| |by inversion Hml as [|???? _ Hbad]; inversion Hbad].
  inversion Hml as [|???? [Hi _] _]; subst. cbn [snd] in Hi.
  assert (m = Direct content) as ->.
  { destruct (decide (Z.of_nat (length raw) ≤ CHUNK_DATA_SIZE)) as [Hsmall|Hlarge].
    - rewrite (split_small uuid content raw) in Hsplit by done. by injection Hsplit.
    - destruct (split_large uuid content raw Hraw ltac:(lia) Htrans) as [Heq _].
      rewrite Heq in Hsplit. injection Hsplit as _ Hbad. by destruct (chunk_messages _ _). }
  destruct (iterations_gossip boot [i] st Hp Hdl
    (cleanup_stale_chunk_states (t_head i.1.1.1) (chunk_states st)) [content])
    as (st' & Hrun & _); [|by exists st'].
  cbn [receive_all fmap list_fmap]. unfold receive_step.
  by rewrite (handle_message_bytes _ _ _ _ Hi).
Qed.

(** An idle receiver of a content sent in chunks. *)
Lemma chunks_received `{!BincodeLaws} uuid content msgs raw (a0 : arrival) (mid : list arrival) (a1 : arrival) body
    boot st :
  content_to_bytes content = Ok raw → transferable raw →
  split_to_network_messages uuid content = Ok msgs →
  Forall2 carries msgs (raw_data a0.2 :: body ++ [raw_data a1.2]) →
  body ⊆ ((λ a : arrival, raw_data a.2) <$> mid) →
  Forall (λ a, in_time a0 a ∧ (raw_data a.2 ∈ body ∨ foreign uuid a)) mid → in_time a0 a1 →
  Forall (λ a, arrival_duration a ≤ HANDLER_TIMEOUT) (a0 :: mid ++ [a1]) →
  pending_chunks st = [] → sizes_ok (chunk_states st) →
  ∃ st' others, iterations boot (omap as_input (a0 :: mid ++ [a1])) st =
    Done (Some st', ClipboardSend <$> others ++ [content]).
Proof.
  intros Hraw Htrans Hsplit Hc Hsub Hmid Hlast Hd Hp Hsz.
  apply Forall2_cons_inv_r in Hc as (first & msgs' & Hfirst & Hc & ->).
  apply Forall2_app_inv_r in Hc as (bodym & lastm & Hbodym & Hc & ->).
  apply Forall2_cons_inv_r in Hc as (last & nil & Hend & Hc & ->). inversion Hc; subst.
  destruct (split_chunked uuid content raw first bodym last Hraw Htrans Hsplit)
    as (cs & <- & -> & -> & -> & Hcnt & Hrsz).
  destruct (mid_messages uuid a0 mid body (chunk_messages uuid cs)) as (ms & Hms & Hin & Hok & Hmine);
    [done| |done..|].
  { apply Forall_forall. intros m (k & c & -> & _)%elem_of_lookup_imap. done. }
  set (start := ChunkStart uuid _ _ _) in *.
  apply Forall_cons in Hd as [Hd0 Hd].
  destruct (arrivals_input (λ a _, in_time a0 a) (mid ++ [a1]) (ms ++ [ChunkEnd uuid]))
    as (l & Hl & Hdl & Hml & _); [|done|].
  { apply Forall2_app; [done|by repeat constructor]. }
  destruct Hfirst as (b0 & Hb0 & Hm0). set (i0 := (a0.1, b0) : Times * Z * SwarmView * list u8).
  assert (omap as_input (a0 :: mid ++ [a1]) = gossip_input <$> i0 :: l) as ->.
  { rewrite fmap_cons, <- Hl. cbn [omap list_omap]. unfold as_input at 1, inbound_transform.
    by rewrite Hb0. }
  apply Forall2_app_inv_r in Hml as (l1 & l2 & Hl1 & Hl2 & Heq).
  apply Forall2_cons_inv_r in Hl2 as ([t1 be] & nil & [Hm1 (a & Ha & Hta)] & Hc' & ->).
  inversion Hc'; subst. cbn [fst snd] in *.
  destruct (chunked_transfer_delivers uuid content cs i0.2 be i0.1.1.1 t1 l1 ms (chunk_states st))
    as (sts' & outs & Hrun & _); try done.
  { by apply deserialize_serialize_content. }
  { eapply Forall2_impl; [exact Hl1|]. by intros p m [Hpm (a' & Ha' & ->)]. }
  { by rewrite Hta. }
  destruct (iterations_gossip boot (i0 :: l) st Hp ltac:(by constructor) sts' (outs ++ [content]))
    as (st' & Hit & _); [|by exists st', outs].
  rewrite fmap_cons, Heq. exact Hrun.
Qed.

(** A content of which all messages reach an idle receiver is what it hands over last. *)
Lemma content_received `{!BincodeLaws, !ZstdLaws} uuid content msgs b bs zs topic
    boot arrivals receiver :
  (∀ raw, content_to_bytes content = Ok raw → transferable raw) →
  split_to_network_messages uuid content = Ok msgs →
  Forall2 (λ m b, message_to_bytes m = Ok b) msgs (b :: bs) →
  mapM (outbound_transform topic) (b :: bs) = Some zs →
  delivered uuid zs arrivals → Forall (λ a, arrival_duration a ≤ HANDLER_TIMEOUT) arrivals →
  pending_chunks receiver = [] → sizes_ok (chunk_states receiver) →
  ∃ receiver' others, iterations boot (omap as_input arrivals) receiver =
     Done (Some receiver', ClipboardSend <$> others ++ [content]).
Proof.
  intros Htrans Hsplit Hm Hz Hdel Hdur Hp Hsz. pose proof (sent_carry _ _ _ _ Hm Hz) as Hc.
  assert (∃ raw, content_to_bytes content = Ok raw) as [raw Hraw]
    by (by apply bind_Ok in Hsplit as (raw & Hraw & _); exists raw).
  destruct Hdel as [a|a0 mid a1 body Hsub Hmid Hlast].
  - apply Forall_cons in Hdur as [Hdur _].
    destruct (single_received uuid content msgs raw a boot receiver) as [r Hr]; auto.
    by exists r, [].
  - apply (chunks_received uuid content msgs raw a0 mid a1 body); auto.
Qed.

(** The way of a content from loop to loop. *)
Lemma content_travels `{!BincodeLaws, !ZstdLaws} uuid content msgs b bs zs topic
    boot now d view rest sender boot' arrivals receiver :
  (∀ raw, content_to_bytes content = Ok raw → transferable raw) →
  split_to_network_messages uuid content = Ok msgs →
  Forall2 (λ m b, message_to_bytes m = Ok b) msgs (b :: bs) →
  pending_chunks sender = [] → d ≤ HANDLER_TIMEOUT → timely rest → length rest = length bs →
  mapM (outbound_transform topic) (b :: bs) = Some zs →
  delivered uuid zs arrivals → Forall (λ a, arrival_duration a ≤ HANDLER_TIMEOUT) arrivals →
  pending_chunks receiver = [] → sizes_ok (chunk_states receiver) →
  (∃ sender', iterations boot ((now, d, view, LocalClipboard uuid content) :: rest) sender =
     Done (Some sender', Publish <$> b :: bs))
  ∧ ∃ receiver' others, iterations boot' (omap as_input arrivals) receiver =
     Done (Some receiver', ClipboardSend <$> others ++ [content]).
Proof.
  intros Htrans Hsplit Hm Hp Hd Ht Hlen Hz Hdel Hdur Hp' Hsz. split.
  { destruct (publish_content boot now d view uuid content msgs b bs rest sender)
      as (s & Hrun & _); [done..|by exists s]. }
  by eapply content_received.
Qed.

(** What is copied on one machine reaches the clipboard of another.  The loop
    of the sender publishes the messages of a content it takes; when their
    compressed forms arrive at an idle receiver, the first before and the last
    after the others, within the timeout, in any order, repeated, and among the
    messages of other transfers, the last thing the receiver hands to its
    clipboard is the content. *)
Theorem clipboard_synchronised `{!BincodeLaws, !ZstdLaws} uuid content msgs b bs zs topic
    boot now d view rest sender boot' arrivals receiver :
  (∀ raw, content_to_bytes content = Ok raw → transferable raw) →
  split_to_network_messages uuid content = Ok msgs →
  Forall2 (λ m b, message_to_bytes m = Ok b) msgs (b :: bs) →
  pending_chunks sender = [] → d ≤ HANDLER_TIMEOUT → timely rest → length rest = length bs →
  mapM (outbound_transform topic) (b :: bs) = Some zs →
  delivered uuid zs arrivals → Forall (λ a, arrival_duration a ≤ HANDLER_TIMEOUT) arrivals →
  pending_chunks receiver = [] → sizes_ok (chunk_states receiver) →
  (∃ sender', iterations boot ((now, d, view, LocalClipboard uuid content) :: rest) sender =
     Done (Some sender', Publish <$> b :: bs))
  ∧ ∃ receiver' others, iterations boot' (omap as_input arrivals) receiver =
     Done (Some receiver', ClipboardSend <$> others ++ [content]).
Proof. apply content_travels. Qed.

(** ** Sizes *)

(** The sizes [bincode] documents for the messages: fixed-width integers, a length of
    eight bytes before a string or a vector, a tag of four bytes. *)
Class BincodeSizes : Prop := {
  direct_size c raw b :
    content_to_bytes c = Ok raw → message_to_bytes (Direct c) = Ok b →
    (length b ≤ 4 + length raw)%nat;
  start_size t n h s b :
    message_to_bytes (ChunkStart t n h s) = Ok b →
    (length b ≤ 4 + (8 + String.length t) + 4 + (8 + String.length h) + 8)%nat;
  chunk_size t i d b :
    message_to_bytes (Chunk t i d) = Ok b →
    (length b ≤ 4 + (8 + String.length t) + 4 + (8 + length d))%nat;
  end_size t b :
    message_to_bytes (ChunkEnd t) = Ok b → (length b ≤ 4 + (8 + String.length t))%nat;
}.

(** zstd expands what it cannot compress by a 256th at most, and a constant. *)
Class ZstdBound : Prop := {
  encode_bound data z :
    encode_all data = Some z →
    Z.of_nat (length z) ≤ Z.of_nat (length data) + Z.of_nat (length data) / 256 + 64;
}.

(** A serialised message that is not longer than a chunk with its fields. *)
Lemma transformed_size `{!ZstdBound} topic data z :
  Z.of_nat (length data) ≤ CHUNK_DATA_SIZE + 200 → outbound_transform topic data = Some z →
  Z.of_nat (length z) + 500000 ≤ MAX_TRANSMIT_SIZE.
Proof.
  intros Hlen. unfold outbound_transform. intros (z' & Hz & [= ->])%bind_Some.
  apply encode_bound in Hz. unfold CHUNK_DATA_SIZE, MAX_TRANSMIT_SIZE in *.
  pose proof (Z.div_le_mono (Z.of_nat (length data)) 1500200 256 ltac:(lia) Hlen).
  change (1500200 / 256) with 5860 in *. lia.
Qed.

(** C37: Every message fits into a gossipsub message. The transfer ids being UUIDs of 36
    characters and the hashes texts of 64, each message a content is split into, large
    or small, is below the transmit limit once it is compressed, with half a megabyte
    left for what gossipsub adds. *)
Theorem messages_fit_transmit_size `{!BincodeSizes, !ZstdBound} uuid content msgs topic m b z :
  String.length uuid = 36%nat → (∀ data, String.length (sha256_hex data) = 64%nat) →
  split_to_network_messages uuid content = Ok msgs → m ∈ msgs →
  message_to_bytes m = Ok b → outbound_transform topic b = Some z →
  Z.of_nat (length z) + 500000 ≤ MAX_TRANSMIT_SIZE.
Proof.
  intros Huuid Hhash Hsplit Hm Hb. apply transformed_size.
  unfold split_to_network_messages in Hsplit. apply bind_Ok in Hsplit as (raw & Hraw & Hsplit).
  case_bool_decide as Hsmall.
  { injection Hsplit as <-. apply list_elem_of_singleton in Hm as ->.
    pose proof (direct_size _ _ _ Hraw Hb). lia. }
  injection Hsplit as <-. apply elem_of_cons in Hm as [->|Hm].
  { pose proof (start_size _ _ _ _ _ Hb) as Hs. rewrite Huuid, Hhash in Hs.
    unfold CHUNK_DATA_SIZE. lia. }
  apply elem_of_app in Hm as [Hm| ->%list_elem_of_singleton].
  - apply elem_of_lookup_imap in Hm as (k & c & -> & Hk).
    pose proof (chunk_size _ _ _ _ Hb) as Hs. rewrite Huuid in Hs.
    pose proof (Forall_lookup_1 _ _ _ _ (chunks_bounds _ chunk_size_pos raw) Hk) as [_ Hc].
    apply inj_le in Hc. rewrite chunk_size_Z in Hc. lia.
  - pose proof (end_size _ _ Hb) as Hs. rewrite Huuid in Hs. unfold CHUNK_DATA_SIZE. lia.
Qed.
End sync.

(** ** Witness *)

From S2P Require Import Codec.

(** Compression that stores. *)
#[export] Instance toy_zstd : Zstd := {| encode_all d := Some (37 :: d); decode_all z := Some (tail z) |}.
#[export] Instance toy_zstd_laws : ZstdLaws.
Proof. split. by intros data z [= <-]. Qed.

Definition hi_bytes : list u8 := [0; 0; 2; 0; 0; 0; 0; 0; 0; 0; 104; 105].
Definition wit_view : SwarmView := mk_SwarmView 1 (λ _, false) [] 1%positive.
Definition wit_arrival : arrival :=
  (at_once 5, 0, wit_view, mk_RawMessage None (37 :: hi_bytes) None "p2p_clipboard").

Lemma clipboard_synchronised_witness :
  ∃ receiver' others, iterations None (omap as_input [wit_arrival]) init_state =
    Done (Some receiver', ClipboardSend <$> others ++ [Text "hi"]).
Proof.
  apply (clipboard_synchronised "id" (Text "hi") [Direct (Text "hi")] hi_bytes []
    [37 :: hi_bytes] "p2p_clipboard" None (at_once 0) 0 wit_view [] init_state None [wit_arrival] init_state).
  - intros raw [= <-]. by vm_compute.
  - by vm_compute.
  - constructor; [by vm_compute|constructor].
  - reflexivity.
  - done.
  - constructor.
  - done.
  - by vm_compute.
  - apply (delivered_one "id" wit_arrival).
  - by constructor.
  - reflexivity.
  - apply map_Forall_empty.
Defined.

#[export] Instance toy_zstd_bound : ZstdBound.
Proof.
  split. intros data z [= <-]. cbn [length].
  pose proof (Z.div_pos (Z.of_nat (length data)) 256). lia.
Qed.

Lemma length_enc_int k z b : enc_int k z = Some b → length b = k.
Proof. unfold enc_int. case_bool_decide; [|done]. intros [= <-]. apply le_bytes_length. Qed.
Lemma length_enc_blob p b : enc_blob p = Some b → length b = (8 + length p)%nat.
Proof.
  unfold enc_blob. intros (n & Hn & [= <-])%bind_Some. rewrite length_app.
  by rewrite (length_enc_int _ _ _ Hn).
Qed.
Lemma length_enc_str t b : enc_str t = Some b → length b = (8 + String.length t)%nat.
Proof.
  intros Hb%length_enc_blob. rewrite Hb. f_equal. clear. induction t; simpl; auto.
Qed.

#[export] Instance codec_sizes : BincodeSizes.
Proof.
  split; intros *; unfold content_to_bytes, message_to_bytes;
    cbn [serialize_message serialize_content codec]; unfold ser.
  - intros Hc Hd. cbn [enc_message] in Hd. destruct (enc_content c) as [b'|]; [|done].
    cbn in *. simplify_eq. simpl. lia.
  - cbn [enc_message]. destruct (enc_str t) as [bt|] eqn:Ht; [|done].
    destruct (enc_int 4 n) as [bn|] eqn:Hn; [|done]. destruct (enc_str h) as [bh|] eqn:Hh; [|done].
    destruct (enc_int 8 s) as [bs|] eqn:Hs; [|done]. intros [= <-].
    cbn [length]. rewrite !length_app, (length_enc_str _ _ Ht), (length_enc_str _ _ Hh),
      (length_enc_int _ _ _ Hn), (length_enc_int _ _ _ Hs). lia.
  - cbn [enc_message]. destruct (enc_str t) as [bt|] eqn:Ht; [|done].
    destruct (enc_int 4 i) as [bn|] eqn:Hn; [|done]. destruct (enc_blob d) as [bd|] eqn:Hd; [|done].
    intros [= <-]. cbn [length]. rewrite !length_app, (length_enc_str _ _ Ht),
      (length_enc_blob _ _ Hd), (length_enc_int _ _ _ Hn). lia.
  - cbn [enc_message]. destruct (enc_str t) as [bt|] eqn:Ht; [|done]. intros [= <-].
    cbn [length]. rewrite (length_enc_str _ _ Ht). lia.
Qed.

(** A digest whose texts have 64 characters. *)
Definition hex64 : Digest := {| sha256 _ := []; hex_encode _ := string_of_bytes (replicate 64 48) |}.
Definition uuid36 : string := "01234567-0123-4123-8123-0123456789ab".

Lemma messages_fit_transmit_size_witness :
  split_to_network_messages (H0 := hex64) uuid36 (Text "hi") = Ok [Direct (Text "hi")]
  ∧ Z.of_nat (length (37 :: hi_bytes)) + 500000 ≤ MAX_TRANSMIT_SIZE.
Proof.
  split; [reflexivity|].
  apply (messages_fit_transmit_size (H1 := hex64) uuid36 (Text "hi") [Direct (Text "hi")]
    "p2p_clipboard" (Direct (Text "hi")) hi_bytes (37 :: hi_bytes)); try reflexivity.
  by left.
Defined.
