(* ===== verification/MdnsConfig.v ===== *)
(** * mDNS configuration and constants ([src/lib/mdns/src/lib.rs])

    The service names, the multicast addresses, [Config] and its default, and
    the durations and IP addresses of the standard library the mDNS files
    share.  A [Duration] is a number of nanoseconds, an [Instant] the
    nanoseconds since the clock's origin. *)

From S2P Require Import Prelude RustStr Libp2p.

Local Open Scope Z_scope.

(** ** [std::time] *)

Abbreviation Duration := Z (only parsing).
Abbreviation Instant := Z (only parsing).

Definition NANOS_PER_SEC : Z := 1000000000.
Definition from_secs (s : u64) : Duration := s * NANOS_PER_SEC.
Definition from_millis (ms : u64) : Duration := ms * 1000000.
Definition as_secs (d : Duration) : u64 := d / NANOS_PER_SEC.
Definition subsec_nanos (d : Duration) : u32 := d mod NANOS_PER_SEC.
(** The values of [Duration]: at most [u64::MAX] seconds and 999999999 ns. *)
Definition duration_ok (d : Duration) : Prop :=
  0 ≤ d ≤ U64_MAX * NANOS_PER_SEC + (NANOS_PER_SEC - 1).

(** ** [std::net] *)

(** [Ipv6Addr]: eight 16-bit groups. *)
Record Ipv6Addr := ipv6 {
  seg0 : u16; seg1 : u16; seg2 : u16; seg3 : u16;
  seg4 : u16; seg5 : u16; seg6 : u16; seg7 : u16 }.

#[export] Instance Ipv6Addr_eq_dec : EqDecision Ipv6Addr.
Proof. solve_decision. Defined.

Inductive IpAddr := V4 (a : Ipv4Addr) | V6 (a : Ipv6Addr).

#[export] Instance IpAddr_eq_dec : EqDecision IpAddr.
Proof. solve_decision. Defined.

(** [Ipv4Addr::is_loopback] is 127.0.0.0/8, [Ipv6Addr::is_loopback] is [::1]. *)
Definition is_loopback (a : IpAddr) : bool :=
  match a with
  | V4 a => oct0 a =? 127
  | V6 a => bool_decide (a = ipv6 0 0 0 0 0 0 0 1)
  end.
Definition is_ipv4 (a : IpAddr) : bool := match a with V4 _ => true | V6 _ => false end.
Definition is_ipv6 (a : IpAddr) : bool := match a with V4 _ => false | V6 _ => true end.

Definition UNSPECIFIED_V4 : IpAddr := V4 (ipv4 0 0 0 0).
Definition UNSPECIFIED_V6 : IpAddr := V6 (ipv6 0 0 0 0 0 0 0 0).

Record SocketAddr := socket_addr { sa_ip : IpAddr; sa_port : u16 }.

#[export] Instance SocketAddr_eq_dec : EqDecision SocketAddr.
Proof. solve_decision. Defined.

(** ** The constants *)

Definition DEFAULT_SERVICE_NAME : string := "_p2pclipboard._udp.local".
Definition META_QUERY_SERVICE : list u8 := bytes_of_string "_services._dns-sd._udp.local".
Definition META_QUERY_SERVICE_FQDN : string := "_services._dns-sd._udp.local.".

Definition IPV4_MDNS_MULTICAST_ADDRESS : Ipv4Addr := ipv4 224 0 0 251.
(** [0xFF02::FB]. *)
Definition IPV6_MDNS_MULTICAST_ADDRESS : Ipv6Addr := ipv6 65282 0 0 0 0 0 0 251.

(** ** [Config] *)

Record Config := mk_Config {
  ttl : Duration;
  query_interval : Duration;
  enable_ipv6 : bool;
  disabled : bool;
  service_fingerprint : option (list u8);
}.

Definition default_config : Config := {|
  ttl := from_secs (6 * 60);
  query_interval := from_secs (5 * 60);
  enable_ipv6 := false;
  disabled := false;
  service_fingerprint := None;
|}.

Lemma as_secs_split d : d = as_secs d * NANOS_PER_SEC + subsec_nanos d.
Proof. unfold as_secs, subsec_nanos. pose proof (Z.div_mod d NANOS_PER_SEC ltac:(done)). lia. Qed.

Lemma subsec_nanos_bounds d : 0 ≤ subsec_nanos d < NANOS_PER_SEC.
Proof. by apply Z.mod_pos_bound. Qed.

Lemma as_secs_fits d : duration_ok d → 0 ≤ as_secs d ≤ U64_MAX.
Proof.
  unfold duration_ok, as_secs. intros Hd. split; [apply Z.div_pos; [lia|done]|].
  apply Z.lt_succ_r, Z.div_lt_upper_bound; unfold NANOS_PER_SEC, U64_MAX in *; lia.
Qed.
