(* ===== verification/Dns.v ===== *)
(** * The mDNS packet encoder ([src/lib/mdns/src/behaviour/iface/dns.rs])

    Every [append_*] function takes the buffer and returns it extended; one that
    contains an [assert!] returns an [outcome].  The random transaction id and
    the random peer name are arguments.  [read_message] is a reader of DNS
    messages after RFC 1035, the specification the packets are proved against. *)

From S2P Require Import Prelude RustStr Libp2p MdnsConfig.

Local Open Scope Z_scope.

(** ** Constants *)

Definition MAX_TXT_VALUE_LENGTH : usize := 255.
Definition MAX_TXT_RECORD_SIZE : usize := MAX_TXT_VALUE_LENGTH + 45.
Definition MAX_PACKET_SIZE : usize := 9000 - 68.
Definition MAX_RECORDS_PER_PACKET : usize := (MAX_PACKET_SIZE - 100) / MAX_TXT_RECORD_SIZE.

(** [Vec::len]. *)
Definition len {A} (l : list A) : usize := Z.of_nat (length l).

Inductive MdnsResponseError := TxtRecordTooLong | NonAsciiMultiaddr.

Definition display_MdnsResponseError (self : MdnsResponseError) : string :=
  match self with
  | TxtRecordTooLong => "TXT record invalid because it is too long"
  | NonAsciiMultiaddr => "A multiaddr contains non-ASCII characters when serialized"
  end.

(** ASCII codes of the characters the encoder treats specially. *)
Definition DOT : u8 := 46.
Definition QUOTE : u8 := 34.
Definition BACKSLASH : u8 := 92.
Definition SPACE : u8 := 32.

Definition is_ascii (bs : list u8) : bool := forallb (λ b, b <? 128) bs.

(** ** Decoding *)

(** [Err] is Rust's [Err(())]. *)
Definition decode_character_string (from : list u8) : result () (list u8) :=
  match from with
  | [] => Ok []
  | b :: _ =>
      if b =? QUOTE then
        if bool_decide (len from = 1) || negb (bool_decide (last from = Some QUOTE))
        then Err ()
        else Ok (take (length from - 2) (drop 1 from))
      else Ok from
  end.

(** ** Appending *)

Definition append_u32 (out : list u8) (value : u32) : list u8 :=
  let out := out ++ [as_u8 (Z.land (Z.shiftr value 24) 255)] in
  let out := out ++ [as_u8 (Z.land (Z.shiftr value 16) 255)] in
  let out := out ++ [as_u8 (Z.land (Z.shiftr value 8) 255)] in
  out ++ [as_u8 (Z.land value 255)].

Definition append_u16 (out : list u8) (value : u16) : list u8 :=
  let out := out ++ [as_u8 (Z.land (Z.shiftr value 8) 255)] in
  out ++ [as_u8 (Z.land value 255)].

Definition duration_to_secs (duration : Duration) : u32 :=
  let secs := Z.min U64_MAX
    (as_secs duration + (if 0 <? subsec_nanos duration then 1 else 0)) in
  as_u32 (Z.min secs U32_MAX).

(** The loop of [append_qname] over the labels; the two asserts panic. *)
Fixpoint append_labels (out : list u8) (elements : list (list u8)) : outcome (list u8) :=
  match elements with
  | [] => Done out
  | element :: elements' =>
      if len element <? 64 then
        if len element =? 0 then Panic
        else append_labels ((out ++ [as_u8 (len element)]) ++ element) elements'
      else Panic
  end.

Definition escape (chr : u8) : list u8 :=
  if chr =? BACKSLASH then [BACKSLASH; BACKSLASH]
  else if chr =? QUOTE then [BACKSLASH; QUOTE]
  else [chr].

(** The buffer and the function's result; on an error the buffer keeps what was
    appended so far. *)
Definition append_character_string (out : list u8) (ascii_str : string) :
    list u8 * result MdnsResponseError () :=
  let bytes := bytes_of_string ascii_str in
  if negb (is_ascii bytes) then (out, Err NonAsciiMultiaddr)
  else if negb (existsb (λ c, c =? SPACE) bytes) then (out ++ bytes, Ok ())
  else (((out ++ [QUOTE]) ++ concat (escape <$> bytes)) ++ [QUOTE], Ok ()).

Definition append_txt_record (out name : list u8) (ttl_secs : u32) (value : string) :
    list u8 * result MdnsResponseError () :=
  let out := out ++ name in
  let out := out ++ [0] ++ [16] ++ [128] ++ [1] in
  let out := append_u32 out ttl_secs in
  let value_len := len (bytes_of_string value) in
  if MAX_TXT_VALUE_LENGTH <? value_len then (out, Err TxtRecordTooLong)
  else
    match append_character_string [as_u8 value_len] value with
    | (_, Err e) => (out, Err e)
    | (buffer, Ok _) => (append_u16 out (as_u16 (len buffer)) ++ buffer, Ok ())
    end.

Section dns.
Context `{Libp2p}.
(** Whether [debug_assert!] is compiled in. *)
Context (debug_assertions : bool).

Definition append_qname (out name : list u8) : outcome (list u8) :=
  if debug_assertions && negb (is_ascii name) then Panic
  else
    out ← append_labels out (split_on (λ c, c =? DOT) name);
    Done (out ++ [0]).

(** [peer_name] is the random alphanumeric string. *)
Definition generate_peer_name (peer_name : string) : outcome (list u8) :=
  append_qname [] (bytes_of_string peer_name).

(** [random] is the value of [rand::random()]. *)
Definition build_query (random : u16) (service_name : list u8) : outcome (list u8) :=
  let out := append_u16 [] random in
  let out := append_u16 out 0 in
  let out := append_u16 out 1 in
  let out := append_u16 out 0 in
  let out := append_u16 out 0 in
  let out := append_u16 out 0 in
  out ← append_qname out service_name;
  let out := append_u16 out 12 in
  Done (append_u16 out 1).

Definition build_service_discovery_response (id : u16) (ttl : Duration)
    (service_name : list u8) : outcome (list u8) :=
  let ttl := duration_to_secs ttl in
  let out := append_u16 [] id in
  let out := append_u16 out 33792 in
  let out := append_u16 out 0 in
  let out := append_u16 out 1 in
  let out := append_u16 out 0 in
  let out := append_u16 out 0 in
  out ← append_qname out META_QUERY_SERVICE;
  let out := append_u16 out 12 in
  let out := append_u16 out 32769 in
  let out := append_u32 out ttl in
  name ← append_qname [] service_name;
  Done (append_u16 out (as_u16 (len name)) ++ name).

Definition query_response_packet (id : u16) (peer_id : list u8)
    (records : list (list u8)) (ttl : u32) (service_name : list u8) :
    outcome (list u8) :=
  let out := append_u16 [] id in
  let out := append_u16 out 33792 in
  let out := append_u16 out 0 in
  let out := append_u16 out 1 in
  let out := append_u16 out 0 in
  let out := append_u16 out (as_u16 (len records)) in
  out ← append_qname out service_name;
  let out := append_u16 out 12 in
  let out := append_u16 out 1 in
  let out := append_u32 out ttl in
  let out := append_u16 out (as_u16 (len peer_id)) in
  let out := out ++ peer_id in
  Done (out ++ concat records).

Definition txt_to_send (addr : Multiaddr) (peer_id : PeerId) : string :=
  "dnsaddr=" +:+ display_multiaddr addr +:+ "/p2p/" +:+ to_base58 peer_id.

(** The loop of [build_query_response]: the packets and the records left. *)
Fixpoint pack_addresses (id : u16) (peer_id : PeerId) (peer_name_bytes : list u8)
    (ttl : u32) (service_name : list u8) (addresses : list Multiaddr)
    (packets : list (list u8)) (records : list (list u8)) :
    outcome (list (list u8) * list (list u8)) :=
  match addresses with
  | [] => Done (packets, records)
  | addr :: addresses' =>
      let records :=
        match append_txt_record [] peer_name_bytes ttl (txt_to_send addr peer_id) with
        | (txt_record, Ok _) => records ++ [txt_record]
        | (_, Err _) => records
        end in
      if len records =? MAX_RECORDS_PER_PACKET then
        packet ← query_response_packet id peer_name_bytes records ttl service_name;
        pack_addresses id peer_id peer_name_bytes ttl service_name addresses'
          (packets ++ [packet]) []
      else
        pack_addresses id peer_id peer_name_bytes ttl service_name addresses'
          packets records
  end.

Definition build_query_response (peer_name : string) (id : u16) (peer_id : PeerId)
    (addresses : list Multiaddr) (ttl : Duration) (service_name : list u8) :
    outcome (list (list u8)) :=
  let ttl := duration_to_secs ttl in
  let addresses := take (Z.to_nat 65535) addresses in
  peer_name_bytes ← generate_peer_name peer_name;
  if debug_assertions && negb (len peer_name_bytes <=? 65535) then Panic
  else
    '(packets, records) ← pack_addresses id peer_id peer_name_bytes ttl service_name
                            addresses [] [];
    packets ← (if negb (bool_decide (records = [])) then
                 packet ← query_response_packet id peer_name_bytes records ttl service_name;
                 Done (packets ++ [packet])
               else Done packets);
    if bool_decide (packets = []) then
      packet ← query_response_packet id peer_name_bytes [] ttl service_name;
      Done (packets ++ [packet])
    else Done packets.
End dns.

(** ** A reader of DNS messages (RFC 1035, without name compression) *)

Definition parser (A : Type) : Type := list u8 → option (A * list u8).
#[export] Instance parser_ret : MRet parser := λ A a l, Some (a, l).
#[export] Instance parser_bind : MBind parser := λ A B f p l,
  match p l with Some (a, l') => f a l' | None => None end.

Definition read_u8 : parser u8 := λ l,
  match l with b :: l' => Some (b, l') | [] => None end.
Definition read_u16 : parser u16 :=
  hi ← read_u8; lo ← read_u8; mret (hi * 256 + lo).
Definition read_u32 : parser u32 :=
  hi ← read_u16; lo ← read_u16; mret (hi * 65536 + lo).
Definition read_bytes (n : Z) : parser (list u8) := λ l,
  if n <=? len l then Some (take (Z.to_nat n) l, drop (Z.to_nat n) l) else None.

(** A domain name: labels of 1 to 63 bytes up to the empty label. *)
Fixpoint read_name_fuel (fuel : nat) : parser (list (list u8)) :=
  match fuel with
  | O => λ _, None
  | S fuel' =>
      n ← read_u8;
      if n =? 0 then mret []
      else if n <? 64 then
        label ← read_bytes n; labels ← read_name_fuel fuel'; mret (label :: labels)
      else λ _, None
  end.
(** A name of [k] labels has more than [k] bytes: the input's length is enough. *)
Definition read_name : parser (list (list u8)) := λ l, read_name_fuel (length l) l.

Record question := mk_question { q_name : list (list u8); q_type : u16; q_class : u16 }.
Record rr := mk_rr {
  rr_name : list (list u8); rr_type : u16; rr_class : u16; rr_ttl : u32;
  rr_data : list u8 }.
Record message := mk_message {
  msg_id : u16; msg_flags : u16; msg_questions : list question;
  msg_answers : list rr; msg_authorities : list rr; msg_additionals : list rr }.

Definition read_question : parser question :=
  n ← read_name; t ← read_u16; c ← read_u16; mret (mk_question n t c).
Definition read_rr : parser rr :=
  n ← read_name; t ← read_u16; c ← read_u16; s ← read_u32;
  k ← read_u16; d ← read_bytes k; mret (mk_rr n t c s d).
Fixpoint read_many {A} (p : parser A) (n : nat) : parser (list A) :=
  match n with
  | O => mret []
  | S n' => a ← p; r ← read_many p n'; mret (a :: r)
  end.
Definition read_message_body : parser message :=
  id ← read_u16; flags ← read_u16;
  qd ← read_u16; an ← read_u16; ns ← read_u16; ar ← read_u16;
  qs ← read_many read_question (Z.to_nat qd);
  ans ← read_many read_rr (Z.to_nat an);
  nss ← read_many read_rr (Z.to_nat ns);
  ars ← read_many read_rr (Z.to_nat ar);
  mret (mk_message id flags qs ans nss ars).
(** The whole input is one message. *)
Definition read_message (l : list u8) : option message :=
  match read_message_body l with Some (m, []) => Some m | _ => None end.

(** ** Reading back what the encoder appends *)

(** [reads p bs v]: on any input that starts with [bs], [p] consumes exactly [bs]
    and returns [v]. *)
Definition reads {A} (p : parser A) (bs : list u8) (v : A) : Prop :=
  ∀ rest, p (bs ++ rest) = Some (v, rest).

Lemma reads_ret {A} (v : A) : reads (mret v) [] v.
Proof. done. Qed.

Lemma reads_bind {A B} (p : parser A) (f : A → parser B) b1 b2 v w :
  reads p b1 v → reads (f v) b2 w → reads (p ≫= f) (b1 ++ b2) w.
Proof. intros Hp Hf rest. unfold mbind, parser_bind. by rewrite <- app_assoc, Hp, Hf. Qed.

Lemma reads_bind_ret {A B} (p : parser A) (f : A → B) bs v :
  reads p bs v → reads (p ≫= λ a, mret (f a)) bs (f v).
Proof. intros Hp. rewrite <- (app_nil_r bs). eapply reads_bind; [done|apply reads_ret]. Qed.

Lemma reads_u8 b : reads read_u8 [b] b.
Proof. done. Qed.

(** The big-endian bytes of an integer. *)
Definition be16 (v : u16) : list u8 := [v / 256; v mod 256].
Definition be32 (v : u32) : list u8 := be16 (v / 65536) ++ be16 (v mod 65536).

Lemma land_255 v : Z.land v 255 = v mod 256.
Proof. change 255 with (Z.ones 8). by rewrite Z.land_ones. Qed.

Lemma as_u8_land v : as_u8 (Z.land v 255) = v mod 256.
Proof. rewrite land_255. unfold wrap. change (2 ^ 8) with 256. by rewrite Z.mod_mod. Qed.

Lemma append_u16_eq out v : fits 16 v → append_u16 out v = out ++ be16 v.
Proof.
  unfold fits, append_u16, be16. change (2 ^ 16) with 65536. intros Hv.
  rewrite !as_u8_land, <- app_assoc, Z.shiftr_div_pow2 by done. change (2 ^ 8) with 256.
  rewrite (Z.mod_small (v / 256)); [done|].
  split; [apply Z.div_pos; lia|apply Z.div_lt_upper_bound; lia].
Qed.

Lemma div_mod_256 v : 0 ≤ v < 4294967296 → v / 16777216 mod 256 = v / 65536 / 256.
Proof.
  intros Hv. rewrite Z.div_div by done. apply Z.mod_small.
  split; [apply Z.div_pos; lia|apply Z.div_lt_upper_bound; lia].
Qed.

Lemma div_div_mod_256 v : v / 256 mod 256 = v mod 65536 / 256.
Proof.
  pose proof (Z.mod_pos_bound v 65536 ltac:(done)) as Hr.
  rewrite (Z.div_mod v 65536) at 1 by done.
  replace (65536 * (v / 65536) + v mod 65536)
    with (v mod 65536 + (v / 65536 * 256) * 256) by lia.
  rewrite Z.div_add, Z.mod_add by done. apply Z.mod_small.
  split; [apply Z.div_pos; lia|apply Z.div_lt_upper_bound; lia].
Qed.

Lemma mod_mod_256 v : v mod 256 = v mod 65536 mod 256.
Proof.
  rewrite (Z.div_mod v 65536) at 1 by done.
  replace (65536 * (v / 65536) + v mod 65536)
    with (v mod 65536 + (v / 65536 * 256) * 256) by lia.
  by rewrite Z.mod_add.
Qed.

Lemma append_u32_eq out v : fits 32 v → append_u32 out v = out ++ be32 v.
Proof.
  unfold fits, append_u32, be32, be16. change (2 ^ 32) with 4294967296. intros Hv.
  rewrite !as_u8_land, <- !app_assoc, !Z.shiftr_div_pow2 by done.
  change (2 ^ 24) with 16777216. change (2 ^ 16) with 65536. change (2 ^ 8) with 256.
  rewrite div_mod_256, (div_div_mod_256 v), (mod_mod_256 v) by lia. done.
Qed.

Lemma reads_u16 v : reads read_u16 (be16 v) v.
Proof.
  intros rest. change (Some (v / 256 * 256 + v mod 256, rest) = Some (v, rest)).
  do 2 f_equal. pose proof (Z.div_mod v 256 ltac:(done)). lia.
Qed.

Lemma reads_u32 v : reads read_u32 (be32 v) v.
Proof.
  intros rest. unfold read_u32, be32. rewrite <- app_assoc.
  cbv [mbind parser_bind]. rewrite (reads_u16 _ _), (reads_u16 _ _). cbv [mret parser_ret].
  do 2 f_equal. pose proof (Z.div_mod v 65536 ltac:(done)). lia.
Qed.

Lemma reads_bytes bs : reads (read_bytes (len bs)) bs bs.
Proof.
  intros rest. unfold read_bytes, len. rewrite length_app.
  destruct (Z.leb_spec (Z.of_nat (length bs)) (Z.of_nat (length bs + length rest))); [|lia].
  by rewrite Nat2Z.id, take_app_length, drop_app_length.
Qed.

Lemma reads_many {A} (p : parser A) (enc : A → list u8) vs :
  (∀ v, v ∈ vs → reads p (enc v) v) →
  reads (read_many p (length vs)) (concat (enc <$> vs)) vs.
Proof.
  induction vs as [|v vs IH]; intros Hvs; simpl; [apply reads_ret|].
  eapply reads_bind; [apply Hvs; left|].
  apply (reads_bind_ret _ (λ r, v :: r)), IH. intros w Hw. apply Hvs. by right.
Qed.

(** *** Names *)

Definition label_ok (e : list u8) : Prop := 0 < len e < 64.
#[export] Instance label_ok_dec e : Decision (label_ok e).
Proof. unfold label_ok. apply _. Defined.

Definition enc_label (e : list u8) : list u8 := len e :: e.
Definition enc_name (ls : list (list u8)) : list u8 := concat (enc_label <$> ls) ++ [0].

(** The labels of a dotted name, and when [append_qname] accepts it. *)
Definition labels (name : list u8) : list (list u8) := split_on (λ c, c =? DOT) name.
Definition name_ok (name : list u8) : Prop :=
  is_ascii name = true ∧ Forall label_ok (labels name).
#[export] Instance name_ok_dec name : Decision (name_ok name).
Proof. unfold name_ok. apply _. Defined.

Lemma append_labels_ok out es :
  Forall label_ok es → append_labels out es = Done (out ++ concat (enc_label <$> es)).
Proof.
  intros Hes. revert out. induction Hes as [|e es [Hpos Hlt] Hes IH]; intros out; simpl.
  - by rewrite app_nil_r.
  - destruct (Z.ltb_spec (len e) 64); [|lia]. destruct (Z.eqb_spec (len e) 0); [lia|].
    rewrite IH, wrap_small by (unfold fits; change (2 ^ 8) with 256; lia).
    by rewrite <- !app_assoc.
Qed.

Lemma append_labels_panic out es : ¬ Forall label_ok es → append_labels out es = Panic.
Proof.
  revert out. induction es as [|e es IH]; intros out Hes; simpl; [by destruct Hes|].
  destruct (Z.ltb_spec (len e) 64); [|done]. destruct (Z.eqb_spec (len e) 0); [done|].
  apply IH. contradict Hes. constructor; [|done]. unfold label_ok, len in *. lia.
Qed.

Lemma append_qname_ok dbg out name :
  name_ok name → append_qname dbg out name = Done (out ++ enc_name (labels name)).
Proof.
  intros [Hascii Hls]. unfold append_qname. rewrite Hascii, andb_false_r.
  rewrite append_labels_ok by done. unfold enc_name. by rewrite app_assoc.
Qed.

Lemma enc_name_cons e ls : enc_name (e :: ls) = [len e] ++ e ++ enc_name ls.
Proof. unfold enc_name. simpl. by rewrite <- app_assoc. Qed.

Lemma reads_name_fuel fuel ls :
  Forall label_ok ls → (length ls < fuel)%nat → reads (read_name_fuel fuel) (enc_name ls) ls.
Proof.
  intros Hls. revert fuel. induction Hls as [|e ls [Hpos Hlt] Hls IH];
    intros [|fuel] Hfuel; simpl in Hfuel; try lia; [done|].
  rewrite enc_name_cons. cbn [read_name_fuel].
  eapply reads_bind; [apply reads_u8|].
  destruct (Z.eqb_spec (len e) 0); [lia|]. destruct (Z.ltb_spec (len e) 64); [|lia].
  eapply reads_bind; [apply reads_bytes|].
  apply (reads_bind_ret _ (λ r, e :: r)), IH. lia.
Qed.

Lemma length_enc_name ls : (length ls < length (enc_name ls))%nat.
Proof.
  induction ls as [|e ls IH]; [simpl; lia|]. rewrite enc_name_cons, !length_app. simpl. lia.
Qed.

Lemma reads_name ls : Forall label_ok ls → reads read_name (enc_name ls) ls.
Proof.
  intros Hls rest. unfold read_name. apply reads_name_fuel; [done|].
  rewrite length_app. pose proof (length_enc_name ls). lia.
Qed.

(** *** Records and messages *)

Definition rr_ok (r : rr) : Prop :=
  Forall label_ok (rr_name r) ∧ len (rr_data r) ≤ U16_MAX.
Definition enc_rr (r : rr) : list u8 :=
  enc_name (rr_name r) ++ be16 (rr_type r) ++ be16 (rr_class r) ++ be32 (rr_ttl r)
  ++ be16 (len (rr_data r)) ++ rr_data r.

Lemma reads_rr r : rr_ok r → reads read_rr (enc_rr r) r.
Proof.
  intros [Hname Hdata]. destruct r as [n t c s d]. unfold enc_rr. cbn [rr_name rr_type rr_class rr_ttl rr_data].
  eapply reads_bind; [by apply reads_name|]. eapply reads_bind; [apply reads_u16|].
  eapply reads_bind; [apply reads_u16|]. eapply reads_bind; [apply reads_u32|].
  eapply reads_bind; [apply reads_u16|]. apply (reads_bind_ret _ (mk_rr n t c s)), reads_bytes.
Qed.

Definition question_ok (q : question) : Prop := Forall label_ok (q_name q).
Definition enc_question (q : question) : list u8 :=
  enc_name (q_name q) ++ be16 (q_type q) ++ be16 (q_class q).

Lemma reads_question q : question_ok q → reads read_question (enc_question q) q.
Proof.
  intros Hname. destruct q as [n t c]. unfold enc_question. cbn [q_name q_type q_class].
  eapply reads_bind; [by apply reads_name|]. eapply reads_bind; [apply reads_u16|].
  apply (reads_bind_ret _ (mk_question n t)), reads_u16.
Qed.

Definition message_ok (m : message) : Prop :=
  Forall question_ok (msg_questions m) ∧ Forall rr_ok (msg_answers m)
  ∧ Forall rr_ok (msg_authorities m) ∧ Forall rr_ok (msg_additionals m).
Definition enc_message (m : message) : list u8 :=
  be16 (msg_id m) ++ be16 (msg_flags m) ++ be16 (len (msg_questions m))
  ++ be16 (len (msg_answers m)) ++ be16 (len (msg_authorities m))
  ++ be16 (len (msg_additionals m)) ++ concat (enc_question <$> msg_questions m)
  ++ concat (enc_rr <$> msg_answers m) ++ concat (enc_rr <$> msg_authorities m)
  ++ concat (enc_rr <$> msg_additionals m).

Lemma reads_many_len {A} (p : parser A) (enc : A → list u8) vs :
  (∀ v, v ∈ vs → reads p (enc v) v) →
  reads (read_many p (Z.to_nat (len vs))) (concat (enc <$> vs)) vs.
Proof. unfold len. rewrite Nat2Z.id. apply reads_many. Qed.

(** The reference reader inverts the reference encoding. *)
Lemma read_enc_message m : message_ok m → read_message (enc_message m) = Some m.
Proof.
  intros (Hq & Ha & Hn & Hx).
  setoid_rewrite Forall_forall in Hq. setoid_rewrite Forall_forall in Ha.
  setoid_rewrite Forall_forall in Hn. setoid_rewrite Forall_forall in Hx.
  enough (reads read_message_body (enc_message m) m) as Hr.
  { unfold read_message. specialize (Hr []). rewrite app_nil_r in Hr. by rewrite Hr. }
  destruct m as [id fl qs ans nss ars]. unfold enc_message, read_message_body.
  cbn [msg_id msg_flags msg_questions msg_answers msg_authorities msg_additionals] in *.
  do 6 (eapply reads_bind; [apply reads_u16|]).
  eapply reads_bind; [apply reads_many_len; eauto using reads_question|].
  do 2 (eapply reads_bind; [apply reads_many_len; eauto using reads_rr|]).
  apply (reads_bind_ret _ (mk_message id fl qs ans nss)), reads_many_len. eauto using reads_rr.
Qed.

#[export] Hint Rewrite append_u16_eq append_u32_eq using (by auto with p2p) : p2p_rw.

(** ** What the builders produce *)

(** The character string of a TXT record and its length byte, as the code writes
    them. *)
Definition char_string (bytes : list u8) : list u8 :=
  if existsb (λ c, c =? SPACE) bytes then [QUOTE] ++ concat (escape <$> bytes) ++ [QUOTE]
  else bytes.
Definition txt_rdata (value : string) : list u8 :=
  len (bytes_of_string value) :: char_string (bytes_of_string value).
Definition encodable (value : string) : bool :=
  is_ascii (bytes_of_string value) && (len (bytes_of_string value) <=? MAX_TXT_VALUE_LENGTH).

Definition txt_rr (peer : list (list u8)) (ttl : u32) (value : string) : rr :=
  mk_rr peer 16 32769 ttl (txt_rdata value).
Definition response_message (id : u16) (service peer : list (list u8)) (ttl : u32)
    (txts : list rr) : message :=
  mk_message id 33792 [] [mk_rr service 12 1 ttl (enc_name peer)] [] txts.

Lemma append_character_string_eq out value :
  is_ascii (bytes_of_string value) = true →
  append_character_string out value = (out ++ char_string (bytes_of_string value), Ok ()).
Proof.
  intros Ha. unfold append_character_string, char_string. rewrite Ha. simpl.
  destruct (existsb _ _); simpl; [|done]. by rewrite <- !app_assoc.
Qed.

Lemma length_escape c : (1 ≤ length (escape c) ≤ 2)%nat.
Proof. unfold escape. repeat case_match; simpl; lia. Qed.

Lemma length_escapes bs :
  (length bs ≤ length (concat (escape <$> bs)) ≤ 2 * length bs)%nat.
Proof.
  induction bs as [|b bs IH]; [simpl; lia|].
  change (concat (escape <$> b :: bs)) with (escape b ++ concat (escape <$> bs)).
  rewrite length_app. pose proof (length_escape b). cbn [length]. lia.
Qed.

Lemma length_char_string bs : len (char_string bs) ≤ 2 * len bs + 2.
Proof.
  unfold char_string, len. case_match; [|lia]. rewrite !length_app. simpl.
  pose proof (length_escapes bs). lia.
Qed.

Lemma encodable_len value :
  encodable value = true →
  is_ascii (bytes_of_string value) = true ∧ 0 ≤ len (bytes_of_string value) ≤ 255.
Proof.
  intros [Ha Hl]%andb_true_iff. split; [done|].
  apply Z.leb_le in Hl. unfold MAX_TXT_VALUE_LENGTH, len in *. lia.
Qed.

Lemma txt_rdata_len value : encodable value = true → 0 ≤ len (txt_rdata value) ≤ U16_MAX.
Proof.
  intros [_ Hl]%encodable_len. unfold txt_rdata, len, U16_MAX in *. simpl.
  pose proof (length_char_string (bytes_of_string value)). unfold len in *. lia.
Qed.

Lemma fits_u16 z : 0 ≤ z ≤ U16_MAX → fits 16 z.
Proof. unfold U16_MAX, fits. change (2 ^ 16) with 65536. lia. Qed.

Lemma append_txt_record_ok out peer ttl value :
  encodable value = true → fits 32 ttl →
  append_txt_record out (enc_name peer) ttl value =
    (out ++ enc_rr (txt_rr peer ttl value), Ok ()).
Proof.
  intros Henc Httl. pose proof (txt_rdata_len value Henc) as Hrd.
  destruct (encodable_len value Henc) as [Ha Hl]. unfold append_txt_record.
  unfold MAX_TXT_VALUE_LENGTH. destruct (Z.ltb_spec 255 (len (bytes_of_string value))); [lia|].
  rewrite append_character_string_eq, (wrap_small 8)
    by (done || (unfold fits; change (2 ^ 8) with 256; lia)).
  change ([len (bytes_of_string value)] ++ char_string (bytes_of_string value))
    with (txt_rdata value).
  rewrite wrap_small, append_u32_eq, append_u16_eq by (done || by apply fits_u16).
  unfold enc_rr, txt_rr. cbn [rr_name rr_type rr_class rr_ttl rr_data].
  change (be16 16) with ([0] ++ [16]). change (be16 32769) with ([128] ++ [1]).
  by rewrite <- !app_assoc.
Qed.

Lemma append_txt_record_err out name ttl value :
  encodable value = false → ∃ out' e, append_txt_record out name ttl value = (out', Err e).
Proof.
  unfold encodable, append_txt_record. intros Henc.
  destruct (Z.ltb_spec MAX_TXT_VALUE_LENGTH (len (bytes_of_string value))) as [|Hle]; [eauto|].
  destruct (Z.leb_spec (len (bytes_of_string value)) MAX_TXT_VALUE_LENGTH); [|lia].
  rewrite andb_true_r in Henc. unfold append_character_string. rewrite Henc. simpl. eauto.
Qed.

Lemma duration_to_secs_fits d : duration_ok d → fits 32 (duration_to_secs d).
Proof. intros _. by apply wrap_fits. Qed.

Lemma query_response_packet_eq dbg id peer ttl service rrs :
  fits 16 id → fits 32 ttl → name_ok service →
  len (enc_name peer) ≤ U16_MAX → len rrs ≤ U16_MAX →
  query_response_packet dbg id (enc_name peer) (enc_rr <$> rrs) ttl service =
    Done (enc_message (response_message id (labels service) peer ttl rrs)).
Proof.
  intros Hid Httl Hs Hpeer Hrrs. unfold query_response_packet.
  assert (len (enc_rr <$> rrs) = len rrs) as -> by (unfold len; by rewrite length_fmap).
  assert (0 ≤ len rrs ∧ 0 ≤ len (enc_name peer)) by (unfold len; lia).
  rewrite !(wrap_small 16) by (apply fits_u16; lia).
  rewrite !append_u16_eq by (done || (apply fits_u16; unfold U16_MAX in *; lia)).
  rewrite append_qname_ok by done. cbn [mbind outcome_bind].
  rewrite append_u32_eq by done.
  rewrite !append_u16_eq by (apply fits_u16; unfold U16_MAX in *; lia).
  f_equal. unfold enc_message, response_message, enc_rr at 2. simpl.
  rewrite <- !app_assoc. simpl. repeat f_equal.
Qed.

Section builders.
Context `{Libp2p} (dbg : bool).
Context (id : u16) (service : list u8) (peer : list (list u8)) (secs : u32).
Context (Hid : fits 16 id) (Hservice : name_ok service) (Hsecs : fits 32 secs).
Context (Hpeer : len (enc_name peer) ≤ U16_MAX).

Let packet_of (txts : list rr) : list u8 :=
  enc_message (response_message id (labels service) peer secs txts).
(** The TXT records of the addresses that can be sent. *)
Let txts_of (peer_id : PeerId) (addrs : list Multiaddr) : list rr :=
  txt_rr peer secs <$> filter (λ v, encodable v = true) (flip txt_to_send peer_id <$> addrs).

Lemma packet_eq rrs :
  len rrs ≤ U16_MAX →
  query_response_packet dbg id (enc_name peer) (enc_rr <$> rrs) secs service =
    Done (packet_of rrs).
Proof using Hid Hservice Hsecs Hpeer. by apply query_response_packet_eq. Qed.

(** The loop cuts the records in groups of at most [MAX_RECORDS_PER_PACKET], in
    order and without losing one. *)
Lemma pack_addresses_spec peer_id addrs groups g :
  Forall (λ g, len g ≤ MAX_RECORDS_PER_PACKET) groups → len g < MAX_RECORDS_PER_PACKET →
  ∃ groups' g',
    pack_addresses dbg id peer_id (enc_name peer) secs service addrs
      (packet_of <$> groups) (enc_rr <$> g) = Done (packet_of <$> groups', enc_rr <$> g')
    ∧ concat groups' ++ g' = concat groups ++ g ++ txts_of peer_id addrs
    ∧ Forall (λ g, len g ≤ MAX_RECORDS_PER_PACKET) groups' ∧ len g' < MAX_RECORDS_PER_PACKET.
Proof using Hid Hservice Hsecs Hpeer.
  revert groups g. induction addrs as [|addr addrs IH]; intros groups g Hgs Hg.
  { exists groups, g. cbn. by rewrite app_nil_r. }
  cbn [pack_addresses]. set (v := txt_to_send addr peer_id).
  destruct (encodable v) eqn:Henc.
  - rewrite append_txt_record_ok by done. simpl app.
    replace ((enc_rr <$> g) ++ [enc_rr (txt_rr peer secs v)])
      with (enc_rr <$> (g ++ [txt_rr peer secs v])) by by rewrite fmap_app.
    assert (txts_of peer_id (addr :: addrs) = txt_rr peer secs v :: txts_of peer_id addrs)
      as Htx by (unfold txts_of; cbn; fold v; by rewrite decide_True by done).
    rewrite Htx. assert (len (g ++ [txt_rr peer secs v]) = len g + 1)
      as Hlen by (unfold len; rewrite length_app; simpl; lia).
    replace (len (enc_rr <$> g ++ [txt_rr peer secs v])) with (len g + 1)
      by (rewrite <- Hlen; unfold len; by rewrite length_fmap).
    destruct (Z.eqb_spec (len g + 1) MAX_RECORDS_PER_PACKET) as [Heq|Hne].
    + rewrite packet_eq by (rewrite Hlen, Heq; done). cbn [mbind outcome_bind].
      destruct (IH (groups ++ [g ++ [txt_rr peer secs v]]) []) as (gs' & g' & Hp & Hc & Hr);
        [apply Forall_app; split; [done|]; apply Forall_singleton; lia|done|].
      exists gs', g'. rewrite fmap_app in Hp. split; [done|]. split; [|done].
      rewrite Hc, concat_app. simpl. by rewrite app_nil_r, <- !app_assoc.
    + destruct (IH groups (g ++ [txt_rr peer secs v])) as (gs' & g' & Hp & Hc & Hr); [done|lia|].
      exists gs', g'. split; [done|]. split; [|done]. by rewrite Hc, <- !app_assoc.
  - destruct (append_txt_record_err [] (enc_name peer) secs v Henc) as (out' & e & ->).
    assert (txts_of peer_id (addr :: addrs) = txts_of peer_id addrs)
      as -> by (unfold txts_of; cbn; fold v; by rewrite decide_False by congruence).
    destruct (Z.eqb_spec (len (enc_rr <$> g)) MAX_RECORDS_PER_PACKET) as [Heq|_]; [|by apply IH].
    exfalso. unfold len in *. rewrite length_fmap in Heq. lia.
Qed.
End builders.

(** The peer name: 32 to 63 alphanumeric characters. *)
Definition is_alphanumeric (b : u8) : bool :=
  ((48 <=? b) && (b <=? 57)) || ((65 <=? b) && (b <=? 90)) || ((97 <=? b) && (b <=? 122)).
Definition peer_name_ok (peer_name : string) : Prop :=
  32 ≤ len (bytes_of_string peer_name) < 64
  ∧ Forall (λ b, is_alphanumeric b = true) (bytes_of_string peer_name).
#[export] Instance peer_name_ok_dec s : Decision (peer_name_ok s).
Proof. unfold peer_name_ok. apply _. Defined.

(** [sample_iter(&Alphanumeric)] gives [samples], an alphanumeric character each; the
    length is 32 and [gen_range(0..32)]. *)
Definition random_string (samples : list u8) (length : nat) : string :=
  string_of_bytes (take length samples).
Definition random_peer_name (samples : list u8) (gen_range : nat) : string :=
  random_string samples (32 + gen_range).

(** The names that are generated have the form the builders take. *)
Lemma random_peer_name_ok samples n :
  Forall (λ b, is_alphanumeric b = true) samples → (n < 32)%nat → (32 + n ≤ length samples)%nat →
  peer_name_ok (random_peer_name samples n).
Proof.
  intros Hs Hn Hlen. unfold peer_name_ok, random_peer_name, random_string.
  rewrite bytes_of_string_of_bytes.
  - split; [|by apply Forall_take]. unfold len. rewrite length_take. lia.
  - apply Forall_take. eapply Forall_impl; [exact Hs|]. intros b. unfold is_alphanumeric, fits.
    rewrite !orb_true_iff, !andb_true_iff, !Z.leb_le. lia.
Qed.

Lemma alphanumeric_ascii b : is_alphanumeric b = true → (b <? 128) = true ∧ (b =? DOT) = false.
Proof.
  unfold is_alphanumeric, DOT. intros Hb. split; [apply Z.ltb_lt|apply Z.eqb_neq];
    repeat (apply orb_true_iff in Hb as [Hb|Hb]); apply andb_true_iff in Hb; lia.
Qed.

Lemma is_ascii_Forall bs : Forall (λ b, (b <? 128) = true) bs → is_ascii bs = true.
Proof. induction 1 as [|b bs Hb Hbs IH]; [done|]. unfold is_ascii in *. simpl. by rewrite Hb. Qed.

Lemma generate_peer_name_ok dbg s :
  peer_name_ok s →
  generate_peer_name dbg s = Done (enc_name [bytes_of_string s])
  ∧ Forall label_ok [bytes_of_string s] ∧ len (enc_name [bytes_of_string s]) ≤ 65.
Proof.
  intros [Hlen Hall].
  assert (Forall label_ok [bytes_of_string s]) as Hlab
    by (apply Forall_singleton; unfold label_ok; lia).
  assert (labels (bytes_of_string s) = [bytes_of_string s]) as Hls.
  { apply split_on_none. eapply Forall_impl; [exact Hall|]. intros b Hb.
    by apply alphanumeric_ascii. }
  split; [|split; [done|]].
  - unfold generate_peer_name. rewrite append_qname_ok, Hls; [done|]. split.
    + apply is_ascii_Forall. eapply Forall_impl; [exact Hall|]. intros b Hb.
      by apply alphanumeric_ascii.
    + by rewrite Hls.
  - unfold len in *. simpl. rewrite !length_app. simpl. lia.
Qed.

Lemma txt_rr_ok peer secs v :
  Forall label_ok peer → encodable v = true → rr_ok (txt_rr peer secs v).
Proof. intros Hpeer Hv. split; [done|]. by apply txt_rdata_len. Qed.

Lemma response_message_ok id service peer secs txts :
  Forall label_ok service → len (enc_name peer) ≤ 65 → Forall rr_ok txts →
  message_ok (response_message id service peer secs txts).
Proof.
  intros Hs Hpeer Htxts. split; [done|]. split; [|split; [done|exact Htxts]].
  apply Forall_singleton. split; [done|]. unfold U16_MAX. cbn [rr_data]. lia.
Qed.

Lemma max_records_eq : MAX_RECORDS_PER_PACKET = 29.
Proof. done. Qed.

(** The packets as reference encodings of the groups of TXT records. *)
Lemma build_query_response_groups `{Libp2p} dbg peer_name id peer_id addrs d service :
  peer_name_ok peer_name → fits 16 id → name_ok service → duration_ok d →
  let peer := [bytes_of_string peer_name] in
  let secs := duration_to_secs d in
  ∃ groups,
    build_query_response dbg peer_name id peer_id addrs d service =
      Done ((λ g, enc_message (response_message id (labels service) peer secs g)) <$> groups)
    ∧ groups ≠ []
    ∧ concat groups = txt_rr peer secs <$>
        filter (λ v, encodable v = true)
          (flip txt_to_send peer_id <$> take (Z.to_nat 65535) addrs)
    ∧ Forall (λ g, len g ≤ MAX_RECORDS_PER_PACKET) groups.
Proof.
  intros Hpn Hid Hservice Hd peer secs.
  destruct (generate_peer_name_ok dbg peer_name Hpn) as (Hgen & Hlab & Hlen).
  assert (fits 32 secs) as Hsecs by by apply duration_to_secs_fits.
  assert (len (enc_name peer) ≤ U16_MAX) as Hlen' by (unfold U16_MAX, peer; lia).
  pose proof (λ rrs, packet_eq dbg id service peer secs Hid Hservice Hsecs Hlen' rrs) as Hpkt.
  destruct (pack_addresses_spec dbg id service peer secs Hid Hservice Hsecs Hlen' peer_id
    (take (Z.to_nat 65535) addrs) [] []) as (gs & g & Hpack & Hconcat & Hgs & Hg); [done..|].
  unfold build_query_response. rewrite Hgen. cbn [mbind outcome_bind].
  destruct (Z.leb_spec (len (enc_name [bytes_of_string peer_name])) 65535); [|lia].
  rewrite andb_false_r. fold secs peer.
  rewrite !fmap_nil in Hpack. rewrite Hpack. clear Hpack. cbn [mbind outcome_bind].
  destruct (decide (g = [])) as [->|Hne].
  - rewrite app_nil_r in Hconcat. rewrite fmap_nil, bool_decide_true by done.
    cbn [negb mbind outcome_bind]. destruct gs as [|g1 gs].
    + specialize (Hpkt [] ltac:(done)). rewrite fmap_nil in Hpkt.
      exists [[]]. rewrite bool_decide_true, Hpkt by done. repeat (split; [done|]).
      by apply Forall_singleton.
    + exists (g1 :: gs). by rewrite bool_decide_false.
  - exists (gs ++ [g]). rewrite bool_decide_false by (by destruct g). simpl negb.
    rewrite Hpkt by (rewrite max_records_eq in Hg; unfold U16_MAX; lia).
    cbn [mbind outcome_bind]. rewrite bool_decide_false by (by destruct gs).
    split; [by rewrite fmap_app|]. split; [by destruct gs|]. split.
    + rewrite concat_app. simpl. by rewrite app_nil_r.
    + apply Forall_app. split; [done|]. apply Forall_singleton. lia.
Qed.

Lemma length_enc_labels name : len (enc_name (labels name)) = len name + 2.
Proof.
  pose proof (split_on_length (λ c, c =? DOT) name) as Hl. unfold labels, enc_name, len.
  rewrite length_app. simpl.
  enough (∀ ls, length (concat (enc_label <$> ls)) = sum_list_with (λ p, S (length p)) ls) as He
    by (rewrite He; lia).
  clear. induction ls as [|e ls IH]; [done|]. simpl. rewrite length_app, <- IH. done.
Qed.

(** A name [append_qname] does not accept makes it panic. *)
Definition name_panics (dbg : bool) (name : list u8) : Prop :=
  (dbg = true ∧ is_ascii name = false) ∨ ¬ Forall label_ok (labels name).

Lemma append_qname_not_panic dbg out name :
  ¬ name_panics dbg name → append_qname dbg out name = Done (out ++ enc_name (labels name)).
Proof.
  unfold name_panics, append_qname. intros Hn.
  destruct (decide (Forall label_ok (labels name))) as [Hl|Hl]; [|naive_solver].
  assert (dbg && negb (is_ascii name) = false) as ->
    by (destruct dbg, (is_ascii name); naive_solver).
  rewrite append_labels_ok by done. unfold enc_name. by rewrite app_assoc.
Qed.

Lemma append_qname_panic dbg out name : name_panics dbg name → append_qname dbg out name = Panic.
Proof.
  unfold append_qname. intros [[-> ->]|Hl]; [done|].
  rewrite append_labels_panic by done. by destruct (dbg && _).
Qed.

Lemma query_response_packet_panic dbg id peer records ttl service :
  name_panics dbg service → query_response_packet dbg id peer records ttl service = Panic.
Proof. intros Hn. unfold query_response_packet. by rewrite append_qname_panic. Qed.

Lemma query_response_packet_done dbg id peer records ttl service :
  ¬ name_panics dbg service →
  ∃ p, query_response_packet dbg id peer records ttl service = Done p.
Proof. intros Hn. unfold query_response_packet. rewrite append_qname_not_panic by done. by eexists. Qed.

Lemma pack_addresses_panic `{Libp2p} dbg id peer_id peer ttl service addrs records :
  name_panics dbg service →
  pack_addresses dbg id peer_id peer ttl service addrs [] records = Panic
  ∨ ∃ records', pack_addresses dbg id peer_id peer ttl service addrs [] records = Done ([], records').
Proof.
  intros Hn. revert records. induction addrs as [|addr addrs IH]; intros records; [by eauto|].
  cbn [pack_addresses]. rewrite query_response_packet_panic by done. case_match; [by left|apply IH].
Qed.

Lemma pack_addresses_done `{Libp2p} dbg id peer_id peer ttl service addrs packets records :
  ¬ name_panics dbg service →
  ∃ r, pack_addresses dbg id peer_id peer ttl service addrs packets records = Done r.
Proof.
  intros Hn. revert packets records.
  induction addrs as [|addr addrs IH]; intros packets records; [by eexists|].
  cbn [pack_addresses]. case_match; [|apply IH].
  edestruct query_response_packet_done as [p ->]; [done|]. apply IH.
Qed.

Lemma meta_query_service_ok : name_ok META_QUERY_SERVICE.
Proof. apply (bool_decide_unpack (name_ok META_QUERY_SERVICE)). by vm_compute. Qed.

(** *** Sizes *)

Lemma len_be16 v : len (be16 v) = 2.
Proof. done. Qed.

Lemma len_be32 v : len (be32 v) = 4.
Proof. done. Qed.

Lemma len_app {A} (l k : list A) : len (l ++ k) = len l + len k.
Proof. unfold len. rewrite length_app. lia. Qed.

Lemma len_enc_rr r : len (enc_rr r) = len (enc_name (rr_name r)) + 10 + len (rr_data r).
Proof. unfold enc_rr. rewrite !len_app, !len_be16, len_be32. lia. Qed.

Lemma len_enc_rrs k rrs :
  Forall (λ r, len (enc_rr r) ≤ k) rrs → len (concat (enc_rr <$> rrs)) ≤ k * len rrs.
Proof.
  induction 1 as [|r rrs Hr Hrrs IH]; [unfold len; simpl; lia|].
  change (concat (enc_rr <$> r :: rrs)) with (enc_rr r ++ concat (enc_rr <$> rrs)).
  rewrite len_app. unfold len in *. simpl length. lia.
Qed.

Lemma len_response id service peer secs txts :
  len (enc_message (response_message id service peer secs txts)) =
    22 + len (enc_name service) + len (enc_name peer) + len (concat (enc_rr <$> txts)).
Proof.
  unfold enc_message, response_message. cbn [msg_id msg_flags msg_questions msg_answers
    msg_authorities msg_additionals]. rewrite !len_app.
  change (concat (enc_question <$> [])) with ([] : list u8).
  change (concat (enc_rr <$> [])) with ([] : list u8).
  change (concat (enc_rr <$> [mk_rr service 12 1 secs (enc_name peer)]))
    with (enc_rr (mk_rr service 12 1 secs (enc_name peer)) ++ []).
  rewrite len_app, len_enc_rr. cbn [rr_name rr_data].
  rewrite !len_be16. change (@len u8 []) with 0. lia.
Qed.

Lemma build_query_enc dbg random service :
  fits 16 random → name_ok service →
  build_query dbg random service =
    Done (enc_message (mk_message random 0 [mk_question (labels service) 12 1] [] [] [])).
Proof.
  intros Hr Hs. unfold build_query.
  rewrite !append_u16_eq by (done || by apply fits_u16).
  rewrite append_qname_ok by done. cbn [mbind outcome_bind].
  rewrite !append_u16_eq by (done || by apply fits_u16). f_equal.
  unfold enc_message, enc_question. simpl. rewrite <- !app_assoc. by rewrite ?app_nil_r.
Qed.

(** A query has 18 bytes more than the dotted service name. *)
Lemma len_build_query random service :
  len (enc_message (mk_message random 0 [mk_question (labels service) 12 1] [] [] [])) =
    len service + 18.
Proof.
  unfold enc_message. cbn [msg_id msg_flags msg_questions msg_answers msg_authorities
    msg_additionals]. rewrite fmap_cons, !fmap_nil. cbn [concat]. unfold enc_question.
  cbn [q_name q_type q_class].
  rewrite !len_app, !len_be16, length_enc_labels. change (@len u8 []) with 0. lia.
Qed.

Lemma build_service_discovery_response_done dbg id d service :
  ¬ name_panics dbg service →
  ∃ packet, build_service_discovery_response dbg id d service = Done packet.
Proof.
  intros Hn. unfold build_service_discovery_response.
  rewrite (append_qname_ok _ _ META_QUERY_SERVICE) by apply meta_query_service_ok.
  cbn [mbind outcome_bind]. rewrite append_qname_not_panic by done. by eexists.
Qed.

Lemma build_query_done dbg random service :
  ¬ name_panics dbg service → ∃ packet, build_query dbg random service = Done packet.
Proof.
  intros Hn. unfold build_query. rewrite append_qname_not_panic by done. by eexists.
Qed.

Lemma name_ok_not_panics dbg name : name_ok name → ¬ name_panics dbg name.
Proof. intros [Ha Hl] [[_ Hn]|Hn]; [by rewrite Ha in Hn|done]. Qed.

(** ** Theorems *)

Section theorems.
Context `{Libp2p}.

(** C27: The answer to an address query is read back by a DNS reader: no packet is
    lost or malformed, every packet has the query's id, the PTR record of the
    service and at most [MAX_RECORDS_PER_PACKET] TXT records of the peer, and
    together the packets carry one TXT record for each of the first 65535
    addresses whose text is ASCII and at most 255 bytes long, in order. *)
Theorem build_query_response_read dbg peer_name id peer_id addrs d service :
  peer_name_ok peer_name → fits 16 id → name_ok service → duration_ok d →
  let peer := [bytes_of_string peer_name] in
  let secs := duration_to_secs d in
  ∃ packets groups,
    build_query_response dbg peer_name id peer_id addrs d service = Done packets
    ∧ packets ≠ []
    ∧ (read_message <$> packets) =
        (Some ∘ response_message id (labels service) peer secs <$> groups)
    ∧ concat groups = txt_rr peer secs <$>
        filter (λ v, encodable v = true)
          (flip txt_to_send peer_id <$> take (Z.to_nat 65535) addrs)
    ∧ Forall (λ g, len g ≤ MAX_RECORDS_PER_PACKET) groups.
Proof.
  intros Hpn Hid Hservice Hd peer secs.
  destruct (build_query_response_groups dbg peer_name id peer_id addrs d service)
    as (groups & -> & Hne & Hconcat & Hgs); [done..|].
  destruct (generate_peer_name_ok dbg peer_name Hpn) as (_ & Hlab & Hlen).
  eexists _, groups. split; [done|]. split; [by destruct groups|].
  split; [|by rewrite Hconcat]. rewrite <- list_fmap_compose. apply list_fmap_ext.
  intros i g Hi. apply read_enc_message, response_message_ok; [apply Hservice|done|].
  eapply (Forall_lookup_1 (Forall rr_ok)); [|exact Hi]. apply Forall_concat. rewrite Hconcat.
  apply Forall_forall. intros r (v & -> & [Hv _]%list_elem_of_filter)%list_elem_of_fmap.
  by apply txt_rr_ok.
Qed.

(** Building a response panics exactly when the service name has an empty
    label or one of 64 bytes or more, or is not ASCII while debug assertions are
    on, whatever the addresses are. *)
Theorem build_query_response_panics_iff dbg peer_name id peer_id addrs d service :
  peer_name_ok peer_name →
  build_query_response dbg peer_name id peer_id addrs d service = Panic
    ↔ name_panics dbg service.
Proof.
  intros Hpn. destruct (generate_peer_name_ok dbg peer_name Hpn) as (Hgen & _ & Hlen).
  unfold build_query_response. rewrite Hgen. cbn [mbind outcome_bind].
  destruct (Z.leb_spec (len (enc_name [bytes_of_string peer_name])) 65535); [|lia].
  rewrite andb_false_r. split.
  - intros Hp. destruct (decide (Forall label_ok (labels service))) as [Hl|]; [|by right].
    destruct (decide (dbg = true ∧ is_ascii service = false)) as [|Ha]; [by left|].
    exfalso. assert (¬ name_panics dbg service) as Hn by (unfold name_panics; naive_solver).
    revert Hp. edestruct (pack_addresses_done dbg id peer_id) as [[ps rs] ->]; [done|].
    cbn [mbind outcome_bind]. pose proof (λ r, query_response_packet_done dbg id
      (enc_name [bytes_of_string peer_name]) r (duration_to_secs d) service Hn) as Hq.
    destruct (Hq rs) as [p ->], (Hq []) as [p' ->]. by case_match; simpl; case_match.
  - intros Hn. edestruct (pack_addresses_panic dbg id peer_id) as [Hp|[rs Hp]]; [done|..];
      rewrite Hp; [done|]. cbn [mbind outcome_bind].
    rewrite !query_response_packet_panic by done. by destruct (bool_decide (rs = [])).
Qed.

(** Every packet of a response has at most 9686 bytes plus the service name,
    when no address text has a space (a TXT record has at most 331 bytes). *)
Theorem build_query_response_size dbg peer_name id peer_id addrs d service packets :
  peer_name_ok peer_name → fits 16 id → name_ok service → duration_ok d →
  Forall (λ a, existsb (λ c, c =? SPACE) (bytes_of_string (txt_to_send a peer_id)) = false) addrs →
  build_query_response dbg peer_name id peer_id addrs d service = Done packets →
  Forall (λ p, len p ≤ 22 + (len service + 2) + 65 + 29 * 331) packets.
Proof.
  intros Hpn Hid Hservice Hd Hspace Hdone.
  destruct (build_query_response_groups dbg peer_name id peer_id addrs d service)
    as (groups & Hg & _ & Hconcat & Hgs); [done..|]. rewrite Hg in Hdone. simplify_eq.
  destruct (generate_peer_name_ok dbg peer_name Hpn) as (_ & _ & Hlen).
  assert (Forall (λ r, len (enc_rr r) ≤ 331) (concat groups)) as Hall.
  { rewrite Hconcat. apply Forall_forall.
    intros r (v & -> & [Hv (a & -> & Ha)%list_elem_of_fmap]%list_elem_of_filter)%list_elem_of_fmap.
    rewrite Forall_forall in Hspace. specialize (Hspace a (subseteq_take _ _ _ Ha)).
    rewrite len_enc_rr. unfold txt_rr, txt_rdata, char_string. cbn [rr_name rr_data flip].
    unfold flip. rewrite Hspace. apply encodable_len in Hv as [_ Hv].
    unfold len in *. simpl length in *. unfold flip in Hv. lia. }
  apply Forall_concat in Hall. apply Forall_fmap, Forall_forall. intros g Hin.
  rewrite Forall_forall in Hall, Hgs. specialize (Hall g Hin). specialize (Hgs g Hin).
  simpl in Hgs. rewrite max_records_eq in Hgs. simpl. rewrite len_response, length_enc_labels.
  pose proof (len_enc_rrs 331 g Hall). lia.
Qed.
End theorems.

(** The query is one question for the service's PTR records, read back. *)
Theorem build_query_read dbg random service :
  fits 16 random → name_ok service →
  ∃ packet, build_query dbg random service = Done packet
  ∧ read_message packet =
      Some (mk_message random 0 [mk_question (labels service) 12 1] [] [] []).
Proof.
  intros Hr Hs. rewrite build_query_enc by done. eexists. split; [done|].
  apply read_enc_message. repeat split; try done. apply Forall_singleton. apply Hs.
Qed.

(** The answer to a service discovery names the service, read back. *)
Theorem build_service_discovery_response_read dbg id d service :
  fits 16 id → name_ok service → duration_ok d → len service ≤ 65533 →
  ∃ packet, build_service_discovery_response dbg id d service = Done packet
  ∧ read_message packet =
      Some (mk_message id 33792 []
        [mk_rr (labels META_QUERY_SERVICE) 12 32769 (duration_to_secs d)
           (enc_name (labels service))] [] []).
Proof.
  intros Hid Hs Hd Hlen. unfold build_service_discovery_response.
  assert (len (enc_name (labels service)) ≤ U16_MAX) as Hn.
  { rewrite length_enc_labels. unfold U16_MAX. lia. }
  assert (0 ≤ len (enc_name (labels service))) by (unfold len; lia).
  rewrite !append_u16_eq by (done || by apply fits_u16).
  rewrite (append_qname_ok _ _ META_QUERY_SERVICE) by apply meta_query_service_ok.
  cbn [mbind outcome_bind]. rewrite append_u32_eq by by apply duration_to_secs_fits.
  rewrite append_qname_ok by done. cbn [mbind outcome_bind app].
  rewrite wrap_small by (by apply fits_u16).
  rewrite !append_u16_eq by (done || by apply fits_u16).
  eexists. split; [done|]. rewrite <- read_enc_message.
  - f_equal. unfold enc_message, enc_rr. simpl. rewrite <- !app_assoc. by rewrite ?app_nil_r.
  - split; [done|]. split; [|done]. apply Forall_singleton. split; [|done].
    apply meta_query_service_ok.
Qed.

(** A duration is rounded up to whole seconds and saturates at [u32::MAX]. *)
Theorem duration_to_secs_ceil d :
  duration_ok d →
  duration_to_secs d = Z.min ((d + (NANOS_PER_SEC - 1)) / NANOS_PER_SEC) U32_MAX.
Proof.
  intros Hd. unfold duration_to_secs. pose proof (as_secs_fits d Hd) as Hs.
  pose proof (as_secs_split d) as Hsplit. pose proof (subsec_nanos_bounds d) as Hn.
  assert ((d + (NANOS_PER_SEC - 1)) / NANOS_PER_SEC =
    as_secs d + (if 0 <? subsec_nanos d then 1 else 0)) as ->.
  { symmetry. unfold NANOS_PER_SEC in *. destruct (Z.ltb_spec 0 (subsec_nanos d)).
    - apply Z.div_unique with (subsec_nanos d - 1); lia.
    - apply Z.div_unique with 999999999; lia. }
  unfold U64_MAX, U32_MAX in *. rewrite wrap_small.
  - case_match; lia.
  - unfold fits. change (2 ^ 32) with 4294967296. case_match; lia.
Qed.

(** [decode_character_string] removes the quotes [append_character_string] put
    around a string with a space, and keeps the escapes inside. *)
Theorem decode_append_character_string value :
  is_ascii (bytes_of_string value) = true → head (bytes_of_string value) ≠ Some QUOTE →
  ∃ out, append_character_string [] value = (out, Ok ())
  ∧ decode_character_string out =
      Ok (if existsb (λ c, c =? SPACE) (bytes_of_string value)
          then concat (escape <$> bytes_of_string value) else bytes_of_string value).
Proof.
  intros Ha Hq. eexists. split; [by apply append_character_string_eq|].
  unfold char_string. set (bs := bytes_of_string value) in *. simpl app.
  destruct (existsb _ bs).
  - unfold decode_character_string. rewrite app_comm_cons, last_snoc.
    rewrite bool_decide_false, bool_decide_true by
      (done || unfold len; rewrite length_app; simpl; lia). simpl.
    rewrite length_app. simpl. f_equal. apply take_app_length'. lia.
  - destruct bs as [|b bs]; [done|]. unfold decode_character_string.
    destruct (Z.eqb_spec b QUOTE) as [->|]; [|done]. by destruct Hq.
Qed.

(** A TXT value with a space gets quotes, which its length byte does not count:
    the record's data is longer than its character string. *)
Theorem spaced_value_length_byte value :
  existsb (λ c, c =? SPACE) (bytes_of_string value) = true →
  ∃ n string, txt_rdata value = n :: string ∧ n + 2 ≤ len string.
Proof.
  intros Hs. eexists _, _. split; [done|]. unfold char_string. rewrite Hs, !len_app.
  change (len [QUOTE]) with 1. pose proof (length_escapes (bytes_of_string value)).
  unfold len in *. lia.
Qed.

(** ** Witnesses *)

Definition wit_peer_name : string := "abcdefghijklmnopqrstuvwxyzABCDEF0123".
Definition wit_service : list u8 := bytes_of_string DEFAULT_SERVICE_NAME.
Definition wit_addrs : list (list toy_protocol) :=
  [[inl (192, 168, 1, 7); inr (inr 5353)]; [inl (10, 0, 0, 1); inr (inr 80)]].

Lemma wit_peer_name_ok : peer_name_ok wit_peer_name.
Proof. apply (bool_decide_unpack (peer_name_ok wit_peer_name)). by vm_compute. Qed.
Lemma wit_service_ok : name_ok wit_service.
Proof. apply (bool_decide_unpack (name_ok wit_service)). by vm_compute. Qed.
Lemma wit_duration_ok : duration_ok (ttl default_config).
Proof. by split; vm_compute. Qed.

Lemma build_query_response_read_witness :
  peer_name_ok wit_peer_name ∧
  let secs := duration_to_secs (ttl default_config) in
  ∃ packets groups,
    build_query_response (H:=list_libp2p) true wit_peer_name 7 1%positive wit_addrs
      (ttl default_config) wit_service = Done packets
    ∧ packets ≠ []
    ∧ (read_message <$> packets) =
        (Some ∘ response_message 7 (labels wit_service) [bytes_of_string wit_peer_name] secs
           <$> groups)
    ∧ concat groups = txt_rr [bytes_of_string wit_peer_name] secs <$>
        filter (λ v, encodable v = true)
          (flip (txt_to_send (H:=list_libp2p)) 1%positive <$> take (Z.to_nat 65535) wit_addrs)
    ∧ Forall (λ g, len g ≤ MAX_RECORDS_PER_PACKET) groups.
Proof.
  split; [apply wit_peer_name_ok|].
  apply (build_query_response_read (H:=list_libp2p) true wit_peer_name 7 1%positive wit_addrs
    (ttl default_config) wit_service);
    [apply wit_peer_name_ok|by split|apply wit_service_ok|apply wit_duration_ok].
Defined.

Lemma build_query_response_panics_iff_witness :
  build_query_response (H:=list_libp2p) false wit_peer_name 7 1%positive wit_addrs
    (ttl default_config) (bytes_of_string "a..local") = Panic
    ↔ name_panics false (bytes_of_string "a..local").
Proof. apply (build_query_response_panics_iff (H:=list_libp2p)), wit_peer_name_ok. Defined.

Lemma build_query_read_witness :
  ∃ packet, build_query true 513 wit_service = Done packet
  ∧ read_message packet =
      Some (mk_message 513 0 [mk_question (labels wit_service) 12 1] [] [] []).
Proof. apply (build_query_read true 513 wit_service); [by split|apply wit_service_ok]. Defined.

Lemma build_service_discovery_response_read_witness :
  ∃ packet, build_service_discovery_response true 9 (ttl default_config) wit_service = Done packet
  ∧ read_message packet =
      Some (mk_message 9 33792 []
        [mk_rr (labels META_QUERY_SERVICE) 12 32769 (duration_to_secs (ttl default_config))
           (enc_name (labels wit_service))] [] []).
Proof.
  apply (build_service_discovery_response_read true 9 (ttl default_config) wit_service);
    [by split|apply wit_service_ok|apply wit_duration_ok|by vm_compute].
Defined.

Lemma duration_to_secs_ceil_witness : duration_to_secs (from_millis 2500) = 3.
Proof. rewrite (duration_to_secs_ceil (from_millis 2500)) by (by split; vm_compute). done. Defined.

Lemma build_query_response_size_witness :
  ∃ packets,
    build_query_response (H:=list_libp2p) true wit_peer_name 7 1%positive wit_addrs
      (ttl default_config) wit_service = Done packets
    ∧ Forall (λ p, len p ≤ 22 + (len wit_service + 2) + 65 + 29 * 331) packets.
Proof.
  eexists. split; [reflexivity|].
  eapply (build_query_response_size (H:=list_libp2p) true wit_peer_name 7 1%positive wit_addrs
    (ttl default_config) wit_service); [apply wit_peer_name_ok|by split|apply wit_service_ok
    |apply wit_duration_ok|by repeat constructor|reflexivity].
Defined.

Lemma decode_append_character_string_witness :
  ∃ out, append_character_string [] "dnsaddr=/a b" = (out, Ok ())
  ∧ decode_character_string out = Ok (bytes_of_string "dnsaddr=/a b").
Proof.
  apply (decode_append_character_string "dnsaddr=/a b"); [by vm_compute|by intros [=]].
Defined.

(** A random peer name of 63 characters and 29 addresses with texts of 254 bytes
    give a packet larger than [MAX_PACKET_SIZE]: [MAX_TXT_RECORD_SIZE] does not
    bound the records. *)
Definition long_peer_name : string :=
  "abcdefghijklmnopqrstuvwxyzabcdefghijklmnopqrstuvwxyzabcdefghijk".
Definition long_addr : list toy_protocol := repeat (inr (inr 1)) 40.

Example max_packet_size_exceeded :
  peer_name_ok long_peer_name ∧
  match build_query_response (H:=list_libp2p) true long_peer_name 7 1%positive
          (repeat long_addr 29) (ttl default_config) wit_service with
  | Done [packet] => MAX_PACKET_SIZE < len packet
  | _ => False
  end.
Proof.
  split; [apply (bool_decide_unpack (peer_name_ok long_peer_name)); by vm_compute|].
  by vm_compute.
Qed.
