(* ===== verification/MdnsQuery.v ===== *)
(** * Received mDNS packets ([src/lib/mdns/src/behaviour/iface/query.rs])

    The classification of a received packet and the extraction of the peers and
    addresses of a response.  DNS parsing is the [hickory_proto] crate, a
    parameter ([Hickory]); [HickoryLaws] relates it to the reader of Dns.v. *)

From S2P Require Import Prelude RustStr Libp2p MdnsConfig Dns.

Local Open Scope Z_scope.

(** ** The parts of [hickory_proto] in use *)

Section message.
Context (Name : Type).

(** [RData]: the variants other than [PTR] and [TXT] are not looked into. *)
Inductive RData := PTR (name : Name) | TXT (strings : list (list u8)) | OtherData.

Record DnsRecord := mk_DnsRecord { dns_name : Name; dns_ttl : u32; dns_data : RData }.

Record Message := mk_Message {
  header_id : u16;
  queries : list Name;
  answers : list DnsRecord;
  additionals : list DnsRecord;
}.
End message.
Arguments PTR {Name} name.
Arguments TXT {Name} strings.
Arguments OtherData {Name}.
Arguments mk_DnsRecord {Name} dns_name dns_ttl dns_data.
Arguments dns_name {Name} d.
Arguments dns_ttl {Name} d.
Arguments dns_data {Name} d.
Arguments mk_Message {Name} header_id queries answers additionals.
Arguments header_id {Name} m.
Arguments queries {Name} m.
Arguments answers {Name} m.
Arguments additionals {Name} m.

Class Hickory := {
  ProtoError : Type;
  Name : Type;
  (** [PartialEq] of names, which ignores the case. *)
  name_eqb : Name → Name → bool;
  (** [Name::to_utf8] and [Display]. *)
  to_utf8 : Name → string;
  name_to_string : Name → string;
  (** [Message::from_vec]. *)
  from_vec : list u8 → result ProtoError (Message Name);
}.

(** The address operations of [libp2p_swarm] and [multiaddr]. *)
Class AddrOps `{Libp2p} := {
  (** [Multiaddr::empty().with(Protocol::from(ip)).with(Protocol::Udp(port))]. *)
  udp_multiaddr : IpAddr → u16 → Multiaddr;
  _address_translation : Multiaddr → Multiaddr → option Multiaddr;
  with_p2p : Multiaddr → PeerId → result Multiaddr Multiaddr;
}.

(** ** The packets *)

Record MdnsQuery := mk_MdnsQuery { query_from : SocketAddr; query_id : u16 }.
Record MdnsServiceDiscovery := mk_MdnsServiceDiscovery {
  disc_from : SocketAddr; disc_query_id : u16 }.

Section query.
Context `{Libp2p} `{!AddrOps} `{Hickory}.

Record MdnsPeer := mk_MdnsPeer { addrs : list Multiaddr; peer_id : PeerId; peer_ttl : u32 }.
Record MdnsResponse := mk_MdnsResponse { peers : list MdnsPeer; response_from : SocketAddr }.

Inductive MdnsPacket :=
| Query (q : MdnsQuery)
| Response (r : MdnsResponse)
| ServiceDiscovery (d : MdnsServiceDiscovery).

(** [MdnsPeer::id], [MdnsPeer::ttl] and [MdnsPeer::addresses]. *)
Definition id (self : MdnsPeer) : PeerId := peer_id self.
Definition peer_ttl_duration (self : MdnsPeer) : Duration := from_secs (peer_ttl self).
Definition addresses (self : MdnsPeer) : list Multiaddr := addrs self.

(** The strings of the TXT records named [record_value]. *)
Definition txt_strings (packet : Message Name) (record_value : Name) : list (list u8) :=
  concat (omap (λ add_record,
    if negb (name_eqb (dns_name add_record) record_value) then None
    else match dns_data add_record with TXT txt => Some txt | _ => None end)
    (additionals packet)).

(** A TXT string as an address and the peer it ends with. *)
Definition decode_dnsaddr (txt : list u8) : option (Multiaddr * PeerId) :=
  addr ← res_ok (decode_character_string txt);
  if negb (bool_decide (take 8 addr = bytes_of_string "dnsaddr=")) then None
  else
    let text := drop 8 addr in
    if negb (utf8_valid text) then None
    else
      addr ← parse_multiaddr (string_of_bytes text);
      let '(addr, popped) := ma_pop addr in
      p ← popped; peer_id ← as_p2p p; Some (addr, peer_id).

(** The last [filter_map] closure of [MdnsPeer::new], which updates
    [my_peer_id]. *)
Definition collect_addr (my_peer_id : option PeerId) (txt : list u8) :
    option PeerId * option Multiaddr :=
  match decode_dnsaddr txt with
  | None => (my_peer_id, None)
  | Some (addr, peer_id) =>
      match my_peer_id with
      | Some pid => if negb (bool_decide (peer_id = pid)) then (my_peer_id, None)
                    else (my_peer_id, Some addr)
      | None => (Some peer_id, Some addr)
      end
  end.

Fixpoint collect_addrs (my_peer_id : option PeerId) (txts : list (list u8)) :
    option PeerId * list Multiaddr :=
  match txts with
  | [] => (my_peer_id, [])
  | txt :: txts' =>
      let '(my_peer_id, addr) := collect_addr my_peer_id txt in
      let '(my_peer_id, rest) := collect_addrs my_peer_id txts' in
      (my_peer_id, match addr with Some a => a :: rest | None => rest end)
  end.

(** [MdnsPeer::new]. *)
Definition new_peer (packet : Message Name) (record_value : Name) (ttl : u32) :
    option MdnsPeer :=
  let '(my_peer_id, addrs) := collect_addrs None (txt_strings packet record_value) in
  peer_id ← my_peer_id; Some (mk_MdnsPeer addrs peer_id ttl).

(** [MdnsResponse::new]. *)
Definition new_response (packet : Message Name) (from : SocketAddr)
    (service_name_fqdn : string) : MdnsResponse :=
  let peers := omap (λ record,
    if negb (bool_decide (name_to_string (dns_name record) = service_name_fqdn)) then None
    else match dns_data record with
         | PTR record_value => new_peer packet record_value (dns_ttl record)
         | _ => None
         end) (answers packet) in
  mk_MdnsResponse peers from.

(** [MdnsPacket::new_from_bytes]. *)
Definition new_from_bytes (buf : list u8) (from : SocketAddr) (service_name_fqdn : string) :
    result ProtoError (option MdnsPacket) :=
  packet ← from_vec buf;
  if bool_decide (queries packet = []) then
    Ok (Some (Response (new_response packet from service_name_fqdn)))
  else if existsb (λ q, bool_decide (to_utf8 q = service_name_fqdn)) (queries packet) then
    Ok (Some (Query (mk_MdnsQuery from (header_id packet))))
  else if existsb (λ q, bool_decide (to_utf8 q = META_QUERY_SERVICE_FQDN)) (queries packet) then
    Ok (Some (ServiceDiscovery (mk_MdnsServiceDiscovery from (header_id packet))))
  else Ok None.

(** [MdnsResponse::observed_address] and [MdnsResponse::extract_discovered]. *)
Definition observed_address (self : MdnsResponse) : Multiaddr :=
  udp_multiaddr (sa_ip (response_from self)) (sa_port (response_from self)).

Definition extract_discovered (self : MdnsResponse) (now : Instant)
    (local_peer_id : PeerId) : list (PeerId * Multiaddr * Instant) :=
  let observed := observed_address self in
  concat ((λ peer,
    let new_expiration := now + peer_ttl_duration peer in
    omap (λ address,
      new_addr ← _address_translation address observed;
      new_addr ← res_ok (with_p2p new_addr (id peer));
      Some (id peer, new_addr, new_expiration)) (addresses peer))
    <$> filter (λ peer, id peer ≠ local_peer_id) (peers self)).
End query.

(** ** How [hickory_proto] relates to the reader of Dns.v *)

(** The character strings of a TXT record's data. *)
Fixpoint read_strings (fuel : nat) (l : list u8) : option (list (list u8)) :=
  match fuel, l with
  | _, [] => Some []
  | O, _ => None
  | S fuel', n :: l' =>
      '(s, l') ← read_bytes n l'; ss ← read_strings fuel' l'; Some (s :: ss)
  end.

Section view.
Context {Name : Type} (name_of_labels : list (list u8) → Name).

Definition view_rr (r : rr) : option (DnsRecord Name) :=
  data ← (if rr_type r =? 12 then
            match read_name (rr_data r) with
            | Some (ls, []) => Some (PTR (name_of_labels ls))
            | _ => None
            end
          else if rr_type r =? 16 then
            TXT <$> read_strings (length (rr_data r)) (rr_data r)
          else Some OtherData);
  Some (mk_DnsRecord (name_of_labels (rr_name r)) (rr_ttl r) data).

(** The message as the accessors of the crate present it. *)
Definition view (m : message) : option (Message Name) :=
  ans ← mapM view_rr (msg_answers m);
  _ ← mapM view_rr (msg_authorities m);
  adds ← mapM view_rr (msg_additionals m);
  Some (mk_Message (msg_id m) ((λ q, name_of_labels (q_name q)) <$> msg_questions m) ans adds).
End view.

(** Names whose text needs no escaping: letters, digits, [_], [-] and dots. *)
Definition plain_char (b : u8) : bool :=
  is_alphanumeric b || (b =? 95) || (b =? 45) || (b =? DOT).
Definition plain_name (s : string) : Prop :=
  Forall (λ b, plain_char b = true) (bytes_of_string s).

(** The messages this program sends: a standard query or an authoritative response, names
    of at most 255 bytes, and records of the types PTR and TXT. *)
Definition short_name (ls : list (list u8)) : Prop := len (enc_name ls) ≤ 255.
Definition simple_rr (r : rr) : Prop :=
  short_name (rr_name r)
  ∧ (rr_type r = 16 ∨ (rr_type r = 12 ∧ ∃ ls, read_name (rr_data r) = Some (ls, []) ∧ short_name ls)).
Definition simple_message (m : message) : Prop :=
  (msg_flags m = 0 ∨ msg_flags m = 33792)
  ∧ Forall (λ q, short_name (q_name q)) (msg_questions m) ∧ Forall simple_rr (msg_answers m)
  ∧ Forall simple_rr (msg_authorities m) ∧ Forall simple_rr (msg_additionals m).

(** The crate's [Name::from_labels], and what its documentation promises: names
    are equal to themselves, a plain name is printed with dots and a final dot,
    and an uncompressed message of that kind is decoded. *)
Class HickoryLaws `{Hickory} (name_of_labels : list (list u8) → Name) : Prop := {
  name_eqb_refl n : name_eqb n n = true;
  to_utf8_plain s :
    plain_name s → to_utf8 (name_of_labels (labels (bytes_of_string s))) = s +:+ ".";
  name_to_string_plain s :
    plain_name s → name_to_string (name_of_labels (labels (bytes_of_string s))) = s +:+ ".";
  from_vec_read buf m M :
    read_message buf = Some m → simple_message m → view name_of_labels m = Some M →
    from_vec buf = Ok M;
}.

(** A concrete instance: a name is its list of labels. *)
Definition dotted (ls : list (list u8)) : string :=
  string_of_bytes (concat ((λ l, l ++ [DOT]) <$> ls)).

#[export] Instance list_hickory : Hickory := {|
  ProtoError := ();
  Name := list (list u8);
  name_eqb n m := bool_decide (n = m);
  to_utf8 := dotted;
  name_to_string := dotted;
  from_vec buf := ok_or (m ← read_message buf; view Datatypes.id m) ();
|}.

Lemma string_of_bytes_app l1 l2 :
  string_of_bytes (l1 ++ l2) = string_of_bytes l1 +:+ string_of_bytes l2.
Proof. induction l1 as [|b l1 IH]; [done|]. simpl. by rewrite IH. Qed.

Lemma dotted_labels s : dotted (labels (bytes_of_string s)) = s +:+ ".".
Proof.
  unfold dotted, labels. rewrite (split_on_concat _ DOT) by (intros x; apply Z.eqb_eq).
  rewrite string_of_bytes_app. by autorewrite with p2p_rw.
Qed.

#[export] Instance list_hickory_laws : HickoryLaws Datatypes.id.
Proof.
  split.
  - intros n. by apply bool_decide_true.
  - intros s _. apply dotted_labels.
  - intros s _. apply dotted_labels.
  - intros buf m M Hm _ HM. unfold from_vec, list_hickory. rewrite Hm.
    exact (f_equal (λ o, ok_or o ()) HM).
Qed.

(** ** Lemmas *)

Section props.
Context `{Libp2p} `{!AddrOps} `{Hickory}.

(** Once a peer is known, only its addresses are kept. *)
Lemma collect_addrs_some p txts :
  collect_addrs (Some p) txts =
    (Some p, fst <$> filter (λ ap, ap.2 = p) (omap decode_dnsaddr txts)).
Proof.
  induction txts as [|txt txts IH]; [done|]. cbn [collect_addrs omap list_omap].
  unfold collect_addr. destruct (decode_dnsaddr txt) as [[a q]|]; [|by rewrite IH].
  destruct (decide (q = p)) as [->|Hne].
  - rewrite bool_decide_true by done. cbn [negb]. rewrite IH.
    by rewrite filter_cons_True.
  - rewrite bool_decide_false by done. cbn [negb]. rewrite IH.
    by rewrite filter_cons_False.
Qed.

Lemma collect_addrs_none txts :
  collect_addrs None txts =
    match omap decode_dnsaddr txts with
    | [] => (None, [])
    | (a, p) :: l => (Some p, a :: (fst <$> filter (λ ap, ap.2 = p) l))
    end.
Proof.
  induction txts as [|txt txts IH]; [done|]. cbn [collect_addrs omap list_omap].
  unfold collect_addr. destruct (decode_dnsaddr txt) as [[a q]|].
  - by rewrite collect_addrs_some.
  - rewrite IH. by destruct (omap decode_dnsaddr txts) as [|[? ?] ?].
Qed.

Definition has_space (s : string) : bool := existsb (λ c, c =? SPACE) (bytes_of_string s).

(** An address the encoder can send and the other side can parse back: the
    round trip of [Display] and [FromStr] of multiaddresses at this address. *)
Definition sendable (p : PeerId) (a : Multiaddr) : Prop :=
  encodable (txt_to_send a p) = true ∧ has_space (txt_to_send a p) = false
  ∧ ∃ a' proto, parse_multiaddr (display_multiaddr a +:+ "/p2p/" +:+ to_base58 p) = Some a'
    ∧ ma_pop a' = (a, Some proto) ∧ as_p2p proto = Some p.

Lemma ascii_utf8_valid bs : is_ascii bs = true → utf8_valid bs = true.
Proof.
  unfold utf8_valid. induction bs as [|b bs IH]; [done|]. unfold is_ascii. cbn [forallb length].
  intros [Hb Hbs]%andb_true_iff. cbn [utf8_valid_fuel]. unfold utf8_step. rewrite Hb.
  by apply IH.
Qed.

Lemma decode_dnsaddr_sent p a :
  sendable p a → decode_dnsaddr (bytes_of_string (txt_to_send a p)) = Some (a, p).
Proof.
  intros (Henc & _ & a' & proto & Hparse & Hpop & Hproto).
  apply encodable_len in Henc as [Hascii _].
  unfold decode_dnsaddr, txt_to_send in *. set (text := display_multiaddr a +:+ _) in *.
  rewrite bytes_of_string_app in *.
  change (decode_character_string (bytes_of_string "dnsaddr=" ++ bytes_of_string text))
    with (@Ok () _ (bytes_of_string "dnsaddr=" ++ bytes_of_string text)).
  cbn [res_ok mbind option_bind].
  change (take 8 (bytes_of_string "dnsaddr=" ++ bytes_of_string text))
    with (bytes_of_string "dnsaddr=").
  change (drop 8 (bytes_of_string "dnsaddr=" ++ bytes_of_string text))
    with (bytes_of_string text).
  rewrite bool_decide_true by done. cbn [negb].
  rewrite ascii_utf8_valid, string_of_bytes_of_string, Hparse.
  - cbn [negb mbind option_bind]. rewrite Hpop. cbn [mbind option_bind]. by rewrite Hproto.
  - unfold is_ascii in *. rewrite forallb_app in Hascii. by apply andb_true_iff in Hascii as [_ ?].
Qed.

Lemma read_strings_txt v :
  has_space v = false →
  read_strings (length (txt_rdata v)) (txt_rdata v) = Some [bytes_of_string v].
Proof.
  unfold has_space, txt_rdata, char_string. intros ->. set (bs := bytes_of_string v).
  cbn [length read_strings]. pose proof (reads_bytes bs []) as Hr. rewrite app_nil_r in Hr.
  rewrite Hr. cbn [mbind option_bind]. by destruct (length bs).
Qed.

Section roundtrip.
Context (name_of_labels : list (list u8) → Name) `{!HickoryLaws name_of_labels}.
Context (peer : list (list u8)) (secs : u32) (p : PeerId).
Context (Hpeer : Forall label_ok peer).

Let txt_record (a : Multiaddr) : DnsRecord Name :=
  mk_DnsRecord (name_of_labels peer) secs (TXT [bytes_of_string (txt_to_send a p)]).

Lemma view_txts g :
  Forall (sendable p) g →
  mapM (view_rr name_of_labels) ((λ a, txt_rr peer secs (txt_to_send a p)) <$> g) =
    Some (txt_record <$> g).
Proof using Type.
  induction 1 as [|a g Ha Hg IH]; [done|]. rewrite fmap_cons. cbn [mapM].
  assert (view_rr name_of_labels (txt_rr peer secs (txt_to_send a p)) = Some (txt_record a))
    as ->.
  { unfold view_rr, txt_rr. cbn [rr_type rr_data rr_name rr_ttl].
    change (16 =? 12) with false. change (16 =? 16) with true. cbn [fmap option_fmap option_map].
    by rewrite read_strings_txt by apply Ha. }
  cbn [mbind option_bind]. rewrite IH. done.
Qed.

Lemma view_response mid service g :
  Forall (sendable p) g →
  view name_of_labels
    (response_message mid service peer secs ((λ a, txt_rr peer secs (txt_to_send a p)) <$> g)) =
  Some (mk_Message mid [] [mk_DnsRecord (name_of_labels service) secs (PTR (name_of_labels peer))]
          (txt_record <$> g)).
Proof using Hpeer.
  intros Hg. unfold view, response_message. cbn [msg_answers msg_authorities msg_additionals].
  assert (mapM (view_rr name_of_labels) [mk_rr service 12 1 secs (enc_name peer)] =
    Some [mk_DnsRecord (name_of_labels service) secs (PTR (name_of_labels peer))]) as ->.
  { cbn [mapM]. unfold view_rr at 1. cbn [rr_type rr_data].
    pose proof (reads_name peer Hpeer []) as Hr. rewrite app_nil_r in Hr. by rewrite Hr. }
  cbn [mbind option_bind]. rewrite view_txts by done. done.
Qed.

Lemma txt_strings_sent mid qs ans g :
  txt_strings (mk_Message mid qs ans (txt_record <$> g)) (name_of_labels peer) =
    (λ a, bytes_of_string (txt_to_send a p)) <$> g.
Proof using HickoryLaws0.
  unfold txt_strings. cbn [additionals]. induction g as [|a g IH]; [done|].
  rewrite fmap_cons. cbn [omap list_omap dns_name dns_data txt_record].
  rewrite name_eqb_refl. cbn [negb concat]. rewrite IH. done.
Qed.

Lemma decode_sent g :
  Forall (sendable p) g →
  omap decode_dnsaddr ((λ a, bytes_of_string (txt_to_send a p)) <$> g) = (λ a, (a, p)) <$> g.
Proof using Type.
  induction 1 as [|a g Ha Hg IH]; [done|]. rewrite !fmap_cons. cbn [omap list_omap].
  rewrite decode_dnsaddr_sent by done. by rewrite IH.
Qed.

(** The peers a response packet with the addresses [g] is read as. *)
Definition peers_of (g : list Multiaddr) : list MdnsPeer :=
  if bool_decide (g = []) then [] else [mk_MdnsPeer g p secs].

Lemma new_peer_sent mid qs ans g :
  Forall (sendable p) g →
  new_peer (mk_Message mid qs ans (txt_record <$> g)) (name_of_labels peer) secs =
    head (peers_of g).
Proof using HickoryLaws0.
  intros Hg. unfold new_peer. rewrite txt_strings_sent, collect_addrs_none, decode_sent by done.
  destruct g as [|a g]; [done|]. rewrite fmap_cons. cbn [mbind option_bind].
  unfold peers_of. rewrite bool_decide_false by done. cbn [head]. do 3 f_equal.
  rewrite filter_all by (by apply Forall_fmap, Forall_true). rewrite <- list_fmap_compose.
  apply list_fmap_id.
Qed.
End roundtrip.
End props.

(** ** Theorems *)

Lemma app_dot_inj s1 s2 : s1 +:+ "." = s2 +:+ "." → s1 = s2.
Proof.
  intros Heq. apply (f_equal bytes_of_string) in Heq. rewrite !bytes_of_string_app in Heq.
  apply app_inj_tail in Heq as [Heq _]. apply (f_equal string_of_bytes) in Heq.
  by rewrite !string_of_bytes_of_string in Heq.
Qed.

Section theorems.
Context `{Libp2p} `{!AddrOps} `{Hickory}.
Context (name_of_labels : list (list u8) → Name) `{!HickoryLaws name_of_labels}.

Lemma simple_response mid peer secs service q g :
  Forall label_ok peer → short_name peer → short_name service →
  simple_message (response_message mid service peer secs ((λ a, txt_rr peer secs (txt_to_send a q)) <$> g)).
Proof using Type.
  intros Hok Hpeer Hservice. split; [by right|]. split; [constructor|]. split; [|split; [constructor|]].
  - apply Forall_singleton. split; [done|]. right. split; [done|]. exists peer. split; [|done].
    pose proof (reads_name peer Hok []) as Hr. by rewrite app_nil_r in Hr.
  - apply Forall_fmap, Forall_true. intros a. split; [done|by left].
Qed.

(** The packets of an answer, read by the other side. *)
Lemma response_packets_understood dbg peer_name mid p listen d service from :
  peer_name_ok peer_name → fits 16 mid → plain_name service →
  name_ok (bytes_of_string service) → len (bytes_of_string service) ≤ 253 → duration_ok d → Forall (sendable p) listen →
  ∃ packets groups,
    build_query_response dbg peer_name mid p listen d (bytes_of_string service) = Done packets
    ∧ concat groups = take (Z.to_nat 65535) listen
    ∧ Forall (λ g, len g ≤ MAX_RECORDS_PER_PACKET) groups
    ∧ ((λ packet, new_from_bytes packet from (service +:+ ".")) <$> packets) =
      (λ g, Ok (Some (Response (mk_MdnsResponse (peers_of (duration_to_secs d) p g) from))))
        <$> groups.
Proof.
  intros Hpn Hmid Hplain Hservice Hshort Hd Hsend.
  destruct (build_query_response_groups dbg peer_name mid p listen d (bytes_of_string service))
    as (gs & Hbuild & _ & Hconcat & Hgs); [done..|].
  destruct (generate_peer_name_ok dbg peer_name Hpn) as (_ & Hlab & Hlen).
  set (peer := [bytes_of_string peer_name]) in *. set (secs := duration_to_secs d) in *.
  assert (Forall (sendable p) (take (Z.to_nat 65535) listen)) as Htake by by apply Forall_take.
  rewrite filter_all in Hconcat
    by (apply Forall_fmap; eapply Forall_impl; [exact Htake|]; by intros a [? _]).
  rewrite <- list_fmap_compose in Hconcat.
  apply concat_fmap_inv in Hconcat as (hs & Hhs & ->).
  rewrite <- Hhs in Htake. apply Forall_concat in Htake.
  eexists _, hs. split; [exact Hbuild|]. split; [done|]. split.
  { rewrite Forall_fmap in Hgs. eapply Forall_impl; [exact Hgs|]. intros g. simpl.
    unfold len. by rewrite length_fmap. }
  rewrite <- !list_fmap_compose. apply list_fmap_ext. intros i g Hi. simpl.
  assert (Forall (sendable p) g) as Hg by by eapply Forall_lookup_1 in Htake.
  unfold new_from_bytes. erewrite from_vec_read; cycle 1.
  { apply read_enc_message, response_message_ok; [apply Hservice|done|].
    apply Forall_fmap. eapply Forall_impl; [exact Hg|]. intros a [Ha _]. by apply txt_rr_ok. }
  { apply simple_response; [done|unfold short_name; lia|]. unfold short_name. rewrite length_enc_labels. lia. }
  { by apply view_response. }
  cbn [mbind result_bind queries]. rewrite bool_decide_true by done.
  unfold new_response. cbn [answers omap list_omap dns_name dns_data dns_ttl].
  rewrite (name_to_string_plain _ Hplain), bool_decide_true by done. cbn [negb].
  rewrite (new_peer_sent name_of_labels peer secs p) by done.
  unfold peers_of. by destruct (decide (g = [])) as [->|Hne];
    [|rewrite bool_decide_false by done].
Qed.

(** C26: What a peer answers to a query is understood by the peer that asked: every
    packet of [build_query_response] is classified as a response with exactly the
    answering peer, the TTL in seconds and the addresses of that packet, and the
    packets together carry the first 65535 listen addresses, in order, at most
    [MAX_RECORDS_PER_PACKET] in one packet.  The service name has at most 253
    characters, as every domain name; the default one and those of a fingerprint do. *)
Theorem query_response_understood dbg peer_name mid p listen d service from :
  peer_name_ok peer_name → fits 16 mid → plain_name service →
  name_ok (bytes_of_string service) → len (bytes_of_string service) ≤ 253 → duration_ok d → Forall (sendable p) listen →
  ∃ packets groups,
    build_query_response dbg peer_name mid p listen d (bytes_of_string service) = Done packets
    ∧ concat groups = take (Z.to_nat 65535) listen
    ∧ Forall (λ g, len g ≤ MAX_RECORDS_PER_PACKET) groups
    ∧ ((λ packet, new_from_bytes packet from (service +:+ ".")) <$> packets) =
      (λ g, Ok (Some (Response (mk_MdnsResponse (peers_of (duration_to_secs d) p g) from))))
        <$> groups.
Proof. apply response_packets_understood. Qed.

(** A query built for the service [s1] is a query at the peers of that service,
    a service discovery when [s1] is the meta service, and ignored at the peers of
    any other service. *)
Theorem query_classified dbg random s1 s2 from :
  fits 16 random → plain_name s1 → name_ok (bytes_of_string s1) → len (bytes_of_string s1) ≤ 253 →
  ∃ packet, build_query dbg random (bytes_of_string s1) = Done packet ∧
  new_from_bytes packet from (s2 +:+ ".") =
    Ok (if decide (s1 = s2) then Some (Query (mk_MdnsQuery from random))
        else if decide (s1 +:+ "." = META_QUERY_SERVICE_FQDN)
             then Some (ServiceDiscovery (mk_MdnsServiceDiscovery from random))
        else None).
Proof.
  intros Hr Hplain Hname Hshort.
  destruct (build_query_read dbg random (bytes_of_string s1)) as (packet & Hb & Hread); [done..|].
  exists packet. split; [done|]. unfold new_from_bytes.
  rewrite (from_vec_read packet _
    (mk_Message random [name_of_labels (labels (bytes_of_string s1))] [] []) Hread); [| |reflexivity].
  2:{ split; [by left|]. split; [|by repeat constructor]. apply Forall_singleton.
      unfold short_name. cbn [q_name]. rewrite length_enc_labels. lia. }
  cbn [mbind result_bind queries]. rewrite bool_decide_false by done.
  cbn [existsb header_id].
  rewrite (to_utf8_plain _ Hplain), !orb_false_r.
  destruct (decide (s1 = s2)) as [->|Hne]; [by rewrite bool_decide_true|].
  rewrite bool_decide_false by (by intros ?%app_dot_inj).
  destruct (decide _) as [Hm|Hm]; [by rewrite bool_decide_true|by rewrite bool_decide_false].
Qed.

(** [MdnsPeer::new] takes the peer of the first TXT string that is a
    [dnsaddr] address ending with a peer id, keeps the addresses of that peer
    only, in order and without the peer id, and fails when there is none. *)
Theorem new_peer_spec packet name ttl :
  new_peer packet name ttl =
    match omap decode_dnsaddr (txt_strings packet name) with
    | [] => None
    | ((_, p) :: _) as l => Some (mk_MdnsPeer (fst <$> filter (λ ap, ap.2 = p) l) p ttl)
    end.
Proof using Type.
  unfold new_peer. rewrite collect_addrs_none. destruct (omap _ _) as [|[a p] l]; [done|].
  by rewrite filter_cons_True.
Qed.

(** A response yields, for each peer other than the local one, each address that
    translates to the observed sender, completed with the peer id, expiring when
    the record's TTL has passed; and nothing else. *)
Theorem extract_discovered_spec r now local q a t :
  (q, a, t) ∈ extract_discovered r now local ↔
  ∃ peer addr addr',
    peer ∈ peers r ∧ peer_id peer = q ∧ q ≠ local ∧ addr ∈ addrs peer
    ∧ _address_translation addr (observed_address r) = Some addr'
    ∧ with_p2p addr' q = Ok a
    ∧ t = now + peer_ttl peer * NANOS_PER_SEC.
Proof using Type.
  unfold extract_discovered, id, addresses, peer_ttl_duration, from_secs.
  rewrite list_elem_of_In, in_concat. split.
  - intros (l & Hl & Ha). apply list_elem_of_In in Hl, Ha.
    apply list_elem_of_fmap in Hl as (peer & -> & [Hne Hin]%list_elem_of_filter).
    apply list_elem_of_omap in Ha as (addr & Hin' & Ha).
    apply bind_Some in Ha as (addr' & Ht & (a' & Hw & ?)%bind_Some). simplify_eq.
    exists peer, addr, addr'. destruct (with_p2p addr' (peer_id peer)) eqn:?; naive_solver.
  - intros (peer & addr & addr' & Hin & <- & Hne & Haddr & Ht & Hw & ->).
    eexists. rewrite <- !list_elem_of_In. split.
    + apply list_elem_of_fmap. exists peer. split; [done|]. by apply list_elem_of_filter.
    + apply list_elem_of_omap. exists addr. split; [done|]. rewrite Ht. cbn [mbind option_bind].
      by rewrite Hw.
Qed.
End theorems.

(** ** Witnesses *)

(** The address operations of the concrete instance of [Libp2p]. *)
#[export] Instance list_addr_ops : @AddrOps list_libp2p := {|
  udp_multiaddr ip port :=
    match ip with
    | V4 a => [inl (oct0 a, oct1 a, oct2 a, oct3 a); inr (inr port)]
    | V6 a => [inr (inr (seg7 a)); inr (inr port)]
    end : @Multiaddr list_libp2p;
  _address_translation (original observed : list toy_protocol) :=
    match original, observed with
    | inl _ :: rest, inl ip :: _ => Some (inl ip :: rest)
    | _, _ => None
    end;
  with_p2p (a : list toy_protocol) p := Ok (a ++ [inr (inl p)]);
|}.

Definition wit_from : SocketAddr := socket_addr (V4 (ipv4 192 168 1 7)) 5353.

Lemma wit_plain : plain_name DEFAULT_SERVICE_NAME.
Proof. by repeat constructor. Qed.

Lemma wit_sendable : Forall (sendable (H:=list_libp2p) 1%positive) wit_addrs.
Proof.
  repeat constructor.
  - exists [inl (192, 168, 1, 7); inr (inr 5353); inr (inl 1%positive)], (inr (inl 1%positive)).
    by split.
  - exists [inl (10, 0, 0, 1); inr (inr 80); inr (inl 1%positive)], (inr (inl 1%positive)).
    by split.
Qed.

Lemma query_response_understood_witness :
  ∃ packets groups,
    build_query_response (H:=list_libp2p) true wit_peer_name 7 1%positive wit_addrs
      (ttl default_config) (bytes_of_string DEFAULT_SERVICE_NAME) = Done packets
    ∧ concat groups = take (Z.to_nat 65535) wit_addrs
    ∧ Forall (λ g, len g ≤ MAX_RECORDS_PER_PACKET) groups
    ∧ ((λ packet, new_from_bytes (H:=list_libp2p) (H1:=list_hickory) packet wit_from (DEFAULT_SERVICE_NAME +:+ ".")) <$> packets) =
      (λ g, Ok (Some (Response
        (mk_MdnsResponse (peers_of (duration_to_secs (ttl default_config)) 1%positive g) wit_from))))
        <$> groups.
Proof.
  apply (query_response_understood (H:=list_libp2p) (H1:=list_hickory) Datatypes.id true wit_peer_name 7 1%positive
    wit_addrs (ttl default_config) DEFAULT_SERVICE_NAME wit_from);
    [apply wit_peer_name_ok|by split|apply wit_plain|apply wit_service_ok|by vm_compute
    |apply wit_duration_ok|apply wit_sendable].
Defined.

Lemma query_classified_witness :
  ∃ packet, build_query true 513 (bytes_of_string DEFAULT_SERVICE_NAME) = Done packet ∧
  new_from_bytes (H:=list_libp2p) (H1:=list_hickory) packet wit_from (DEFAULT_SERVICE_NAME +:+ ".") =
    Ok (Some (Query (mk_MdnsQuery wit_from 513))).
Proof.
  apply (query_classified (H:=list_libp2p) (H1:=list_hickory) Datatypes.id true 513 DEFAULT_SERVICE_NAME
    DEFAULT_SERVICE_NAME wit_from); [by split|apply wit_plain|apply wit_service_ok|by vm_compute].
Defined.
