(* ===== verification/MdnsIface.v ===== *)
(** * The mDNS instance of an interface ([src/lib/mdns/src/behaviour/iface.rs])

    [InterfaceState::new] and the poll loop.  What the sockets, the timer, the
    channel, the clock and the random generator answer during one round of the
    loop is a [Round]; [poll] runs the rounds of a script until the code returns. *)

From S2P Require Import Prelude RustStr Libp2p MdnsConfig Dns MdnsQuery.

Local Open Scope Z_scope.

Definition INITIAL_TIMEOUT_INTERVAL : Duration := from_millis 500.
(** [Duration] arithmetic panics beyond this value. *)
Definition DURATION_MAX : Duration := U64_MAX * NANOS_PER_SEC + (NANOS_PER_SEC - 1).
Definition RECV_BUFFER_LEN : usize := 4096.
Definition MDNS_PORT : u16 := 5353.

Inductive ProbeState := Probing (interval : Duration) | Finished (interval : Duration).

#[export] Instance ProbeState_eq_dec : EqDecision ProbeState.
Proof. solve_decision. Defined.

Definition default_ProbeState : ProbeState := Probing INITIAL_TIMEOUT_INTERVAL.

(** [ProbeState::interval]. *)
Definition interval (self : ProbeState) : Duration :=
  match self with Probing query_interval => query_interval | Finished query_interval => query_interval end.

(** The timer last set, [Builder::interval] at the instant [set_at] or
    [Builder::interval_at]; MdnsRuntime.v makes the runtime's timer of it. *)
Inductive Timer :=
| IntervalTimer (set_at : Instant) (d : Duration)
| IntervalAtTimer (start : Instant) (d : Duration).

(** ** Sockets

    The calls [new] makes, in order; the system answers each with success or an
    error. *)
Inductive SocketCall :=
| NewSocket (v6 : bool)
| SetReuseAddress
| SetReusePort
| Bind (addr : SocketAddr)
| SetMulticastLoop (v6 : bool)
| SetMulticastTtlV4 (ttl : u32)
| JoinMulticastV4 (group iface : Ipv4Addr)
| JoinMulticastV6 (group : Ipv6Addr) (index : u32)
| FromStd
| BindSend (addr : SocketAddr).

(** The receiving socket. [unix] says whether [set_reuse_port] is compiled in. *)
Definition recv_socket_calls (unix : bool) (addr : IpAddr) : list SocketCall :=
  match addr with
  | V4 addr =>
      [NewSocket false; SetReuseAddress] ++ (if unix then [SetReusePort] else []) ++
      [Bind (socket_addr UNSPECIFIED_V4 5353); SetMulticastLoop false; SetMulticastTtlV4 255;
       JoinMulticastV4 IPV4_MDNS_MULTICAST_ADDRESS addr; FromStd]
  | V6 _ =>
      [NewSocket true; SetReuseAddress] ++ (if unix then [SetReusePort] else []) ++
      [Bind (socket_addr UNSPECIFIED_V6 5353); SetMulticastLoop true;
       JoinMulticastV6 IPV6_MDNS_MULTICAST_ADDRESS 0; FromStd]
  end.
Definition bind_addr (addr : IpAddr) : SocketAddr :=
  match addr with
  | V4 _ => socket_addr addr 0
  | V6 _ => socket_addr UNSPECIFIED_V6 0
  end.
Definition multicast_addr_of (addr : IpAddr) : IpAddr :=
  match addr with
  | V4 _ => V4 IPV4_MDNS_MULTICAST_ADDRESS
  | V6 _ => V6 IPV6_MDNS_MULTICAST_ADDRESS
  end.

(** The calls up to the first error. *)
Fixpoint run_calls {E} (sys : SocketCall → result E ()) (calls : list SocketCall) :
    result E () :=
  match calls with
  | [] => Ok ()
  | call :: calls' => _ ← sys call; run_calls sys calls'
  end.

(** ** The state *)

Section iface.
Context `{Libp2p} `{!AddrOps} `{Hickory}.
(** Whether [debug_assert!] is compiled in, and [Uuid::new_v5] in the DNS name
    space, printed by [simple()]. *)
Context (debug_assertions : bool) (uuid_v5_simple : list u8 → string).

Record InterfaceState := mk_InterfaceState {
  addr : IpAddr;
  send_buffer : list (list u8);
  query_interval : Duration;
  timeout : Timer;
  multicast_addr : IpAddr;
  discovered : list (PeerId * Multiaddr * Instant);
  ttl : Duration;
  probe_state : ProbeState;
  local_peer_id : PeerId;
  service_name : list u8;
  service_name_fqdn : string;
}.

Definition set_send_buffer (st : InterfaceState) b := mk_InterfaceState (addr st) b
  (query_interval st) (timeout st) (multicast_addr st) (discovered st) (ttl st)
  (probe_state st) (local_peer_id st) (service_name st) (service_name_fqdn st).
Definition set_discovered (st : InterfaceState) d := mk_InterfaceState (addr st)
  (send_buffer st) (query_interval st) (timeout st) (multicast_addr st) d (ttl st)
  (probe_state st) (local_peer_id st) (service_name st) (service_name_fqdn st).
Definition set_probe_state (st : InterfaceState) p := mk_InterfaceState (addr st)
  (send_buffer st) (query_interval st) (timeout st) (multicast_addr st) (discovered st)
  (ttl st) p (local_peer_id st) (service_name st) (service_name_fqdn st).
Definition set_timeout (st : InterfaceState) t := mk_InterfaceState (addr st)
  (send_buffer st) (query_interval st) t (multicast_addr st) (discovered st)
  (ttl st) (probe_state st) (local_peer_id st) (service_name st) (service_name_fqdn st).

Definition service_name_of (service_fingerprint : option (list u8)) : string :=
  match service_fingerprint with
  | Some seed => "_p2pclip-" +:+ uuid_v5_simple seed +:+ "._udp.local"
  | None => DEFAULT_SERVICE_NAME
  end.

(** [InterfaceState::new]; [jitter] is the random number below 100, [now] the
    value of [Instant::now()]. *)
Definition new {E} (sys : SocketCall → result E ()) (unix : bool) (jitter : Z)
    (now : Instant) (addr : IpAddr) (config : Config) (local_peer_id : PeerId) :
    outcome (result E InterfaceState) :=
  match run_calls sys (recv_socket_calls unix addr) with
  | Err e => Done (Err e)
  | Ok _ =>
      match run_calls sys [BindSend (bind_addr addr); FromStd] with
      | Err e => Done (Err e)
      | Ok _ =>
          let query_interval := MdnsConfig.query_interval config + from_millis jitter in
          if DURATION_MAX <? query_interval then Panic
          else
            let service_name := service_name_of (service_fingerprint config) in
            Done (Ok {|
              addr := addr;
              send_buffer := [];
              query_interval := query_interval;
              timeout := IntervalAtTimer now INITIAL_TIMEOUT_INTERVAL;
              multicast_addr := multicast_addr_of addr;
              discovered := [];
              ttl := MdnsConfig.ttl config;
              probe_state := default_ProbeState;
              local_peer_id := local_peer_id;
              service_name := bytes_of_string service_name;
              service_name_fqdn := service_name +:+ ".";
            |})
      end
  end.

Definition reset_timer (now : Instant) (self : InterfaceState) : InterfaceState :=
  set_timeout self (IntervalTimer now (interval (probe_state self))).

Definition mdns_socket (self : InterfaceState) : SocketAddr :=
  socket_addr (multicast_addr self) 5353.

(** ** One round of the loop *)

Inductive WriteResult := WriteOk | WriteErr | WritePending.
Inductive TrySend := SendOk | SendFull | SendDisconnected.
(** [ReadOk datagram from]: the socket stores at most the receive buffer's length
    of the datagram. *)
Inductive ReadResult :=
| ReadOk (datagram : list u8) (from : SocketAddr)
| ReadWouldBlock | ReadErr | ReadPending.

Record Round := mk_Round {
  timer_ready : bool;
  write : WriteResult;
  sender_ready : bool;
  try_send : TrySend;
  read : ReadResult;
  random : u16;
  peer_name : string;
  now : Instant;
  (** The listen addresses, shared with the behaviour. *)
  listen_addresses : list Multiaddr;
}.

(** What the instance emits. *)
Inductive Output :=
| Sent (packet : list u8) (to : SocketAddr)
| SendFailed (packet : list u8)
| Reported (d : PeerId * Multiaddr * Instant).

Inductive Poll := Ready | Pending.
Inductive Control := Continue | Return (p : Poll).

(** 1st priority: the timer. *)
Definition on_timeout (this : InterfaceState) (r : Round) : outcome InterfaceState :=
  if timer_ready r then
    packet ← build_query debug_assertions (random r) (service_name this);
    let this := set_send_buffer this (send_buffer this ++ [packet]) in
    this ← (match probe_state this with
            | Probing interval =>
                let interval := interval * 2 in
                if DURATION_MAX <? interval then Panic
                else Done (set_probe_state this
                  (if query_interval this <=? interval then Finished (query_interval this)
                   else Probing interval))
            | Finished _ => Done this
            end);
    Done (reset_timer (now r) this)
  else Done this.

(** 2nd priority: the send buffer; [true] is [continue]. *)
Definition send_packets (this : InterfaceState) (r : Round) :
    InterfaceState * list Output * bool :=
  match send_buffer this with
  | [] => (this, [], false)
  | packet :: send_buffer' =>
      let this := set_send_buffer this send_buffer' in
      match write r with
      | WriteOk => (this, [Sent packet (mdns_socket this)], true)
      | WriteErr => (this, [SendFailed packet], true)
      | WritePending => (set_send_buffer this (packet :: send_buffer'), [], false)
      end
  end.

(** 3rd priority: the discovered addresses. *)
Definition report_discovered (this : InterfaceState) (r : Round) :
    InterfaceState * list Output * option Control :=
  if sender_ready r then
    match discovered this with
    | [] => (this, [], None)
    | d :: discovered' =>
        let this := set_discovered this discovered' in
        match try_send r with
        | SendOk => (this, [Reported d], Some Continue)
        | SendDisconnected => (this, [], Some (Return Ready))
        | SendFull => (set_discovered this (d :: discovered'), [], Some Continue)
        end
    end
  else (this, [], None).

(** 4th priority: a received packet. *)
Definition receive (this : InterfaceState) (r : Round) : outcome (InterfaceState * Control) :=
  match read r with
  | ReadOk datagram from =>
      match new_from_bytes (take (Z.to_nat RECV_BUFFER_LEN) datagram) from
              (service_name_fqdn this) with
      | Ok (Some (Query query)) =>
          packets ← build_query_response debug_assertions (peer_name r) (query_id query)
                      (local_peer_id this) (listen_addresses r) (ttl this) (service_name this);
          Done (set_send_buffer this (send_buffer this ++ packets), Continue)
      | Ok (Some (Response response)) =>
          let this := set_discovered this
            (discovered this ++ extract_discovered response (now r) (local_peer_id this)) in
          let this :=
            if negb (bool_decide (discovered this = []))
            then reset_timer (now r) (set_probe_state this (Finished (query_interval this)))
            else this in
          Done (this, Continue)
      | Ok (Some (ServiceDiscovery disc)) =>
          packet ← build_service_discovery_response debug_assertions (disc_query_id disc)
                     (ttl this) (service_name this);
          Done (set_send_buffer this (send_buffer this ++ [packet]), Continue)
      | Err _ => Done (this, Continue)
      | Ok None => Done (this, Continue)
      end
  | ReadWouldBlock => Done (this, Continue)
  | ReadErr => Done (this, Return Ready)
  | ReadPending => Done (this, Return Pending)
  end.

Definition round (this : InterfaceState) (r : Round) :
    outcome (InterfaceState * list Output * Control) :=
  this ← on_timeout this r;
  let '(this, sent, continued) := send_packets this r in
  if continued then Done (this, sent, Continue)
  else
    match report_discovered this r with
    | (this, reported, Some control) => Done (this, sent ++ reported, control)
    | (this, reported, None) =>
        '(this, control) ← receive this r; Done (this, sent ++ reported, control)
    end.

(** [Future::poll]: [None] when the script ends before the code returns. *)
Fixpoint poll (this : InterfaceState) (rounds : list Round) :
    outcome (InterfaceState * list Output * option Poll) :=
  match rounds with
  | [] => Done (this, [], None)
  | r :: rounds' =>
      '(this, out, control) ← round this r;
      match control with
      | Return p => Done (this, out, Some p)
      | Continue =>
          '(this, out', p) ← poll this rounds'; Done (this, out ++ out', p)
      end
  end.

(** ** Invariant of the loop *)

(** The instance's configuration, which no round changes. *)
Definition same_config (st st' : InterfaceState) : Prop :=
  addr st' = addr st ∧ query_interval st' = query_interval st
  ∧ multicast_addr st' = multicast_addr st ∧ ttl st' = ttl st
  ∧ local_peer_id st' = local_peer_id st ∧ service_name st' = service_name st
  ∧ service_name_fqdn st' = service_name_fqdn st.

(** The probing interval is 500 ms doubled a number of times and, once doubled, is
    below the query interval; the timer has the interval of the probe state, and
    is the one set by [new] only before the first tick. *)
Definition probe_ok (st : InterfaceState) : Prop :=
  match probe_state st with
  | Probing i => ∃ k, 0 ≤ k ∧ i = INITIAL_TIMEOUT_INTERVAL * 2 ^ k
                      ∧ (k = 0 ∨ i < query_interval st)
  | Finished i => i = query_interval st
  end.
Definition timer_ok (st : InterfaceState) : Prop :=
  match timeout st with
  | IntervalTimer _ d => d = interval (probe_state st)
  | IntervalAtTimer _ d => d = INITIAL_TIMEOUT_INTERVAL ∧ probe_state st = default_ProbeState
  end.
Definition iface_ok (st : InterfaceState) : Prop := probe_ok st ∧ timer_ok st.

#[local] Instance same_config_preorder : PreOrder same_config.
Proof.
  split; [by repeat split|]. intros st1 st2 st3. unfold same_config. intuition congruence.
Qed.

Lemma on_timeout_ok st r st' :
  on_timeout st r = Done st' → same_config st st' ∧ (iface_ok st → iface_ok st')
  ∧ discovered st' = discovered st
  ∧ ∃ q, send_buffer st' = send_buffer st ++ q ∧ (timer_ready r = false → q = []).
Proof.
  unfold on_timeout. destruct (timer_ready r).
  2:{ intros [= <-]. repeat (split; [done|]). exists []. by rewrite app_nil_r. }
  intros (packet & _ & (st1 & Hst1 & [= <-])%bind_Done)%bind_Done.
  unfold reset_timer, set_send_buffer in *. simpl in *.
  destruct (probe_state st) as [i|i] eqn:Hp; simpl in *.
  - destruct (DURATION_MAX <? i * 2); [done|]. injection Hst1 as <-. simpl.
    repeat (split; [done|]). split; [|split; [done|by eexists]].
    intros [Hprobe _]. unfold probe_ok in Hprobe. rewrite Hp in Hprobe.
    destruct Hprobe as (k & Hk & -> & _). split; [|by unfold timer_ok]. unfold probe_ok. simpl.
    destruct (Z.leb_spec (query_interval st) (INITIAL_TIMEOUT_INTERVAL * 2 ^ k * 2)); [done|].
    exists (k + 1). rewrite Z.pow_add_r by lia. split; [lia|]. split; [lia|]. right. lia.
  - injection Hst1 as <-. simpl. repeat (split; [done|]). split; [|split; [done|by eexists]].
    intros [Hprobe _]. unfold probe_ok in Hprobe. rewrite Hp in Hprobe.
    split; [done|by unfold timer_ok].
Qed.

(** The packets handed to the socket and the addresses reported, in order. *)
Definition written (out : list Output) : list (list u8) :=
  omap (λ o, match o with Sent p _ => Some p | SendFailed p => Some p | Reported _ => None end) out.
Definition reported (out : list Output) : list (PeerId * Multiaddr * Instant) :=
  omap (λ o, match o with Reported d => Some d | _ => None end) out.

Lemma written_app o1 o2 : written (o1 ++ o2) = written o1 ++ written o2.
Proof. apply omap_app. Qed.
Lemma reported_app o1 o2 : reported (o1 ++ o2) = reported o1 ++ reported o2.
Proof. apply omap_app. Qed.

Lemma send_packets_ok st r st' out c :
  send_packets st r = (st', out, c) →
  same_config st st' ∧ (iface_ok st → iface_ok st') ∧ discovered st' = discovered st
  ∧ send_buffer st = written out ++ send_buffer st' ∧ reported out = []
  ∧ Forall (λ o, match o with Sent _ to => to = mdns_socket st | _ => True end) out.
Proof.
  unfold send_packets. destruct (send_buffer st) as [|p b] eqn:Hb.
  { intros [= <- <- <-]. by rewrite Hb. }
  destruct (write r); intros [= <- <- <-]; simpl;
    repeat (split; [done|]); (done || by repeat constructor).
Qed.

Lemma report_discovered_ok st r st' out c :
  report_discovered st r = (st', out, c) →
  same_config st st' ∧ (iface_ok st → iface_ok st') ∧ send_buffer st' = send_buffer st
  ∧ written out = [] ∧ Forall (λ o, match o with Sent _ to => to = mdns_socket st | _ => True end) out
  ∧ (c ≠ Some (Return Ready) → discovered st = reported out ++ discovered st').
Proof.
  unfold report_discovered. destruct (sender_ready r); [|by intros [= <- <- <-]].
  destruct (discovered st) as [|d ds] eqn:Hd; [intros [= <- <- <-]; by rewrite Hd|].
  destruct (try_send r); intros [= <- <- <-]; simpl;
    repeat (split; [done|]); (done || by repeat constructor).
Qed.

Lemma receive_ok st r st' c :
  receive st r = Done (st', c) →
  same_config st st' ∧ (iface_ok st → iface_ok st')
  ∧ (∃ q, send_buffer st' = send_buffer st ++ q)
  ∧ (∃ d, discovered st' = discovered st ++ d).
Proof.
  assert (same_config st st ∧ (iface_ok st → iface_ok st)
    ∧ (∃ q, send_buffer st = send_buffer st ++ q)
    ∧ (∃ d, discovered st = discovered st ++ d)) as Hsame.
  { repeat (split; [done|]). split; exists []; by rewrite app_nil_r. }
  unfold receive. destruct (read r) as [datagram from| | |]; try (by intros [= <- <-]).
  destruct (new_from_bytes _ _ _) as [[[q|resp|disc]|]|e]; try (by intros [= <- <-]).
  - intros (packets & _ & [= <- <-])%bind_Done. destruct Hsame as (_ & _ & _ & Hd).
    repeat (split; [done|]). split; [by eexists|done].
  - intros [= <- <-]. destruct Hsame as (_ & _ & Hb & _).
    destruct (bool_decide _); simpl;
      (split; [done|]); (split; [by intros [? ?]|]); (split; [exact Hb|by eexists]).
  - intros (packet & _ & [= <- <-])%bind_Done. destruct Hsame as (_ & _ & _ & Hd).
    repeat (split; [done|]). split; [by eexists|done].
Qed.

(** Every packet handed to the socket goes to the multicast address. *)
Definition to_multicast (st : InterfaceState) (out : list Output) : Prop :=
  Forall (λ o, match o with Sent _ to => to = mdns_socket st | _ => True end) out.

(** What a run from [st] to [st'] with output [out] keeps; [alive] says that the
    channel was not found closed. *)
Definition run_ok (st st' : InterfaceState) (out : list Output) (alive : Prop) : Prop :=
  same_config st st' ∧ (iface_ok st → iface_ok st') ∧ to_multicast st out
  ∧ (∃ q, written out ++ send_buffer st' = send_buffer st ++ q)
  ∧ (alive → ∃ d, reported out ++ discovered st' = discovered st ++ d).

Lemma run_ok_nil st (alive : Prop) : run_ok st st [] alive.
Proof.
  repeat (split; [done|]). split; [constructor|].
  split; [|intros _]; exists []; by rewrite app_nil_r.
Qed.

Lemma to_multicast_config st st' out :
  same_config st st' → to_multicast st' out → to_multicast st out.
Proof.
  intros (_ & _ & Hm & _) Hout. eapply Forall_impl; [exact Hout|]. intros [] Ho; [|done..].
  by rewrite Ho; unfold mdns_socket; rewrite Hm.
Qed.

Lemma run_ok_trans st1 st2 st3 out1 out2 (a1 a2 : Prop) :
  run_ok st1 st2 out1 a1 → run_ok st2 st3 out2 a2 → run_ok st1 st3 (out1 ++ out2) (a1 ∧ a2).
Proof.
  intros (Hc1 & Hi1 & Hm1 & [q1 Hq1] & Hd1) (Hc2 & Hi2 & Hm2 & [q2 Hq2] & Hd2).
  split; [by etrans|]. split; [by auto|]. split.
  { apply Forall_app. split; [done|]. by eapply to_multicast_config. }
  split.
  - exists (q1 ++ q2). by rewrite written_app, <- app_assoc, Hq2, app_assoc, Hq1, <- app_assoc.
  - intros [Ha1 Ha2]. destruct (Hd1 Ha1) as [d1 Hd1'], (Hd2 Ha2) as [d2 Hd2'].
    exists (d1 ++ d2).
    by rewrite reported_app, <- app_assoc, Hd2', app_assoc, Hd1', <- app_assoc.
Qed.

Lemma run_ok_alive st st' out (a a' : Prop) : (a' → a) → run_ok st st' out a → run_ok st st' out a'.
Proof. unfold run_ok. naive_solver. Qed.

Lemma round_ok st r st' out c :
  round st r = Done (st', out, c) → run_ok st st' out (c ≠ Return Ready).
Proof.
  unfold round. intros (st1 & Hst1 & Hrest)%bind_Done.
  apply on_timeout_ok in Hst1 as (Hc1 & Hi1 & Hd1 & q1 & Hq1 & _).
  destruct (send_packets st1 r) as [[st2 out2] c2] eqn:Hst2.
  apply send_packets_ok in Hst2 as (Hc2 & Hi2 & Hd2 & Hb2 & Hr2 & Hm2).
  assert (run_ok st st2 out2 True) as H2.
  { split; [by etrans|]. split; [by auto|]. split; [by eapply to_multicast_config|].
    split; [exists q1; by rewrite <- Hb2|].
    intros _. exists []. by rewrite Hr2, Hd2, Hd1, app_nil_r. }
  destruct c2; [simplify_eq; by apply (run_ok_alive _ _ _ True)|].
  destruct (report_discovered st2 r) as [[st3 out3] c3] eqn:Hst3.
  apply report_discovered_ok in Hst3 as (Hc3 & Hi3 & Hb3 & Hw3 & Hm3 & Hd3).
  assert (run_ok st2 st3 out3 (c3 ≠ Some (Return Ready))) as H3.
  { repeat (split; [done|]). split.
    - exists []. by rewrite Hw3, Hb3, app_nil_r.
    - intros Ha. exists []. by rewrite (Hd3 Ha), app_nil_r. }
  pose proof (run_ok_trans _ _ _ _ _ _ _ H2 H3) as H23.
  destruct c3 as [c3|].
  - simplify_eq. eapply run_ok_alive; [|exact H23]. naive_solver.
  - apply bind_Done in Hrest as ([st4 c4] & Hst4 & Heq).
    injection Heq as -> <- ->. apply receive_ok in Hst4 as (Hc4 & Hi4 & [q Hq] & [d Hd]).
    rewrite <- (app_nil_r (out2 ++ out3)). eapply run_ok_alive; [|eapply run_ok_trans; [exact H23|]].
    + intros _. split; [|exact I]. by split.
    + repeat (split; [done|]). split; [constructor|]. split; [by exists q|by exists d].
Qed.

Lemma poll_ok st rounds st' out p :
  poll st rounds = Done (st', out, p) → run_ok st st' out (p ≠ Some Ready).
Proof.
  revert st out. induction rounds as [|r rounds IH]; intros st out; cbn [poll].
  { intros [= <- <- <-]. apply run_ok_nil. }
  intros ([[st1 out1] c1] & Hround & Hrest)%bind_Done.
  apply round_ok in Hround. destruct c1 as [|p1].
  - apply bind_Done in Hrest as ([[st2 out2] p2] & Hpoll & [= -> <- ->]).
    apply IH in Hpoll. eapply run_ok_alive; [|by eapply run_ok_trans].
    intros Hp. by split.
  - injection Hrest as -> -> <-. eapply run_ok_alive; [|exact Hround]. congruence.
Qed.
End iface.

(** ** The service name *)

(** What [Uuid::simple] prints: 32 hexadecimal digits. *)
Definition uuid_simple_ok (uuid_v5_simple : list u8 → string) : Prop :=
  ∀ seed, len (bytes_of_string (uuid_v5_simple seed)) = 32
    ∧ Forall (λ b, is_alphanumeric b = true) (bytes_of_string (uuid_v5_simple seed)).

Lemma plain_ascii s : plain_name s → is_ascii (bytes_of_string s) = true.
Proof.
  intros Hp. apply is_ascii_Forall. eapply Forall_impl; [exact Hp|]. intros b.
  unfold plain_char, DOT. rewrite !orb_true_iff. intros [[[Hb|Hb]|Hb]|Hb];
    [by apply alphanumeric_ascii|apply Z.eqb_eq in Hb; subst; done..].
Qed.

Lemma service_name_of_ok uuid fp :
  uuid_simple_ok uuid →
  plain_name (service_name_of uuid fp) ∧ name_ok (bytes_of_string (service_name_of uuid fp))
  ∧ len (bytes_of_string (service_name_of uuid fp)) ≤ 53.
Proof.
  intros Huuid. assert (plain_name (service_name_of uuid fp)) as Hplain.
  { destruct fp as [seed|]; [|by repeat constructor]. unfold plain_name, service_name_of.
    rewrite !bytes_of_string_app. apply Forall_app; split; [by repeat constructor|].
    apply Forall_app; split; [|by repeat constructor].
    eapply Forall_impl; [apply Huuid|]. intros b Hb. unfold plain_char. by rewrite Hb. }
  split; [done|]. destruct fp as [seed|]; [|by split; [apply wit_service_ok|vm_compute]].
  destruct (Huuid seed) as [Hlen Halpha]. split.
  - split; [by apply plain_ascii|]. unfold labels, service_name_of. rewrite !bytes_of_string_app, app_assoc.
    rewrite split_on_app_none.
    + repeat constructor; unfold len in *; cbn [length]; rewrite ?length_app; simpl; lia.
    + apply Forall_app. split; [by repeat constructor|].
      eapply Forall_impl; [exact Halpha|]. intros b Hb. by apply alphanumeric_ascii.
  - unfold service_name_of. rewrite !bytes_of_string_app, !len_app, Hlen. done.
Qed.

(** ** Theorems *)

Section theorems.
Context `{Libp2p} `{!AddrOps} `{Hickory}.
Context (dbg : bool) (uuid : list u8 → string).

Lemma new_ok {E} (sys : SocketCall → result E ()) unix jitter t0 a config p st :
  new uuid sys unix jitter t0 a config p = Done (Ok st) →
  iface_ok st ∧ query_interval st = MdnsConfig.query_interval config + from_millis jitter
  ∧ multicast_addr st = multicast_addr_of a
  ∧ service_name st = bytes_of_string (service_name_of uuid (service_fingerprint config))
  ∧ service_name_fqdn st = service_name_of uuid (service_fingerprint config) +:+ "."
  ∧ ttl st = MdnsConfig.ttl config ∧ local_peer_id st = p
  ∧ send_buffer st = [] ∧ discovered st = [].
Proof.
  unfold new. destruct (run_calls sys (recv_socket_calls unix a)); [|done].
  destruct (run_calls sys [_; _]); [|done]. destruct (DURATION_MAX <? _); [done|].
  intros [= <-]. split; [|done]. split; [|done]. unfold probe_ok. simpl.
  exists 0. split; [done|]. split; [done|by left].
Qed.

(** From its creation on, whatever the sockets, the timer, the channel and the
    received packets do, an instance's probing interval is 500 ms doubled a number
    of times and below the query interval, or the query interval once probing is
    over; the timer always has the interval of the probe state; and every packet
    goes to the multicast address of the interface's family. *)
Theorem instance_schedule {E} (sys : SocketCall → result E ()) unix jitter t0 a config p
    st rounds st' out res :
  new uuid sys unix jitter t0 a config p = Done (Ok st) →
  poll dbg st rounds = Done (st', out, res) →
  probe_ok st' ∧ timer_ok st'
  ∧ query_interval st' = MdnsConfig.query_interval config + from_millis jitter
  ∧ Forall (λ o, match o with
                 | Sent _ to => to = socket_addr (multicast_addr_of a) MDNS_PORT
                 | _ => True
                 end) out.
Proof.
  intros (Hok & Hq & Hm & _)%new_ok ((_ & Hq' & _) & Hi & Hout & _)%poll_ok.
  destruct (Hi Hok) as [Hp Ht]. split; [done|]. split; [done|]. split; [congruence|].
  eapply Forall_impl; [exact Hout|]. intros []; [|done..]. intros ->.
  unfold mdns_socket. by rewrite Hm.
Qed.

(** No packet and no discovered address is lost or reordered: what was handed to
    the socket, then what is still buffered, extends what was buffered before; and
    the same for the reported addresses, unless the channel was closed. *)
Theorem instance_queues_fifo st rounds st' out res :
  poll dbg st rounds = Done (st', out, res) →
  (∃ q, written out ++ send_buffer st' = send_buffer st ++ q)
  ∧ (res ≠ Some Ready → ∃ d, reported out ++ discovered st' = discovered st ++ d).
Proof using Type. by intros (_ & _ & _ & Hq & Hd)%poll_ok. Qed.

(** An instance whose rounds cannot panic. *)
Definition safe (st : InterfaceState) : Prop :=
  iface_ok st ∧ ¬ name_panics dbg (service_name st) ∧ query_interval st * 2 ≤ DURATION_MAX.

Lemma on_timeout_no_panic st r : safe st → on_timeout dbg st r ≠ Panic.
Proof using Type.
  intros ([Hp _] & Hn & Hq). unfold on_timeout. destruct (timer_ready r); [|done].
  destruct (build_query_done dbg (random r) (service_name st) Hn) as [packet ->].
  cbn [mbind outcome_bind]. unfold set_send_buffer. simpl.
  unfold probe_ok in Hp. destruct (probe_state st) as [i|i]; [|done].
  destruct Hp as (k & Hk & Hi & Hsmall).
  destruct (Z.ltb_spec DURATION_MAX (i * 2)); [|done]. exfalso.
  destruct Hsmall as [->|Hlt]; [subst i; by vm_compute in H2|lia].
Qed.

Lemma receive_no_panic st r : safe st → peer_name_ok (peer_name r) → receive dbg st r ≠ Panic.
Proof using Type.
  intros (_ & Hn & _) Hpn. unfold receive. destruct (read r) as [datagram from| | |]; try done.
  destruct (new_from_bytes _ _ _) as [[[q|resp|disc]|]|e]; try done.
  - destruct (build_query_response _ _ _ _ _ _ _) eqn:Hb; [done|].
    by apply build_query_response_panics_iff in Hb.
  - edestruct build_service_discovery_response_done as [packet ->]; [done|]. done.
Qed.

Lemma safe_run st st' out alive : safe st → run_ok st st' out alive → safe st'.
Proof using Type.
  intros (Hok & Hn & Hq) ((_ & Hq' & _ & _ & _ & Hs & _) & Hi & _).
  split; [by apply Hi|]. by rewrite Hs, Hq'.
Qed.

Lemma round_no_panic st r : safe st → peer_name_ok (peer_name r) → round dbg st r ≠ Panic.
Proof using Type.
  intros Hsafe Hpn. unfold round. intros [Hp|(st1 & Hst1 & Hp)]%bind_Panic;
    [by eapply on_timeout_no_panic|].
  apply on_timeout_ok in Hst1 as (Hc1 & Hi1 & _).
  destruct (send_packets st1 r) as [[st2 out2] []] eqn:Hst2; [done|].
  apply send_packets_ok in Hst2 as (Hc2 & Hi2 & _).
  destruct (report_discovered st2 r) as [[st3 out3] [c3|]] eqn:Hst3; [done|].
  apply report_discovered_ok in Hst3 as (Hc3 & Hi3 & _).
  apply bind_Panic in Hp as [Hp|([st4 c4] & _ & Hp)]; [|done].
  eapply receive_no_panic; [|exact Hpn|exact Hp].
  destruct Hsafe as (Hok & Hn & Hq). unfold same_config in *.
  split; [by auto|]. split; [|by destruct_and!; congruence].
  destruct Hc1 as (_ & _ & _ & _ & _ & H1' & _), Hc2 as (_ & _ & _ & _ & _ & H2' & _),
    Hc3 as (_ & _ & _ & _ & _ & H3' & _). by rewrite H3', H2', H1'.
Qed.


(** What the instance of [me] is to learn from the addresses [g] of the peer [p] in a packet
    from [from]: nothing of itself; of another peer, each address as it is seen from here,
    completed with the peer, until [expires].  An address that does not translate, or
    names another peer, is left out. *)
Definition seen_from_here (from : SocketAddr) (p : PeerId) (expires : Instant) (address : Multiaddr) :
    option (PeerId * Multiaddr * Instant) :=
  match _address_translation address (udp_multiaddr (sa_ip from) (sa_port from)) with
  | Some translated =>
      match with_p2p translated p with
      | Ok with_peer => Some (p, with_peer, expires)
      | Err _ => None
      end
  | None => None
  end.
Definition learnt_addresses (me p : PeerId) (from : SocketAddr) (expires : Instant)
    (g : list Multiaddr) : list (PeerId * Multiaddr * Instant) :=
  if decide (p = me) then [] else omap (seen_from_here from p expires) g.

Lemma extract_learnt secs p g from t me :
  extract_discovered (mk_MdnsResponse (peers_of secs p g) from) t me =
    learnt_addresses me p from (t + secs * NANOS_PER_SEC) g.
Proof using Type.
  unfold extract_discovered, learnt_addresses, peers_of. cbn [peers response_from].
  destruct (decide (g = [])) as [->|Hg].
  { rewrite bool_decide_true by done. cbn. by case_decide. }
  rewrite bool_decide_false by done. case_decide as Hp.
  - by rewrite filter_cons_False by (by intros []).
  - rewrite filter_cons_True by done. rewrite filter_nil, fmap_cons, fmap_nil. cbn [concat].
    rewrite app_nil_r. unfold observed_address, addresses, MdnsQuery.id, peer_ttl_duration, from_secs.
    cbn [response_from addrs peer_id peer_ttl]. clear Hg. induction g as [|address g IH]; [done|]. cbn [omap list_omap]. rewrite IH.
    unfold seen_from_here.
    destruct (_address_translation _ _) as [a|]; [|done]. cbn [mbind option_bind].
    by destruct (with_p2p a p).
Qed.

(** The state after it has been learnt. *)
Definition learnt (st : InterfaceState) (secs : u32) (p : PeerId) (g : list Multiaddr)
    (from : SocketAddr) (t : Instant) : InterfaceState :=
  let st := set_discovered st (discovered st ++
    learnt_addresses (local_peer_id st) p from (t + secs * NANOS_PER_SEC) g) in
  if bool_decide (discovered st = []) then st
  else reset_timer t (set_probe_state st (Finished (query_interval st))).

Section exchange.
Context (name_of_labels : list (list u8) → Name) `{!HickoryLaws name_of_labels}.

(** A query, and the responses to it. *)
Lemma query_answered s a b (qr : u16) q rb from_a from_b :
  plain_name s → name_ok (bytes_of_string s) → len (bytes_of_string s) ≤ 253 →
  service_name a = bytes_of_string s → service_name_fqdn a = s +:+ "." →
  service_name b = bytes_of_string s → service_name_fqdn b = s +:+ "." →
  duration_ok (ttl b) → fits 16 qr →
  build_query dbg qr (service_name a) = Done q → read rb = ReadOk q from_a →
  peer_name_ok (peer_name rb) → Forall (sendable (local_peer_id b)) (listen_addresses rb) →
  ∃ packets groups,
    receive dbg b rb = Done (set_send_buffer b (send_buffer b ++ packets), Continue)
    ∧ concat groups = take (Z.to_nat 65535) (listen_addresses rb)
    ∧ Forall2 (λ packet g, len packet ≤ RECV_BUFFER_LEN → ∀ ra, read ra = ReadOk packet from_b →
        receive dbg a ra =
          Done (learnt a (duration_to_secs (ttl b)) (local_peer_id b) g from_b (now ra), Continue))
        packets groups.
Proof.
  intros Hplain Hname Hlen Ha Hafq Hb Hbfq Httl Hqr Hq Hread Hpn Hsend.
  rewrite Ha, build_query_enc in Hq by done. simplify_eq.
  destruct (response_packets_understood name_of_labels dbg (peer_name rb) qr (local_peer_id b)
    (listen_addresses rb) (ttl b) s from_b) as (packets & gs & Hbuild & Hconcat & _ & Hrecv);
    [done..|].
  exists packets, gs. split; [|split; [done|]].
  - unfold receive. rewrite Hread, Hbfq, Hb.
    destruct (query_classified name_of_labels dbg qr s s from_a) as (q & Hq & Hclass); [done..|].
    rewrite build_query_enc in Hq by done. simplify_eq.
    rewrite take_ge, Hclass by (rewrite <- (Nat2Z.id (length _)); apply Z2Nat.inj_le;
      pose proof (len_build_query qr (bytes_of_string s)); unfold len, RECV_BUFFER_LEN in *; lia).
    rewrite decide_True by done. cbn [query_id]. rewrite Hbuild. done.
  - apply Forall2_same_length_lookup. split.
    { apply (f_equal length) in Hrecv. by rewrite !length_fmap in Hrecv. }
    intros i packet g Hi Hg Hfit ra Hra. apply (f_equal (.!! i)) in Hrecv.
    rewrite !list_lookup_fmap, Hi, Hg in Hrecv. injection Hrecv as Hrecv.
    unfold receive. rewrite Hra, Hafq.
    rewrite take_ge, Hrecv by (rewrite <- (Nat2Z.id (length _)); apply Z2Nat.inj_le;
      unfold len, RECV_BUFFER_LEN in *; lia).
    unfold learnt. rewrite extract_learnt. by destruct (bool_decide _).
Qed.

(** C12: One query and its answer.  When the instance [b] receives the query of an
    instance [a] of the same service, it queues response packets, which together carry its
    first 65535 listen addresses.  From each of them that fits the receive buffer, [a]
    learns the addresses the packet carries, as they are seen from [a], with the peer of
    [b] and the time at which they expire, and nothing else; it learns nothing when it is
    the same peer.  As soon as anything is discovered, the probing of [a] has ended and
    its next query is a query interval away; otherwise nothing changes. *)
Theorem query_answer_exchange s a b (qr : u16) q rb from_a from_b :
  plain_name s → name_ok (bytes_of_string s) → len (bytes_of_string s) ≤ 253 →
  service_name a = bytes_of_string s → service_name_fqdn a = s +:+ "." →
  service_name b = bytes_of_string s → service_name_fqdn b = s +:+ "." →
  duration_ok (ttl b) → fits 16 qr →
  build_query dbg qr (service_name a) = Done q → read rb = ReadOk q from_a →
  peer_name_ok (peer_name rb) → Forall (sendable (local_peer_id b)) (listen_addresses rb) →
  ∃ packets groups,
    receive dbg b rb = Done (set_send_buffer b (send_buffer b ++ packets), Continue)
    ∧ concat groups = take (Z.to_nat 65535) (listen_addresses rb)
    ∧ Forall2 (λ packet g, len packet ≤ RECV_BUFFER_LEN → ∀ ra, read ra = ReadOk packet from_b →
        ∃ a', receive dbg a ra = Done (a', Continue)
          ∧ discovered a' = discovered a ++ learnt_addresses (local_peer_id a) (local_peer_id b) from_b
              (now ra + duration_to_secs (ttl b) * NANOS_PER_SEC) g
          ∧ send_buffer a' = send_buffer a
          ∧ (discovered a' ≠ [] → probe_state a' = Finished (query_interval a)
              ∧ timeout a' = IntervalTimer (now ra) (query_interval a))
          ∧ (discovered a' = [] → a' = a))
        packets groups.
Proof.
  intros. destruct (query_answered s a b qr q rb from_a from_b)
    as (packets & groups & Hrecv & Hconcat & Hall); [done..|].
  exists packets, groups. split; [done|]. split; [done|].
  eapply Forall2_impl; [exact Hall|]. intros packet g Hg Hfit ra Hra.
  eexists. split; [by apply Hg|]. unfold learnt. cbn [set_discovered discovered local_peer_id].
  set (found := discovered a ++ _). case_bool_decide as Hnil.
  - split; [done|]. split; [done|]. split; [done|]. intros _. rewrite Hnil.
    apply app_nil in Hnil as [Hd _]. unfold set_discovered. rewrite <- Hd. by destruct a.
  - split; [done|]. split; [done|]. by split.
Qed.
End exchange.
End theorems.

(** ** Witnesses *)

Definition wit_uuid (seed : list u8) : string := "0123456789abcdef0123456789abcdef".

Lemma wit_uuid_ok : uuid_simple_ok wit_uuid.
Proof. intros seed. split; [done|by repeat constructor]. Qed.

Definition wit_state (p : positive) : InterfaceState (H:=list_libp2p) :=
  match new (H:=list_libp2p) wit_uuid (λ _, @Ok () () ()) true 0 0 (V4 (ipv4 192 168 1 7))
          default_config p with
  | Done (Ok st) => st
  | _ => mk_InterfaceState (V4 (ipv4 0 0 0 0)) [] 0 (IntervalTimer 0 0) (V4 (ipv4 0 0 0 0))
           [] 0 (Finished 0) p [] ""
  end.

Lemma wit_new p :
  new (H:=list_libp2p) wit_uuid (λ _, @Ok () () ()) true 0 0 (V4 (ipv4 192 168 1 7))
    default_config p = Done (Ok (wit_state p)).
Proof. reflexivity. Qed.

(** A round in which the timer fires and the socket accepts the query, and one in
    which nothing is ready. *)
Definition wit_tick : Round (H:=list_libp2p) :=
  mk_Round (H:=list_libp2p) true WriteOk false SendOk ReadPending 513 wit_peer_name 0 wit_addrs.
Definition wit_idle : Round (H:=list_libp2p) :=
  mk_Round (H:=list_libp2p) false WriteOk false SendOk ReadPending 0 wit_peer_name 0 wit_addrs.
Definition wit_rounds : list (Round (H:=list_libp2p)) := [wit_tick; wit_idle].

Lemma instance_schedule_witness :
  ∃ st' out,
    poll (H:=list_libp2p) true (wit_state 1%positive) wit_rounds = Done (st', out, Some Pending)
    ∧ probe_state st' = Probing (from_millis 1000) ∧ length out = 1%nat ∧ probe_ok st' ∧ timer_ok st'.
Proof.
  eexists _, _. split; [reflexivity|]. split; [reflexivity|]. split; [reflexivity|].
  destruct (instance_schedule (H:=list_libp2p) true wit_uuid (λ _, @Ok () () ()) true 0 0
    (V4 (ipv4 192 168 1 7)) default_config 1%positive (wit_state 1%positive) wit_rounds
    _ _ (Some Pending) (wit_new 1%positive) eq_refl) as (Hp & Ht & _). by split.
Defined.

Lemma instance_queues_fifo_witness :
  ∃ st' out,
    poll (H:=list_libp2p) true (wit_state 1%positive) wit_rounds = Done (st', out, Some Pending)
    ∧ ∃ q, written out ++ send_buffer st' = send_buffer (wit_state 1%positive) ++ q.
Proof.
  eexists _, _. split; [reflexivity|].
  eapply (instance_queues_fifo (H:=list_libp2p) true (wit_state 1%positive) wit_rounds).
  reflexivity.
Defined.


Definition wit_query : list u8 :=
  match build_query true 513 (bytes_of_string DEFAULT_SERVICE_NAME) with Done q => q | Panic => [] end.

Lemma query_answer_exchange_witness :
  let rb := mk_Round (H:=list_libp2p) false WriteOk false SendOk (ReadOk wit_query wit_from) 0
              wit_peer_name 0 wit_addrs in
  ∃ packets groups,
    receive (H:=list_libp2p) true (wit_state 1%positive) rb =
      Done (set_send_buffer (wit_state 1%positive)
              (send_buffer (wit_state 1%positive) ++ packets), Continue)
    ∧ concat groups = take (Z.to_nat 65535) wit_addrs
    ∧ Forall2 (λ packet g, len packet ≤ RECV_BUFFER_LEN →
        ∀ ra, read ra = ReadOk packet wit_from →
        ∃ a', receive (H:=list_libp2p) true (wit_state 2%positive) ra = Done (a', Continue)
          ∧ discovered a' = learnt_addresses (H:=list_libp2p) 2%positive 1%positive wit_from
              (now ra + 360 * NANOS_PER_SEC) g)
        packets groups.
Proof.
  intros rb.
  edestruct (query_answer_exchange (H:=list_libp2p) (H1:=list_hickory) true Datatypes.id
    DEFAULT_SERVICE_NAME (wit_state 2%positive) (wit_state 1%positive) 513 wit_query rb wit_from
    wit_from) as (packets & groups & Hrecv & Hconcat & Hall);
    [apply wit_plain|apply wit_service_ok|by vm_compute|reflexivity..|apply wit_duration_ok
    |by split|reflexivity|reflexivity|apply wit_peer_name_ok|apply wit_sendable|].
  exists packets, groups. split; [exact Hrecv|]. split; [exact Hconcat|].
  eapply Forall2_impl; [exact Hall|]. intros packet g Hg Hfit ra Hra.
  destruct (Hg Hfit ra Hra) as (a' & Ha & Hd & _). exists a'. split; [exact Ha|exact Hd].
Defined.

(** A response of 29 addresses with texts of 134 bytes does not fit the receive
    buffer: the receiver does not decode it and learns nothing. *)
Definition medium_addr : list toy_protocol := repeat (inr (inr 1)) 20.

Example truncated_response_lost :
  match build_query_response (H:=list_libp2p) true wit_peer_name 7 1%positive
          (repeat medium_addr 29) (MdnsConfig.ttl default_config)
          (bytes_of_string DEFAULT_SERVICE_NAME) with
  | Done [packet] =>
      RECV_BUFFER_LEN < len packet
      ∧ from_vec (Hickory:=list_hickory) (take (Z.to_nat RECV_BUFFER_LEN) packet) = Err ()
  | _ => False
  end.
Proof. vm_compute. by split. Qed.
