(* ===== verification/MdnsRuntime.v ===== *)
(** * mDNS timers and sockets ([src/lib/mdns/src/behaviour/timer.rs], [socket.rs])

    The wrappers that fit tokio's interval and UDP socket to the interfaces the
    mDNS behaviour is written against, and an instance of MdnsIface.v driven by
    such a timer.  Tokio is a parameter with its documented laws. *)

From S2P Require Import Prelude RustStr Libp2p MdnsConfig Dns MdnsQuery MdnsIface.

Local Open Scope Z_scope.

(** [Instant + Duration]: on Linux the seconds of an instant are an [i64]. *)
Definition INSTANT_MAX : Instant := (2 ^ 63 - 1) * NANOS_PER_SEC + (NANOS_PER_SEC - 1).
Definition instant_add (t : Instant) (d : Duration) : outcome Instant :=
  if INSTANT_MAX <? t + d then Panic else Done (t + d).

(** ** [tokio::time::Interval] *)

Inductive MissedTickBehavior := Burst | Delay | Skip.

(** [poll_tick] gets the time at which it is called; [None] is [Poll::Pending]. *)
Class Tokio := {
  Interval : Type;
  time_interval_at : Instant → Duration → outcome Interval;
  set_missed_tick_behavior : Interval → MissedTickBehavior → Interval;
  poll_tick : Interval → Instant → Interval * option Instant;
}.

(** The documentation: the first tick is at [start], a period of zero panics, a poll
    before the next tick is pending and changes nothing, a later one is ready, with
    the time of the tick; with [Skip] the next tick is a whole number of periods
    later, not before the polling time (up to the 5 ms by which a tick may be late
    without counting as missed) and at most one period after it. *)
Class TokioLaws `{Tokio} := {
  next_tick : Interval → Instant;
  period : Interval → Duration;
  behavior : Interval → MissedTickBehavior;
  interval_at_zero start : time_interval_at start 0 = Panic;
  interval_at_done start d : 0 < d → ∃ i,
    time_interval_at start d = Done i ∧ next_tick i = start ∧ period i = d;
  set_behavior i b :
    next_tick (set_missed_tick_behavior i b) = next_tick i
    ∧ period (set_missed_tick_behavior i b) = period i
    ∧ behavior (set_missed_tick_behavior i b) = b;
  poll_tick_pending i now : now < next_tick i → poll_tick i now = (i, None);
  poll_tick_due i now : next_tick i ≤ now → is_Some (poll_tick i now).2;
  poll_tick_ready i now : next_tick i ≤ now → behavior i = Skip →
    now + period i ≤ INSTANT_MAX → ∃ i',
    poll_tick i now = (i', Some (next_tick i))
    ∧ period i' = period i ∧ behavior i' = Skip
    ∧ (∃ k, 1 ≤ k ∧ next_tick i' = next_tick i + k * period i)
    ∧ now - from_millis 5 < next_tick i' ≤ now + period i;
}.

Section timer.
Context `{Tokio}.

(** [Timer<Interval>] has one field, [inner]. *)
Definition TokioTimer : Type := Interval.

(** [Builder::at]; [Duration::new(u64::MAX, 1_000_000_000 - 1)] is the longest one. *)
Definition at_instant (instant : Instant) : outcome TokioTimer :=
  inner ← time_interval_at instant (U64_MAX * NANOS_PER_SEC + (1000000000 - 1));
  Done (set_missed_tick_behavior inner Skip).

(** [Builder::interval], called at [now]. *)
Definition timer_interval (now : Instant) (duration : Duration) : outcome TokioTimer :=
  start ← instant_add now duration;
  inner ← time_interval_at start duration;
  Done (set_missed_tick_behavior inner Skip).

(** [Builder::interval_at]. *)
Definition timer_interval_at (start : Instant) (duration : Duration) : outcome TokioTimer :=
  inner ← time_interval_at start duration;
  Done (set_missed_tick_behavior inner Skip).

(** [Stream::poll_next]: never the end of the stream. *)
Definition poll_next (self : TokioTimer) (now : Instant) :
    TokioTimer * option (option Instant) :=
  let '(inner, tick) := poll_tick self now in (inner, Some <$> tick).

Definition size_hint (usize_max : Z) : Z * option Z := (usize_max, None).

(** The timer that the state of an instance describes. *)
Definition timer_of (t : Timer) : outcome TokioTimer :=
  match t with
  | IntervalTimer set_at d => timer_interval set_at d
  | IntervalAtTimer start d => timer_interval_at start d
  end.

(** When a timer first fires. *)
Definition deadline (t : Timer) : Instant :=
  match t with IntervalTimer set_at d => set_at + d | IntervalAtTimer start _ => start end.
Definition timer_period (t : Timer) : Duration :=
  match t with IntervalTimer _ d | IntervalAtTimer _ d => d end.

Context `{!TokioLaws}.

Lemma timer_interval_at_done start d :
  0 < d → ∃ i, timer_interval_at start d = Done i
    ∧ next_tick i = start ∧ period i = d ∧ behavior i = Skip.
Proof.
  intros (i & Hi & Hn & Hp)%(interval_at_done start). exists (set_missed_tick_behavior i Skip).
  unfold timer_interval_at. rewrite Hi. split; [done|].
  destruct (set_behavior i Skip) as (-> & -> & ->). done.
Qed.

Lemma timer_of_done t :
  0 < timer_period t → deadline t ≤ INSTANT_MAX → ∃ i, timer_of t = Done i
    ∧ next_tick i = deadline t ∧ period i = timer_period t ∧ behavior i = Skip.
Proof.
  destruct t as [s d|s d]; simpl; intros Hd Hmax; [|by apply timer_interval_at_done].
  destruct (timer_interval_at_done (s + d) d Hd) as (i & Hi & Hrest). exists i.
  split; [|done]. unfold timer_interval, instant_add.
  destruct (Z.ltb_spec INSTANT_MAX (s + d)); [lia|]. exact Hi.
Qed.

(** A timer with a period of zero, or one whose first tick has no instant, panics. *)
Lemma timer_of_panics t :
  timer_period t = 0 ∨ (∃ s d, t = IntervalTimer s d ∧ INSTANT_MAX < s + d) →
  timer_of t = Panic.
Proof.
  intros [Hd|(s & d & -> & Hmax)].
  - destruct t as [s d|s d]; simpl in *; subst d; unfold timer_interval, timer_interval_at;
      [destruct (instant_add s 0); [|done]; cbn [mbind outcome_bind]|];
      by rewrite interval_at_zero.
  - simpl. unfold timer_interval, instant_add.
    by destruct (Z.ltb_spec INSTANT_MAX (s + d)); [|lia].
Qed.

Lemma poll_next_spec i now :
  behavior i = Skip → now + period i ≤ INSTANT_MAX →
  (poll_next i now).2 = if next_tick i <=? now then Some (Some (next_tick i)) else None.
Proof.
  intros Hb Hmax. unfold poll_next. destruct (Z.leb_spec (next_tick i) now) as [Hle|Hlt].
  - by destruct (poll_tick_ready i now Hle Hb Hmax) as (i' & -> & _).
  - by rewrite poll_tick_pending.
Qed.

(** [Builder::at] is pending before the instant; a tick is the instant itself. *)
Lemma at_instant_pending t :
  ∃ i, at_instant t = Done i ∧ next_tick i = t ∧ ∀ now, now < t → poll_next i now = (i, None).
Proof.
  destruct (timer_interval_at_done t (U64_MAX * NANOS_PER_SEC + (1000000000 - 1)))
    as (i & Hi & Hn & _); [done|].
  exists i. split; [exact Hi|]. split; [done|]. intros now Hnow. unfold poll_next.
  by rewrite poll_tick_pending by by rewrite Hn.
Qed.
End timer.

(** ** UDP sockets

    [poll_recv_from] gets the room of the [ReadBuf] and returns what it filled. *)

Class TokioUdp := {
  StdSocket : Type;
  TkUdpSocket : Type;
  IoError : Type;
  is_would_block : IoError → bool;
  set_nonblocking : StdSocket → bool → result IoError StdSocket;
  tk_from_std : StdSocket → result IoError TkUdpSocket;
  poll_recv_from : TkUdpSocket → Z → TkUdpSocket * option (result IoError (list u8 * SocketAddr));
  poll_send_to : TkUdpSocket → list u8 → SocketAddr → TkUdpSocket * option (result IoError Z);
}.

Class TokioUdpLaws `{TokioUdp} := {
  poll_recv_from_fits s room s' data from :
    0 ≤ room → poll_recv_from s room = (s', Some (Ok (data, from))) → len data ≤ room;
}.

Section socket.
Context `{TokioUdp}.

Definition from_std (socket : StdSocket) : result IoError TkUdpSocket :=
  socket ← set_nonblocking socket true;
  tk_from_std socket.

(** The socket, the buffer and the result; the bytes received overwrite the front of
    the buffer. *)
Definition poll_read (self : TkUdpSocket) (buf : list u8) :
    TkUdpSocket * list u8 * option (result IoError (Z * SocketAddr)) :=
  match poll_recv_from self (len buf) with
  | (self, None) => (self, buf, None)
  | (self, Some (Err err)) => (self, buf, Some (Err err))
  | (self, Some (Ok (filled, addr))) =>
      (self, filled ++ drop (length filled) buf, Some (Ok (len filled, addr)))
  end.

Definition poll_write (self : TkUdpSocket) (packet : list u8) (to : SocketAddr) :
    TkUdpSocket * option (result IoError ()) :=
  match poll_send_to self packet to with
  | (self, None) => (self, None)
  | (self, Some (Err err)) => (self, Some (Err err))
  | (self, Some (Ok _)) => (self, Some (Ok ()))
  end.

(** What the instance makes of the two: [recv_buffer[..len]] panics when [len]
    exceeds the buffer. *)
Definition read_result (recv_buffer : list u8) (r : option (result IoError (Z * SocketAddr))) :
    outcome ReadResult :=
  match r with
  | None => Done ReadPending
  | Some (Err err) => Done (if is_would_block err then ReadWouldBlock else ReadErr)
  | Some (Ok (n, from)) =>
      if len recv_buffer <? n then Panic
      else Done (ReadOk (take (Z.to_nat n) recv_buffer) from)
  end.
Definition write_result (r : option (result IoError ())) : WriteResult :=
  match r with None => WritePending | Some (Ok _) => WriteOk | Some (Err _) => WriteErr end.

Context `{!TokioUdpLaws}.

(** Reading never panics, keeps the buffer's length, and hands over exactly the bytes
    the socket stored, whatever was in the buffer before. *)
Lemma poll_read_result s buf :
  ∃ res, let '(_, buf', r) := poll_read s buf in
    len buf' = len buf ∧ read_result buf' r = Done res
    ∧ ∀ s' data from, poll_recv_from s (len buf) = (s', Some (Ok (data, from))) →
        res = ReadOk data from.
Proof.
  unfold poll_read. destruct (poll_recv_from s (len buf)) as [s1 [[[data from]|e]|]] eqn:Hr.
  2,3: by eexists; split; [|split; [|intros * [=]]].
  pose proof (poll_recv_from_fits _ _ _ _ _ (Zle_0_nat _) Hr) as Hfits.
  exists (ReadOk data from). cbv beta iota. unfold len in *. split; [rewrite length_app, length_drop; lia|].
  split; [|by intros ??? [= _ <- <-]]. unfold read_result, len.
  rewrite length_app, length_drop. rewrite (proj2 (Z.ltb_ge _ _)) by lia.
  by rewrite Nat2Z.id, take_app_length.
Qed.
End socket.

(** ** An instance driven by its timer *)

Section driven.
Context `{Libp2p} `{!AddrOps} `{Hickory} `{Tokio}.
Context (dbg : bool) (uuid : list u8 → string).

Definition with_timer (r : Round) (ready : bool) : Round :=
  mk_Round ready (write r) (sender_ready r) (try_send r) (read r) (random r) (peer_name r)
    (now r) (listen_addresses r).

(** [timeout.poll_next_unpin(cx).is_ready()] at the time of the round.  Between two
    settings of the timer every poll is pending and leaves it unchanged, so that it
    is the one [timer_of] gives; a tick sets it anew. *)
Definition timer_polled (this : InterfaceState) (r : Round) : outcome Round :=
  i ← timer_of (timeout this);
  Done (with_timer r (bool_decide (is_Some (poll_next i (now r)).2))).

(** The instance's task: polled again after [Poll::Pending], until it is ready.  The
    third component says for each round whether the timer fired. *)
Fixpoint life (this : InterfaceState) (rounds : list Round) :
    outcome (InterfaceState * list Output * list bool) :=
  match rounds with
  | [] => Done (this, [], [])
  | r :: rounds' =>
      r ← timer_polled this r;
      '(this, out, control) ← round dbg this r;
      match control with
      | Return Ready => Done (this, out, [timer_ready r])
      | _ => '(this, out', ticks) ← life this rounds';
             Done (this, out ++ out', timer_ready r :: ticks)
      end
  end.

(** The schedule it is meant to follow: the first query at once, and the gap after
    query [k] doubles from one second up to the query interval. *)
Definition gap (query_interval : Duration) (k : Z) : Duration :=
  Z.min query_interval (INITIAL_TIMEOUT_INTERVAL * 2 ^ (k + 1)).
Fixpoint schedule (query_interval : Duration) (next : Instant) (k : Z) (times : list Instant) :
    list bool :=
  match times with
  | [] => []
  | t :: times' =>
      if next <=? t then true :: schedule query_interval (t + gap query_interval k) (k + 1) times'
      else false :: schedule query_interval next k times'
  end.

(** The probe state before query [k]. *)
Definition probe_at (query_interval : Duration) (k : Z) : ProbeState :=
  if bool_decide (k = 0 ∨ INITIAL_TIMEOUT_INTERVAL * 2 ^ k < query_interval)
  then Probing (INITIAL_TIMEOUT_INTERVAL * 2 ^ k) else Finished query_interval.

(** Nothing arrives. *)
Definition silent (r : Round) : Prop := read r = ReadPending ∨ read r = ReadWouldBlock.

Lemma interval_probe_at q k : 0 ≤ k → interval (probe_at q (k + 1)) = gap q k.
Proof using Type.
  intros Hk. unfold probe_at, gap. case_bool_decide; simpl; lia.
Qed.

Lemma probe_at_step q k :
  0 ≤ k →
  match probe_at q k with
  | Probing i => if q <=? i * 2 then Finished q else Probing (i * 2)
  | Finished i => Finished i
  end = probe_at q (k + 1).
Proof using Type.
  intros Hk. unfold probe_at.
  assert (INITIAL_TIMEOUT_INTERVAL * 2 ^ (k + 1) = INITIAL_TIMEOUT_INTERVAL * 2 ^ k * 2) as ->
    by (rewrite Z.pow_add_r by lia; lia).
  assert (0 < 2 ^ k) by (by apply Z.pow_pos_nonneg).
  assert (0 < INITIAL_TIMEOUT_INTERVAL) by done.
  do 2 case_bool_decide; try (destruct (Z.leb_spec q (INITIAL_TIMEOUT_INTERVAL * 2 ^ k * 2));
    try done); try lia; exfalso; nia.
Qed.

(** Before query [k], due at [next]. *)
Definition stage (q : Duration) (s : list u8) (k : Z) (next : Instant) (st : InterfaceState) : Prop :=
  query_interval st = q ∧ service_name st = s ∧ discovered st = [] ∧ 0 ≤ k
  ∧ probe_state st = probe_at q k ∧ deadline (timeout st) = next
  ∧ 0 < timer_period (timeout st) ≤ INITIAL_TIMEOUT_INTERVAL + q ∧ next ≤ INSTANT_MAX.

Lemma send_packets_silent st r q s k next :
  stage q s k next st → silent r →
  ∃ st' out c, round dbg st (with_timer r false) = Done (st', out, c)
    ∧ c ≠ Return Ready ∧ stage q s k next st' ∧ written out ++ send_buffer st' = send_buffer st.
Proof using Type.
  intros Hst Hr. unfold round, on_timeout. cbn [timer_ready with_timer mbind outcome_bind].
  assert (∀ st1, stage q s k next st1 → ∃ st' out c,
    match report_discovered st1 (with_timer r false) with
    | (this, reported, Some control) => Done (this, [] ++ reported, control)
    | (this, reported, None) =>
        '(this, control) ← receive dbg this (with_timer r false);
        Done (this, [] ++ reported, control)
    end = Done (st', out, c) ∧ c ≠ Return Ready ∧ stage q s k next st'
      ∧ written out ++ send_buffer st' = send_buffer st1) as Hrest.
  { intros st1 Hst1. pose proof Hst1 as (_ & _ & Hd & _). unfold report_discovered. rewrite Hd.
    destruct (sender_ready _); unfold receive; cbn [read with_timer];
      (destruct Hr as [-> | ->]; by eexists _, _, _). }
  unfold send_packets. destruct (send_buffer st) as [|p b] eqn:Hb.
  { destruct (Hrest st Hst) as (st' & out & c & He & Hc & Hs & Hw). exists st', out, c.
    split; [exact He|]. by rewrite Hb in Hw. }
  cbn [write with_timer]. destruct (write r); [by eexists _, _, _..|].
  assert (set_send_buffer (set_send_buffer st b) (p :: b) = st) as ->
    by (rewrite <- Hb; by destruct st).
  destruct (Hrest st Hst) as (st' & out & c & He & Hc & Hs & Hw). exists st', out, c.
  split; [exact He|]. by rewrite Hb in Hw.
Qed.

(** A tick queues the query and leads to the next stage. *)
Lemma on_timeout_tick st r q s k next :
  stage q s k next st → ¬ name_panics dbg s → q * 2 ≤ DURATION_MAX → 0 < q →
  now r + INITIAL_TIMEOUT_INTERVAL + q ≤ INSTANT_MAX →
  ∃ p st1, build_query dbg (random r) s = Done p
    ∧ round dbg st (with_timer r true) = round dbg st1 (with_timer r false)
    ∧ stage q s (k + 1) (now r + gap q k) st1 ∧ send_buffer st1 = send_buffer st ++ [p].
Proof using Type.
  intros (Hq & Hs & Hd & Hk & Hp & _ & _ & _) Hn Hmax Hpos Hnow.
  destruct (build_query_done dbg (random r) s Hn) as [p Hpk].
  exists p, (reset_timer (now r) (set_probe_state (set_send_buffer st (send_buffer st ++ [p]))
    (probe_at q (k + 1)))).
  assert (0 < INITIAL_TIMEOUT_INTERVAL * 2 ^ (k + 1)) by (apply Z.mul_pos_pos; [done|lia]).
  split; [done|]. split; [|split; [|done]].
  - unfold round. f_equal. unfold on_timeout. cbn [timer_ready with_timer random now].
    rewrite Hs, Hpk. cbn [mbind outcome_bind]. rewrite <- (probe_at_step q k Hk).
    cbn [probe_state set_send_buffer query_interval]. rewrite Hp, Hq.
    destruct (probe_at q k) as [i|i] eqn:Hi; cbn [mbind outcome_bind].
    + rewrite (proj2 (Z.ltb_ge _ _)); [reflexivity|]. clear - Hi Hmax. unfold probe_at in Hi.
      destruct (bool_decide_reflect (k = 0 ∨ INITIAL_TIMEOUT_INTERVAL * 2 ^ k < q)) as [Hcase|];
        [|discriminate Hi]. injection Hi as <-. destruct Hcase as [->|]; [by vm_compute|lia].
    + do 2 f_equal. unfold set_send_buffer, set_probe_state. cbn. by rewrite Hp.
  - unfold stage, reset_timer. cbn [query_interval service_name discovered set_timeout
      set_probe_state set_send_buffer probe_state timeout deadline timer_period].
    rewrite interval_probe_at by done. assert (gap q k ≤ q ∧ 0 < gap q k) by (unfold gap; lia).
    assert (0 < INITIAL_TIMEOUT_INTERVAL) by done.
    repeat (split; [done || lia|]). lia.
Qed.

Context `{!TokioLaws}.

Lemma timer_polled_stage st r q s k next :
  stage q s k next st → now r + INITIAL_TIMEOUT_INTERVAL + q ≤ INSTANT_MAX →
  timer_polled st r = Done (with_timer r (next <=? now r)).
Proof using All.
  intros (_ & _ & _ & _ & _ & Hd & [Hpos Hper] & Hmax) Hnow. unfold timer_polled.
  destruct (timer_of_done (timeout st)) as (i & -> & Hn & Hp & Hb); [done|by rewrite Hd|].
  cbn [mbind outcome_bind]. rewrite poll_next_spec by (rewrite ?Hp; done || lia).
  rewrite Hn, Hd. by destruct (next <=? now r).
Qed.

Definition with_ticks {A} (xs : list A) (ticks : list bool) : list A :=
  fst <$> filter (λ x : A * bool, x.2 = true) (zip xs ticks).

Lemma life_schedule q s rounds :
  ¬ name_panics dbg s → q * 2 ≤ DURATION_MAX → 0 < q →
  Forall (λ r, silent r ∧ now r + INITIAL_TIMEOUT_INTERVAL + q ≤ INSTANT_MAX) rounds →
  ∀ st k next, stage q s k next st →
  ∃ st' out qs, life st rounds = Done (st', out, schedule q next k (now <$> rounds))
    ∧ Forall2 (λ r p, build_query dbg (random r) s = Done p)
        (with_ticks rounds (schedule q next k (now <$> rounds))) qs
    ∧ written out ++ send_buffer st' = send_buffer st ++ qs.
Proof using All.
  intros Hn Hmax Hpos. induction 1 as [|r rounds [Hr Hnow] _ IH]; intros st k next Hst.
  { exists st, [], []. by rewrite app_nil_r. }
  cbn [life fmap list_fmap schedule]. rewrite (timer_polled_stage _ _ _ _ _ _ Hst Hnow).
  cbn [mbind outcome_bind].
  destruct (Z.leb_spec next (now r)) as [Hdue|Hdue].
  - destruct (on_timeout_tick st r q s k next Hst Hn Hmax Hpos Hnow)
      as (p & st1 & Hp & -> & Hst1 & Hb1).
    destruct (send_packets_silent _ _ _ _ _ _ Hst1 Hr) as (st2 & out & c & -> & Hc & Hst2 & Hw).
    destruct (IH _ _ _ Hst2) as (st' & out' & qs & Hlife & Hqs & Hw').
    exists st', (out ++ out'), (p :: qs). cbn [mbind outcome_bind]. rewrite Hlife.
    split; [by destruct c as [|[]]|]. split; [by constructor|].
    unfold written in *. by rewrite omap_app, <- app_assoc, Hw', app_assoc, Hw, Hb1, <- app_assoc.
  - destruct (send_packets_silent _ _ _ _ _ _ Hst Hr) as (st2 & out & c & -> & Hc & Hst2 & Hw).
    destruct (IH _ _ _ Hst2) as (st' & out' & qs & Hlife & Hqs & Hw').
    exists st', (out ++ out'), qs. cbn [mbind outcome_bind]. rewrite Hlife.
    split; [by destruct c as [|[]]|]. split; [done|].
    unfold written in *. by rewrite omap_app, <- app_assoc, Hw', app_assoc, Hw.
Qed.

(** C16: An instance driven by tokio's timer on a quiet network follows its query
    schedule exactly: whenever and however often it is polled, it queues a query at
    the first poll and then at the first poll at which the gap since the last query
    has passed, where the gap doubles from one second up to the query interval; it
    never panics, and the queries, in this order, are all it writes. *)
Theorem queries_follow_schedule {E} (sys : SocketCall → result E ()) unix jitter t0 a config p
    st rounds :
  let q := MdnsConfig.query_interval config + from_millis jitter in
  uuid_simple_ok uuid → 0 < q → q * 2 ≤ DURATION_MAX → t0 ≤ INSTANT_MAX →
  new uuid sys unix jitter t0 a config p = Done (Ok st) →
  Forall (λ r, silent r ∧ now r + INITIAL_TIMEOUT_INTERVAL + q ≤ INSTANT_MAX) rounds →
  let ticks := schedule q t0 0 (now <$> rounds) in
  ∃ st' out qs, life st rounds = Done (st', out, ticks)
    ∧ Forall2 (λ r packet, build_query dbg (random r) (service_name st) = Done packet)
        (with_ticks rounds ticks) qs
    ∧ written out ++ send_buffer st' = qs.
Proof using All.
  intros q Huuid Hpos Hmax Ht0 Hnew Hrounds ticks.
  assert (stage q (service_name st) 0 t0 st ∧ send_buffer st = [] ∧
    service_name st = bytes_of_string (service_name_of uuid (service_fingerprint config)))
    as (Hst & Hb & Hs).
  { pose proof (new_ok _ _ _ _ _ _ _ _ _ Hnew) as (_ & Hq & _ & Hs & _ & _ & _ & Hb & Hd).
    split; [|done]. unfold stage. repeat (split; [done|]). unfold new in Hnew.
    destruct (run_calls sys (recv_socket_calls unix a)); [|done].
    destruct (run_calls sys [_; _]); [|done]. destruct (DURATION_MAX <? _); [done|].
    injection Hnew as <-. cbn. unfold probe_at. rewrite bool_decide_true by by left.
    assert (0 < INITIAL_TIMEOUT_INTERVAL) by done. repeat (split; [done || lia|]). done. }
  assert (¬ name_panics dbg (service_name st)) as Hn
    by (rewrite Hs; apply name_ok_not_panics; by apply service_name_of_ok).
  destruct (life_schedule q _ rounds Hn Hmax Hpos Hrounds st 0 t0 Hst)
    as (st' & out & qs & Hlife & Hqs & Hw).
  exists st', out, qs. by rewrite Hb in Hw.
Qed.
End driven.

(** ** A runtime, and an instance on it *)

(** A period is positive. *)
Record ClockInterval := mk_ClockInterval {
  ci_next : Instant;
  ci_period : positive;
  ci_behavior : MissedTickBehavior;
}.

Definition clock_next (i : ClockInterval) (now : Instant) : Instant :=
  let p := Z.pos (ci_period i) in
  if now <=? ci_next i + from_millis 5 then ci_next i + p
  else match ci_behavior i with
       | Burst => ci_next i + p
       | Delay => now + p
       | Skip => now + p - (now - ci_next i) mod p
       end.

#[export] Instance clock_tokio : Tokio := {|
  Interval := ClockInterval;
  time_interval_at start d :=
    match d with Z.pos p => Done (mk_ClockInterval start p Burst) | _ => Panic end;
  set_missed_tick_behavior i b := mk_ClockInterval (ci_next i) (ci_period i) b;
  poll_tick i now :=
    if now <? ci_next i then (i, None)
    else (mk_ClockInterval (clock_next i now) (ci_period i) (ci_behavior i), Some (ci_next i));
|}.

Lemma clock_next_skip i now :
  ci_behavior i = Skip → ci_next i ≤ now →
  (∃ k, 1 ≤ k ∧ clock_next i now = ci_next i + k * Z.pos (ci_period i))
  ∧ now - from_millis 5 < clock_next i now ≤ now + Z.pos (ci_period i).
Proof.
  intros Hb Hle. unfold clock_next. rewrite Hb. assert (0 < from_millis 5) by done.
  set (p := Z.pos (ci_period i)) in *. assert (0 < p) as Hp by done.
  destruct (Z.leb_spec now (ci_next i + from_millis 5)); [split; [exists 1; lia|lia]|].
  pose proof (Z.div_mod (now - ci_next i) p ltac:(lia)) as Hdiv.
  pose proof (Z.mod_pos_bound (now - ci_next i) p Hp) as Hmod.
  pose proof (Z.div_pos (now - ci_next i) p ltac:(lia) Hp) as Hq.
  split; [exists ((now - ci_next i) / p + 1); lia|lia].
Qed.

#[export, refine] Instance clock_tokio_laws : TokioLaws := {|
  next_tick := ci_next : Interval → Instant;
  period := (λ i, Z.pos (ci_period i)) : Interval → Duration;
  behavior := ci_behavior : Interval → MissedTickBehavior;
|}.
Proof.
  - done.
  - intros start [|d|d] Hd; [done| |done]. by eexists.
  - done.
  - intros i now Hlt. simpl. by rewrite (proj2 (Z.ltb_lt _ _) Hlt).
  - intros i now Hle. simpl. rewrite (proj2 (Z.ltb_ge _ _) Hle). by eexists.
  - intros i now Hle Hb _. simpl. rewrite (proj2 (Z.ltb_ge _ _) Hle).
    destruct (clock_next_skip i now Hb Hle) as [Hk Hn]. by eexists.
Defined.

(** Polls 0, 0.2, 1, 2.9 and 3.5 seconds after the start. *)
Definition wit_polls : list (MdnsIface.Round (H:=list_libp2p)) :=
  (λ ms, mk_Round (H:=list_libp2p) false WriteOk false SendOk ReadPending 513 wit_peer_name
           (from_millis ms) []) <$> [0; 200; 1000; 2900; 3500].

Lemma queries_follow_schedule_witness :
  ∃ st' out,
    life (H:=list_libp2p) true (wit_state 1%positive) wit_polls =
      Done (st', out, [true; false; true; false; true])
    ∧ length (written out ++ send_buffer st') = 3%nat.
Proof.
  destruct (queries_follow_schedule (H:=list_libp2p) true wit_uuid (λ _, @Ok () () ()) true 0 0
    (V4 (ipv4 192 168 1 7)) default_config 1%positive (wit_state 1%positive) wit_polls)
    as (st' & out & qs & Hlife & Hqs & Hw);
    [apply wit_uuid_ok|by vm_compute..|exact (wit_new 1%positive)| |].
  { repeat constructor; by vm_compute. }
  exists st', out. split; [exact Hlife|]. rewrite Hw.
  apply Forall2_length in Hqs. rewrite <- Hqs. reflexivity.
Defined.

(** A socket with the datagrams that wait at it: each read takes one and keeps what
    fits. *)
#[export] Instance queue_udp : TokioUdp := {|
  StdSocket := list (list u8 * SocketAddr);
  TkUdpSocket := list (list u8 * SocketAddr);
  IoError := ();
  is_would_block _ := true;
  set_nonblocking s b := Ok s;
  tk_from_std s := Ok s;
  poll_recv_from s room :=
    match s with
    | [] => ([], None)
    | (data, from) :: s' => (s', Some (Ok (take (Z.to_nat room) data, from)))
    end;
  poll_send_to s packet _ := (s, Some (Ok (Z.of_nat (length packet))));
|}.

#[export] Instance queue_udp_laws : TokioUdpLaws.
Proof.
  split. intros [|[d a] s] room s' data from Hroom; [done|]. intros [= _ <- _].
  unfold len. rewrite length_take. lia.
Qed.

(** A datagram longer than the buffer is cut; a shorter one leaves the rest of the
    buffer as it was. *)
Example reads_cut_and_keep :
  let a := socket_addr (V4 (ipv4 10 0 0 7)) 5353 in
  poll_read [([1; 2; 3; 4], a); ([9], a)] [0; 0; 0] =
    ([([9], a)], [1; 2; 3], Some (Ok (3, a)))
  ∧ poll_read [([9], a)] [1; 2; 3] = ([], [9; 2; 3], Some (Ok (1, a)))
  ∧ read_result [9; 2; 3] (Some (Ok (1, a))) = Done (ReadOk [9] a).
Proof. done. Qed.
