(* ===== verification/MdnsBehaviour.v ===== *)
(** * The mDNS behaviour ([src/lib/mdns/src/behaviour.rs])

    The state of [Behaviour] and its handlers.  One iteration of the poll loop
    sees an [Env]: what the interface watcher and the channel of discovered
    addresses have ready, and the clock.  Creating an instance is
    [MdnsIface.new]. *)

From S2P Require Import Prelude RustStr Libp2p MdnsConfig Dns MdnsQuery MdnsIface.

Local Open Scope Z_scope.

(** [IpAddr] as a key of a map. *)
Definition encode_ip (a : IpAddr) : list Z :=
  match a with
  | V4 (ipv4 a b c d) => [a; b; c; d]
  | V6 (ipv6 a b c d e f g h) => [a; b; c; d; e; f; g; h]
  end.
Definition decode_ip (l : list Z) : option IpAddr :=
  match l with
  | [a; b; c; d] => Some (V4 (ipv4 a b c d))
  | [a; b; c; d; e; f; g; h] => Some (V6 (ipv6 a b c d e f g h))
  | _ => None
  end.
#[export] Instance IpAddr_countable : Countable IpAddr.
Proof. apply (inj_countable encode_ip decode_ip). by intros [[]|[]]. Defined.

Section behaviour.
Context `{Libp2p}.

Abbreviation Node := (PeerId * Multiaddr)%type.

Inductive Event := Discovered (l : list Node) | Expired (l : list Node).
Inductive ToSwarm :=
| GenerateEvent (e : Event)
| NewExternalAddrOfPeer (peer_id : PeerId) (address : Multiaddr).

(** A timer of [P::Timer::at], and when it was polled, if it was: MdnsExpiry.v makes the
    runtime's timer of it. *)
Record ExpiryTimer := mk_ExpiryTimer { fires_at : Instant; polled_at : option Instant }.

(** The [if_watch], the channel's two ends and the spawner are the environment's;
    a [TaskHandle] is a number. *)
Record Behaviour := mk_Behaviour {
  config : Config;
  if_tasks : gmap IpAddr Z;
  discovered_nodes : list (Node * Instant);
  closest_expiration : option ExpiryTimer;
  listen_addresses : list Multiaddr;
  local_peer_id : PeerId;
  pending_events : list ToSwarm;
}.

Definition set_if_tasks b t := mk_Behaviour (config b) t (discovered_nodes b)
  (closest_expiration b) (listen_addresses b) (local_peer_id b) (pending_events b).
Definition set_nodes b n := mk_Behaviour (config b) (if_tasks b) n
  (closest_expiration b) (listen_addresses b) (local_peer_id b) (pending_events b).
Definition set_closest b c := mk_Behaviour (config b) (if_tasks b) (discovered_nodes b)
  c (listen_addresses b) (local_peer_id b) (pending_events b).
Definition set_listen b l := mk_Behaviour (config b) (if_tasks b) (discovered_nodes b)
  (closest_expiration b) l (local_peer_id b) (pending_events b).
Definition set_pending b p := mk_Behaviour (config b) (if_tasks b) (discovered_nodes b)
  (closest_expiration b) (listen_addresses b) (local_peer_id b) p.

(** [Behaviour::new] once the watcher was created; [Err] when it was not. *)
Definition new_behaviour {E} (watcher : result E ()) (config : Config)
    (local_peer_id : PeerId) : result E Behaviour :=
  _ ← watcher; Ok (mk_Behaviour config ∅ [] None [] local_peer_id []).

(** [discovered_nodes()], [has_node] and [expire_node]. *)
Definition discovered_peers (self : Behaviour) : list PeerId :=
  (λ n, n.1.1) <$> discovered_nodes self.
Definition has_node (self : Behaviour) (peer_id : PeerId) : bool :=
  existsb (λ p, bool_decide (p = peer_id)) (discovered_peers self).
Definition expire_node (self : Behaviour) (now : Instant) (peer_id : PeerId) : Behaviour :=
  let self := set_nodes self
    ((λ n, if bool_decide (n.1.1 = peer_id) then (n.1, now) else n) <$> discovered_nodes self) in
  set_closest self (Some (mk_ExpiryTimer now None)).

Definition handle_pending_outbound_connection (self : Behaviour)
    (maybe_peer : option PeerId) : list Multiaddr :=
  match maybe_peer with
  | None => []
  | Some peer_id =>
      (λ n, n.1.2) <$> filter (λ n, n.1.1 = peer_id) (discovered_nodes self)
  end.

(** Established connections get the dummy handler, here [()]; it has no events. *)
Definition handle_established_inbound_connection (self : Behaviour) (peer : PeerId)
    (local_addr remote_addr : Multiaddr) : result () () := Ok ().
Definition handle_established_outbound_connection (self : Behaviour) (peer : PeerId)
    (addr : Multiaddr) : result () () := Ok ().
Definition on_connection_handler_event (self : Behaviour) (peer : PeerId) (ev : Empty_set) : Behaviour :=
  match ev with end.

(** [on_swarm_event]; [update] is [ListenAddresses::on_swarm_event]. *)
Definition on_swarm_event {FromSwarm} (update : FromSwarm → list Multiaddr → list Multiaddr)
    (self : Behaviour) (event : FromSwarm) : Behaviour :=
  set_listen self (update event (listen_addresses self)).

(** ** Polling *)

(** An [IfEvent]; [Up] comes with what the creation of an instance meets: the
    answers of the sockets, the jitter, the clock and the handle of the spawned
    task. *)
Inductive WatchEvent :=
| Up (a : IpAddr) (sys : SocketCall → result () ()) (jitter : Z) (t0 : Instant) (handle : Z)
| Down (a : IpAddr)
| WatchErr.

(** [now] is what [Instant::now()] returns, [later] when the new timer is polled. *)
Record Env := mk_Env {
  watch : list WatchEvent;
  received : list (Node * Instant);
  now : Instant;
  later : Instant;
}.

Inductive Effect := Spawned (a : IpAddr) (st : InterfaceState) (handle : Z) | Aborted (handle : Z).

Context (uuid_v5_simple : list u8 → string) (unix : bool).

Definition on_if_event (self : Behaviour) (event : WatchEvent) :
    outcome (Behaviour * list Effect) :=
  match event with
  | Up addr sys jitter t0 handle =>
      if is_loopback addr then Done (self, [])
      else if (is_ipv4 addr && enable_ipv6 (config self))
              || (is_ipv6 addr && negb (enable_ipv6 (config self)))
      then Done (self, [])
      else
        match if_tasks self !! addr with
        | None =>
            st ← new uuid_v5_simple sys unix jitter t0 addr (config self) (local_peer_id self);
            match st with
            | Ok iface_state =>
                Done (set_if_tasks self (<[addr := handle]> (if_tasks self)),
                      [Spawned addr iface_state handle])
            | Err _ => Done (self, [])
            end
        | Some _ => Done (self, [])
        end
  | Down addr =>
      match if_tasks self !! addr with
      | Some handle => Done (set_if_tasks self (delete addr (if_tasks self)), [Aborted handle])
      | None => Done (self, [])
      end
  | WatchErr => Done (self, [])
  end.

Fixpoint on_if_events (self : Behaviour) (events : list WatchEvent) :
    outcome (Behaviour * list Effect) :=
  match events with
  | [] => Done (self, [])
  | event :: events' =>
      '(self, eff) ← on_if_event self event;
      '(self, eff') ← on_if_events self events'; Done (self, eff ++ eff')
  end.

(** [iter_mut().find(..)] and the assignment to the entry found; [None] when there
    is none. *)
Fixpoint refresh (nodes : list (Node * Instant)) (node : Node) (expiration : Instant) :
    option (list (Node * Instant)) :=
  match nodes with
  | [] => None
  | (n, cur_expires) :: nodes' =>
      if bool_decide (n = node) then Some ((n, Z.max cur_expires expiration) :: nodes')
      else nodes' ← refresh nodes' node expiration; Some ((n, cur_expires) :: nodes')
  end.

(** One address from the channel; the second component is [discovered]. *)
Definition on_received (self : Behaviour) (discovered : list Node) (n : Node * Instant) :
    Behaviour * list Node :=
  let '(node, expiration) := n in
  match refresh (discovered_nodes self) node expiration with
  | Some nodes => (set_nodes self nodes, discovered)
  | None =>
      let self := set_nodes self (discovered_nodes self ++ [(node, expiration)]) in
      let self := set_pending self
        (pending_events self ++ [NewExternalAddrOfPeer node.1 node.2]) in
      (self, discovered ++ [node])
  end.

Fixpoint on_received_all (self : Behaviour) (discovered : list Node)
    (ns : list (Node * Instant)) : Behaviour * list Node :=
  match ns with
  | [] => (self, discovered)
  | n :: ns' => let '(self, discovered) := on_received self discovered n in
                on_received_all self discovered ns'
  end.

(** The [retain] closure: the nodes kept, [expired] and [closest_expiration]. *)
Fixpoint retain_nodes (now : Instant) (closest : option Instant)
    (nodes : list (Node * Instant)) :
    list (Node * Instant) * list Node * option Instant :=
  match nodes with
  | [] => ([], [], closest)
  | (node, expiration) :: nodes' =>
      if expiration <=? now then
        let '(kept, expired, closest) := retain_nodes now closest nodes' in
        (kept, node :: expired, closest)
      else
        let closest := Some (Z.min (default expiration closest) expiration) in
        let '(kept, expired, closest) := retain_nodes now closest nodes' in
        ((node, expiration) :: kept, expired, closest)
  end.

Inductive Step := Continue | ReadyWith (event : ToSwarm) | PendingStep.

(** One iteration of the [loop]. *)
Definition iterate (self : Behaviour) (e : Env) :
    outcome (Behaviour * list Effect * Step) :=
  match pending_events self with
  | event :: rest => Done (set_pending self rest, [], ReadyWith event)
  | [] =>
      '(self, eff) ← on_if_events self (watch e);
      let '(self, discovered) := on_received_all self [] (received e) in
      if negb (bool_decide (discovered = [])) then
        Done (set_pending self (GenerateEvent (Discovered discovered) :: pending_events self),
              eff, Continue)
      else
        let '(kept, expired, closest) := retain_nodes (now e) None (discovered_nodes self) in
        let self := set_nodes self kept in
        if negb (bool_decide (expired = [])) then
          Done (set_pending self (pending_events self ++ [GenerateEvent (Expired expired)]),
                eff, Continue)
        else
          let self := match closest with
                      | Some c => set_closest self (Some (mk_ExpiryTimer c (Some (later e))))
                      | None => self
                      end in
          Done (self, eff, PendingStep)
  end.

(** [poll] with an environment for each iteration; [None] when they run out. *)
Fixpoint poll_loop (self : Behaviour) (envs : list Env) :
    outcome (Behaviour * list Effect * option (option ToSwarm)) :=
  match envs with
  | [] => Done (self, [], None)
  | e :: envs' =>
      '(self, eff, step) ← iterate self e;
      match step with
      | ReadyWith event => Done (self, eff, Some (Some event))
      | PendingStep => Done (self, eff, Some None)
      | Continue => '(self, eff', r) ← poll_loop self envs'; Done (self, eff ++ eff', r)
      end
  end.

(** The result is [Some (Some event)] for [Poll::Ready(event)], [Some None] for
    [Poll::Pending]. *)
Definition poll_behaviour (self : Behaviour) (envs : list Env) :
    outcome (Behaviour * list Effect * option (option ToSwarm)) :=
  if disabled (config self) then Done (set_pending self [], [], Some None)
  else poll_loop self envs.

(** ** Lemmas *)

Lemma refresh_none nodes node t : refresh nodes node t = None ↔ node ∉ nodes.*1.
Proof.
  induction nodes as [|[n c] nodes IH]; cbn [refresh].
  { split; [intros _; apply not_elem_of_nil|done]. }
  rewrite fmap_cons, not_elem_of_cons. cbn [fst].
  destruct (decide (n = node)) as [->|Hne]; [rewrite bool_decide_true by done; naive_solver|].
  rewrite bool_decide_false by done.
  destruct (refresh nodes node t); cbn [mbind option_bind]; naive_solver.
Qed.

Lemma refresh_keys nodes node t nodes' : refresh nodes node t = Some nodes' → nodes'.*1 = nodes.*1.
Proof.
  revert nodes'. induction nodes as [|[n c] nodes IH]; intros nodes'; cbn [refresh]; [done|].
  case_bool_decide; [by intros [= <-]|].
  intros (nodes1 & Hn & [= <-])%bind_Some. rewrite !fmap_cons. by rewrite (IH nodes1).
Qed.

(** The nodes an [on_received] run adds: each node not yet known, once. *)
Fixpoint new_nodes (known : list Node) (ns : list (Node * Instant)) : list Node :=
  match ns with
  | [] => []
  | (node, _) :: ns' =>
      if bool_decide (node ∈ known) then new_nodes known ns'
      else node :: new_nodes (known ++ [node]) ns'
  end.

Definition new_addr (node : Node) : ToSwarm := NewExternalAddrOfPeer node.1 node.2.

Lemma on_received_all_spec self disc ns self' disc' :
  on_received_all self disc ns = (self', disc') →
  let added := new_nodes (discovered_nodes self).*1 ns in
  (discovered_nodes self').*1 = (discovered_nodes self).*1 ++ added
  ∧ disc' = disc ++ added
  ∧ pending_events self' = pending_events self ++ (new_addr <$> added)
  ∧ config self' = config self ∧ if_tasks self' = if_tasks self
  ∧ closest_expiration self' = closest_expiration self.
Proof.
  revert self disc. induction ns as [|[node t] ns IH]; intros self disc.
  { intros [= <- <-]. cbn. by rewrite !app_nil_r. }
  cbn [on_received_all on_received new_nodes]. destruct (refresh _ _ _) as [nodes|] eqn:Hr.
  - intros Hrun. apply IH in Hrun. cbn [set_nodes discovered_nodes] in Hrun.
    rewrite (refresh_keys _ _ _ _ Hr) in Hrun. rewrite bool_decide_true; [done|].
    apply dec_stable. by rewrite <- (refresh_none _ _ t), Hr.
  - intros Hrun. apply IH in Hrun. cbn [set_nodes set_pending discovered_nodes pending_events] in Hrun.
    rewrite fmap_app in Hrun. apply refresh_none in Hr. rewrite bool_decide_false by done.
    destruct Hrun as (Hn & Hd & Hp & Hrest). rewrite Hn, Hd, Hp, <- !app_assoc. done.
Qed.

Lemma new_nodes_NoDup known ns : NoDup known → NoDup (known ++ new_nodes known ns).
Proof.
  revert known. induction ns as [|[node t] ns IH]; intros known Hk; cbn [new_nodes].
  { by rewrite app_nil_r. }
  case_bool_decide as Hin; [by apply IH|].
  replace (known ++ node :: _) with ((known ++ [node]) ++ new_nodes (known ++ [node]) ns)
    by by rewrite <- app_assoc.
  apply IH, NoDup_app. split; [done|]. split; [|apply NoDup_singleton].
  by intros x Hx ->%list_elem_of_singleton.
Qed.

Lemma retain_nodes_spec t closest nodes kept expired c :
  retain_nodes t closest nodes = (kept, expired, c) →
  kept = filter (λ n, t < n.2) nodes ∧ expired = (filter (λ n, n.2 ≤ t) nodes).*1
  ∧ (kept = [] → c = closest)
  ∧ (∀ m, closest = Some m ∨ (closest = None ∧ kept ≠ []) →
      ∃ m', c = Some m' ∧ (closest = Some m → m' ≤ m) ∧ (∀ n, n ∈ kept → m' ≤ n.2)
        ∧ (closest = Some m' ∨ ∃ n, n ∈ kept ∧ n.2 = m')).
Proof.
  revert closest kept expired c.
  induction nodes as [|[node e] nodes IH]; intros closest kept expired c; cbn [retain_nodes].
  { intros [= <- <- <-]. repeat (split; [done|]). intros m [->|[_ ?]]; [|done].
    exists m. split; [done|]. split; [by intros|]. split; [by intros n ?%elem_of_nil|by left]. }
  destruct (Z.leb_spec e t) as [He|He].
  - destruct (retain_nodes t closest nodes) as [[k x] c'] eqn:Hr. intros [= <- <- <-].
    apply IH in Hr as (-> & -> & Hn & Hm).
    rewrite filter_cons_False, filter_cons_True by (simpl; lia). done.
  - destruct (retain_nodes t _ nodes) as [[k x] c'] eqn:Hr. intros [= <- <- <-].
    apply IH in Hr as (-> & -> & Hn & Hm).
    rewrite filter_cons_True, filter_cons_False by (simpl; lia).
    repeat (split; [done|]). intros m _.
    destruct (Hm (Z.min (default e closest) e)) as (m' & -> & Hle & Hall & Hex); [by left|].
    specialize (Hle eq_refl). exists m'. split; [done|]. split; [|split].
    + intros ->. simpl in Hle. lia.
    + intros n [->|Hn']%elem_of_cons; [simpl; lia|by apply Hall].
    + destruct Hex as [[= <-]|(n & Hn' & <-)]; [|right; exists n; split; [by right|done]].
      destruct closest as [m0|]; simpl.
      * destruct (Z.min_spec m0 e) as [[_ ->]|[_ ->]]; [by left|].
        right. exists (node, e). split; [by left|done].
      * right. exists (node, e). split; [by left|]. simpl. lia.
Qed.

Lemma on_if_event_keeps self event self' eff :
  on_if_event self event = Done (self', eff) →
  config self' = config self ∧ discovered_nodes self' = discovered_nodes self
  ∧ pending_events self' = pending_events self ∧ closest_expiration self' = closest_expiration self.
Proof.
  destruct event as [a sys jitter t0 handle|a|]; cbn [on_if_event].
  - repeat case_match; try (by intros [= <- <-]).
    intros ([st|e] & _ & Hst)%bind_Done; by simplify_eq.
  - case_match; by intros [= <- <-].
  - by intros [= <- <-].
Qed.

Lemma on_if_events_keeps self events self' eff :
  on_if_events self events = Done (self', eff) →
  config self' = config self ∧ discovered_nodes self' = discovered_nodes self
  ∧ pending_events self' = pending_events self ∧ closest_expiration self' = closest_expiration self.
Proof.
  revert self eff. induction events as [|ev events IH]; intros self eff; cbn [on_if_events].
  { by intros [= <- <-]. }
  intros ([self1 eff1] & Hev & ([self2 eff2] & Hevs & [= -> <-])%bind_Done)%bind_Done.
  apply on_if_event_keeps in Hev as (H1 & H2 & H3 & H4).
  apply IH in Hevs as (H1' & H2' & H3' & H4'). by rewrite <- H1, <- H2, <- H3, <- H4.
Qed.

Lemma NoDup_keys_eq (nodes : list (Node * Instant)) n t t' :
  NoDup nodes.*1 → (n, t) ∈ nodes → (n, t') ∈ nodes → t = t'.
Proof.
  induction nodes as [|[m u] nodes IH]; rewrite ?fmap_cons, ?NoDup_cons; [by intros _ ?%elem_of_nil|].
  intros [Hm Hnd] [Heq|Hin1]%elem_of_cons [Heq'|Hin2]%elem_of_cons; simplify_eq; [done| | |by apply IH].
  - destruct Hm. by apply (list_elem_of_fmap_2 fst) in Hin2.
  - destruct Hm. by apply (list_elem_of_fmap_2 fst) in Hin1.
Qed.

(** ** The life of a behaviour *)

(** The nodes a listener of the events believes alive. *)
Definition apply_event (live : list Node) (ev : ToSwarm) : list Node :=
  match ev with
  | GenerateEvent (Discovered l) => live ++ l
  | GenerateEvent (Expired l) => filter (λ n, n ∉ l) live
  | NewExternalAddrOfPeer _ _ => live
  end.
Definition live_nodes (events : list ToSwarm) : list Node := foldl apply_event [] events.

Definition emitted_of (r : option (option ToSwarm)) : list ToSwarm :=
  match r with Some (Some ev) => [ev] | _ => [] end.

(** [life b evs b']: from [b], emitting [evs], to [b']. *)
Inductive life (b : Behaviour) : list ToSwarm → Behaviour → Prop :=
| life_refl : life b [] b
| life_poll evs b' envs b'' eff r :
    life b evs b' → poll_behaviour b' envs = Done (b'', eff, Some r) →
    life b (evs ++ emitted_of (Some r)) b''
| life_swarm evs b' {F} (update : F → list Multiaddr → list Multiaddr) ev :
    life b evs b' → life b evs (on_swarm_event update b' ev)
| life_expire evs b' t p : life b evs b' → life b evs (expire_node b' t p).

(** What the emitted and pending events say is what the behaviour holds. *)
Definition accounted (evs : list ToSwarm) (b : Behaviour) : Prop :=
  NoDup (discovered_nodes b).*1 ∧ live_nodes (evs ++ pending_events b) = (discovered_nodes b).*1
  ∧ (disabled (config b) = true → (discovered_nodes b).*1 = [] ∧ pending_events b = []).

Lemma live_nodes_app evs1 evs2 : live_nodes (evs1 ++ evs2) = foldl apply_event (live_nodes evs1) evs2.
Proof. apply foldl_app. Qed.

Lemma live_new_addrs live ns : foldl apply_event live (new_addr <$> ns) = live.
Proof. by induction ns. Qed.

Lemma filter_keys (P : Instant → Prop) `{∀ t, Decision (P t)} (nodes : list (Node * Instant)) :
  NoDup nodes.*1 →
  (filter (λ n, ¬ P n.2) nodes).*1 = filter (λ n, n ∉ (filter (λ n, P n.2) nodes).*1) nodes.*1.
Proof.
  intros Hnd.
  enough (∀ nodes', (∀ n, n ∈ nodes' → n ∈ nodes) →
    (filter (λ n, ¬ P n.2) nodes').*1
      = filter (λ n, n ∉ (filter (λ n, P n.2) nodes).*1) nodes'.*1) as Hgen by by apply Hgen.
  induction nodes' as [|[n t] nodes' IH]; intros Hin; [done|].
  rewrite fmap_cons, !filter_cons. simpl.
  rewrite <- IH by (intros; apply Hin; by right).
  assert ((n, t) ∈ nodes) as Hnt by (apply Hin; left).
  destruct (decide (P t)) as [HP|HP].
  - rewrite decide_False by tauto. rewrite decide_False; [done|]. intros Hn. apply Hn.
    apply list_elem_of_fmap. exists (n, t). split; [done|]. by apply list_elem_of_filter.
  - rewrite decide_True by done. rewrite decide_True; [done|].
    intros ([n' t'] & -> & [HP' Hn']%list_elem_of_filter)%list_elem_of_fmap. simpl in *.
    apply HP. by rewrite (NoDup_keys_eq nodes n' t t').
Qed.

(** What one iteration of the loop does when nothing is pending: the state, and
    why it stops. *)
Record idle_iteration (self : Behaviour) (e : Env) (self' : Behaviour) (step : Step) : Prop := {
  idle_config : config self' = config self;
  idle_step :
    let added := new_nodes (discovered_nodes self).*1 (received e) in
    (step = Continue ∧ added ≠ []
      ∧ (discovered_nodes self').*1 = (discovered_nodes self).*1 ++ added
      ∧ pending_events self' = GenerateEvent (Discovered added) :: (new_addr <$> added))
    ∨ (added = [] ∧ ∃ nodes, nodes.*1 = (discovered_nodes self).*1
      ∧ discovered_nodes self' = filter (λ n, now e < n.2) nodes
      ∧ let expired := (filter (λ n, n.2 ≤ now e) nodes).*1 in
        (step = Continue ∧ expired ≠ [] ∧ pending_events self' = [GenerateEvent (Expired expired)])
        ∨ (step = PendingStep ∧ expired = [] ∧ pending_events self' = []
           ∧ (discovered_nodes self' ≠ [] →
              ∃ m, closest_expiration self' = Some (mk_ExpiryTimer m (Some (later e)))
              ∧ (∀ n, n ∈ discovered_nodes self' → m ≤ n.2)
              ∧ ∃ n, n ∈ discovered_nodes self' ∧ n.2 = m)))
}.

Lemma iterate_idle self e self' eff step :
  pending_events self = [] → iterate self e = Done (self', eff, step) →
  idle_iteration self e self' step.
Proof.
  intros Hpend. unfold iterate. rewrite Hpend.
  intros ([self1 eff1] & Hif & Hrest)%bind_Done.
  apply on_if_events_keeps in Hif as (Hc1 & Hn1 & Hp1 & Hcl1).
  destruct (on_received_all self1 [] (received e)) as [self2 disc] eqn:Hrec.
  apply on_received_all_spec in Hrec as (Hn2 & Hd2 & Hp2 & Hc2 & _ & Hcl2).
  rewrite Hn1 in *. rewrite Hp1, Hpend in Hp2. cbn [app] in *. subst disc.
  destruct (decide (new_nodes (discovered_nodes self).*1 (received e) = [])) as [Hnil|Hne].
  2:{ rewrite bool_decide_false in Hrest by done. simplify_eq/=. split; [simpl; congruence|].
      left. by rewrite Hp2. }
  rewrite bool_decide_true in Hrest by done. cbn [negb] in Hrest.
  rewrite Hnil in *. rewrite app_nil_r in Hn2. cbn [fmap list_fmap] in Hp2.
  destruct (retain_nodes (now e) None (discovered_nodes self2)) as [[kept expired] closest] eqn:Hret.
  apply retain_nodes_spec in Hret as (-> & -> & Hclosest & Hmin).
  destruct (decide ((filter (λ n, n.2 ≤ now e) (discovered_nodes self2)).*1 = [])) as [Hx|Hx].
  - rewrite bool_decide_true in Hrest by done. cbn [negb] in Hrest. injection Hrest as <- <- <-.
    set (self3 := match closest with Some c => _ | None => _ end).
    assert (config self3 = config self ∧ pending_events self3 = []
      ∧ discovered_nodes self3 = filter (λ n, now e < n.2) (discovered_nodes self2)
      ∧ ∀ c, closest = Some c → closest_expiration self3 = Some (mk_ExpiryTimer c (Some (later e)))) as (Hc3 & Hp3 & Hn3 & Hcl3)
      by (unfold self3; destruct closest; simpl; naive_solver congruence).
    split; [done|]. right. split; [done|]. exists (discovered_nodes self2).
    split; [done|]. split; [done|]. right. repeat (split; [done|]). rewrite Hn3. intros Hk.
    destruct (Hmin 0) as (m & Hm & _ & Hall & [|Hex]); [by right|done|]. eauto.
  - rewrite bool_decide_false in Hrest by done. simplify_eq/=. split; [simpl; congruence|].
    right. split; [done|]. exists (discovered_nodes self2). split; [done|]. split; [done|].
    left. by rewrite Hp2.
Qed.

Lemma iterate_ready self e ev rest :
  pending_events self = ev :: rest →
  iterate self e = Done (set_pending self rest, [], ReadyWith ev).
Proof. unfold iterate. by intros ->. Qed.

Lemma accounted_idle evs self e self' step :
  idle_iteration self e self' step → pending_events self = [] → disabled (config self) = false →
  accounted evs self → accounted evs self'.
Proof.
  intros [Hc Hstep] Hp Hdis (Hnd & Hlive & _). rewrite Hp, app_nil_r in Hlive.
  split; [|split; [|by rewrite Hc, Hdis]].
  - destruct Hstep as [(_ & _ & -> & _)|(_ & nodes & Hk & -> & _)]; [by apply new_nodes_NoDup|].
    apply (sublist_NoDup _ nodes.*1); [by rewrite Hk|]. apply fmap_sublist, sublist_filter.
  - rewrite live_nodes_app. rewrite Hlive.
    destruct Hstep as [(_ & _ & -> & ->)|(_ & nodes & Hk & Hn & [(_ & _ & ->)|(_ & Hx & -> & _)])].
    + cbn [foldl apply_event]. by rewrite live_new_addrs.
    + cbn [foldl apply_event]. rewrite Hn, <- Hk.
      pose proof (filter_keys (λ t, t ≤ now e) nodes) as Hkeys.
      etrans; [symmetry; apply Hkeys; by rewrite Hk|]. f_equal. apply list_filter_iff. intros [n t]. simpl. lia.
    + rewrite Hn, <- Hk. cbn [foldl]. f_equal. symmetry. apply filter_all.
      apply Forall_forall. intros [n t] Hin. simpl. apply Z.nle_gt. intros Hle.
      apply fmap_nil_inv in Hx. assert ((n, t) ∈ filter (λ n, n.2 ≤ now e) nodes) as Habs
        by by apply list_elem_of_filter.
      rewrite Hx in Habs. by apply elem_of_nil in Habs.
Qed.

Lemma idle_pending self e self' step :
  idle_iteration self e self' step →
  (step = Continue ∧ pending_events self' ≠ []) ∨ (step = PendingStep ∧ pending_events self' = []).
Proof.
  intros [_ [(-> & _ & _ & ->)|(_ & nodes & _ & _ & [(-> & _ & ->)|(-> & _ & -> & _)])]]; auto.
Qed.

Lemma poll_loop_accounted evs envs self self' eff r :
  accounted evs self → disabled (config self) = false →
  poll_loop self envs = Done (self', eff, Some r) →
  accounted (evs ++ emitted_of (Some r)) self' ∧ config self' = config self.
Proof.
  revert self eff. induction envs as [|e envs IH]; intros self eff Hacc Hdis; [done|].
  cbn [poll_loop]. intros ([[self1 eff1] step] & Hit & Hrest)%bind_Done.
  destruct (pending_events self) as [|ev rest] eqn:Hp.
  - pose proof (iterate_idle _ _ _ _ _ Hp Hit) as Hidle.
    pose proof (accounted_idle evs _ _ _ _ Hidle Hp Hdis Hacc) as Hacc1.
    pose proof (idle_config _ _ _ _ Hidle) as Hc1.
    destruct (idle_pending _ _ _ _ Hidle) as [[-> _]|[-> _]].
    + apply bind_Done in Hrest as ([[self2 eff2] r2] & Hloop & [= -> _ ->]).
      rewrite <- Hc1. eapply IH; [done|by rewrite Hc1|exact Hloop].
    + injection Hrest as -> _ <-. cbn [emitted_of]. by rewrite app_nil_r.
  - rewrite (iterate_ready _ _ _ _ Hp) in Hit. injection Hit as <- <- <-. injection Hrest as <- <- <-.
    cbn [emitted_of]. destruct Hacc as (Hnd & Hlive & Hd). split; [|done].
    split; [done|]. split; [|by intros Ht; simpl in Ht; congruence].
    cbn [set_pending pending_events discovered_nodes]. by rewrite <- app_assoc, <- Hlive, Hp.
Qed.

Lemma life_accounted b evs b' :
  accounted [] b → life b evs b' → accounted evs b' ∧ config b' = config b.
Proof.
  intros Hb. induction 1 as [|evs b1 envs b2 eff r Hlife [IH Hc] Hpoll
    |evs b1 F update ev Hlife [IH Hc]|evs b1 t p Hlife [IH Hc]]; [done| |done|].
  - unfold poll_behaviour in Hpoll. destruct (disabled (config b1)) eqn:Hdis.
    + simplify_eq. cbn [emitted_of]. rewrite app_nil_r. destruct IH as (Hnd & Hlive & Hd).
      destruct (Hd Hdis) as [Hn Hp]. rewrite Hp in Hlive. split; [|done].
      split; [done|]. split; [done|]. intros _. by split.
    + apply (poll_loop_accounted evs) in Hpoll as [Hacc Hc']; [|done..]. by rewrite Hc'.
  - destruct IH as (Hnd & Hlive & Hd). split; [|done]. unfold accounted, expire_node.
    cbn [set_closest set_nodes discovered_nodes pending_events config].
    assert (((λ n : Node * Instant, if bool_decide (n.1.1 = p) then (n.1, t) else n)
      <$> discovered_nodes b1).*1 = (discovered_nodes b1).*1) as ->; [|done].
    rewrite <- list_fmap_compose. apply list_fmap_ext. intros i [n u] _. simpl. by case_bool_decide.
Qed.

(** The interfaces served: not loopback, and of the configured family. *)
Definition eligible (c : Config) (a : IpAddr) : Prop :=
  is_loopback a = false ∧ is_ipv6 a = enable_ipv6 c.
Definition tasks_ok (b : Behaviour) : Prop := ∀ a h, if_tasks b !! a = Some h → eligible (config b) a.

Lemma on_if_events_tasks self events self' eff :
  on_if_events self events = Done (self', eff) → tasks_ok self → tasks_ok self'.
Proof.
  revert self eff. induction events as [|ev events IH]; intros self eff; cbn [on_if_events].
  { by intros [= <- _]. }
  intros ([self1 eff1] & Hev & ([self2 eff2] & Hevs & [= -> _])%bind_Done)%bind_Done Hok.
  eapply IH; [exact Hevs|]. clear Hevs IH. destruct ev as [a sys jitter t0 handle|a|]; cbn [on_if_event] in Hev.
  - destruct (is_loopback a) eqn:Hl; [by simplify_eq|].
    destruct (_ || _) eqn:Hfam; [by simplify_eq|].
    destruct (if_tasks self !! a) eqn:Ha; [by simplify_eq|].
    apply bind_Done in Hev as ([st|e] & _ & Hev); simplify_eq; [|done].
    intros a' h. cbn [set_if_tasks if_tasks config].
    intros [[<- <-]|[_ Hin]]%lookup_insert_Some; [|exact (Hok _ _ Hin)].
    split; [done|]. destruct a, (enable_ipv6 (config self)); done.
  - destruct (if_tasks self !! a); simplify_eq; [|done].
    intros a' h. cbn [set_if_tasks if_tasks config].
    intros [_ Hin]%lookup_delete_Some. exact (Hok _ _ Hin).
  - by simplify_eq.
Qed.

Lemma iterate_tasks self e self' eff step :
  iterate self e = Done (self', eff, step) → tasks_ok self → tasks_ok self'.
Proof.
  unfold iterate. destruct (pending_events self); [|by intros [= <- _ _]].
  intros ([self1 eff1] & Hif & Hrest)%bind_Done Hok.
  pose proof (on_if_events_tasks _ _ _ _ Hif Hok) as Hok1.
  destruct (on_received_all self1 [] (received e)) as [self2 disc] eqn:Hrec.
  apply on_received_all_spec in Hrec as (_ & _ & _ & Hc2 & Ht2 & _).
  assert (tasks_ok self2) as Hok2 by (unfold tasks_ok; rewrite Ht2, Hc2; exact Hok1).
  destruct (negb _); [by simplify_eq|].
  destruct (retain_nodes _ _ _) as [[kept expired] closest].
  destruct (negb _); [by simplify_eq|]. destruct closest; by simplify_eq.
Qed.

Lemma poll_loop_tasks envs self self' eff r :
  poll_loop self envs = Done (self', eff, r) → tasks_ok self → tasks_ok self'.
Proof.
  revert self eff. induction envs as [|e envs IH]; intros self eff; cbn [poll_loop].
  { by intros [= <- _ _]. }
  intros ([[self1 eff1] step] & Hit & Hrest)%bind_Done Hok.
  pose proof (iterate_tasks _ _ _ _ _ Hit Hok) as Hok1.
  destruct step; [|by simplify_eq..].
  apply bind_Done in Hrest as ([[self2 eff2] r2] & Hloop & [= -> _ ->]). by eapply IH.
Qed.

(** The creation of instances does not overflow. *)
Definition env_ok (c : Config) (e : Env) : Prop :=
  Forall (λ ev, match ev with
                | Up _ _ jitter _ _ => MdnsConfig.query_interval c + from_millis jitter ≤ DURATION_MAX
                | _ => True
                end) (watch e).

Lemma on_if_events_done self events :
  Forall (λ ev, match ev with
                | Up _ _ jitter _ _ => MdnsConfig.query_interval (config self) + from_millis jitter ≤ DURATION_MAX
                | _ => True
                end) events →
  ∃ r, on_if_events self events = Done r.
Proof.
  intros Hall. remember (config self) as c eqn:Hc. revert self Hc.
  induction Hall as [|ev events Hev Hevs IH]; intros self ->; [by eexists|].
  cbn [on_if_events]. assert (∃ r, on_if_event self ev = Done r) as [[self1 eff1] He].
  { destruct ev as [a sys jitter t0 handle|a|]; cbn [on_if_event]; repeat case_match; try by eexists.
    unfold new. destruct (run_calls _ _); [|by eexists]. destruct (run_calls _ _); [|by eexists].
    destruct (Z.ltb_spec DURATION_MAX (MdnsConfig.query_interval (config self) + from_millis jitter)); [lia|].
    by eexists. }
  rewrite He. apply on_if_event_keeps in He as [Hc _]. cbn [mbind outcome_bind].
  destruct (IH self1) as [[self2 eff2] ->]; [done|]. by eexists.
Qed.

Lemma expired_keys (t : Instant) (nodes : list (Node * Instant)) n :
  NoDup nodes.*1 →
  n ∈ (filter (λ n, n.2 ≤ t) nodes).*1 ↔ n ∈ nodes.*1 ∧ n ∉ (filter (λ n, t < n.2) nodes).*1.
Proof.
  intros Hnd. split.
  - intros ([m u] & -> & [Hle Hin]%list_elem_of_filter)%list_elem_of_fmap. split.
    + by apply (list_elem_of_fmap_2 fst) in Hin.
    + intros ([m' u'] & Hm & [Hlt Hin']%list_elem_of_filter)%list_elem_of_fmap. simpl in *. subst m'.
      rewrite (NoDup_keys_eq _ m u u' Hnd Hin Hin') in Hle. lia.
  - intros [([m u] & -> & Hin)%list_elem_of_fmap Hn]. apply (list_elem_of_fmap_2 fst _ (m, u)).
    apply list_elem_of_filter. split; [|done]. simpl. apply Z.nlt_ge. intros Hlt. apply Hn.
    apply (list_elem_of_fmap_2 fst _ (m, u)). by apply list_elem_of_filter.
Qed.

Lemma refresh_elem nodes node t nodes' :
  NoDup nodes.*1 → refresh nodes node t = Some nodes' →
  ∀ m u', (m, u') ∈ nodes' ↔
    (m ≠ node ∧ (m, u') ∈ nodes) ∨ (m = node ∧ ∃ u, (node, u) ∈ nodes ∧ u' = Z.max u t).
Proof.
  revert nodes'. induction nodes as [|[n c] nodes IH]; intros nodes'; cbn [refresh]; [done|].
  rewrite fmap_cons, NoDup_cons. intros [Hn Hnd]. cbn [fst] in Hn.
  assert (∀ u, (n, u) ∉ nodes) as Hfresh
    by (intros u Hu; apply Hn; by apply (list_elem_of_fmap_2 fst) in Hu).
  case_bool_decide as Heq.
  - intros [= <-] m u'. subst n. rewrite !elem_of_cons. setoid_rewrite elem_of_cons. split.
    + intros [[= -> ->]|Hin]; [right; eauto|]. left. split; [|by auto]. intros ->. by eapply Hfresh.
    + intros [[Hne [[= ]|Hin]]|(-> & u & [[= ->]|Hin] & ->)]; [done|by auto|by auto|by destruct (Hfresh u)].
  - intros (nodes1 & Hr & [= <-])%bind_Some m u'. rewrite !elem_of_cons.
    setoid_rewrite elem_of_cons. rewrite (IH nodes1) by done. split.
    + intros [[= -> ->]|[[Hne Hin]|(-> & u & Hin & ->)]]; [by auto|by auto|]. right. eauto.
    + intros [[Hne [[= -> ->]|Hin]]|(-> & u & [[= -> ->]|Hin] & ->)]; [by auto|by auto|done|].
      right. right. eauto.
Qed.

(** ** Theorems *)

(** C22: Over any life of a behaviour (polls, swarm events, expirations), the events
    emitted so far and those pending name every node discovered and not yet
    expired, exactly as the node list holds it: no pair of peer and address is
    held, announced or expired twice. *)
Theorem events_account_for_nodes {E} (watcher : result E ()) cfg p b evs b' :
  new_behaviour watcher cfg p = Ok b → life b evs b' →
  NoDup (discovered_nodes b').*1
  ∧ live_nodes (evs ++ pending_events b') = (discovered_nodes b').*1.
Proof.
  unfold new_behaviour. intros (_ & _ & [= <-])%bind_Ok Hlife.
  apply life_accounted in Hlife as [(Hnd & Hlive & _) _]; [done|].
  split; [apply NoDup_nil_2|done].
Qed.

(** Every instance task of a behaviour serves an interface that is not loopback
    and has the configured address family, after any life. *)
Theorem tasks_eligible {E} (watcher : result E ()) cfg p b evs b' a h :
  new_behaviour watcher cfg p = Ok b → life b evs b' →
  if_tasks b' !! a = Some h → eligible (config b') a.
Proof.
  unfold new_behaviour. intros (_ & _ & [= <-])%bind_Ok Hlife. revert a h.
  change (tasks_ok b'). induction Hlife as [|evs b1 envs b2 eff r Hlife IH Hpoll| |];
    [intros a h Ha; cbn [if_tasks] in Ha; by rewrite lookup_empty in Ha| |exact IHHlife|exact IHHlife].
  unfold poll_behaviour in Hpoll. destruct (disabled _); [by simplify_eq|].
  by eapply poll_loop_tasks.
Qed.

(** C36: A poll ends in at most two iterations of its loop, and does not panic. *)
Theorem poll_terminates b e1 e2 :
  env_ok (config b) e1 →
  ∃ b' eff r, poll_behaviour b [e1; e2] = Done (b', eff, Some r).
Proof.
  intros Henv. unfold poll_behaviour. destruct (disabled (config b)); [by eauto|].
  destruct (pending_events b) as [|ev rest] eqn:Hp.
  - destruct (iterate b e1) as [[[b1 eff1] step]|] eqn:Hit.
    + cbn [poll_loop]. rewrite Hit. cbn [mbind outcome_bind].
      pose proof (iterate_idle _ _ _ _ _ Hp Hit) as Hidle.
      destruct (idle_pending _ _ _ _ Hidle) as [[-> Hne]|[-> _]]; [|by eauto].
      destruct (pending_events b1) as [|ev rest] eqn:Hp1; [done|].
      rewrite (iterate_ready _ e2 _ _ Hp1). cbn. eauto.
    + unfold iterate in Hit. rewrite Hp in Hit.
      destruct (on_if_events_done b (watch e1) Henv) as [[b1 eff1] Hif].
      rewrite Hif in Hit. cbn [mbind outcome_bind] in Hit.
      by repeat (case_match; simplify_eq).
  - cbn [poll_loop]. rewrite (iterate_ready _ e1 _ _ Hp). cbn. eauto.
Qed.

(** The result of a poll with nothing pending.  New addresses are announced in
    one [Discovered] event, with the per-address events queued behind it; else
    what has expired is announced in one [Expired] event; else the poll is
    pending, every node held expires later than now, and the timer fires when
    the first of them does. *)
Theorem poll_result b e1 e2 b' eff r :
  NoDup (discovered_nodes b).*1 → disabled (config b) = false → pending_events b = [] →
  poll_behaviour b [e1; e2] = Done (b', eff, Some r) →
  let added := new_nodes (discovered_nodes b).*1 (received e1) in
  (added ≠ [] ∧ r = Some (GenerateEvent (Discovered added))
     ∧ pending_events b' = (new_addr <$> added)
     ∧ (discovered_nodes b').*1 = (discovered_nodes b).*1 ++ added)
  ∨ (added = [] ∧ (∀ n, n ∈ discovered_nodes b' → now e1 < n.2) ∧ pending_events b' = []
     ∧ ((∃ l, l ≠ [] ∧ r = Some (GenerateEvent (Expired l))
           ∧ ∀ n, n ∈ l ↔ n ∈ (discovered_nodes b).*1 ∧ n ∉ (discovered_nodes b').*1)
        ∨ (r = None ∧ (discovered_nodes b').*1 = (discovered_nodes b).*1
           ∧ (discovered_nodes b' ≠ [] →
              ∃ m, closest_expiration b' = Some (mk_ExpiryTimer m (Some (later e1))) ∧ (∀ n, n ∈ discovered_nodes b' → m ≤ n.2)
                ∧ ∃ n, n ∈ discovered_nodes b' ∧ n.2 = m)))).
Proof.
  intros Hnd Hdis Hp. unfold poll_behaviour. rewrite Hdis. cbn [poll_loop].
  intros ([[b1 eff1] step] & Hit & Hrest)%bind_Done. set (added := new_nodes _ _).
  apply iterate_idle in Hit as [_ Hstep]; [|done]. fold added in Hstep.
  destruct Hstep as [(-> & Hne & Hk & Hpend)|(Hnil & nodes & Hk & Hn & Hstep)].
  { left. cbn [poll_loop] in Hrest. rewrite (iterate_ready _ _ _ _ Hpend) in Hrest.
    cbn in Hrest. by simplify_eq. }
  right. split; [done|].
  assert (∀ n, n ∈ discovered_nodes b1 → now e1 < n.2) as Hlate
    by (rewrite Hn; by intros n [? _]%list_elem_of_filter).
  destruct Hstep as [(-> & Hne & Hpend)|(-> & Hx & Hpend & Hmin)].
  - cbn [poll_loop] in Hrest. rewrite (iterate_ready _ _ _ _ Hpend) in Hrest.
    cbn in Hrest. simplify_eq. split; [exact Hlate|]. split; [done|]. left.
    eexists. split; [exact Hne|]. split; [done|]. cbn [set_pending discovered_nodes].
    rewrite Hn, <- Hk. intros n. by apply expired_keys; rewrite Hk.
  - simplify_eq. split; [exact Hlate|]. split; [done|]. right. split; [done|]. split; [|done].
    rewrite Hn, <- Hk. f_equal. apply filter_all, Forall_forall. intros n Hin.
    apply Z.nle_gt. intros Hle. apply fmap_nil_inv in Hx.
    assert (n ∈ filter (λ n, n.2 ≤ now e1) nodes) as Habs by by apply list_elem_of_filter.
    rewrite Hx in Habs. by apply elem_of_nil in Habs.
Qed.

(** A node expires at the latest of its announced expirations: receiving an
    address again can only extend its life. *)
Theorem renewal_takes_latest self ns self' disc node t' :
  NoDup (discovered_nodes self).*1 →
  on_received_all self [] ns = (self', disc) → (node, t') ∈ discovered_nodes self' →
  ((node, t') ∈ discovered_nodes self ∨ (node, t') ∈ ns)
  ∧ ∀ t, (node, t) ∈ discovered_nodes self ∨ (node, t) ∈ ns → t ≤ t'.
Proof.
  revert self disc. generalize (@nil Node) as disc0.
  induction ns as [|[m u] ns IH]; intros disc0 self disc Hnd.
  { intros [= <- <-] Hin. split; [by left|]. intros t [Ht| []%elem_of_nil].
    by rewrite (NoDup_keys_eq _ node t t' Hnd Ht Hin). }
  cbn [on_received_all on_received]. setoid_rewrite elem_of_cons.
  destruct (refresh (discovered_nodes self) m u) as [nodes|] eqn:Hr; intros Hrun Hin.
  - pose proof (refresh_elem _ _ _ _ Hnd Hr) as Helem.
    eapply IH in Hrun as [Hex Hall]; [|by cbn; rewrite (refresh_keys _ _ _ _ Hr)|exact Hin].
    cbn [set_nodes discovered_nodes] in *. split.
    + destruct Hex as [Hex|]; [|by auto]. apply Helem in Hex as [[_ ?]|(-> & v & Hv & ->)]; [by auto|].
      destruct (Z.max_spec v u) as [[_ ->]|[_ ->]]; auto.
    + intros t Ht. destruct (decide (node = m)) as [->|Hne].
      * assert (∃ v, (m, v) ∈ discovered_nodes self) as [v Hv].
        { assert (m ∈ (discovered_nodes self).*1) as ([m' v] & -> & Hv)%list_elem_of_fmap; [|by eauto].
          apply dec_stable. by rewrite <- (refresh_none _ _ u), Hr. }
        assert (Z.max v u ≤ t') as Hmax by (apply Hall; left; apply Helem; naive_solver).
        destruct Ht as [Ht|[Ht|Ht]]; [|simplify_eq; lia|by apply Hall; right].
        rewrite (NoDup_keys_eq _ m t v Hnd Ht Hv). lia.
      * apply Hall. destruct Ht as [Ht|[Ht|Ht]]; [left; apply Helem; naive_solver|congruence|by right].
  - apply refresh_none in Hr.
    eapply IH in Hrun as [Hex Hall]; [| |exact Hin].
    + cbn [set_nodes set_pending discovered_nodes] in *. rewrite elem_of_app, list_elem_of_singleton in Hex.
      split; [by intuition|]. intros t Ht. apply Hall. rewrite elem_of_app, list_elem_of_singleton.
      by intuition.
    + cbn. rewrite fmap_app. apply NoDup_app. split; [done|]. split; [|apply NoDup_singleton].
      by intros x Hx ->%list_elem_of_singleton.
Qed.
End behaviour.

(** ** Witnesses *)

Definition wit_behaviour : Behaviour (H:=list_libp2p) :=
  mk_Behaviour (H:=list_libp2p) default_config ∅ [] None [] 1%positive [].
Definition wit_node : positive * list toy_protocol := (2%positive, [inl (10, 0, 0, 1); inr (inr 80)]).

(** An interface comes up and a node is discovered; later it has expired. *)
Definition wit_env1 : Env (H:=list_libp2p) := mk_Env (H:=list_libp2p)
  [Up (V4 (ipv4 127 0 0 1)) (λ _, Ok ()) 5 0 1; Up (V4 (ipv4 192 168 1 7)) (λ _, Ok ()) 5 0 2]
  [(wit_node, 100); (wit_node, 90)] 10 10.
Definition wit_env2 : Env (H:=list_libp2p) := mk_Env (H:=list_libp2p) [] [] 200 200.

Definition wit_poll (b : Behaviour (H:=list_libp2p)) (e1 e2 : Env (H:=list_libp2p)) :=
  poll_behaviour (H:=list_libp2p) wit_uuid true b [e1; e2].
Definition wit_after (r : outcome (Behaviour (H:=list_libp2p) *
    list (Effect (H:=list_libp2p)) * option (option (ToSwarm (H:=list_libp2p))))) :
    Behaviour (H:=list_libp2p) :=
  match r with Done (b, _, _) => b | Panic => wit_behaviour end.

Definition wit_after1 := wit_after (wit_poll wit_behaviour wit_env1 wit_env2).
(** The [Discovered] event, then the per-address event, then nothing pending. *)
Definition wit_after2 := wit_after (wit_poll wit_after1 wit_env1 wit_env2).

Lemma wit_life :
  life (H:=list_libp2p) wit_uuid true wit_behaviour
    ([] ++ emitted_of (Some (Some (GenerateEvent (Discovered [wit_node]))))) wit_after1.
Proof.
  eapply (life_poll (H:=list_libp2p)) with (envs := [wit_env1; wit_env2]); [apply life_refl|reflexivity].
Qed.

Lemma events_account_for_nodes_witness :
  (discovered_nodes wit_after1).*1 = [wit_node]
  ∧ NoDup (discovered_nodes wit_after1).*1
  ∧ live_nodes (([] ++ emitted_of (Some (Some (GenerateEvent (Discovered [wit_node])))))
      ++ pending_events wit_after1) = (discovered_nodes wit_after1).*1.
Proof.
  split; [reflexivity|].
  exact (events_account_for_nodes (H:=list_libp2p) wit_uuid true (@Ok () () ()) default_config
    1%positive wit_behaviour _ wit_after1 eq_refl wit_life).
Defined.

Lemma tasks_eligible_witness : eligible default_config (V4 (ipv4 192 168 1 7)).
Proof.
  exact (tasks_eligible (H:=list_libp2p) wit_uuid true (@Ok () () ()) default_config 1%positive
    wit_behaviour _ wit_after1 (V4 (ipv4 192 168 1 7)) 2 eq_refl wit_life eq_refl).
Defined.

Lemma poll_terminates_witness :
  ∃ b' eff r, wit_poll wit_behaviour wit_env1 wit_env2 = Done (b', eff, Some r).
Proof. apply (poll_terminates (H:=list_libp2p)). by repeat constructor. Defined.

Lemma poll_result_witness :
  ∃ eff, wit_poll wit_behaviour wit_env1 wit_env2 =
      Done (wit_after1, eff, Some (Some (GenerateEvent (Discovered [wit_node]))))
  ∧ pending_events wit_after1 = [NewExternalAddrOfPeer wit_node.1 wit_node.2].
Proof.
  eexists. split; [reflexivity|].
  destruct (poll_result (H:=list_libp2p) wit_uuid true wit_behaviour wit_env1 wit_env2 wit_after1
    _ _ ltac:(constructor) eq_refl eq_refl eq_refl) as [(_ & _ & Hp & _)|(Hnil & _)];
    [exact Hp|discriminate Hnil].
Defined.

Lemma renewal_takes_latest_witness :
  (wit_node, 100) ∈ discovered_nodes wit_after1 ∧ 90 ≤ 100.
Proof.
  split; [left|].
  eapply (renewal_takes_latest (H:=list_libp2p) wit_behaviour [(wit_node, 100); (wit_node, 90)]
    (on_received_all wit_behaviour [] [(wit_node, 100); (wit_node, 90)]).1 _ wit_node 100);
    [constructor|reflexivity|left|].
  right. right. left.
Defined.

(** Once every node has expired the expired timer is still held, although the
    field is documented to be [None] when no node is held. *)
Example stale_timer_kept :
  let b0 := wit_after (wit_poll wit_after2 (mk_Env (H:=list_libp2p) [] [] 20 20) wit_env2) in
  let b1 := wit_after (wit_poll b0 wit_env2 wit_env2) in
  let b2 := wit_after (wit_poll b1 wit_env2 wit_env2) in
  (discovered_nodes b0, closest_expiration b0) = ([(wit_node, 100)], Some (mk_ExpiryTimer 100 (Some 20)))
  ∧ (discovered_nodes b2, closest_expiration b2) = ([], Some (mk_ExpiryTimer 100 (Some 20))).
Proof. split; reflexivity. Qed.
