(* ===== verification/MdnsExpiry.v ===== *)
(** * Expiry of mDNS nodes ([src/lib/mdns/src/behaviour.rs], timer.rs)

    The end of the poll of [MdnsBehaviour.v], which sets a timer for the first node to
    expire, on the timers of [MdnsRuntime.v]. *)

From S2P Require Import Prelude RustStr Libp2p MdnsConfig Dns MdnsQuery MdnsIface MdnsRuntime.
From S2P Require Import MdnsBehaviour.

Local Open Scope Z_scope.

Section expiry.
Context `{Libp2p} `{Tokio} `{!TokioLaws} (uuid_v5_simple : list u8 → string) (unix : bool).

(** The runtime's timer for [closest_expiration]: created, and polled at once to register
    the task; [true] when it was pending then, so that the task is woken at its tick. *)
Definition arm_expiration (closest : ExpiryTimer) : outcome (TokioTimer * bool) :=
  timer ← at_instant (fires_at closest);
  match polled_at closest with
  | Some now =>
      let '(timer, tick) := poll_next timer now in
      Done (timer, match tick with None => true | Some _ => false end)
  | None => Done (timer, false)
  end.

(** Polled in time, it wakes the task; polled too late, it does not. *)
Lemma arm_expiration_wakes m t0 :
  ∃ timer woken, arm_expiration (mk_ExpiryTimer m (Some t0)) = Done (timer, woken)
    ∧ (t0 < m → woken = true ∧ next_tick timer = m ∧ ∀ t, t < m → poll_next timer t = (timer, None))
    ∧ (m ≤ t0 → woken = false).
Proof.
  destruct (at_instant_pending m) as (timer & Hat & Hnext & Hpend).
  unfold arm_expiration. cbn [fires_at polled_at]. rewrite Hat. cbn [mbind outcome_bind].
  destruct (decide (t0 < m)) as [Hlt|Hge].
  - rewrite Hpend by done. exists timer, true. split; [done|]. split; [done|lia].
  - destruct (poll_tick_due timer t0) as [tick Ht]; [lia|]. unfold poll_next.
    destruct (poll_tick timer t0) as [timer' o]. cbn [snd] in Ht. subst o. cbn.
    do 2 eexists. split; [done|]. split; [lia|done].
Qed.

Lemma poll_config (b b' : Behaviour) envs eff r :
  poll_behaviour uuid_v5_simple unix b envs = Done (b', eff, r) → config b' = config b.
Proof.
  unfold poll_behaviour. destruct (disabled (config b)); [by intros [= <- <- <-]|].
  revert b eff. induction envs as [|e envs IH]; intros b eff; cbn [poll_loop]; [by intros [= <- <- <-]|].
  intros ([[b1 eff1] step] & Hit & Hrest)%bind_Done. assert (config b1 = config b) as <-.
  { destruct (pending_events b) as [|ev rest] eqn:Hp; [by eapply idle_config, iterate_idle|].
    rewrite (iterate_ready _ _ _ _ _ _ Hp) in Hit. by injection Hit as <- <- <-. }
  destruct step; [|by injection Hrest as <- <- <-..].
  apply bind_Done in Hrest as ([[b2 eff2] r2] & Hloop & [= -> _ ->]). by apply IH in Hloop.
Qed.

(** A poll without news. *)
Lemma quiet_iteration (b : Behaviour) (e : Env) :
  pending_events b = [] → watch e = [] → received e = [] →
  let expired := (filter (λ n, n.2 ≤ now e) (discovered_nodes b)).*1 in
  ∃ b', discovered_nodes b' = filter (λ n, now e < n.2) (discovered_nodes b) ∧
    iterate uuid_v5_simple unix b e =
      if decide (expired = []) then Done (b', [], PendingStep)
      else Done (set_pending b' [GenerateEvent (Expired expired)], [], MdnsBehaviour.Continue).
Proof.
  intros Hp Hw Hr expired. unfold iterate. rewrite Hp, Hw, Hr.
  cbn [on_if_events mbind outcome_bind on_received_all]. rewrite bool_decide_true by done. cbn [negb].
  destruct (retain_nodes (now e) None (discovered_nodes b)) as [[kept exp] closest] eqn:Hret.
  apply retain_nodes_spec in Hret as (-> & -> & _). fold expired.
  destruct (decide (expired = [])) as [Hx|Hx].
  - rewrite bool_decide_true by done. cbn [negb]. eexists. split; [|reflexivity]. by destruct closest.
  - rewrite bool_decide_false by done. cbn [negb set_nodes pending_events]. rewrite Hp. cbn [app].
    by eexists (set_nodes b _).
Qed.

(** The first poll without news of a waiting behaviour. *)
Lemma quiet_polls (b' : Behaviour) n0 e3 e4 :
  disabled (config b') = false → pending_events b' = [] →
  n0 ∈ discovered_nodes b' → (∀ n, n ∈ discovered_nodes b' → n0.2 ≤ n.2) →
  watch e3 = [] → received e3 = [] →
  let due n t := (n, t) ∈ discovered_nodes b' ∧ t ≤ now e3 in
  ∃ b'' r, poll_behaviour uuid_v5_simple unix b' [e3; e4] = Done (b'', [], Some r)
    ∧ (now e3 < n0.2 → r = None ∧ discovered_nodes b'' = discovered_nodes b')
    ∧ (n0.2 ≤ now e3 → ∃ l, l ≠ [] ∧ r = Some (GenerateEvent (Expired l))
         ∧ (∀ n, n ∈ l ↔ ∃ t, due n t)
         ∧ ∀ n t, (n, t) ∈ discovered_nodes b'' ↔ (n, t) ∈ discovered_nodes b' ∧ ¬ due n t).
Proof.
  intros Hdis Hp' Hn0 Hle Hw Hr due.
  unfold poll_behaviour. rewrite Hdis. cbn [poll_loop].
  destruct (quiet_iteration b' e3 Hp' Hw Hr) as (b'' & Hkept & ->). case_decide as Hx.
  - cbn [mbind outcome_bind]. exists b'', None. split; [done|].
    assert (∀ n, n ∈ discovered_nodes b' → now e3 < n.2) as Hall.
    { intros n Hn. apply Z.nle_gt. intros Hn3. apply fmap_nil_inv in Hx.
      assert (n ∈ filter (λ n, n.2 ≤ now e3) (discovered_nodes b')) as Habs
        by by apply list_elem_of_filter.
      rewrite Hx in Habs. by apply elem_of_nil in Habs. }
    split; [|intros Hle'; specialize (Hall _ Hn0); lia]. intros _. split; [done|].
    rewrite Hkept. apply filter_all, Forall_forall. exact Hall.
  - cbn [mbind outcome_bind]. rewrite (iterate_ready _ _ _ e4 _ []) by done. cbn [mbind outcome_bind].
    do 2 eexists. split; [reflexivity|]. split.
    + intros Hlt. exfalso. apply Hx. destruct (filter (λ n, n.2 ≤ now e3) (discovered_nodes b')) as [|n l] eqn:Hf; [reflexivity|].
      assert (n ∈ n :: l) as Hn by left. rewrite <- Hf in Hn.
      apply list_elem_of_filter in Hn as [Hn3 Hn]. specialize (Hle n Hn). lia.
    + intros _. eexists. split; [exact Hx|]. split; [done|]. split.
      * intros n. rewrite list_elem_of_fmap. split.
        -- intros ([n' t] & -> & [Ht Hn]%list_elem_of_filter). by exists t.
        -- intros (t & Hn & Ht). exists (n, t). split; [done|]. by apply list_elem_of_filter.
      * intros n t. cbn [set_pending discovered_nodes]. rewrite Hkept, list_elem_of_filter.
        unfold due. cbn [snd]. intuition lia.
Qed.

(** C24: nodes expire on time.  When a poll leaves the behaviour waiting with nodes, its
    timer is for the first expiration [m] among them, which is yet to come.  The timer is
    pending until [m], when it wakes the task, provided [m] had not passed when it was
    polled; otherwise nothing wakes the task.  Before [m] polls without news change no node
    and announce nothing, and the first one from [m] on announces in one event the nodes
    whose time has come, which are no longer held, and no others.  A poll that finds new
    addresses announces these first; any other, with renewals or not, leaves no node
    whose time has come. *)
Theorem node_expires_on_time (b b' : Behaviour) e1 e2 eff :
  NoDup (discovered_nodes b).*1 → disabled (config b) = false → pending_events b = [] →
  poll_behaviour uuid_v5_simple unix b [e1; e2] = Done (b', eff, Some None) → discovered_nodes b' ≠ [] →
  ∃ m, closest_expiration b' = Some (mk_ExpiryTimer m (Some (later e1)))
    ∧ now e1 < m ∧ (∀ n, n ∈ discovered_nodes b' → m ≤ n.2)
    ∧ (∃ timer woken, arm_expiration (mk_ExpiryTimer m (Some (later e1))) = Done (timer, woken)
         ∧ (later e1 < m → woken = true ∧ next_tick timer = m
              ∧ ∀ t, t < m → poll_next timer t = (timer, None))
         ∧ (m ≤ later e1 → woken = false))
    ∧ (∀ e3 e4, watch e3 = [] → received e3 = [] →
       let due n t := (n, t) ∈ discovered_nodes b' ∧ t ≤ now e3 in
       ∃ b'' r, poll_behaviour uuid_v5_simple unix b' [e3; e4] = Done (b'', [], Some r)
         ∧ (now e3 < m → r = None ∧ discovered_nodes b'' = discovered_nodes b')
         ∧ (m ≤ now e3 → ∃ l, l ≠ [] ∧ r = Some (GenerateEvent (Expired l))
              ∧ (∀ n, n ∈ l ↔ ∃ t, due n t)
              ∧ ∀ n t, (n, t) ∈ discovered_nodes b'' ↔ (n, t) ∈ discovered_nodes b' ∧ ¬ due n t))
    ∧ ∀ e3 e4 b'' eff' r, poll_behaviour uuid_v5_simple unix b' [e3; e4] = Done (b'', eff', Some r) →
        let added := new_nodes (discovered_nodes b').*1 (received e3) in
        (added ≠ [] → r = Some (GenerateEvent (Discovered added)))
        ∧ (added = [] → ∀ n, n ∈ discovered_nodes b'' → now e3 < n.2).
Proof.
  intros Hnd Hdis Hp Hpoll Hne. pose proof (poll_config _ _ _ _ _ Hpoll) as Hcfg.
  destruct (poll_result uuid_v5_simple unix b e1 e2 b' eff None Hnd Hdis Hp Hpoll)
    as [(_ & [=] & _)|(_ & Hlate & Hp' & [(l & _ & [=] & _)|(_ & Hkeys & Hm)])].
  destruct (Hm Hne) as (m & Hcl & Hle & (n0 & Hn0 & <-)). exists n0.2.
  split; [done|]. split; [by apply Hlate|]. split; [done|].
  split; [apply arm_expiration_wakes|]. split.
  2:{ intros e3 e4 b'' eff' r Hpoll' added.
      destruct (poll_result uuid_v5_simple unix b' e3 e4 b'' eff' r) as [(Hadd & -> & _)|(Hadd & Hlate' & _)];
        [by rewrite Hkeys|by rewrite Hcfg|done|done|by split|by split]. }
  intros e3 e4 Hw Hr due. apply quiet_polls; by rewrite ?Hcfg.
Qed.
End expiry.

(** ** Witness *)

(** The node of [wit_env1], whose time is 100, after a poll at 20. *)
Definition wit_env20 : Env (H:=list_libp2p) := mk_Env (H:=list_libp2p) [] [] 20 21.
Definition wit_waiting := wit_after (wit_poll wit_after2 wit_env20 wit_env2).

Lemma node_expires_on_time_witness :
  closest_expiration wit_waiting = Some (mk_ExpiryTimer 100 (Some 21))
  ∧ ∃ b'' l, wit_poll wit_waiting wit_env2 wit_env2 =
        Done (b'', [], Some (Some (GenerateEvent (Expired l))))
      ∧ wit_node ∈ l.
Proof.
  split; [reflexivity|].
  destruct (node_expires_on_time (H:=list_libp2p) wit_uuid true wit_after2 wit_waiting wit_env20 wit_env2
    []) as (m & Hm & _ & _ & _ & Hall & _);
    [apply NoDup_singleton|reflexivity..|discriminate|].
  assert (Some (mk_ExpiryTimer 100 (Some 21)) = Some (mk_ExpiryTimer m (Some 21))) as [= <-] by exact Hm.
  destruct (Hall wit_env2 wit_env2 eq_refl eq_refl) as (b'' & r & Hpoll & _ & Hexp).
  destruct Hexp as (l & _ & -> & Hl & _); [by vm_compute|]. exists b'', l. split; [exact Hpoll|].
  apply Hl. exists 100. split; [left|by vm_compute].
Defined.
