(* ===== verification/Discovery.v ===== *)
(** * From mDNS to connections ([src/network.rs], [src/lib/mdns/src/behaviour.rs])

    The events of the mDNS behaviour are events of the loop: what is discovered is
    dialled, what expires is taken out of the routing table. *)

From S2P Require Import Prelude RustStr Content Transfer Libp2p MdnsConfig Dns MdnsQuery.
From S2P Require Import MdnsIface MdnsBehaviour NetLoop.

Local Open Scope Z_scope.

Section discovery.
Context `{Libp2p} `{Bincode} `{Digest} (uuid_v5_simple : list u8 → string) (unix : bool).

(** The swarm hands the events a behaviour generates to the loop; the addresses it
    reports go to the other behaviours. *)
Definition loop_event (ev : ToSwarm) : option LoopEvent :=
  match ev with
  | GenerateEvent (Discovered l) => Some (MdnsDiscovered l)
  | GenerateEvent (Expired l) => Some (MdnsExpired l)
  | NewExternalAddrOfPeer _ _ => None
  end.

(** The events that iterations of the loop take: none while chunks are pending. *)
Fixpoint taken (boot : option PeerEndpointCache)
    (inputs : list (Times * Z * SwarmView * LoopEvent)) (st : RunState) : list LoopEvent :=
  match inputs with
  | [] => []
  | (now, d, view, ev) :: inputs' =>
      (if bool_decide (pending_chunks st = []) then [ev] else []) ++
      match iteration boot now d view ev st with
      | Done (NetLoop.Continue st' _) => taken boot inputs' st'
      | _ => []
      end
  end.

Lemma iteration_mdns boot now d view ev st st' cmds :
  pending_chunks st = [] → iteration boot now d view ev st = Done (NetLoop.Continue st' cmds) →
  match ev with
  | MdnsDiscovered l => ∀ n, n ∈ l → Dial n.2 ∈ cmds
  | MdnsExpired l => ∀ n, n ∈ l → KadRemoveAddress n.1 n.2 ∈ cmds
  | _ => True
  end.
Proof.
  intros Hp Hit. unfold iteration in Hit. cbn [NetLoop.set_chunks pending_chunks] in Hit.
  rewrite Hp in Hit. apply bind_Done in Hit as ([[s cs] pub] & Hs & [= Hc]).
  destruct (HANDLER_TIMEOUT <? d); [done|]. injection Hc as <- <-.
  destruct ev; try done; cbn [handle_event] in Hs; injection Hs as <- <- <-;
    intros n Hn; apply elem_of_app; left; apply list_elem_of_fmap; by exists n.
Qed.

Lemma taken_handled boot inputs st st' cmds ev :
  iterations boot inputs st = Done (Some st', cmds) → ev ∈ taken boot inputs st →
  match ev with
  | MdnsDiscovered l => ∀ n, n ∈ l → Dial n.2 ∈ cmds
  | MdnsExpired l => ∀ n, n ∈ l → KadRemoveAddress n.1 n.2 ∈ cmds
  | _ => True
  end.
Proof.
  revert st cmds. induction inputs as [|[[[now d] view] ev'] inputs IH]; intros st cmds;
    cbn [iterations taken]; [by intros _ ?%elem_of_nil|].
  intros (r & Hit & Hrest)%bind_Done. rewrite Hit. destruct r as [s c|c]; [|done].
  apply bind_Done in Hrest as ([o c'] & Hrest & [= -> <-]).
  assert (∀ (P : PeerId * Multiaddr → Cmd) (l : list (PeerId * Multiaddr)),
    (∀ n, n ∈ l → P n ∈ c) ∨ (∀ n, n ∈ l → P n ∈ c') → ∀ n, n ∈ l → P n ∈ c ++ c') as Happ
    by (intros P l [Hl|Hl] n Hn; apply elem_of_app; auto).
  intros [Hev|Hev]%elem_of_app.
  - case_bool_decide as Hp; [|by apply elem_of_nil in Hev]. apply list_elem_of_singleton in Hev as ->.
    pose proof (iteration_mdns _ _ _ _ _ _ _ _ Hp Hit) as Hm.
    destruct ev'; try done; by apply (Happ (λ n, _)); left.
  - specialize (IH s c' Hrest Hev). destruct ev; try done; by apply (Happ (λ n, _)); right.
Qed.

(** *** What the events say of a node *)

Lemma live_announced evs n :
  n ∈ live_nodes evs → ∃ l, GenerateEvent (Discovered l) ∈ evs ∧ n ∈ l.
Proof.
  induction evs as [|ev evs IH] using rev_ind; [by intros ?%elem_of_nil|].
  rewrite live_nodes_app. cbn [foldl]. setoid_rewrite elem_of_app.
  assert (n ∈ live_nodes evs → ∃ l, (GenerateEvent (Discovered l) ∈ evs
    ∨ GenerateEvent (Discovered l) ∈ [ev]) ∧ n ∈ l) as IH'
    by (intros (l & ? & ?)%IH; eauto).
  destruct ev as [[l|l]|p a]; cbn [apply_event]; [|intros [_ ?]%list_elem_of_filter; by apply IH'|done].
  intros [Hn|Hn]%elem_of_app; [by apply IH'|]. exists l. split; [right; by left|done].
Qed.

Lemma announced_live evs n l :
  GenerateEvent (Discovered l) ∈ evs → n ∈ l →
  n ∈ live_nodes evs ∨ ∃ l', GenerateEvent (Expired l') ∈ evs ∧ n ∈ l'.
Proof.
  intros Hl Hn. induction evs as [|ev evs IH] using rev_ind; [by apply elem_of_nil in Hl|].
  rewrite live_nodes_app. cbn [foldl]. setoid_rewrite elem_of_app.
  apply elem_of_app in Hl as [Hl|Hl].
  - destruct (IH Hl) as [Hlive|(l' & ? & ?)]; [|right; by eauto].
    destruct ev as [[l'|l']|p a]; cbn [apply_event]; [left; set_solver| |by left].
    destruct (decide (n ∈ l')); [right; exists l'; split; [right; by left|done]|].
    left. by apply list_elem_of_filter.
  - apply list_elem_of_singleton in Hl as <-. left. cbn [apply_event]. set_solver.
Qed.

(** C15: mDNS and the loop. Once the events of the mDNS behaviour were taken by the loop,
    between any other events, every node the behaviour holds has been dialled at its
    address; and every node that was announced and is no longer held has been removed
    from the routing table. *)
Theorem discovered_nodes_dialled {E} (watcher : result E ()) cfg p b evs b' boot inputs st st' cmds :
  new_behaviour watcher cfg p = Ok b → life uuid_v5_simple unix b evs b' → pending_events b' = [] →
  iterations boot inputs st = Done (Some st', cmds) →
  (∀ ev, ev ∈ omap loop_event evs → ev ∈ taken boot inputs st) →
  (∀ n, n ∈ (discovered_nodes b').*1 → Dial n.2 ∈ cmds)
  ∧ ∀ n l, GenerateEvent (Discovered l) ∈ evs → n ∈ l → n ∉ (discovered_nodes b').*1 →
      KadRemoveAddress n.1 n.2 ∈ cmds.
Proof.
  unfold new_behaviour. intros (_ & _ & [= <-])%bind_Ok Hlife Hp Hrun Htaken.
  apply life_accounted in Hlife as [(_ & Hlive & _) _]; [|split; [apply NoDup_nil_2|done]].
  rewrite Hp, app_nil_r in Hlive. rewrite <- Hlive.
  assert (∀ e l, GenerateEvent e ∈ evs → loop_event (GenerateEvent e) = Some l → l ∈ taken boot inputs st)
    as Hev by (intros e l He Hl; apply Htaken, list_elem_of_omap; eauto).
  split.
  - intros n (l & Hl & Hn)%live_announced. pose proof (Hev _ _ Hl eq_refl) as Ht.
    by apply (taken_handled _ _ _ _ _ _ Hrun) in Ht; apply Ht.
  - intros n l Hl Hn Hnot. destruct (announced_live evs n l Hl Hn) as [|(l' & Hl' & Hn')]; [done|].
    pose proof (Hev _ _ Hl' eq_refl) as Ht.
    by apply (taken_handled _ _ _ _ _ _ Hrun) in Ht; apply Ht.
Qed.
End discovery.

(** ** From a neighbour's answer to the dial *)

Section neighbour.
Context `{Libp2p} `{!AddrOps} `{Hickory} `{Bincode} `{Digest}.
Context (dbg : bool) (uuid_v5_simple : list u8 → string) (unix : bool).
Context (name_of_labels : list (list u8) → Name) `{!HickoryLaws name_of_labels}.

(** A round in which the timer is silent and the channel to the behaviour accepts. *)
Definition reporting (r : Round) : Prop :=
  timer_ready r = false ∧ sender_ready r = true ∧ try_send r = SendOk.

Lemma round_reports (st : InterfaceState) (r : Round) x xs :
  reporting r → send_buffer st = [] → discovered st = x :: xs →
  round dbg st r = Done (MdnsIface.set_discovered st xs, [Reported x], MdnsIface.Continue).
Proof using Type.
  intros (Ht & Hs & Hsend) Hb Hd. unfold round, on_timeout. rewrite Ht. cbn [mbind outcome_bind].
  unfold send_packets. rewrite Hb. unfold report_discovered. by rewrite Hs, Hd, Hsend.
Qed.

(** An instance that has found nodes reports them one by one, and then waits. *)
Lemma poll_reports (st : InterfaceState) rounds last :
  Forall reporting rounds → length rounds = length (discovered st) → send_buffer st = [] →
  timer_ready last = false → read last = ReadPending →
  ∃ st', poll dbg st (rounds ++ [last]) = Done (st', Reported <$> discovered st, Some Pending).
Proof using Type.
  intros Hr. revert st. induction Hr as [|r rounds Hr Hrs IH]; intros st Hlen Hb Ht Hread.
  - exists st. destruct (discovered st) as [|x xs] eqn:Hd; [|done]. cbn [app poll].
    unfold round, on_timeout. rewrite Ht. cbn [mbind outcome_bind]. unfold send_packets. rewrite Hb.
    unfold report_discovered. rewrite Hd. destruct (sender_ready last); cbn [mbind outcome_bind];
      unfold receive; by rewrite Hread.
  - destruct (discovered st) as [|x xs] eqn:Hd; [done|]. injection Hlen as Hlen.
    destruct (IH (MdnsIface.set_discovered st xs)) as [st' Hrun]; [done..|]. exists st'.
    cbn [app poll]. rewrite (round_reports st r x xs) by done. cbn [mbind outcome_bind].
    by rewrite Hrun.
Qed.

(** An idle instance that receives a response, until it waits again. *)
Lemma answer_reported (st : InterfaceState) ra rounds last st1 :
  send_buffer st = [] → discovered st = [] → timer_ready ra = false →
  receive dbg st ra = Done (st1, MdnsIface.Continue) → send_buffer st1 = [] →
  Forall reporting rounds → length rounds = length (discovered st1) →
  timer_ready last = false → read last = ReadPending →
  ∃ st', poll dbg st (ra :: rounds ++ [last]) = Done (st', Reported <$> discovered st1, Some Pending).
Proof using Type.
  intros Hb Hd Ht Hrecv Hb1 Hrs Hlen Htl Hreadl.
  destruct (poll_reports st1 rounds last Hrs Hlen Hb1 Htl Hreadl) as [st' Hrun]. exists st'.
  cbn [poll]. unfold round at 1, on_timeout. rewrite Ht. cbn [mbind outcome_bind].
  unfold send_packets. rewrite Hb. unfold report_discovered. rewrite Hd.
  destruct (sender_ready ra); rewrite Hrecv; cbn [mbind outcome_bind app]; by rewrite Hrun.
Qed.

Lemma poll_event (b : Behaviour) (e1 e2 : Env) x :
  disabled (config b) = false → pending_events b = [] → watch e1 = [] →
  new_nodes (discovered_nodes b).*1 (received e1) = x →
  x ≠ [] →
  ∃ b', poll_behaviour uuid_v5_simple unix b [e1; e2] =
    Done (b', [], Some (Some (GenerateEvent (Discovered x)))).
Proof using Type.
  intros Hdis Hp Hw Hx Hne. unfold poll_behaviour. rewrite Hdis. cbn [poll_loop].
  assert (∃ b1 rest, iterate uuid_v5_simple unix b e1 = Done (b1, [], MdnsBehaviour.Continue)
    ∧ pending_events b1 = GenerateEvent (Discovered x) :: rest) as (b1 & rest & -> & Hp1).
  { unfold iterate. rewrite Hp, Hw. cbn [on_if_events mbind outcome_bind].
    destruct (on_received_all b [] (received e1)) as [b1 disc] eqn:Hr.
    apply on_received_all_spec in Hr as (_ & Hdisc & Hpend & _). cbn zeta in *.
    rewrite Hx in Hdisc, Hpend. cbn [app] in Hdisc. subst disc. rewrite bool_decide_false by done.
    by do 2 eexists. }
  cbn [mbind outcome_bind]. rewrite (iterate_ready _ _ b1 e2 _ rest) by done. by eexists.
Qed.

Lemma new_nodes_elem (known : list (PeerId * Multiaddr)) ns node t :
  (node, t) ∈ ns → node ∉ known → node ∈ new_nodes known ns.
Proof using Type.
  revert known. induction ns as [|[m u] ns IH]; intros known; [by intros ?%elem_of_nil|].
  intros [[= <- <-]|Hin]%elem_of_cons Hnot; cbn [new_nodes].
  - rewrite bool_decide_false by done. by left.
  - case_bool_decide; [by apply IH|]. destruct (decide (node = m)) as [->|Hne]; [by left|].
    right. apply IH; [done|]. rewrite not_elem_of_app. split; [done|].
    by intros ?%list_elem_of_singleton.
Qed.

(** The translated addresses of a response are among those extracted. *)
Lemma found_address secs p g from now local address translated with_peer :
  p ≠ local → address ∈ g →
  _address_translation address (udp_multiaddr (sa_ip from) (sa_port from)) = Some translated →
  with_p2p translated p = Ok with_peer →
  (p, with_peer, now + from_secs secs)
    ∈ extract_discovered (mk_MdnsResponse (peers_of secs p g) from) now local.
Proof using Type.
  intros Hne Hin Htrans Hwith. unfold extract_discovered, peers_of. cbn [peers response_from].
  rewrite bool_decide_false by (by intros ->; apply elem_of_nil in Hin).
  rewrite filter_cons_True by done. rewrite filter_nil, fmap_cons, fmap_nil. cbn [concat].
  rewrite app_nil_r. apply list_elem_of_omap. exists address. split; [done|].
  unfold observed_address. cbn [response_from]. rewrite Htrans. cbn [mbind option_bind MdnsQuery.id peer_id].
  unfold MdnsQuery.id. cbn [peer_id]. by rewrite Hwith.
Qed.

(** C11: a neighbour's answer leads to a connection.  Machine [b] receives the mDNS query
    of an instance [a] of the same service and queues response packets, which carry its
    listen addresses, up to 65535 of them, in groups.  If the idle instance [a] receives
    one of them that fits its buffer, it reports the addresses of the group that it can
    translate, one by one, and waits; a behaviour without pending events that takes them
    from its channel announces those it does not know in one event; and the loop that
    takes this event dials each of them. *)
Theorem answer_leads_to_dial s (a b : InterfaceState) (qr : u16) q rb from_a from_b :
  plain_name s → name_ok (bytes_of_string s) → len (bytes_of_string s) ≤ 253 →
  service_name a = bytes_of_string s → service_name_fqdn a = s +:+ "." →
  service_name b = bytes_of_string s → service_name_fqdn b = s +:+ "." →
  duration_ok (MdnsIface.ttl b) → fits 16 qr → MdnsIface.local_peer_id b ≠ MdnsIface.local_peer_id a →
  build_query dbg qr (service_name a) = Done q → read rb = ReadOk q from_a →
  peer_name_ok (peer_name rb) →
  Forall (sendable (MdnsIface.local_peer_id b)) (MdnsIface.listen_addresses rb) →
  send_buffer a = [] → discovered a = [] →
  ∃ packets groups,
    receive dbg b rb = Done (set_send_buffer b (send_buffer b ++ packets), MdnsIface.Continue)
    ∧ concat groups = take (Z.to_nat 65535) (MdnsIface.listen_addresses rb)
    ∧ Forall2 (λ packet g, len packet ≤ RECV_BUFFER_LEN →
        ∀ ra rounds last, read ra = ReadOk packet from_b → timer_ready ra = false →
        let found := extract_discovered
          (mk_MdnsResponse (peers_of (duration_to_secs (MdnsIface.ttl b)) (MdnsIface.local_peer_id b) g)
            from_b) (MdnsIface.now ra) (MdnsIface.local_peer_id a) in
        Forall reporting rounds → length rounds = length found →
        timer_ready last = false → read last = ReadPending →
        (∃ a', poll dbg a (ra :: rounds ++ [last]) = Done (a', Reported <$> found, Some Pending))
        ∧ ∀ bh e1 e2, disabled (config bh) = false → pending_events bh = [] → watch e1 = [] →
          received e1 = found →
          let added := new_nodes (discovered_nodes bh).*1 found in
          (added ≠ [] → ∃ bh', poll_behaviour uuid_v5_simple unix bh [e1; e2] =
             Done (bh', [], Some (Some (GenerateEvent (Discovered added)))))
          ∧ ∀ boot now d view st, pending_chunks st = [] → d ≤ HANDLER_TIMEOUT →
            ∃ st' cmds, iteration boot now d view (MdnsDiscovered added) st = Done (NetLoop.Continue st' cmds)
              ∧ ∀ address translated with_peer, address ∈ g →
                  _address_translation address (udp_multiaddr (sa_ip from_b) (sa_port from_b)) = Some translated →
                  with_p2p translated (MdnsIface.local_peer_id b) = Ok with_peer →
                  (MdnsIface.local_peer_id b, with_peer) ∉ (discovered_nodes bh).*1 →
                  Dial with_peer ∈ cmds)
        packets groups.
Proof using All.
  intros Hplain Hname Hlen Ha Hafq Hb Hbfq Httl Hqr Hne Hq Hread Hpn Hsend Hbuf Hdisc.
  destruct (query_answered dbg name_of_labels s a b qr q rb from_a from_b)
    as (packets & groups & Hrecv & Hconcat & Hall); [done..|].
  exists packets, groups. split; [done|]. split; [done|].
  eapply Forall2_impl; [exact Hall|]. clear Hall. intros packet g Hrecv' Hfit ra rounds last Hra Ht.
  specialize (Hrecv' Hfit ra Hra). intros found Hrs Hn Htl Hreadl.
  assert (discovered (learnt a (duration_to_secs (MdnsIface.ttl b)) (MdnsIface.local_peer_id b) g from_b
    (MdnsIface.now ra)) = found ∧ send_buffer (learnt a (duration_to_secs (MdnsIface.ttl b))
    (MdnsIface.local_peer_id b) g from_b (MdnsIface.now ra)) = []) as [Hfound Hempty].
  { unfold learnt. cbn [MdnsIface.set_discovered discovered]. rewrite Hdisc. cbn [app].
    rewrite <- extract_learnt. fold found.
    destruct (bool_decide (found = [])); by split. }
  split.
  { rewrite <- Hfound. eapply answer_reported; try done. by rewrite Hfound. }
  intros bh e1 e2 Hdis Hp Hw Hrcv added. split.
  { intros Hadded. eapply poll_event; try done. by rewrite Hrcv. }
  intros boot now d view st Hpend Hd.
  eexists _, _. split.
  { unfold iteration. cbn [NetLoop.set_chunks pending_chunks]. rewrite Hpend.
    cbn [handle_event on_mdns_discovered mbind outcome_bind].
    rewrite (proj2 (Z.ltb_ge _ _) Hd). reflexivity. }
  intros address translated with_peer Haddr Htrans Hwith Hnot. apply elem_of_app. left.
  apply list_elem_of_fmap. exists (MdnsIface.local_peer_id b, with_peer). split; [done|].
  eapply new_nodes_elem; [|done]. apply (found_address _ _ _ _ _ _ address translated); done.
Qed.
End neighbour.

(** ** Witness *)

From S2P Require Import Codec.

Lemma wit_life2 :
  life (H:=list_libp2p) wit_uuid true wit_behaviour
    (([] ++ emitted_of (Some (Some (GenerateEvent (Discovered [wit_node])))))
       ++ emitted_of (Some (Some (NewExternalAddrOfPeer wit_node.1 wit_node.2)))) wit_after2.
Proof.
  eapply (life_poll (H:=list_libp2p)) with (envs := [wit_env1; wit_env2]); [apply wit_life|reflexivity].
Qed.

Lemma discovered_nodes_dialled_witness :
  let found : LoopEvent (H:=list_libp2p) := MdnsDiscovered (H:=list_libp2p) [wit_node] in
  let view : SwarmView (H:=list_libp2p) := mk_SwarmView (H:=list_libp2p) 0 (λ _, false) [] 1%positive in
  ∃ st' cmds, iterations (H:=list_libp2p) None
      [(at_once 0, 0, view, IdleTick (H:=list_libp2p)); (at_once 0, 0, view, found)] init_state
      = Done (Some st', cmds)
    ∧ Dial (H:=list_libp2p) wit_node.2 ∈ cmds.
Proof.
  intros found view. do 2 eexists. split; [reflexivity|].
  eapply (proj1 (discovered_nodes_dialled (H:=list_libp2p) wit_uuid true (@Ok () () ()) default_config
    1%positive wit_behaviour _ wit_after2 None
    [(at_once 0, 0, view, IdleTick (H:=list_libp2p)); (at_once 0, 0, view, found)] init_state
    _ _ eq_refl wit_life2 eq_refl eq_refl _)) with (n := wit_node).
  left.
  Unshelve. intros ev Hev. change (ev ∈ [found]) in Hev.
  apply list_elem_of_singleton in Hev as ->. right. left.
Defined.

(** A neighbour [1] answers the query of the instance of peer [2]: its addresses are
    dialled by a machine that knew nothing. *)
Lemma answer_leads_to_dial_witness :
  let rb := MdnsIface.mk_Round (H:=list_libp2p) false WriteOk false SendOk
              (ReadOk wit_query wit_from) 0 wit_peer_name 0 wit_addrs in
  let view : SwarmView (H:=list_libp2p) := mk_SwarmView (H:=list_libp2p) 0 (λ _, false) [] 1%positive in
  ∃ packets groups,
    concat groups = take (Z.to_nat 65535) wit_addrs
    ∧ Forall2 (λ (packet : list u8) g, len packet ≤ RECV_BUFFER_LEN →
        ∃ added st' cmds,
          iteration (H:=list_libp2p) None (at_once 0) 0 view (MdnsDiscovered (H:=list_libp2p) added)
            init_state = Done (NetLoop.Continue st' cmds)
          ∧ ∀ address translated with_peer, address ∈ g →
              _address_translation (H:=list_libp2p) address
                (udp_multiaddr (H:=list_libp2p) (sa_ip wit_from) (sa_port wit_from)) = Some translated →
              with_p2p (H:=list_libp2p) translated 1%positive = Ok with_peer →
              Dial (H:=list_libp2p) with_peer ∈ cmds) packets groups.
Proof.
  intros rb view.
  destruct (answer_leads_to_dial (H:=list_libp2p) (H1:=list_hickory) true wit_uuid true Datatypes.id
    DEFAULT_SERVICE_NAME (wit_state 2%positive) (wit_state 1%positive) 513 wit_query rb wit_from
    wit_from) as (packets & groups & _ & Hconcat & Hall);
    [apply wit_plain|apply wit_service_ok|by vm_compute|reflexivity..|apply wit_duration_ok
    |by split|discriminate|reflexivity|reflexivity|apply wit_peer_name_ok|apply wit_sendable
    |reflexivity|reflexivity|].
  exists packets, groups. split; [exact Hconcat|]. eapply Forall2_impl; [exact Hall|].
  clear Hall. intros packet g Hg Hfit.
  set (round_of ready r := MdnsIface.mk_Round (H:=list_libp2p) false WriteOk ready SendOk r 0
    wit_peer_name 0 []).
  set (found := extract_discovered (H:=list_libp2p) (mk_MdnsResponse (H:=list_libp2p)
    (peers_of (H:=list_libp2p) (duration_to_secs (MdnsConfig.ttl default_config)) 1%positive g)
    wit_from) 0 2%positive).
  destruct (Hg Hfit (round_of true (ReadOk packet wit_from))
    (replicate (length found) (round_of true ReadPending)) (round_of true ReadPending) eq_refl eq_refl)
    as [_ Hloop]; [by apply Forall_replicate|by rewrite length_replicate|reflexivity..|].
  destruct (Hloop wit_behaviour (mk_Env (H:=list_libp2p) [] found 0 0) (mk_Env (H:=list_libp2p) [] [] 0 0)
    eq_refl eq_refl eq_refl eq_refl) as [_ Hdial].
  destruct (Hdial None (at_once 0) 0 view init_state eq_refl ltac:(done)) as (st' & cmds & Hit & Hcmds).
  eexists _, st', cmds. split; [exact Hit|]. intros address translated with_peer Hin Ht Hw.
  eapply Hcmds; [exact Hin|exact Ht|exact Hw|]. apply not_elem_of_nil.
Defined.
