(* ===== verification/Certificate.v ===== *)
(** * libp2p certificates ([src/lib/tls/src/certificate.rs])

    Generation, parsing and verification of the self-signed certificates, and
    their protection by a pre-shared key.  The cryptography ([ring]), the
    identities ([libp2p_identity]), the certificate builder ([rcgen]), the X.509
    parser ([x509_parser]) and the DER codec ([yasna]) are parameters
    ([TlsCrypto]); what the code relies on is [TlsLaws]. *)

From S2P Require Import Prelude RustStr Libp2p.

Local Open Scope Z_scope.

(** ** Data of the crates *)

Abbreviation Oid := (list Z) (only parsing).

(** An [Any] value as the code sees it: an OID or something else. *)
Inductive AnyDer := AnyOid (o : Oid) | AnyOther.
Record AlgorithmIdentifier := mk_Alg { alg_oid : Oid; alg_params : option AnyDer; alg_raw : list u8 }.
Record Extension := mk_Ext { ext_oid : Oid; ext_critical : bool; ext_value : list u8 }.
Record SubjectPki := mk_Pki { pki_algorithm : AlgorithmIdentifier; subject_public_key : list u8; pki_raw : list u8 }.
Record X509 := mk_X509 {
  not_before : Z;
  not_after : Z;
  extensions : list Extension;
  subject_pki : SubjectPki;
  tbs_raw : list u8;
  signature_algorithm : AlgorithmIdentifier;
  signature_value : list u8;
}.
(** [Validity::is_valid] at the current time. *)
Definition is_valid (now : Z) (x : X509) : bool := (not_before x <=? now) && (now <=? not_after x).

(** [webpki::Error], [rustls::SignatureScheme] and the algorithms of
    [ring::signature]: the values the code names. *)
Inductive WebpkiError :=
| BadDer | ExtensionValueInvalid | UnknownIssuer | UnsupportedCriticalExtension
| InvalidSignatureForPublicKey | UnsupportedSignatureAlgorithmForPublicKey
| UnsupportedSignatureAlgorithm | InvalidCertValidity | SignatureAlgorithmMismatch.

Inductive SignatureScheme :=
| RSA_PKCS1_SHA1 | ECDSA_SHA1_Legacy
| RSA_PKCS1_SHA256 | RSA_PKCS1_SHA384 | RSA_PKCS1_SHA512
| ECDSA_NISTP256_SHA256 | ECDSA_NISTP384_SHA384 | ECDSA_NISTP521_SHA512
| RSA_PSS_SHA256 | RSA_PSS_SHA384 | RSA_PSS_SHA512
| ED25519 | ED448
| UnknownScheme (code : u16).

#[export] Instance SignatureScheme_eq_dec : EqDecision SignatureScheme.
Proof. solve_decision. Defined.
#[export] Instance WebpkiError_eq_dec : EqDecision WebpkiError.
Proof. solve_decision. Defined.

Inductive VerificationAlgorithm :=
| RSA_PKCS1_2048_8192_SHA256 | RSA_PKCS1_2048_8192_SHA384 | RSA_PKCS1_2048_8192_SHA512
| ECDSA_P256_SHA256_ASN1 | ECDSA_P384_SHA384_ASN1
| RSA_PSS_2048_8192_SHA256 | RSA_PSS_2048_8192_SHA384 | RSA_PSS_2048_8192_SHA512
| RING_ED25519.

(** The object identifiers of [oid_registry] (RFC 8017, 5480, 5758, 8410). *)
Definition OID_PKCS1_RSAENCRYPTION : Oid := [1; 2; 840; 113549; 1; 1; 1].
Definition OID_PKCS1_SHA256WITHRSA : Oid := [1; 2; 840; 113549; 1; 1; 11].
Definition OID_PKCS1_SHA384WITHRSA : Oid := [1; 2; 840; 113549; 1; 1; 12].
Definition OID_PKCS1_SHA512WITHRSA : Oid := [1; 2; 840; 113549; 1; 1; 13].
Definition OID_PKCS1_RSASSAPSS : Oid := [1; 2; 840; 113549; 1; 1; 10].
Definition OID_NIST_HASH_SHA256 : Oid := [2; 16; 840; 1; 101; 3; 4; 2; 1].
Definition OID_NIST_HASH_SHA384 : Oid := [2; 16; 840; 1; 101; 3; 4; 2; 2].
Definition OID_NIST_HASH_SHA512 : Oid := [2; 16; 840; 1; 101; 3; 4; 2; 3].
Definition OID_KEY_TYPE_EC_PUBLIC_KEY : Oid := [1; 2; 840; 10045; 2; 1].
Definition OID_EC_P256 : Oid := [1; 2; 840; 10045; 3; 1; 7].
Definition OID_NIST_EC_P384 : Oid := [1; 3; 132; 0; 34].
Definition OID_NIST_EC_P521 : Oid := [1; 3; 132; 0; 35].
Definition OID_SIG_ECDSA_WITH_SHA256 : Oid := [1; 2; 840; 10045; 4; 3; 2].
Definition OID_SIG_ECDSA_WITH_SHA384 : Oid := [1; 2; 840; 10045; 4; 3; 3].
Definition OID_SIG_ECDSA_WITH_SHA512 : Oid := [1; 2; 840; 10045; 4; 3; 4].
Definition OID_SIG_ED25519 : Oid := [1; 3; 101; 112].
Definition OID_SIG_ED448 : Oid := [1; 3; 101; 113].

(** [rcgen::Error]: the values the code makes, and those of the crate. *)
Inductive RcgenError := RingUnspecified | RingKeyRejected (reason : string) | RcgenOther (code : Z).

Class TlsCrypto `{Libp2p} := {
  (** [libp2p_identity] *)
  Keypair : Type;
  PublicKey : Type;
  public : Keypair → PublicKey;
  sign : Keypair → list u8 → option (list u8);
  pk_verify : PublicKey → list u8 → list u8 → bool;
  encode_protobuf : PublicKey → list u8;
  try_decode_protobuf : list u8 → option PublicKey;
  to_peer_id : PublicKey → PeerId;
  (** [ring]: [hmac::sign] with HMAC-SHA256 (key, message); ChaCha20-Poly1305 with
      a nonce and no associated data ([None] also for a key of a wrong length);
      signature verification (algorithm, key, message, signature). *)
  hmac_sha256 : list u8 → list u8 → list u8;
  aead_seal : list u8 → list u8 → list u8 → option (list u8);
  aead_open : list u8 → list u8 → list u8 → option (list u8);
  ring_verify : VerificationAlgorithm → list u8 → list u8 → list u8 → bool;
  (** [x509_parser]: the parser, and the hash of RSASSA-PSS parameters. *)
  x509_from_der : list u8 → option X509;
  pss_hash_oid : AlgorithmIdentifier → option Oid;
  (** [yasna], at pairs of octet strings. *)
  encode_der : list u8 * list u8 → list u8;
  decode_der : list u8 → option (list u8 * list u8);
  (** [rcgen]: a key pair (from the randomness drawn), its two encodings, and a
      self-signed certificate with the given extensions. *)
  CertKeyPair : Type;
  generate_for : Z → result RcgenError CertKeyPair;
  public_key_der : CertKeyPair → list u8;
  serialize_der : CertKeyPair → list u8;
  self_signed : list Extension → CertKeyPair → result RcgenError (list u8);
}.

(** ** Constants *)

Definition P2P_EXT_OID : Oid := [1; 3; 6; 1; 4; 1; 53594; 1; 1].
Definition P2P_SIGNING_PREFIX : list u8 := bytes_of_string "libp2p-tls-handshake:".
Definition PSK_NONCE : list u8 := bytes_of_string "p2pclipboard".

(** ** Operations *)

Section certificate.
Context `{Libp2p} `{!TlsCrypto}.

Definition encrypt_ext_signature (raw_signature : list u8) (psk : string)
    (public_key : list u8) : option (list u8) :=
  let psk_key := hmac_sha256 public_key (bytes_of_string psk) in
  aead_seal psk_key PSK_NONCE raw_signature.

Definition decrypt_ext_signature (raw_signature : list u8) (psk : string)
    (public_key : list u8) : option (list u8) :=
  let psk_key := hmac_sha256 public_key (bytes_of_string psk) in
  aead_open psk_key PSK_NONCE raw_signature.

Record P2pExtension := mk_P2pExtension { ext_public_key : PublicKey; ext_signature : list u8 }.
Record P2pCertificate := mk_P2pCertificate { certificate : X509; extension : P2pExtension }.

Definition make_libp2p_extension (identity_keypair : Keypair)
    (certificate_keypair : CertKeyPair) (pre_shared_key : option string) :
    result RcgenError Extension :=
  let serialized_pubkey := encode_protobuf (public identity_keypair) in
  let msg := P2P_SIGNING_PREFIX ++ public_key_der certificate_keypair in
  raw ← ok_or (sign identity_keypair msg) RingUnspecified;
  signature ← match pre_shared_key with
              | Some psk => ok_or (encrypt_ext_signature raw psk serialized_pubkey)
                              (RingKeyRejected "PSK encryption failed")
              | None => Ok raw
              end;
  Ok (mk_Ext P2P_EXT_OID true (encode_der (serialized_pubkey, signature))).

(** The DER of the certificate and of its private key; [seed] is the randomness of
    the key generation. *)
Definition generate (seed : Z) (identity_keypair : Keypair) (pre_shared_key : option string) :
    result RcgenError (list u8 * list u8) :=
  certificate_keypair ← generate_for seed;
  let rustls_key := serialize_der certificate_keypair in
  ext ← make_libp2p_extension identity_keypair certificate_keypair pre_shared_key;
  certificate ← self_signed [ext] certificate_keypair;
  Ok (certificate, rustls_key).

(** The body of the extension loop: what a libp2p extension decodes to. *)
Definition decode_extension (pre_shared_key : option string) (ext : Extension) :
    result WebpkiError P2pExtension :=
  '(public_key, signature) ← ok_or (decode_der (ext_value ext)) ExtensionValueInvalid;
  signature ← match pre_shared_key with
              | Some psk => ok_or (decrypt_ext_signature signature psk public_key)
                              ExtensionValueInvalid
              | None => Ok signature
              end;
  public_key ← ok_or (try_decode_protobuf public_key) UnknownIssuer;
  Ok (mk_P2pExtension public_key signature).

(** The loop over the extensions, [libp2p_extension] being its variable. *)
Fixpoint scan_extensions (pre_shared_key : option string)
    (libp2p_extension : option P2pExtension) (exts : list Extension) :
    result WebpkiError (option P2pExtension) :=
  match exts with
  | [] => Ok libp2p_extension
  | ext :: exts' =>
      let is_p2p := bool_decide (ext_oid ext = P2P_EXT_OID) in
      if is_p2p && bool_decide (is_Some libp2p_extension) then Err BadDer
      else if is_p2p then
        e ← decode_extension pre_shared_key ext;
        scan_extensions pre_shared_key (Some e) exts'
      else if ext_critical ext then Err UnsupportedCriticalExtension
      else scan_extensions pre_shared_key libp2p_extension exts'
  end.

Definition parse_unverified (der_input : list u8) (pre_shared_key : option string) :
    result WebpkiError P2pCertificate :=
  x509 ← ok_or (x509_from_der der_input) BadDer;
  libp2p_extension ← scan_extensions pre_shared_key None (extensions x509);
  extension ← ok_or libp2p_extension BadDer;
  Ok (mk_P2pCertificate x509 extension).

Definition peer_id (self : P2pCertificate) : PeerId :=
  to_peer_id (ext_public_key (extension self)).

Definition signature_scheme (self : P2pCertificate) : result WebpkiError SignatureScheme :=
  let signature_algorithm := signature_algorithm (certificate self) in
  let sig_oid := alg_oid signature_algorithm in
  let pki_algorithm := pki_algorithm (subject_pki (certificate self)) in
  let other :=
    if bool_decide (sig_oid = OID_SIG_ED25519) then Ok ED25519
    else if bool_decide (sig_oid = OID_SIG_ED448) then Ok ED448
    else Err UnsupportedSignatureAlgorithm in
  let ec :=
    if bool_decide (alg_oid pki_algorithm = OID_KEY_TYPE_EC_PUBLIC_KEY) then
      parameters ← ok_or (alg_params pki_algorithm) BadDer;
      signature_param ← match parameters with AnyOid o => Ok o | AnyOther => Err BadDer end;
      if bool_decide (signature_param = OID_EC_P256)
         && bool_decide (sig_oid = OID_SIG_ECDSA_WITH_SHA256) then Ok ECDSA_NISTP256_SHA256
      else if bool_decide (signature_param = OID_NIST_EC_P384)
              && bool_decide (sig_oid = OID_SIG_ECDSA_WITH_SHA384) then Ok ECDSA_NISTP384_SHA384
      else if bool_decide (signature_param = OID_NIST_EC_P521)
              && bool_decide (sig_oid = OID_SIG_ECDSA_WITH_SHA512) then Ok ECDSA_NISTP521_SHA512
      else Err UnsupportedSignatureAlgorithm
    else other in
  if bool_decide (alg_oid pki_algorithm = OID_PKCS1_RSAENCRYPTION) then
    if bool_decide (sig_oid = OID_PKCS1_SHA256WITHRSA) then Ok RSA_PKCS1_SHA256
    else if bool_decide (sig_oid = OID_PKCS1_SHA384WITHRSA) then Ok RSA_PKCS1_SHA384
    else if bool_decide (sig_oid = OID_PKCS1_SHA512WITHRSA) then Ok RSA_PKCS1_SHA512
    else if bool_decide (sig_oid = OID_PKCS1_RSASSAPSS) then
      match pss_hash_oid signature_algorithm with
      | Some hash_oid =>
          if bool_decide (hash_oid = OID_NIST_HASH_SHA256) then Ok RSA_PSS_SHA256
          else if bool_decide (hash_oid = OID_NIST_HASH_SHA384) then Ok RSA_PSS_SHA384
          else if bool_decide (hash_oid = OID_NIST_HASH_SHA512) then Ok RSA_PSS_SHA512
          else Err UnsupportedSignatureAlgorithm
      | None => Err UnsupportedSignatureAlgorithm
      end
    else ec
  else ec.

(** The [match] of [public_key]. *)
Definition verification_algorithm (scheme : SignatureScheme) :
    result WebpkiError VerificationAlgorithm :=
  match scheme with
  | RSA_PKCS1_SHA256 => Ok RSA_PKCS1_2048_8192_SHA256
  | RSA_PKCS1_SHA384 => Ok RSA_PKCS1_2048_8192_SHA384
  | RSA_PKCS1_SHA512 => Ok RSA_PKCS1_2048_8192_SHA512
  | ECDSA_NISTP256_SHA256 => Ok ECDSA_P256_SHA256_ASN1
  | ECDSA_NISTP384_SHA384 => Ok ECDSA_P384_SHA384_ASN1
  | ECDSA_NISTP521_SHA512 => Err UnsupportedSignatureAlgorithm
  | RSA_PSS_SHA256 => Ok RSA_PSS_2048_8192_SHA256
  | RSA_PSS_SHA384 => Ok RSA_PSS_2048_8192_SHA384
  | RSA_PSS_SHA512 => Ok RSA_PSS_2048_8192_SHA512
  | ED25519 => Ok RING_ED25519
  | ED448 => Err UnsupportedSignatureAlgorithm
  | RSA_PKCS1_SHA1 => Err UnsupportedSignatureAlgorithm
  | ECDSA_SHA1_Legacy => Err UnsupportedSignatureAlgorithm
  | _ => Err UnsupportedSignatureAlgorithm
  end.

(** An [UnparsedPublicKey] is an algorithm and the key's bytes. *)
Definition public_key (self : P2pCertificate) (scheme : SignatureScheme) :
    result WebpkiError (VerificationAlgorithm * list u8) :=
  current_signature_scheme ← signature_scheme self;
  if negb (bool_decide (scheme = current_signature_scheme))
  then Err UnsupportedSignatureAlgorithmForPublicKey
  else
    algorithm ← verification_algorithm scheme;
    Ok (algorithm, subject_public_key (subject_pki (certificate self))).

Definition verify_signature (self : P2pCertificate) (scheme : SignatureScheme)
    (message signature : list u8) : result WebpkiError () :=
  '(algorithm, key) ← public_key self scheme;
  if ring_verify algorithm key message signature then Ok ()
  else Err InvalidSignatureForPublicKey.

(** [now] is the time [is_valid] reads. *)
Definition verify (now : Z) (self : P2pCertificate) : result WebpkiError () :=
  if negb (is_valid now (certificate self)) then Err InvalidCertValidity
  else
    scheme ← signature_scheme self;
    let raw_certificate := tbs_raw (certificate self) in
    let signature := signature_value (certificate self) in
    _ ← map_err (λ _, SignatureAlgorithmMismatch)
          (verify_signature self scheme raw_certificate signature);
    let subject_pki := pki_raw (subject_pki (certificate self)) in
    let msg := P2P_SIGNING_PREFIX ++ subject_pki in
    let user_owns_sk := pk_verify (ext_public_key (extension self)) msg
                          (ext_signature (extension self)) in
    if negb user_owns_sk then Err UnknownIssuer else Ok ().

Definition parse (now : Z) (cert : list u8) (pre_shared_key : option string) :
    result WebpkiError P2pCertificate :=
  certificate ← parse_unverified cert pre_shared_key;
  _ ← verify now certificate;
  Ok certificate.
End certificate.

(** ** What the code relies on *)

(** An extension the parser passes over. *)
Definition harmless (e : Extension) : Prop := ext_oid e ≠ P2P_EXT_OID ∧ ext_critical e = false.

(** Signing and verifying, sealing and opening, and the codecs are inverse to each
    other; a certificate built by [rcgen] with [PKCS_ECDSA_P256_SHA256] is parsed
    back with its public key, its extensions among others that are not critical,
    the algorithms of P-256 with SHA-256, and a valid self-signature. *)
Class TlsLaws `{Libp2p, !TlsCrypto} : Prop := {
  sign_verify k m s : sign k m = Some s → pk_verify (public k) m s = true;
  decode_encode_protobuf pk : try_decode_protobuf (encode_protobuf pk) = Some pk;
  open_seal k n pt ct : aead_seal k n pt = Some ct → aead_open k n ct = Some pt;
  decode_encode_der v : decode_der (encode_der v) = Some v;
  self_signed_parse exts kp der :
    self_signed exts kp = Ok der →
    ∃ x pre post, x509_from_der der = Some x
    ∧ extensions x = pre ++ exts ++ post ∧ Forall harmless (pre ++ post)
    ∧ pki_raw (subject_pki x) = public_key_der kp
    ∧ alg_oid (pki_algorithm (subject_pki x)) = OID_KEY_TYPE_EC_PUBLIC_KEY
    ∧ alg_params (pki_algorithm (subject_pki x)) = Some (AnyOid OID_EC_P256)
    ∧ alg_oid (signature_algorithm x) = OID_SIG_ECDSA_WITH_SHA256
    ∧ ring_verify ECDSA_P256_SHA256_ASN1 (subject_public_key (subject_pki x)) (tbs_raw x)
        (signature_value x) = true;
}.

(** ** Lemmas *)

Section props.
Context `{Libp2p} `{!TlsCrypto}.

Lemma scan_extensions_found psk p exts r :
  scan_extensions psk (Some p) exts = Ok r ↔ r = Some p ∧ Forall harmless exts.
Proof.
  induction exts as [|e exts IH]; cbn [scan_extensions].
  { split; [intros [= <-]; by split|by intros [-> _]]. }
  rewrite Forall_cons. unfold harmless at 1.
  destruct (decide (ext_oid e = P2P_EXT_OID)) as [Heq|Hne].
  - rewrite bool_decide_true, bool_decide_true by done. simpl. split; [done|naive_solver].
  - rewrite bool_decide_false by done. cbn [andb]. destruct (ext_critical e); [|rewrite IH]; naive_solver.
Qed.

(** What the loop accepts: one libp2p extension that decodes, and no other
    critical extension. *)
Definition accepts_extensions (psk : option string) (exts : list Extension) (p : P2pExtension) : Prop :=
  ∃ pre e post, exts = pre ++ e :: post ∧ ext_oid e = P2P_EXT_OID
    ∧ Forall harmless (pre ++ post) ∧ decode_extension psk e = Ok p.

Lemma scan_extensions_ok psk exts p :
  scan_extensions psk None exts = Ok (Some p) ↔ accepts_extensions psk exts p.
Proof.
  unfold accepts_extensions. induction exts as [|e exts IH]; cbn [scan_extensions].
  { split; [done|]. intros (pre & e & post & Heq & _). by destruct pre. }
  destruct (decide (ext_oid e = P2P_EXT_OID)) as [Heq|Hne].
  - rewrite bool_decide_true by done. rewrite bool_decide_false by (by intros []). cbn [andb].
    rewrite bind_Ok. split.
    + intros (p' & Hp & [[= ->] Hall]%scan_extensions_found). by exists [], e, exts.
    + intros ([|e' pre] & e1 & post & Hexts & Ho & Hall & Hp); simplify_eq/=.
      * exists p. split; [done|]. by apply scan_extensions_found.
      * apply Forall_cons in Hall as [[Hh _] _]. done.
  - rewrite bool_decide_false by done. cbn [andb]. destruct (ext_critical e) eqn:Hc.
    + split; [done|]. intros ([|e' pre] & e1 & post & Hexts & Ho & Hall & Hp); simplify_eq/=.
      apply Forall_cons in Hall as [[_ Hh] _]. congruence.
    + rewrite IH. split.
      * intros (pre & e1 & post & -> & Ho & Hall & Hp). exists (e :: pre), e1, post.
        split; [done|]. split; [done|]. split; [by constructor|done].
      * intros ([|e' pre] & e1 & post & Hexts & Ho & Hall & Hp); simplify_eq/=.
        apply Forall_cons in Hall as [_ Hall]. by exists pre, e1, post.
Qed.

Lemma scan_extensions_none psk exts :
  scan_extensions psk None exts = Ok None ↔ Forall harmless exts.
Proof.
  induction exts as [|e exts IH]; cbn [scan_extensions]; [by split|].
  rewrite Forall_cons. unfold harmless at 1.
  destruct (decide (ext_oid e = P2P_EXT_OID)) as [Heq|Hne].
  - rewrite bool_decide_true by done. rewrite bool_decide_false by (by intros []). cbn [andb].
    rewrite bind_Ok. split; [|naive_solver].
    by intros (p' & Hp & [[=] _]%scan_extensions_found).
  - rewrite bool_decide_false by done. cbn [andb]. destruct (ext_critical e); [|rewrite IH]; naive_solver.
Qed.

Lemma parse_unverified_ok der psk c :
  parse_unverified der psk = Ok c ↔
  x509_from_der der = Some (certificate c)
  ∧ accepts_extensions psk (extensions (certificate c)) (extension c).
Proof.
  unfold parse_unverified. rewrite bind_Ok. split.
  - intros (x & Hx & (o & Ho & (p & Hp & [= <-])%bind_Ok)%bind_Ok).
    destruct (x509_from_der der); simplify_eq/=. destruct o; simplify_eq/=.
    split; [done|]. by apply scan_extensions_ok.
  - intros [Hx Hacc]. exists (certificate c). rewrite Hx. split; [done|].
    apply scan_extensions_ok in Hacc. rewrite Hacc. by destruct c.
Qed.

Lemma verify_ok now c :
  verify now c = Ok () ↔
  is_valid now (certificate c) = true
  ∧ (∃ scheme alg, signature_scheme c = Ok scheme ∧ verification_algorithm scheme = Ok alg
     ∧ ring_verify alg (subject_public_key (subject_pki (certificate c)))
         (tbs_raw (certificate c)) (signature_value (certificate c)) = true)
  ∧ pk_verify (ext_public_key (extension c))
      (P2P_SIGNING_PREFIX ++ pki_raw (subject_pki (certificate c)))
      (ext_signature (extension c)) = true.
Proof.
  unfold verify, verify_signature, public_key.
  destruct (is_valid now (certificate c)); [|naive_solver]. cbn [negb].
  destruct (signature_scheme c) as [scheme|e]; cbn [mbind result_bind]; [|naive_solver].
  rewrite bool_decide_true by done. cbn [negb].
  destruct (verification_algorithm scheme) as [alg|e] eqn:Halg; cbn [mbind result_bind map_err];
    [|split; [done|intros (_ & (s & a & [= <-] & Ha & _) & _); congruence]].
  destruct (ring_verify alg _ _ _) eqn:Hring; cbn [mbind result_bind map_err];
    [|split; [done|intros (_ & (s & a & [= <-] & Ha & Hr) & _); congruence]].
  destruct (pk_verify _ _ _); naive_solver.
Qed.
End props.

(** The strong schemes [ring] supports: no SHA-1, P-521 or Ed448. *)
Definition strong (s : SignatureScheme) : Prop :=
  s ∈ [RSA_PKCS1_SHA256; RSA_PKCS1_SHA384; RSA_PKCS1_SHA512; ECDSA_NISTP256_SHA256;
       ECDSA_NISTP384_SHA384; RSA_PSS_SHA256; RSA_PSS_SHA384; RSA_PSS_SHA512; ED25519].

Lemma verification_algorithm_strong s alg : verification_algorithm s = Ok alg → strong s.
Proof. unfold strong. destruct s; try done; intros _; set_solver. Qed.

(** ** Theorems *)

Section theorems.
Context `{Libp2p} `{!TlsCrypto}.

(** C10: A certificate is accepted exactly when it is an X.509 certificate with one
    libp2p extension, which decodes under the pre-shared key, and no other
    critical extension; it is valid now; it is self-signed with a supported
    scheme, which is never one of SHA-1, P-521 or Ed448; and the extension's
    signature of the certificate's key verifies under the host key in it. *)
Theorem parse_accepts_iff now der psk c :
  parse now der psk = Ok c ↔
  x509_from_der der = Some (certificate c)
  ∧ accepts_extensions psk (extensions (certificate c)) (extension c)
  ∧ is_valid now (certificate c) = true
  ∧ (∃ scheme alg, signature_scheme c = Ok scheme ∧ strong scheme
     ∧ verification_algorithm scheme = Ok alg
     ∧ ring_verify alg (subject_public_key (subject_pki (certificate c)))
         (tbs_raw (certificate c)) (signature_value (certificate c)) = true)
  ∧ pk_verify (ext_public_key (extension c))
      (P2P_SIGNING_PREFIX ++ pki_raw (subject_pki (certificate c)))
      (ext_signature (extension c)) = true.
Proof.
  unfold parse. rewrite bind_Ok. split.
  - intros (c' & Hc & ([] & Hv & [= ->])%bind_Ok).
    apply parse_unverified_ok in Hc as [Hx Hacc].
    apply verify_ok in Hv as (Hvalid & (s & alg & Hs & Halg & Hring) & Hpk).
    eauto 12 using verification_algorithm_strong.
  - intros (Hx & Hacc & Hvalid & (s & alg & Hs & _ & Halg & Hring) & Hpk).
    exists c. split; [by apply parse_unverified_ok|].
    assert (verify now c = Ok ()) as -> by (apply verify_ok; eauto 8). done.
Qed.

(** The extension of a generated certificate decodes under the same key. *)
Lemma decode_made_extension `{!TlsLaws} k kp psk e :
  make_libp2p_extension k kp psk = Ok e →
  ext_oid e = P2P_EXT_OID
  ∧ ∃ raw, sign k (P2P_SIGNING_PREFIX ++ public_key_der kp) = Some raw
    ∧ decode_extension psk e = Ok (mk_P2pExtension (public k) raw).
Proof.
  unfold make_libp2p_extension. intros (raw & Hraw & (sig & Hsig & [= <-])%bind_Ok)%bind_Ok.
  split; [done|]. exists raw. destruct (sign k _) as [raw'|]; simplify_eq/=. split; [done|].
  unfold decode_extension. cbn [ext_value]. rewrite decode_encode_der.
  destruct psk as [psk|]; cbn [ok_or mbind result_bind].
  - unfold encrypt_ext_signature, decrypt_ext_signature in *.
    destruct (aead_seal _ _ _) as [ct|] eqn:Hseal; simplify_eq/=.
    apply open_seal in Hseal. rewrite Hseal. cbn [ok_or mbind result_bind].
    by rewrite decode_encode_protobuf.
  - simplify_eq/=. by rewrite decode_encode_protobuf.
Qed.

(** A generated certificate is accepted by a peer with the same pre-shared key
    (or none on both sides) while it is valid, and identifies the host key it was
    generated for. *)
Theorem generated_certificate_accepted `{!TlsLaws} now seed k psk cert key :
  generate seed k psk = Ok (cert, key) →
  (∀ x, x509_from_der cert = Some x → is_valid now x = true) →
  ∃ c, parse now cert psk = Ok c ∧ peer_id c = to_peer_id (public k).
Proof.
  unfold generate. intros (kp & _ & (e & He & (der & Hder & [= <- _])%bind_Ok)%bind_Ok)%bind_Ok Hvalid.
  destruct (decode_made_extension k kp psk e He) as (Hoid & raw & Hsign & Hdec).
  apply self_signed_parse in Hder
    as (x & pre & post & Hx & Hext & Hharm & Hpki & Halg & Hparams & Hsig & Hring).
  exists (mk_P2pCertificate x (mk_P2pExtension (public k) raw)). split; [|done].
  apply parse_accepts_iff. cbn [certificate extension ext_public_key ext_signature].
  split; [done|]. split; [by exists pre, e, post|]. split; [by apply Hvalid|]. split.
  - exists ECDSA_NISTP256_SHA256, ECDSA_P256_SHA256_ASN1.
    split; [|split; [unfold strong; set_solver|done]].
    unfold signature_scheme. cbn [certificate]. rewrite Halg, Hparams, Hsig. by vm_compute.
  - rewrite Hpki. by apply sign_verify.
Qed.

(** A peer with another pre-shared key rejects the certificate, provided the
    two keys derive different AEAD keys and the AEAD does not open under a key
    other than the one that sealed. *)
Theorem wrong_psk_rejected `{!TlsLaws} now seed k psk psk' cert key :
  generate seed k (Some psk) = Ok (cert, key) →
  hmac_sha256 (encode_protobuf (public k)) (bytes_of_string psk) ≠
    hmac_sha256 (encode_protobuf (public k)) (bytes_of_string psk') →
  (∀ k1 k2 n pt ct, k1 ≠ k2 → aead_seal k1 n pt = Some ct → aead_open k2 n ct = None) →
  parse now cert (Some psk') = Err ExtensionValueInvalid.
Proof.
  unfold generate. intros (kp & _ & (e & He & (der & Hder & [= <- _])%bind_Ok)%bind_Ok)%bind_Ok Hne Hauth.
  apply self_signed_parse in Hder as (x & pre & post & Hx & Hext & Hharm & _).
  assert (ext_oid e = P2P_EXT_OID ∧ decode_extension (Some psk') e = Err ExtensionValueInvalid)
    as [Hoid Hdec].
  { unfold make_libp2p_extension in He.
    apply bind_Ok in He as (raw & _ & (sig & Hsig & [= <-])%bind_Ok). split; [done|].
    unfold decode_extension. cbn [ext_value]. rewrite decode_encode_der.
    cbn [ok_or mbind result_bind]. unfold encrypt_ext_signature, decrypt_ext_signature in *.
    destruct (aead_seal _ _ _) as [ct|] eqn:Hseal; simplify_eq/=.
    by rewrite (Hauth _ _ _ _ _ Hne Hseal). }
  unfold parse, parse_unverified. rewrite Hx. cbn [ok_or mbind result_bind]. rewrite Hext. clear Hext.
  apply Forall_app in Hharm as [Hpre _]. induction Hpre as [|e' pre [Ho Hc] Hpre IH]; simpl app.
  - cbn [scan_extensions]. rewrite bool_decide_true by done.
    rewrite bool_decide_false by (by intros []). cbn [andb]. by rewrite Hdec.
  - cbn [scan_extensions]. rewrite bool_decide_false by done. cbn [andb]. rewrite Hc. exact IH.
Qed.
End theorems.

(** ** A concrete instance, for the witnesses

    A key pair is a number and its public key the same number; a signature is the
    signed message after the key; sealing prefixes the key and its length. *)

Definition encode_ext (e : Extension) : list Z * bool * list Z :=
  (ext_oid e, ext_critical e, ext_value e).
Definition decode_ext (t : list Z * bool * list Z) : Extension :=
  mk_Ext t.1.1 t.1.2 t.2.

#[export] Instance Extension_eq_dec : EqDecision Extension.
Proof. solve_decision. Defined.
#[export] Instance Extension_countable : Countable Extension.
Proof. apply (inj_countable' encode_ext decode_ext). by intros []. Defined.

Definition toy_x509 (kp : Z) (exts : list Extension) : X509 := {|
  not_before := 0;
  not_after := 4102444800;
  extensions := exts;
  subject_pki := mk_Pki (mk_Alg OID_KEY_TYPE_EC_PUBLIC_KEY (Some (AnyOid OID_EC_P256)) []) [kp] [kp];
  tbs_raw := [kp];
  signature_algorithm := mk_Alg OID_SIG_ECDSA_WITH_SHA256 None [];
  signature_value := [kp; kp];
|}.

Definition toy_open (key nonce ct : list Z) : option (list Z) :=
  match ct with
  | n :: rest =>
      if bool_decide (n = Z.of_nat (length key)) && bool_decide (take (length key) rest = key)
      then Some (drop (length key) rest) else None
  | [] => None
  end.

#[export] Instance toy_tls : @TlsCrypto list_libp2p := {|
  Keypair := positive;
  PublicKey := positive;
  public k := k;
  sign k m := Some (Zpos k :: m);
  pk_verify pk m s := bool_decide (s = Zpos pk :: m);
  encode_protobuf pk := [Zpos pk];
  try_decode_protobuf l := match l with [z] => Some (Z.to_pos z) | _ => None end;
  to_peer_id pk := pk;
  hmac_sha256 k m := k ++ m;
  aead_seal k n pt := Some (Z.of_nat (length k) :: k ++ pt);
  aead_open := toy_open;
  ring_verify _ k m s := bool_decide (s = k ++ m);
  x509_from_der d := match d with [kp; z] => toy_x509 kp <$> decode (Z.to_pos z) | _ => None end;
  pss_hash_oid _ := None;
  encode_der v := Z.of_nat (length v.1) :: v.1 ++ v.2;
  decode_der l := match l with n :: r => Some (take (Z.to_nat n) r, drop (Z.to_nat n) r) | [] => None end;
  CertKeyPair := Z;
  generate_for seed := Ok seed;
  public_key_der kp := [kp];
  serialize_der kp := [kp];
  self_signed exts kp := Ok [kp; Zpos (encode exts)];
|}.

#[export] Instance toy_tls_laws : @TlsLaws list_libp2p toy_tls.
Proof.
  split.
  - intros k m s [= <-]. cbn. by apply bool_decide_true.
  - done.
  - intros k n pt ct [= <-]. cbn. rewrite bool_decide_true by done.
    rewrite take_app_length, bool_decide_true by done. by rewrite drop_app_length.
  - intros [a b]. cbn. by rewrite Nat2Z.id, take_app_length, drop_app_length.
  - intros exts kp der [= <-]. exists (toy_x509 kp exts), [], []. cbn.
    rewrite decode_encode, app_nil_r. repeat (split; [done|]). by apply bool_decide_true.
Qed.

(** The toy cipher does not open under a key other than the one that sealed. *)
Lemma toy_aead_authentic k1 k2 n pt ct :
  k1 ≠ k2 → aead_seal (TlsCrypto:=toy_tls) k1 n pt = Some ct →
  aead_open (TlsCrypto:=toy_tls) k2 n ct = None.
Proof.
  intros Hne [= <-]. cbn. unfold toy_open.
  destruct (decide (length k1 = length k2)) as [Hl|Hl].
  - by rewrite <- Hl, take_app_length, bool_decide_true, bool_decide_false by done.
  - rewrite bool_decide_false by lia. done.
Qed.

Definition wit_cert (psk : option string) : list Z :=
  match generate (H:=list_libp2p) (H0:=toy_tls) 5 7%positive psk with Ok (cert, _) => cert | Err _ => [] end.

Lemma generated_certificate_accepted_witness :
  ∃ c, parse (H:=list_libp2p) (H0:=toy_tls) 1700000000 (wit_cert (Some "secret")) (Some "secret"%string) = Ok c
  ∧ peer_id c = 7%positive.
Proof.
  eapply (generated_certificate_accepted (H:=list_libp2p) (H0:=toy_tls) 1700000000 5 7%positive
    (Some "secret"%string) (wit_cert (Some "secret"%string)) [5]); [reflexivity|].
  intros x. unfold wit_cert. cbn [generate]. intros Hx.
  change (toy_x509 5 <$> decode (encode [mk_Ext P2P_EXT_OID true
    (encode_der ([7], Z.of_nat 7 :: ([7] ++ bytes_of_string "secret") ++
       (7 :: P2P_SIGNING_PREFIX ++ [5])))]) = Some x) in Hx.
  rewrite decode_encode in Hx. by injection Hx as <-.
Defined.

Lemma wrong_psk_rejected_witness :
  parse (H:=list_libp2p) (H0:=toy_tls) 1700000000 (wit_cert (Some "secret")) (Some "guess"%string) =
    Err ExtensionValueInvalid.
Proof.
  eapply (wrong_psk_rejected (H:=list_libp2p) (H0:=toy_tls) 1700000000 5 7%positive "secret" "guess"
    (wit_cert (Some "secret"%string)) [5]); [reflexivity|by vm_compute|].
  apply toy_aead_authentic.
Defined.
