(* ===== verification/TlsVerifier.v ===== *)
(** * TLS handshake verification ([src/lib/tls/src/verifier.rs], [lib.rs],
    [upgrade.rs])

    The certificate verifier [rustls] calls, the client and server
    configurations, and the connection upgrades.  The handshake itself is
    [rustls]: a parameter that gives the certificates the remote presented. *)

From S2P Require Import Prelude RustStr Libp2p Certificate.

Local Open Scope Z_scope.

(** ** Data of [rustls] *)

Inductive CertificateError :=
| BadEncoding | BadSignature | ApplicationVerificationFailure | OtherError (e : WebpkiError).
Inductive RustlsError :=
| InvalidCertificate (e : CertificateError)
| General (reason : string).

Inductive CipherSuite :=
| TLS13_AES_256_GCM_SHA384 | TLS13_AES_128_GCM_SHA256 | TLS13_CHACHA20_POLY1305_SHA256.
Inductive ProtocolVersion := TLS12 | TLS13.

#[export] Instance CipherSuite_eq_dec : EqDecision CipherSuite.
Proof. solve_decision. Defined.
#[export] Instance ProtocolVersion_eq_dec : EqDecision ProtocolVersion.
Proof. solve_decision. Defined.

(** ** Constants *)

Definition PROTOCOL_VERSIONS : list ProtocolVersion := [TLS13].
Definition CIPHERSUITES : list CipherSuite :=
  [TLS13_AES_256_GCM_SHA384; TLS13_AES_128_GCM_SHA256; TLS13_CHACHA20_POLY1305_SHA256].
Definition CIPHERSUITES_WITHOUT_AES : list CipherSuite := [TLS13_CHACHA20_POLY1305_SHA256].
Definition P2P_ALPN : list u8 := bytes_of_string "p2pclipboard".

(** ** The verifier *)

(** [From<ParseError>] and [From<VerificationError>] for [rustls::Error]. *)
Definition from_parse_error (e : WebpkiError) : RustlsError :=
  match e with
  | BadDer => InvalidCertificate BadEncoding
  | e => InvalidCertificate (OtherError e)
  end.
Definition from_verification_error (e : WebpkiError) : RustlsError :=
  match e with
  | InvalidSignatureForPublicKey => InvalidCertificate BadSignature
  | other => InvalidCertificate (OtherError other)
  end.

Definition verification_schemes : list SignatureScheme :=
  [ECDSA_NISTP384_SHA384; ECDSA_NISTP256_SHA256; ED25519;
   RSA_PSS_SHA512; RSA_PSS_SHA384; RSA_PSS_SHA256;
   RSA_PKCS1_SHA512; RSA_PKCS1_SHA384; RSA_PKCS1_SHA256].

Section verifier.
Context `{Libp2p} `{!TlsCrypto}.

Record Libp2pCertificateVerifier := mk_verifier {
  remote_peer_id : option PeerId;
  pre_shared_key : option string;
}.

(** [Libp2pCertificateVerifier::new] and [with_remote_peer_id]. *)
Definition new_verifier (pre_shared_key : option string) : Libp2pCertificateVerifier :=
  mk_verifier None pre_shared_key.
Definition with_remote_peer_id (remote_peer_id : option PeerId) (pre_shared_key : option string) :
    Libp2pCertificateVerifier :=
  mk_verifier remote_peer_id pre_shared_key.

Definition verify_presented_certs (now : Z) (end_entity : list u8)
    (intermediates : list (list u8)) (pre_shared_key : option string) :
    result RustlsError PeerId :=
  if negb (bool_decide (intermediates = [])) then
    Err (General "libp2p-tls requires exactly one certificate")
  else
    cert ← map_err from_parse_error (parse now end_entity pre_shared_key);
    Ok (peer_id cert).

(** The free function [verify_tls13_signature]; the two methods of that name call
    it with the verifier's key. *)
Definition verify_tls13_signature (now : Z) (cert : list u8) (signature_scheme : SignatureScheme)
    (message signature : list u8) (pre_shared_key : option string) : result RustlsError () :=
  cert ← map_err from_parse_error (parse now cert pre_shared_key);
  map_err from_verification_error (verify_signature cert signature_scheme message signature).

Definition verify_server_cert (self : Libp2pCertificateVerifier) (now : Z)
    (end_entity : list u8) (intermediates : list (list u8)) : result RustlsError () :=
  peer_id ← verify_presented_certs now end_entity intermediates (pre_shared_key self);
  match remote_peer_id self with
  | Some remote_peer_id =>
      if negb (bool_decide (remote_peer_id = peer_id))
      then Err (InvalidCertificate ApplicationVerificationFailure)
      else Ok ()
  | None => Ok ()
  end.

Definition verify_client_cert (self : Libp2pCertificateVerifier) (now : Z)
    (end_entity : list u8) (intermediates : list (list u8)) : result RustlsError () :=
  _ ← verify_presented_certs now end_entity intermediates (pre_shared_key self);
  Ok ().

(** The trait method for TLS 1.2: [unreachable!]. *)
Definition verify_tls12_signature (self : Libp2pCertificateVerifier) : outcome (result RustlsError ()) :=
  Panic.

(** [DigitallySignedStruct]. *)
Record SignedStruct := mk_SignedStruct { scheme : SignatureScheme; signature_of : list u8 }.

(** The method [verify_tls13_signature] of the server's and of the client's verifier. *)
Definition verify_tls13_signature_method (self : Libp2pCertificateVerifier) (now : Z)
    (message cert : list u8) (dss : SignedStruct) : result RustlsError () :=
  verify_tls13_signature now cert (scheme dss) message (signature_of dss) (pre_shared_key self).

Definition supported_verify_schemes (self : Libp2pCertificateVerifier) : list SignatureScheme :=
  verification_schemes.
Definition offer_client_auth (self : Libp2pCertificateVerifier) : bool := true.
Definition root_hint_subjects (self : Libp2pCertificateVerifier) : list (list u8) := [].

(** ** The configurations *)

Record TlsConfig := mk_TlsConfig {
  cipher_suites : list CipherSuite;
  protocol_versions : list ProtocolVersion;
  verifier : Libp2pCertificateVerifier;
  (** The certificate and the key of [AlwaysResolvesCert]. *)
  resolved_cert : list u8 * list u8;
  alpn_protocols : list (list u8);
}.

(** [AlwaysResolvesCert::new]: [None] when [rustls] refuses the private key. *)
Definition always_resolves_cert (any_ecdsa_type : list u8 → bool) (cert key : list u8) :
    option (list u8 * list u8) :=
  if any_ecdsa_type key then Some (cert, key) else None.

(** Its [resolve], on either side and whatever the remote asks for, and [has_certs]. *)
Definition resolve (self : list u8 * list u8) : option (list u8 * list u8) := Some self.
Definition has_certs (self : list u8 * list u8) : bool := true.

(** [has_aes] is the value of the CPU feature test; [any_ecdsa_type] says whether
    [rustls] accepts the private key: [expect] panics when it does not. *)
Definition cipher_suites_for (has_aes : bool) : list CipherSuite :=
  if has_aes then CIPHERSUITES else CIPHERSUITES_WITHOUT_AES.

Definition make_config (has_aes : bool) (any_ecdsa_type : list u8 → bool) (seed : Z)
    (keypair : Keypair) (verifier : Libp2pCertificateVerifier) (psk : option string) :
    outcome (result RcgenError TlsConfig) :=
  match generate seed keypair psk with
  | Err e => Done (Err e)
  | Ok (certificate, private_key) =>
      match always_resolves_cert any_ecdsa_type certificate private_key with
      | None => Panic
      | Some cert_resolver =>
          Done (Ok (mk_TlsConfig (cipher_suites_for has_aes) PROTOCOL_VERSIONS verifier
                      cert_resolver [P2P_ALPN]))
      end
  end.

Definition make_client_config (has_aes : bool) (any_ecdsa_type : list u8 → bool) (seed : Z)
    (keypair : Keypair) (remote_peer_id : option PeerId) (psk : option string) :=
  make_config has_aes any_ecdsa_type seed keypair (with_remote_peer_id remote_peer_id psk) psk.
Definition make_server_config (has_aes : bool) (any_ecdsa_type : list u8 → bool) (seed : Z)
    (keypair : Keypair) (psk : option string) :=
  make_config has_aes any_ecdsa_type seed keypair (new_verifier psk) psk.

Record UpgradeConfig := mk_UpgradeConfig {
  server : TlsConfig;
  client : TlsConfig;
  config_psk : option string;
}.

(** [Config::new_with_psk]; [Config::new] is the case of no key.  Each
    certificate draws its own randomness. *)
Definition new_with_psk (has_aes : bool) (any_ecdsa_type : list u8 → bool) (seed1 seed2 : Z)
    (psk : option string) (identity : Keypair) : outcome (result RcgenError UpgradeConfig) :=
  server ← make_server_config has_aes any_ecdsa_type seed1 identity psk;
  match server with
  | Err e => Done (Err e)
  | Ok server =>
      client ← make_client_config has_aes any_ecdsa_type seed2 identity None psk;
      match client with
      | Err e => Done (Err e)
      | Ok client => Done (Ok (mk_UpgradeConfig server client psk))
      end
  end.
Definition new_config (has_aes : bool) (any_ecdsa_type : list u8 → bool) (seed1 seed2 : Z)
    (identity : Keypair) : outcome (result RcgenError UpgradeConfig) :=
  new_with_psk has_aes any_ecdsa_type seed1 seed2 None identity.

(** ** The upgrades *)

Inductive UpgradeError :=
| CertificateGeneration (e : RcgenError)
| ServerUpgrade (io_error : Z)
| ClientUpgrade (io_error : Z)
| BadCertificate (e : WebpkiError).

(** [peer_certificates] is what the connection state holds after the handshake. *)
Definition extract_single_certificate (now : Z) (peer_certificates : option (list (list u8)))
    (psk : option string) : outcome (result WebpkiError P2pCertificate) :=
  match peer_certificates with
  | Some [cert] => Done (parse now cert psk)
  | _ => Panic
  end.

(** [handshake] is [TlsAcceptor::accept], respectively [TlsConnector::connect]: the
    peer certificates, or an I/O error. *)
Definition upgrade (wrap_error : Z → UpgradeError) (side : UpgradeConfig → TlsConfig)
    (handshake : TlsConfig → result Z (option (list (list u8)))) (now : Z)
    (self : UpgradeConfig) : outcome (result UpgradeError PeerId) :=
  match handshake (side self) with
  | Err io => Done (Err (wrap_error io))
  | Ok certs =>
      cert ← extract_single_certificate now certs (config_psk self);
      Done (peer_id <$> map_err BadCertificate cert)
  end.
Definition upgrade_inbound := upgrade ServerUpgrade server.
Definition upgrade_outbound := upgrade ClientUpgrade client.
End verifier.

Definition protocol_info : list string := ["/tls/1.0.0"%string].

(** ** Theorems *)

(** The verifier announces exactly the signature schemes it can check: those
    for which a verification algorithm exists. *)
Theorem verification_schemes_supported s :
  s ∈ verification_schemes ↔ ∃ alg, verification_algorithm s = Ok alg.
Proof.
  split.
  - intros Hs. unfold verification_schemes in Hs. rewrite !elem_of_cons in Hs.
    destruct_or? Hs; [subst; by eexists..|by apply elem_of_nil in Hs].
  - intros [alg Halg]. unfold verification_schemes. destruct s; (discriminate Halg || set_solver).
Qed.

Section theorems.
Context `{Libp2p} `{!TlsCrypto}.

(** What the client's check of a server's chain returns, on every branch: a
    chain of more than one certificate, a certificate that does not parse or
    verify, another peer than the one dialled, or success. *)
Theorem verify_server_cert_result self now end_entity intermediates :
  verify_server_cert self now end_entity intermediates =
    match intermediates, parse now end_entity (pre_shared_key self) with
    | _ :: _, _ => Err (General "libp2p-tls requires exactly one certificate")
    | [], Err BadDer => Err (InvalidCertificate BadEncoding)
    | [], Err e => Err (InvalidCertificate (OtherError e))
    | [], Ok c =>
        if decide (remote_peer_id self = None ∨ remote_peer_id self = Some (peer_id c))
        then Ok () else Err (InvalidCertificate ApplicationVerificationFailure)
    end.
Proof.
  unfold verify_server_cert, verify_presented_certs. destruct intermediates; [|done].
  rewrite bool_decide_true by done. cbn [negb].
  destruct (parse now end_entity (pre_shared_key self)) as [c|[]]; try done.
  cbn [map_err mbind result_bind]. destruct (remote_peer_id self) as [p|]; [|by rewrite decide_True by auto].
  destruct (decide (p = peer_id c)) as [->|Hne].
  - rewrite bool_decide_true, decide_True by auto. done.
  - rewrite bool_decide_false by done. rewrite decide_False; [done|]. naive_solver.
Qed.

Lemma new_with_psk_ok has_aes ecdsa seed1 seed2 psk k cfg :
  new_with_psk has_aes ecdsa seed1 seed2 psk k = Done (Ok cfg) →
  config_psk cfg = psk
  ∧ generate seed1 k psk = Ok (resolved_cert (server cfg))
  ∧ generate seed2 k psk = Ok (resolved_cert (client cfg))
  ∧ verifier (server cfg) = new_verifier psk ∧ verifier (client cfg) = with_remote_peer_id None psk
  ∧ Forall (λ t, protocol_versions t = [TLS13] ∧ alpn_protocols t = [P2P_ALPN]
                 ∧ cipher_suites t = cipher_suites_for has_aes) [server cfg; client cfg].
Proof.
  unfold new_with_psk, make_server_config, make_client_config, make_config, always_resolves_cert.
  destruct (generate seed1 k psk) as [[c1 k1]|]; [|done]. destruct (ecdsa k1); [|done].
  destruct (generate seed2 k psk) as [[c2 k2]|]; [|done]. destruct (ecdsa k2); [|done].
  intros [= <-]. repeat (split; [done|]). by repeat constructor.
Qed.

(** Every configuration speaks TLS 1.3 only, offers the application's ALPN
    name, and uses AES suites only on a processor with AES instructions. *)
Theorem configs_tls13_only has_aes ecdsa seed1 seed2 psk k cfg :
  new_with_psk has_aes ecdsa seed1 seed2 psk k = Done (Ok cfg) →
  Forall (λ t, protocol_versions t = [TLS13] ∧ alpn_protocols t = [bytes_of_string "p2pclipboard"]
    ∧ TLS13_CHACHA20_POLY1305_SHA256 ∈ cipher_suites t
    ∧ (has_aes = false → cipher_suites t = [TLS13_CHACHA20_POLY1305_SHA256]))
    [server cfg; client cfg].
Proof.
  intros (_ & _ & _ & _ & _ & Hall)%new_with_psk_ok. eapply Forall_impl; [exact Hall|].
  intros t (Hp & Ha & Hc). split; [done|]. split; [done|]. rewrite Hc.
  unfold cipher_suites_for, CIPHERSUITES, CIPHERSUITES_WITHOUT_AES.
  destruct has_aes; split; (done || set_solver).
Qed.

(** A handshake of [rustls] in which the remote presents the chain [presented]: it
    succeeds only when the verifier of the configuration accepts the chain, and
    then the connection state holds it. *)
Definition handshake_presents (verify_cert : Libp2pCertificateVerifier → Z → list u8 → list (list u8) →
      result RustlsError ()) (now : Z) (presented : list (list u8))
    (handshake : TlsConfig → result Z (option (list (list u8)))) : Prop :=
  ∀ t certs, handshake t = Ok certs →
    certs = Some presented ∧ ∃ ee ints, presented = ee :: ints ∧ verify_cert (verifier t) now ee ints = Ok ().

(** C9: A handshake between peers with the same pre-shared key (or none on both
    sides): each side accepts the other's certificate, and a completed upgrade
    returns the peer id of the other's host key, without panic. *)
Theorem same_psk_upgrade `{!TlsLaws} has_aes ecdsa s1 s2 s3 s4 psk k k' cfg cfg' now hs_in hs_out :
  new_with_psk has_aes ecdsa s1 s2 psk k = Done (Ok cfg) →
  new_with_psk has_aes ecdsa s3 s4 psk k' = Done (Ok cfg') →
  (∀ t x, t ∈ [server cfg'; client cfg'] → x509_from_der (resolved_cert t).1 = Some x →
    is_valid now x = true) →
  handshake_presents verify_client_cert now [(resolved_cert (client cfg')).1] hs_in →
  handshake_presents verify_server_cert now [(resolved_cert (server cfg')).1] hs_out →
  verify_client_cert (verifier (server cfg)) now (resolved_cert (client cfg')).1 [] = Ok ()
  ∧ verify_server_cert (verifier (client cfg)) now (resolved_cert (server cfg')).1 [] = Ok ()
  ∧ (∀ certs, hs_in (server cfg) = Ok certs →
      upgrade_inbound hs_in now cfg = Done (Ok (to_peer_id (public k'))))
  ∧ (∀ certs, hs_out (client cfg) = Ok certs →
      upgrade_outbound hs_out now cfg = Done (Ok (to_peer_id (public k')))).
Proof.
  intros (Hpsk & _ & _ & Hvs & Hvc & _)%new_with_psk_ok (_ & Hgs & Hgc & _)%new_with_psk_ok Hvalid Hin Hout.
  destruct (resolved_cert (client cfg')) as [cc ck] eqn:Hcc.
  destruct (resolved_cert (server cfg')) as [sc sk] eqn:Hsc. cbn [fst] in *.
  destruct (generated_certificate_accepted now _ _ _ _ _ Hgc) as (c1 & Hc1 & Hp1).
  { intros x Hx. apply (Hvalid (client cfg')); [set_solver|by rewrite Hcc]. }
  destruct (generated_certificate_accepted now _ _ _ _ _ Hgs) as (c2 & Hc2 & Hp2).
  { intros x Hx. apply (Hvalid (server cfg')); [set_solver|by rewrite Hsc]. }
  rewrite Hvs, Hvc. unfold verify_client_cert, verify_server_cert, verify_presented_certs,
    new_verifier, with_remote_peer_id. cbn [pre_shared_key remote_peer_id].
  rewrite bool_decide_true, Hc1, Hc2 by done. split; [done|]. split; [done|].
  split; intros certs Hcerts; unfold upgrade_inbound, upgrade_outbound, upgrade; rewrite Hcerts.
  - destruct (Hin _ _ Hcerts) as [-> _]. rewrite Hpsk. cbn. by rewrite Hc1; cbn; rewrite Hp1.
  - destruct (Hout _ _ Hcerts) as [-> _]. rewrite Hpsk. cbn. by rewrite Hc2; cbn; rewrite Hp2.
Qed.

(** C8: Peers with different pre-shared keys never complete a handshake: each side
    rejects the other's certificate, so neither upgrade succeeds. *)
Theorem different_psk_no_upgrade `{!TlsLaws} has_aes ecdsa s1 s2 s3 s4 psk psk' k k' cfg cfg'
    now hs_in hs_out :
  new_with_psk has_aes ecdsa s1 s2 (Some psk) k = Done (Ok cfg) →
  new_with_psk has_aes ecdsa s3 s4 (Some psk') k' = Done (Ok cfg') →
  hmac_sha256 (encode_protobuf (public k')) (bytes_of_string psk') ≠
    hmac_sha256 (encode_protobuf (public k')) (bytes_of_string psk) →
  (∀ k1 k2 n pt ct, k1 ≠ k2 → aead_seal k1 n pt = Some ct → aead_open k2 n ct = None) →
  handshake_presents verify_client_cert now [(resolved_cert (client cfg')).1] hs_in →
  handshake_presents verify_server_cert now [(resolved_cert (server cfg')).1] hs_out →
  (∃ io, hs_in (server cfg) = Err io ∧ upgrade_inbound hs_in now cfg = Done (Err (ServerUpgrade io)))
  ∧ (∃ io, hs_out (client cfg) = Err io ∧ upgrade_outbound hs_out now cfg = Done (Err (ClientUpgrade io))).
Proof.
  intros (Hpsk & _ & _ & Hvs & Hvc & _)%new_with_psk_ok (_ & Hgs & Hgc & _)%new_with_psk_ok
    Hne Hauth Hin Hout.
  destruct (resolved_cert (client cfg')) as [cc ck], (resolved_cert (server cfg')) as [sc sk].
  cbn [fst] in *.
  pose proof (wrong_psk_rejected now _ _ _ _ _ _ Hgc Hne Hauth) as Hc.
  pose proof (wrong_psk_rejected now _ _ _ _ _ _ Hgs Hne Hauth) as Hs.
  split.
  - destruct (hs_in (server cfg)) as [certs|io] eqn:Hhs.
    + destruct (Hin _ _ Hhs) as (_ & ee & ints & [= <- <-] & Hver). rewrite Hvs in Hver.
      unfold verify_client_cert, verify_presented_certs, new_verifier in Hver.
      cbn [pre_shared_key] in Hver. by rewrite bool_decide_true, Hc in Hver.
    + exists io. split; [done|]. unfold upgrade_inbound, upgrade. by rewrite Hhs.
  - destruct (hs_out (client cfg)) as [certs|io] eqn:Hhs.
    + destruct (Hout _ _ Hhs) as (_ & ee & ints & [= <- <-] & Hver). rewrite Hvc in Hver.
      unfold verify_server_cert, verify_presented_certs, with_remote_peer_id in Hver.
      cbn [pre_shared_key remote_peer_id] in Hver. by rewrite bool_decide_true, Hs in Hver.
    + exists io. split; [done|]. unfold upgrade_outbound, upgrade. by rewrite Hhs.
Qed.
End theorems.

(** ** Witnesses *)

Definition wit_now : Z := 1700000000.
Abbreviation toy_config := (@UpgradeConfig list_libp2p).

Definition wit_config (seed : Z) (psk : option string) (k : positive) : toy_config :=
  match new_with_psk (H:=list_libp2p) (H0:=toy_tls) true (λ _, true) seed (seed + 1) psk k with
  | Done (Ok cfg) => cfg
  | _ => mk_UpgradeConfig (mk_TlsConfig [] [] (mk_verifier (H:=list_libp2p) None None) ([], []) [])
           (mk_TlsConfig [] [] (mk_verifier (H:=list_libp2p) None None) ([], []) []) None
  end.

(** A handshake that succeeds exactly when the verifier accepts the certificate. *)
Definition wit_handshake
    (verify_cert : @Libp2pCertificateVerifier list_libp2p → Z → list u8 → list (list u8) →
      result RustlsError ()) (cert : list u8) (t : @TlsConfig list_libp2p) :
    result Z (option (list (list u8))) :=
  match verify_cert (verifier t) wit_now cert [] with
  | Ok _ => Ok (Some [cert])
  | Err _ => Err 104
  end.

Lemma wit_handshake_presents verify_cert cert :
  handshake_presents verify_cert wit_now [cert] (wit_handshake verify_cert cert).
Proof.
  intros t certs. unfold wit_handshake. destruct (verify_cert _ _ _ _) as [[]|] eqn:Hv; [|done].
  intros [= <-]. split; [done|]. by exists cert, [].
Qed.

Lemma wit_valid d x : x509_from_der (TlsCrypto:=toy_tls) d = Some x → is_valid wit_now x = true.
Proof.
  intros Hx. destruct d as [|kp [|z [|]]]; try discriminate Hx.
  change (toy_x509 kp <$> decode (Z.to_pos z) = Some x) in Hx.
  by apply fmap_Some in Hx as (e & _ & ->).
Qed.

Lemma configs_tls13_only_witness :
  Forall (λ t, protocol_versions t = [TLS13] ∧ alpn_protocols t = [bytes_of_string "p2pclipboard"]
    ∧ TLS13_CHACHA20_POLY1305_SHA256 ∈ cipher_suites t
    ∧ (true = false → cipher_suites t = [TLS13_CHACHA20_POLY1305_SHA256]))
    [server (wit_config 5 None 7); client (wit_config 5 None 7)].
Proof.
  apply (configs_tls13_only (H:=list_libp2p) (H0:=toy_tls) true (λ _, true) 5 6 None 7%positive).
  reflexivity.
Defined.

Lemma same_psk_upgrade_witness :
  let cfg := wit_config 5 (Some "secret"%string) 7 in
  let cfg' := wit_config 8 (Some "secret"%string) 9 in
  let hs_in := wit_handshake (verify_client_cert (H:=list_libp2p) (H0:=toy_tls)) (resolved_cert (client cfg')).1 in
  let hs_out := wit_handshake (verify_server_cert (H:=list_libp2p) (H0:=toy_tls)) (resolved_cert (server cfg')).1 in
  upgrade_inbound (H:=list_libp2p) (H0:=toy_tls) hs_in wit_now cfg = Done (Ok 9%positive).
Proof.
  intros cfg cfg' hs_in hs_out.
  destruct (same_psk_upgrade (H:=list_libp2p) (H0:=toy_tls) true (λ _, true) 5 6 8 9
    (Some "secret"%string) 7%positive 9%positive cfg cfg' wit_now hs_in hs_out)
    as (Hin & _ & Hup & _).
  - reflexivity.
  - reflexivity.
  - intros t x _. apply wit_valid.
  - apply wit_handshake_presents.
  - apply wit_handshake_presents.
  - apply (Hup (Some [(resolved_cert (client cfg')).1])). unfold hs_in, wit_handshake.
    change (mk_verifier _ _) with (verifier (server cfg)). by rewrite Hin.
Defined.

Lemma different_psk_no_upgrade_witness :
  let cfg := wit_config 5 (Some "secret"%string) 7 in
  let cfg' := wit_config 8 (Some "guess"%string) 9 in
  let hs_in := wit_handshake (verify_client_cert (H:=list_libp2p) (H0:=toy_tls)) (resolved_cert (client cfg')).1 in
  let hs_out := wit_handshake (verify_server_cert (H:=list_libp2p) (H0:=toy_tls)) (resolved_cert (server cfg')).1 in
  ∃ io, hs_in (server cfg) = Err io
  ∧ upgrade_inbound (H:=list_libp2p) (H0:=toy_tls) hs_in wit_now cfg = Done (Err (ServerUpgrade io)).
Proof.
  intros cfg cfg' hs_in hs_out.
  refine (proj1 (different_psk_no_upgrade (H:=list_libp2p) (H0:=toy_tls) true (λ _, true)
    5 6 8 9 "secret" "guess" 7%positive 9%positive cfg cfg' wit_now hs_in hs_out _ _ _ _ _ _)).
  - reflexivity.
  - reflexivity.
  - by vm_compute.
  - apply toy_aead_authentic.
  - apply wit_handshake_presents.
  - apply wit_handshake_presents.
Defined.
