(* ===== verification/UriList.v ===== *)
(** * File lists on the Linux clipboard ([src/native_clipboard.rs])

    Reading and writing [text/uri-list] through the command-line tools, and the
    URI decoding.  A path is a [string] of bytes; the file system is the
    predicate [exists_path].  The tools work on a state, the selection: one that prints
    answers with an outcome, one that is fed also changes the selection.  What the two
    have to do with each other is a class of laws. *)

From S2P Require Import Prelude RustStr.

Local Open Scope Z_scope.

(** ** [str] operations on UTF-8 bytes *)

(** The encodings of the characters with the Unicode property White_Space. *)
Definition whitespace : list (list u8) :=
  ((λ b, [b]) <$> [9; 10; 11; 12; 13; 32]) ++
  [[194; 133]; [194; 160]; [225; 154; 128]] ++
  ((λ b, [226; 128; b]) <$> [128; 129; 130; 131; 132; 133; 134; 135; 136; 137; 138; 168; 169; 175]) ++
  [[226; 129; 159]; [227; 128; 128]].

Fixpoint strip_bytes (p l : list u8) : option (list u8) :=
  match p, l with
  | [], _ => Some l
  | a :: p', b :: l' => if a =? b then strip_bytes p' l' else None
  | _ :: _, [] => None
  end.

(** The rest after one of the prefixes. *)
Fixpoint strip_one (ps : list (list u8)) (l : list u8) : option (list u8) :=
  match ps with
  | [] => None
  | p :: ps' => match strip_bytes p l with Some r => Some r | None => strip_one ps' l end
  end.

Fixpoint trim_start_fuel (fuel : nat) (ps : list (list u8)) (l : list u8) : list u8 :=
  match fuel with
  | O => l
  | S fuel' => match strip_one ps l with Some r => trim_start_fuel fuel' ps r | None => l end
  end.
(** Each round removes a byte at least, so the length is enough fuel. *)
Definition trim_start (l : list u8) : list u8 := trim_start_fuel (length l) whitespace l.
(** In valid UTF-8 a suffix of bytes that encodes a character is that character. *)
Definition trim_end (l : list u8) : list u8 :=
  reverse (trim_start_fuel (length l) (reverse <$> whitespace) (reverse l)).
Definition trim (l : list u8) : list u8 := trim_end (trim_start l).

Definition NEWLINE : u8 := 10.
Definition CARRIAGE_RETURN : u8 := 13.

(** [str::lines]: the lines end in a newline, or in a carriage return and a
    newline; a last empty line is no line. *)
Definition strip_cr (l : list u8) : list u8 :=
  match reverse l with
  | c :: r => if c =? CARRIAGE_RETURN then reverse r else l
  | [] => l
  end.
Fixpoint lines_of (pieces : list (list u8)) : list (list u8) :=
  match pieces with
  | [] => []
  | [last] => if bool_decide (last = []) then [] else [last]
  | line :: pieces' => strip_cr line :: lines_of pieces'
  end.
Definition lines (l : list u8) : list (list u8) := lines_of (split_on (λ c, c =? NEWLINE) l).

(** ** URI decoding *)

Definition PERCENT : u8 := 37.
Definition HASH : u8 := 35.
Definition PLUS : u8 := 43.

(** A hexadecimal digit. *)
Definition hex_digit (b : u8) : option Z :=
  if (48 <=? b) && (b <=? 57) then Some (b - 48)
  else if (97 <=? b) && (b <=? 102) then Some (b - 87)
  else if (65 <=? b) && (b <=? 70) then Some (b - 55)
  else None.

(** [u8::from_str_radix(s, 16)] of two bytes: a leading plus sign is allowed. *)
Definition from_str_radix (h l : u8) : option u8 :=
  if h =? PLUS then hex_digit l
  else dh ← hex_digit h; dl ← hex_digit l; Some (dh * 16 + dl).

(** [String::push(b as char)]: the UTF-8 encoding of the code point [b]. *)
Definition push_char (b : u8) : list u8 :=
  if b <? 128 then [b] else [192 + b / 64; 128 + b mod 64].

Fixpoint url_decode_bytes (chars : list u8) : list u8 :=
  match chars with
  | [] => []
  | b :: chars' =>
      if b =? PERCENT then
        match chars' with
        | hi :: lo :: chars'' =>
            match from_str_radix hi lo with
            | Some val => push_char val ++ url_decode_bytes chars''
            | None => PERCENT :: url_decode_bytes chars''
            end
        | _ => [PERCENT]
        end
      else push_char b ++ url_decode_bytes chars'
  end.
Definition url_decode (input : string) : string :=
  string_of_bytes (url_decode_bytes (bytes_of_string input)).

(** ** The clipboard tools *)

Definition FILE_SCHEME : list u8 := bytes_of_string "file://".

Record Command := mk_Command { program : string; args : list string }.

#[export] Instance Command_eq_dec : EqDecision Command.
Proof. solve_decision. Defined.

Definition xclip_out := mk_Command "xclip" ["-selection"; "clipboard"; "-t"; "text/uri-list"; "-o"].
Definition xsel_out := mk_Command "xsel" ["--clipboard"; "--output"].
Definition wl_paste_out := mk_Command "wl-paste" ["--type"; "text/uri-list"].
Definition xclip_in (mime_type : string) :=
  mk_Command "xclip" ["-selection"; "clipboard"; "-t"; mime_type; "-i"].
Definition wl_copy_gnome := mk_Command "wl-copy" ["--type"; "x-special/gnome-copied-files"].
Definition wl_copy_uri := mk_Command "wl-copy" ["--type"; "text/uri-list"].

(** A tool run to its end with its output captured: it does not start, or exits
    with a status and its standard output. *)
Inductive Captured := NotStarted | Exited (success : bool) (stdout : list u8).
(** A tool fed on its standard input: it does not start; its standard input
    cannot be written; it cannot be waited for; or it exits. *)
Inductive Fed := FedNotStarted | FedWriteFailed | FedWaitFailed | FedExited (success : bool).

Section clipboard.
Context (exists_path : string → bool).
Context (output : Command → Captured).

(** *** Reading *)

Definition non_blank (stdout : list u8) : option string :=
  let text := from_utf8_lossy stdout in
  if bool_decide (trim (bytes_of_string text) = []) then None else Some text.

Definition try_read_uri_list_x11 : option string :=
  match output xclip_out with
  | Exited true stdout => non_blank stdout
  | _ =>
      match output xsel_out with
      | Exited true stdout =>
          let text := from_utf8_lossy stdout in
          if starts_with "file://" text then Some text else None
      | _ => None
      end
  end.

Definition try_read_uri_list_wayland : option string :=
  match output wl_paste_out with
  | Exited true stdout => non_blank stdout
  | _ => None
  end.

(** One line of the list: the path it names, when there is such a file. *)
Definition parse_line (line : list u8) : option string :=
  let trimmed := trim line in
  if bool_decide (head trimmed = Some HASH) || bool_decide (trimmed = []) then None
  else
    path_str ← strip_bytes FILE_SCHEME trimmed;
    let decoded := url_decode (string_of_bytes path_str) in
    if exists_path decoded then Some decoded else None.

Definition parse_uri_list (text : string) : option (list string) :=
  let files := omap parse_line (lines (bytes_of_string text)) in
  if bool_decide (files = []) then None else Some files.

Definition get_clipboard_file_list_linux : option (list string) :=
  match (match try_read_uri_list_x11 with
         | Some text => Some text
         | None => try_read_uri_list_wayland
         end) with
  | Some text => parse_uri_list text
  | None => None
  end.

(** *** Writing *)

Definition uri (p : string) : string := "file://" +:+ to_string_lossy p.
Definition uri_list (paths : list string) : string := join NL (uri <$> paths).
Definition gnome_files (paths : list string) : string := "copy" +:+ NL +:+ uri_list paths.

End clipboard.

Section writing.
Context {S : Type} (feed : Command → string → S → S * Fed).

Definition fed_ok (f : Fed) : bool := match f with FedExited success => success | _ => false end.

Definition set_clipboard_mime_xclip (mime_type content : string) (s : S) : S * bool :=
  let '(s, fed) := feed (xclip_in mime_type) content s in (s, fed_ok fed).

Definition set_clipboard_wayland (paths : list string) (s : S) : S * bool :=
  let '(s, fed) := feed wl_copy_gnome (gnome_files paths) s in
  let gnome_result := fed_ok fed in
  if gnome_result then (s, true)
  else let '(s, fed) := feed wl_copy_uri (uri_list paths) s in (s, fed_ok fed).

Definition set_clipboard_file_list_linux (paths : list string) (s : S) : S * bool :=
  let '(s, ok) := set_clipboard_wayland paths s in
  if ok then (s, true)
  else
    let '(s, ok) := set_clipboard_mime_xclip "text/uri-list" (uri_list paths) s in
    if ok then (s, true) else (s, false).

(** On Linux. *)
Definition set_clipboard_file_list (paths : list string) (s : S) : S * bool :=
  if bool_decide (paths = []) then (s, false) else set_clipboard_file_list_linux paths s.
End writing.

(** *** The tools *)

Class ClipboardTools := {
  Selection : Type;
  (** A tool that prints: what it does, the selection being this. *)
  output : Selection → Command → Captured;
  (** A tool that is fed this text. *)
  feed : Command → string → Selection → Selection * Fed;
}.

(** The tool fails, prints nothing, or prints this. *)
Definition nothing_but (text : list u8) (c : Captured) : Prop :=
  match c with Exited true stdout => stdout = [] ∨ stdout = text | _ => True end.
Definition nothing (c : Captured) : Prop :=
  match c with Exited true stdout => stdout = [] | _ => True end.

(** What the manuals say.  A tool that is fed and succeeds owns the selection and offers
    its input as the given type only; [wl-copy] offers a text type as plain text too.  A
    tool that prints fails, or prints nothing, when the type it asks for is not offered;
    the X11 tools may see what a Wayland tool offers or not. *)
Class ClipboardToolsLaws `{ClipboardTools} : Prop := {
  xclip_offers content s s' :
    feed (xclip_in "text/uri-list") content s = (s', FedExited true) →
    output s' xclip_out = Exited true (bytes_of_string content);
  wl_copy_offers content s s' :
    feed wl_copy_uri content s = (s', FedExited true) →
    output s' wl_paste_out = Exited true (bytes_of_string content)
    ∧ nothing_but (bytes_of_string content) (output s' xclip_out)
    ∧ nothing_but (bytes_of_string content) (output s' xsel_out);
  wl_copy_gnome_offers content s s' :
    feed wl_copy_gnome content s = (s', FedExited true) →
    nothing (output s' wl_paste_out) ∧ nothing (output s' xclip_out) ∧ nothing (output s' xsel_out);
}.

(** ** Lemmas *)

(** A printable ASCII byte other than the percent sign. *)
Definition plain_byte (b : u8) : Prop := 32 ≤ b < 127 ∧ b ≠ PERCENT.
(** A path of such bytes that does not end with a space. *)
Definition plain_path (p : string) : Prop :=
  Forall plain_byte (bytes_of_string p) ∧ last (bytes_of_string p) ≠ Some 32.

Definition ascii (l : list u8) : Prop := Forall (λ b, b < 128) l.

Lemma strip_one_none ps b r :
  Forall (λ p, match p with a :: _ => a ≠ b | [] => False end) ps → strip_one ps (b :: r) = None.
Proof.
  induction 1 as [|[|a p] ps Hp Hps IH]; [done|done|]. simpl.
  destruct (Z.eqb_spec a b); [done|exact IH].
Qed.

Lemma trim_start_none ps b r fuel :
  Forall (λ p, match p with a :: _ => a ≠ b | [] => False end) ps →
  trim_start_fuel fuel ps (b :: r) = b :: r.
Proof. intros Hps. destruct fuel; [done|]. cbn [trim_start_fuel]. by rewrite strip_one_none. Qed.

Lemma strip_bytes_app p l : strip_bytes p (p ++ l) = Some l.
Proof. induction p as [|a p IH]; [done|]. simpl. by rewrite Z.eqb_refl. Qed.

(** A line that starts and ends with a visible ASCII character is its own trim. *)
Lemma trim_visible b m e :
  33 ≤ b < 127 → 33 ≤ e < 127 → trim (b :: m ++ [e]) = b :: m ++ [e].
Proof.
  intros Hb He. unfold trim, trim_end, trim_start.
  rewrite trim_start_none by (unfold whitespace; repeat constructor; lia).
  rewrite app_comm_cons, reverse_app. change (reverse [e]) with [e]. cbn [app].
  rewrite trim_start_none by (unfold whitespace; repeat constructor; simpl; lia).
  by rewrite reverse_cons, reverse_involutive.
Qed.

Lemma utf8_ascii l : ascii l → utf8_valid l = true.
Proof.
  unfold utf8_valid. induction 1 as [|b l Hb Hl IH]; [done|]. cbn [length utf8_valid_fuel].
  unfold utf8_step. destruct (Z.ltb_spec b 128); [|lia]. exact IH.
Qed.

Lemma plain_bytes_ascii p : Forall plain_byte p → ascii p.
Proof. intros Hp. eapply Forall_impl; [exact Hp|]. unfold plain_byte. lia. Qed.

Lemma to_string_lossy_plain p : plain_path p → to_string_lossy p = p.
Proof. intros [Hp _]. apply from_utf8_lossy_valid, utf8_ascii. by apply plain_bytes_ascii. Qed.

Lemma url_decode_bytes_plain l : Forall plain_byte l → url_decode_bytes l = l.
Proof.
  induction 1 as [|b l [Hb Hp] Hl IH]; [done|]. cbn [url_decode_bytes].
  destruct (Z.eqb_spec b PERCENT); [done|]. unfold push_char.
  destruct (Z.ltb_spec b 128); [|lia]. by rewrite IH.
Qed.

Lemma bytes_join l :
  bytes_of_string (join NL l) = match l with [] => [] | s :: l' =>
    bytes_of_string s ++ concat ((λ s, NEWLINE :: bytes_of_string s) <$> l') end.
Proof.
  destruct l as [|s l]; [done|]. revert s. induction l as [|s' l IH]; intros s.
  { simpl. by rewrite app_nil_r. }
  change (join NL (s :: s' :: l)) with (s +:+ NL +:+ join NL (s' :: l)).
  rewrite !bytes_of_string_app, IH. done.
Qed.

Lemma lines_join l :
  Forall (λ s, Forall (λ b, b ≠ NEWLINE ∧ b ≠ CARRIAGE_RETURN) (bytes_of_string s)
               ∧ bytes_of_string s ≠ []) l →
  lines (bytes_of_string (join NL l)) = bytes_of_string <$> l.
Proof.
  unfold lines. rewrite bytes_join. destruct 1 as [|s l [Hs Hne] Hl]; [done|].
  assert (∀ s, Forall (λ b, b ≠ NEWLINE ∧ b ≠ CARRIAGE_RETURN) (bytes_of_string s) →
    Forall (λ c, (c =? NEWLINE) = false) (bytes_of_string s)) as Hnl
    by (intros s0 Hs0; eapply Forall_impl; [exact Hs0|]; intros b [? _]; by apply Z.eqb_neq).
  revert s Hs Hne. induction Hl as [|s' l [Hs' Hne'] Hl IH]; intros s Hs Hne.
  - cbn [concat fmap list_fmap]. rewrite app_nil_r, split_on_none by by apply Hnl.
    cbn [lines_of]. by rewrite bool_decide_false.
  - rewrite fmap_cons. cbn [concat app]. rewrite split_on_app_sep by (done || by apply Hnl).
    specialize (IH s' Hs' Hne'). destruct (split_on _ _) as [|p ps] eqn:Hsplit; [done|].
    cbn [lines_of]. cbn [lines_of] in IH. rewrite fmap_cons. f_equal; [|exact IH].
    unfold strip_cr. destruct (reverse (bytes_of_string s)) as [|c r] eqn:Hr; [done|].
    destruct (Z.eqb_spec c CARRIAGE_RETURN) as [->|]; [|done].
    assert (CARRIAGE_RETURN ∈ bytes_of_string s) as Hin
      by (apply elem_of_reverse; rewrite Hr; left).
    rewrite Forall_forall in Hs. by destruct (Hs _ Hin).
Qed.

Lemma parse_line_uri exists_path p :
  plain_path p → exists_path p = true → parse_line exists_path (bytes_of_string (uri p)) = Some p.
Proof.
  intros Hp Hex. unfold uri. rewrite to_string_lossy_plain by done. destruct Hp as [Hp Hlast].
  unfold parse_line. rewrite bytes_of_string_app.
  assert (trim (bytes_of_string "file://" ++ bytes_of_string p) =
    FILE_SCHEME ++ bytes_of_string p) as ->.
  { destruct (bytes_of_string p) as [|b l _] eqn:Hbs using rev_ind; [by vm_compute|].
    rewrite last_snoc in Hlast. apply Forall_app in Hp as [_ [Hb _]%Forall_cons].
    rewrite app_assoc. apply (trim_visible 102 (bytes_of_string "ile://" ++ l) b); [lia|].
    unfold plain_byte in Hb. assert (b ≠ 32) by congruence. lia. }
  rewrite bool_decide_false by done. rewrite bool_decide_false by done. cbn [orb].
  rewrite strip_bytes_app. cbn [mbind option_bind]. unfold url_decode.
  rewrite string_of_bytes_of_string, url_decode_bytes_plain, string_of_bytes_of_string by done.
  by rewrite Hex.
Qed.

Lemma strip_bytes_Some p l r : strip_bytes p l = Some r → l = p ++ r.
Proof.
  revert l. induction p as [|a p IH]; intros [|b l]; simpl; intros Hs; simplify_eq; try done.
  destruct (Z.eqb_spec a b) as [->|]; [|done]. f_equal. by apply IH.
Qed.

(** Stripping prefixes without the byte [b] keeps a final [b]. *)
Lemma trim_start_last fuel ps b l :
  Forall (λ p, b ∉ p) ps → ∃ l', trim_start_fuel fuel ps (l ++ [b]) = l' ++ [b].
Proof.
  intros Hps. revert l. induction fuel as [|fuel IH]; intros l; [by eexists|].
  cbn [trim_start_fuel]. destruct (strip_one ps (l ++ [b])) as [r|] eqn:Hr; [|by eexists].
  assert (∃ r', r = r' ++ [b]) as [r' ->]; [|apply IH]. clear IH.
  induction Hps as [|p ps Hp Hps IH]; [done|]. cbn [strip_one] in Hr.
  destruct (strip_bytes p (l ++ [b])) as [r0|] eqn:Hs; [|by apply IH]. simplify_eq.
  apply strip_bytes_Some in Hs. destruct r as [|x r _] using rev_ind.
  - rewrite app_nil_r in Hs. destruct Hp. rewrite <- Hs. set_solver.
  - rewrite app_assoc in Hs. apply app_inj_tail in Hs as [_ <-]. by eexists.
Qed.

Lemma whitespace_invisible : Forall (Forall (λ a, a < 33 ∨ 127 ≤ a)) whitespace.
Proof.
  apply (bool_decide_unpack (Forall (Forall (λ a, a < 33 ∨ 127 ≤ a)) whitespace)). by vm_compute.
Qed.

(** A text that starts with a visible ASCII character is not blank. *)
Lemma trim_not_blank b l : 33 ≤ b < 127 → trim (b :: l) ≠ [].
Proof.
  intros Hb. unfold trim, trim_end, trim_start.
  rewrite trim_start_none by (unfold whitespace; repeat constructor; lia).
  rewrite reverse_cons.
  destruct (trim_start_last (length (b :: l)) (reverse <$> whitespace) b (reverse l)) as [l' ->].
  - apply Forall_fmap. eapply Forall_impl; [exact whitespace_invisible|].
    intros p Hp Hin. rewrite elem_of_reverse in Hin. rewrite Forall_forall in Hp. specialize (Hp b Hin). lia.
  - rewrite reverse_app. done.
Qed.

Lemma uri_list_ascii paths : Forall plain_path paths → ascii (bytes_of_string (uri_list paths)).
Proof.
  intros Hplain. unfold uri_list. rewrite bytes_join.
  assert (Forall (λ p, ascii (bytes_of_string (uri p))) paths) as Huri.
  { eapply Forall_impl; [exact Hplain|]. intros p Hp. unfold uri.
    rewrite to_string_lossy_plain, bytes_of_string_app by done. apply Forall_app.
    split; [by repeat constructor|by apply plain_bytes_ascii, Hp]. }
  destruct Huri as [|p paths Hp Huri]; [constructor|]. rewrite fmap_cons. apply Forall_app.
  split; [done|]. apply Forall_concat, Forall_fmap, Forall_fmap. eapply Forall_impl; [exact Huri|].
  intros q Hq. simpl. constructor; [done|exact Hq].
Qed.

(** The text that a tool prints of a list is not blank and begins like a list. *)
Lemma uri_list_printed paths :
  paths ≠ [] → Forall plain_path paths →
  non_blank (bytes_of_string (uri_list paths)) = Some (uri_list paths)
  ∧ from_utf8_lossy (bytes_of_string (uri_list paths)) = uri_list paths.
Proof.
  intros Hne Hplain.
  assert (from_utf8_lossy (bytes_of_string (uri_list paths)) = uri_list paths) as Htext
    by by apply from_utf8_lossy_valid, utf8_ascii, uri_list_ascii.
  split; [|done]. unfold non_blank. rewrite Htext, bool_decide_false; [done|].
  destruct paths as [|p paths]; [done|]. unfold uri_list. rewrite bytes_join, fmap_cons.
  apply Forall_cons in Hplain as [Hp _]. unfold uri.
  rewrite to_string_lossy_plain, bytes_of_string_app by done. by apply trim_not_blank.
Qed.

(** A list that a tool gives back is parsed into its paths. *)
Lemma parse_uri_list_paths exists_path paths :
  paths ≠ [] → Forall plain_path paths → Forall (λ p, exists_path p = true) paths →
  parse_uri_list exists_path (uri_list paths) = Some paths.
Proof.
  intros Hne Hplain Hex. unfold parse_uri_list.
  assert (lines (bytes_of_string (uri_list paths)) = bytes_of_string <$> (uri <$> paths)) as ->.
  { apply lines_join, Forall_fmap. apply Forall_forall. intros p Hin. rewrite Forall_forall in Hplain.
    unfold compose, uri. rewrite to_string_lossy_plain, bytes_of_string_app by by apply Hplain.
    split; [|done]. apply Forall_app. split; [by repeat constructor|].
    eapply Forall_impl; [apply (Hplain p Hin)|]. unfold plain_byte, NEWLINE, CARRIAGE_RETURN. lia. }
  assert (omap (parse_line exists_path) (bytes_of_string <$> (uri <$> paths)) = paths) as ->.
  { clear Hne. induction Hplain as [|p paths Hp Hplain IH]; [done|].
    apply Forall_cons in Hex as [He Hex]. rewrite !fmap_cons. cbn [omap list_omap].
    rewrite parse_line_uri by done. by rewrite IH. }
  by rewrite bool_decide_false.
Qed.

(** The X11 tools print one list at most. *)
Lemma x11_reads_only out paths :
  paths ≠ [] → Forall plain_path paths →
  nothing_but (bytes_of_string (uri_list paths)) (out xclip_out) →
  nothing_but (bytes_of_string (uri_list paths)) (out xsel_out) →
  try_read_uri_list_x11 out = None ∨ try_read_uri_list_x11 out = Some (uri_list paths).
Proof.
  intros Hne Hplain Hxclip Hxsel. destruct (uri_list_printed paths Hne Hplain) as [Hblank Htext].
  unfold try_read_uri_list_x11.
  destruct (out xclip_out) as [|[] stdout]; [|destruct Hxclip as [->| ->]; [by left|by right]|];
    (destruct (out xsel_out) as [|[] stdout']; [by left|destruct Hxsel as [->| ->]; [by left|]|by left];
     rewrite Htext; destruct (starts_with _ _); [by right|by left]).
Qed.

Lemma x11_reads_nothing out :
  nothing (out xclip_out) → nothing (out xsel_out) → try_read_uri_list_x11 out = None.
Proof.
  intros Hxclip Hxsel. unfold try_read_uri_list_x11.
  destruct (out xclip_out) as [|[] stdout]; [|by rewrite Hxclip|];
    (destruct (out xsel_out) as [|[] stdout']; [done|by rewrite Hxsel|done]).
Qed.

Section tools.
Context `{ClipboardToolsLaws} (exists_path : string → bool).

(** [wl-copy] accepts the list in the format of GNOME. *)
Definition gnome_accepts (paths : list string) (s : Selection) : bool :=
  fed_ok (feed wl_copy_gnome (gnome_files paths) s).2.

Lemma file_list_written paths s s' :
  paths ≠ [] → Forall plain_path paths → Forall (λ p, exists_path p = true) paths →
  set_clipboard_file_list feed paths s = (s', true) →
  get_clipboard_file_list_linux exists_path (output s') =
    if gnome_accepts paths s then None else Some paths.
Proof.
  intros Hne Hplain Hex. unfold set_clipboard_file_list, set_clipboard_file_list_linux, set_clipboard_wayland,
    gnome_accepts, get_clipboard_file_list_linux. rewrite bool_decide_false by done.
  destruct (uri_list_printed paths Hne Hplain) as [Hblank _].
  pose proof (parse_uri_list_paths exists_path paths Hne Hplain Hex) as Hparse.
  destruct (feed wl_copy_gnome _ s) as [s1 fed1] eqn:Hgnome. cbn [snd].
  destruct (fed_ok fed1) eqn:Hok1.
  { intros [= <-]. destruct fed1 as [| | |[]]; try done.
    destruct (wl_copy_gnome_offers _ _ _ Hgnome) as (Hwl & Hxclip & Hxsel).
    rewrite x11_reads_nothing by done. unfold try_read_uri_list_wayland.
    by destruct (output s1 wl_paste_out) as [|[] stdout]; [|rewrite Hwl|]. }
  destruct (feed wl_copy_uri _ s1) as [s2 fed2] eqn:Huri. destruct (fed_ok fed2) eqn:Hok2.
  { intros [= <-]. destruct fed2 as [| | |[]]; try done.
    destruct (wl_copy_offers _ _ _ Huri) as (Hwl & Hxclip & Hxsel).
    destruct (x11_reads_only (output s2) paths) as [-> | ->]; try done.
    unfold try_read_uri_list_wayland. by rewrite Hwl, Hblank. }
  unfold set_clipboard_mime_xclip. destruct (feed (xclip_in _) _ s2) as [s3 fed3] eqn:Hxclip.
  destruct (fed_ok fed3) eqn:Hok3; [|done]. intros [= <-]. destruct fed3 as [| | |[]]; try done.
  unfold try_read_uri_list_x11. by rewrite (xclip_offers _ _ _ Hxclip), Hblank.
Qed.
End tools.

(** ** Theorems *)

(** C30: the list of existing files that was written to the clipboard is read back, when
    the paths are printable ASCII without percent signs and without a final space -
    unless [wl-copy] took it: then only the format of GNOME is on the clipboard, which
    is not read, and no list is found. *)
Theorem file_list_roundtrip `{ClipboardToolsLaws} exists_path paths s s' :
  paths ≠ [] → Forall plain_path paths → Forall (λ p, exists_path p = true) paths →
  set_clipboard_file_list feed paths s = (s', true) →
  get_clipboard_file_list_linux exists_path (output s') =
    if gnome_accepts paths s then None else Some paths.
Proof. apply file_list_written. Qed.

(** The percent-encoding of RFC 3986: unreserved characters and slashes stand for
    themselves. *)
Definition unreserved (b : u8) : bool :=
  ((48 <=? b) && (b <=? 57)) || ((65 <=? b) && (b <=? 90)) || ((97 <=? b) && (b <=? 122))
  || (b =? 45) || (b =? 46) || (b =? 95) || (b =? 126) || (b =? 47).
Definition hex_char (d : Z) : u8 := if d <? 10 then 48 + d else 55 + d.
Definition url_encode (l : list u8) : list u8 :=
  concat ((λ b, if unreserved b then [b] else [PERCENT; hex_char (b / 16); hex_char (b mod 16)]) <$> l).

Lemma hex_digit_char d : 0 ≤ d < 16 → hex_digit (hex_char d) = Some d ∧ hex_char d ≠ PLUS.
Proof.
  intros Hd. unfold hex_char, hex_digit, PLUS. destruct (Z.ltb_spec d 10); split; try lia;
    repeat case_match; f_equal; lia.
Qed.

Lemma length_push_char l : (length l ≤ length (concat (push_char <$> l)))%nat.
Proof.
  induction l as [|b l IH]; [simpl; lia|].
  change (concat (push_char <$> b :: l)) with (push_char b ++ concat (push_char <$> l)).
  rewrite length_app. assert (1 ≤ length (push_char b))%nat
    by (unfold push_char; destruct (b <? 128); simpl; lia). cbn [length]. lia.
Qed.

Lemma push_chars_id l : concat (push_char <$> l) = l ↔ ascii l.
Proof.
  split.
  - induction l as [|b l IH]; [constructor|]. rewrite fmap_cons. cbn [concat]. unfold push_char at 1.
    destruct (Z.ltb_spec b 128); [intros [= Hl]; constructor; [done|by apply IH]|].
    intros Heq. apply (f_equal length) in Heq. cbn [length app] in Heq.
    pose proof (length_push_char l). lia.
  - induction 1 as [|b l Hb Hl IH]; [done|]. rewrite fmap_cons. cbn [concat]. rewrite IH.
    unfold push_char. by destruct (Z.ltb_spec b 128); [|lia].
Qed.

(** Decoding a percent-encoded path reads every byte as a Latin-1 character:
    the path comes back exactly when it is ASCII. *)
Theorem url_decode_encode l :
  Forall (fits 8) l →
  url_decode_bytes (url_encode l) = concat (push_char <$> l)
  ∧ (url_decode_bytes (url_encode l) = l ↔ ascii l).
Proof.
  intros Hl. assert (url_decode_bytes (url_encode l) = concat (push_char <$> l)) as Heq.
  { induction Hl as [|b l Hb Hl IH]; [done|]. unfold url_encode in *. rewrite !fmap_cons.
    cbn [concat]. destruct (unreserved b) eqn:Hu.
    - cbn [app url_decode_bytes]. destruct (Z.eqb_spec b PERCENT) as [->|]; [done|]. by rewrite IH.
    - cbn [app url_decode_bytes]. rewrite Z.eqb_refl. unfold fits in Hb. change (2 ^ 8) with 256 in Hb.
      destruct (hex_digit_char (b / 16)) as [Hh Hp].
      { split; [apply Z.div_pos; lia|apply Z.div_lt_upper_bound; lia]. }
      destruct (hex_digit_char (b mod 16)) as [Hm _]; [by apply Z.mod_pos_bound|].
      unfold from_str_radix. destruct (Z.eqb_spec (hex_char (b / 16)) PLUS); [done|].
      rewrite Hh, Hm. cbn [mbind option_bind]. rewrite IH. do 2 f_equal.
      pose proof (Z.div_mod b 16 ltac:(done)). lia. }
  split; [done|]. rewrite Heq. apply push_chars_id.
Qed.

(** ** Witnesses *)


(** A desktop whose selection has one type, with the tools of X11 or of Wayland. *)
Record Desktop := mk_Desktop { wayland : bool; offered : option (string * list u8) }.

Definition offered_as (s : Desktop) (mime_type : string) : Captured :=
  match offered s with
  | Some (t, data) => if decide (t = mime_type) then Exited true data else Exited false []
  | None => Exited false []
  end.
Definition desktop_output (s : Desktop) (c : Command) : Captured :=
  if decide (c = xclip_out) then if wayland s then NotStarted else offered_as s "text/uri-list"
  else if decide (c = xsel_out) then if wayland s then NotStarted else offered_as s "UTF8_STRING"
  else if decide (c = wl_paste_out) then if wayland s then offered_as s "text/uri-list" else Exited false []
  else NotStarted.
Definition desktop_feed (c : Command) (content : string) (s : Desktop) : Desktop * Fed :=
  let accept mime_type := (mk_Desktop (wayland s) (Some (mime_type, bytes_of_string content)), FedExited true) in
  if decide (c = xclip_in "text/uri-list") then
    if wayland s then (s, FedNotStarted) else accept "text/uri-list"%string
  else if decide (c = wl_copy_gnome) then
    if wayland s then accept "x-special/gnome-copied-files"%string else (s, FedExited false)
  else if decide (c = wl_copy_uri) then
    if wayland s then accept "text/uri-list"%string else (s, FedExited false)
  else (s, FedNotStarted).

#[export] Instance desktop_tools : ClipboardTools := {|
  Selection := Desktop; output := desktop_output; feed := desktop_feed |}.
#[export] Instance desktop_tools_laws : ClipboardToolsLaws.
Proof.
  split; intros content [[] o] s'; cbn; intros [= <-]; done.
Qed.

Definition wit_paths : list string := ["/tmp/report one.pdf"; "/tmp/b"].
Definition wit_desktop (wayland : bool) : Selection := mk_Desktop wayland None.

Lemma wit_paths_plain : Forall plain_path wit_paths.
Proof.
  apply (bool_decide_unpack (Forall (λ p, Forall plain_byte (bytes_of_string p)
    ∧ last (bytes_of_string p) ≠ Some 32) wit_paths)). by vm_compute.
Qed.

Lemma file_list_roundtrip_witness :
  let written wayland := (set_clipboard_file_list feed wit_paths (wit_desktop wayland)).1 in
  get_clipboard_file_list_linux (λ _, true) (output (written false)) = Some wit_paths
  ∧ get_clipboard_file_list_linux (λ _, true) (output (written true)) = None.
Proof.
  assert (Forall (λ p : string, (λ _, true) p = true) wit_paths) as Hex by by repeat constructor.
  split.
  - exact (file_list_roundtrip (λ _, true) wit_paths (wit_desktop false) _
      ltac:(done) wit_paths_plain Hex eq_refl).
  - exact (file_list_roundtrip (λ _, true) wit_paths (wit_desktop true) _
      ltac:(done) wit_paths_plain Hex eq_refl).
Defined.

Lemma url_decode_encode_witness :
  url_decode_bytes (url_encode [195; 169]) = [195; 131; 194; 169].
Proof. apply (url_decode_encode [195; 169]). by repeat constructor. Defined.

(** Paths are written without percent-encoding but read with percent-decoding, and
    a byte that is not ASCII is read as a character of its own: an existing file
    with a percent sign or an accent in its name is lost. *)
Example percent_and_accent_lost :
  let accent := string_of_bytes [47; 195; 169] in
  let read_back p := get_clipboard_file_list_linux (λ q, bool_decide (q = p))
    (output (set_clipboard_file_list feed [p] (wit_desktop false)).1) in
  read_back "/a%20b"%string = None ∧ read_back accent = None.
Proof. split; by vm_compute. Qed.
