(* ===== verification/DropFiles.v ===== *)
(** * File lists on the Windows clipboard ([src/native_clipboard.rs])

    Reading and writing the [CF_HDROP] format: a [DROPFILES] header followed by
    null-terminated paths and an empty one.  The code works on raw memory: a locked
    block is the list of its bytes, a pointer into it the offset [pos], and an access
    outside the block or at an odd address for its type is undefined behaviour, [None].
    Win32 is a record of its answers; the calls made are returned in order, and
    [protocol] follows what the program holds (the clipboard, a lock, a block). *)

From S2P Require Import Prelude RustStr Utf16 UriList.

Local Open Scope Z_scope.

(** ** Memory

    [GlobalLock] returns the start of a block, aligned for every type. *)

Abbreviation block := (list u8) (only parsing).

Definition valid_access (k : nat) (m : block) (pos : usize) : bool :=
  (0 <=? pos) && (pos mod Z.of_nat k =? 0) && (pos + Z.of_nat k <=? Z.of_nat (length m)).

(** Reading and writing a little-endian integer of [k] bytes. *)
Definition load (k : nat) (m : block) (pos : usize) : option Z :=
  if valid_access k m pos then Some (le_value (take k (drop (Z.to_nat pos) m))) else None.
Definition store (k : nat) (m : block) (pos : usize) (v : Z) : option block :=
  if valid_access k m pos
  then Some (take (Z.to_nat pos) m ++ le_bytes k v ++ drop (Z.to_nat pos + k) m)
  else None.

(** [DROPFILES]: [repr(C)], five fields of four bytes. *)
Record DROPFILES :=
  mk_DROPFILES { pFiles : u32; pt_x : Z; pt_y : Z; fNC : Z; fWide : Z }.

(** [std::mem::size_of::<DROPFILES>()] *)
Definition dropfiles_size : usize := 20.

Definition DROPFILES_bytes (d : DROPFILES) : list u8 :=
  le_bytes 4 (pFiles d) ++ le_bytes 4 (pt_x d) ++ le_bytes 4 (pt_y d)
  ++ le_bytes 4 (fNC d) ++ le_bytes 4 (fWide d).

(** [BOOL::as_bool] *)
Definition as_bool (b : Z) : bool := negb (b =? 0).

(** ** The calls to Win32 *)

Inductive Call :=
| IsClipboardFormatAvailable (ok : bool)
| OpenClipboard (ok : bool)
| GetClipboardData (ok : bool)
| GlobalLock (ok : bool)
| GlobalUnlock
| EmptyClipboard (ok : bool)
| GlobalAlloc (size : usize) (ok : bool)
| SetClipboardData (m : block) (ok : bool)
| CloseClipboard.

(** ** Reading *)

(** The list after the header, in units of [k] bytes. *)
Section read_list.
Context (k : nat) (decode : list Z → string) (m : block).

(** [while *pos != 0 { pos = pos.add(1); len += 1; }] *)
Fixpoint scan (fuel : nat) (pos : usize) (len : nat) : option (usize * nat) :=
  match fuel with
  | O => None
  | S fuel' =>
      u ← load k m pos;
      if u =? 0 then Some (pos, len) else scan fuel' (pos + Z.of_nat k) (S len)
  end.

(** [std::slice::from_raw_parts(start, len)] *)
Fixpoint from_raw_parts (start : usize) (len : nat) : option (list Z) :=
  match len with
  | O => Some []
  | S len' =>
      u ← load k m start; us ← from_raw_parts (start + Z.of_nat k) len'; Some (u :: us)
  end.

(** The outer loop. A block has no more units than bytes, and each round of a loop
    reads a unit further on: the length of the block is enough fuel. *)
Fixpoint read_list (fuel : nat) (pos : usize) : option (list string) :=
  match fuel with
  | O => None
  | S fuel' =>
      u ← load k m pos;
      if u =? 0 then Some []
      else
        '(pos', len) ← scan (S (length m)) pos 0;
        slice ← from_raw_parts pos len;
        files ← read_list fuel' (pos' + Z.of_nat k);
        Some (decode slice :: files)
  end.
End read_list.

(** From the locked block to the paths. *)
Definition read_dropfiles (m : block) : option (list string) :=
  wide ← load 4 m 16;
  base ← load 4 m 0;
  if as_bool wide then read_list 2 from_utf16_lossy m (S (length m)) base
  else read_list 1 from_utf8_lossy m (S (length m)) base.

(** What Win32 answers: whether there is a [CF_HDROP], whether the clipboard opens,
    the handle of the data, and the block when it can be locked. *)
Record Win32Read := mk_Win32Read {
  wr_available : bool; wr_open : bool; wr_data : bool; wr_lock : option block }.

Definition get_clipboard_file_list_windows (w : Win32Read) :
    option (list Call * option (list string)) :=
  let available := IsClipboardFormatAvailable (wr_available w) in
  if negb (wr_available w) then Some ([available], None) else
  let opened := OpenClipboard (wr_open w) in
  if negb (wr_open w) then Some ([available; opened], None) else
  '(calls, result) ←
    (let data := GetClipboardData (wr_data w) in
     if negb (wr_data w) then Some ([data], None) else
     match wr_lock w with
     | None => Some ([data; GlobalLock false], None)
     | Some m =>
         files ← read_dropfiles m;
         Some ([data; GlobalLock true; GlobalUnlock],
               if bool_decide (files = []) then None else Some files)
     end);
  Some ([available; opened] ++ calls ++ [CloseClipboard], result).

(** ** Writing *)

(** [OsStr::to_string_lossy] on Windows: the bytes of a path are WTF-8, that is UTF-8
    in which a surrogate may occur; each becomes [U+FFFD]. *)
Fixpoint wtf8_lossy (l : list u8) : list u8 :=
  match l with
  | b0 :: l' =>
      match l' with
      | b1 :: _ :: l'' =>
          if (b0 =? 237) && (160 <=? b1) then REPLACEMENT ++ wtf8_lossy l''
          else b0 :: wtf8_lossy l'
      | _ => b0 :: wtf8_lossy l'
      end
  | [] => []
  end.
Definition to_string_lossy_windows (p : string) : string :=
  string_of_bytes (wtf8_lossy (bytes_of_string p)).

(** The path in UTF-16 with its terminator. *)
Definition wide_path (p : string) : list u16 := encode_utf16 (to_string_lossy_windows p) ++ [0].

(** The loop over the paths: the encoded paths and the number of units. *)
Definition wide_paths_step (acc : list (list u16) * usize) (p : string) :
    list (list u16) * usize :=
  let wide := wide_path p in
  (acc.1 ++ [wide], acc.2 + Z.of_nat (length wide)).
Definition wide_paths (paths : list string) : list (list u16) * usize :=
  let '(wide_paths, total_chars) := foldl wide_paths_step ([], 0) paths in
  (wide_paths, total_chars + 1).

(** The five field assignments. *)
Definition store_dropfiles (m : block) : option block :=
  m ← store 4 m 0 (as_u32 dropfiles_size);
  m ← store 4 m 4 0;
  m ← store 4 m 8 0;
  m ← store 4 m 12 0;
  store 4 m 16 1.

(** [*dest = ch; dest = dest.add(1);] for the units of a path, then for the paths. *)
Fixpoint store_units (m : block) (dest : usize) (wide : list u16) : option (block * usize) :=
  match wide with
  | [] => Some (m, dest)
  | ch :: wide' => m ← store 2 m dest ch; store_units m (dest + 2) wide'
  end.
Fixpoint store_paths (m : block) (dest : usize) (ws : list (list u16)) : option (block * usize) :=
  match ws with
  | [] => Some (m, dest)
  | wide :: ws' => '(m, dest) ← store_units m dest wide; store_paths m dest ws'
  end.

Definition fill_block (m : block) (ws : list (list u16)) : option block :=
  m ← store_dropfiles m;
  '(m, dest) ← store_paths m dropfiles_size ws;
  store 2 m dest 0.

(** What Win32 answers: whether the clipboard opens, can be emptied; the allocation,
    which may be larger than asked for; whether the block can be locked and put on the
    clipboard. *)
Record Win32Write := mk_Win32Write {
  ww_open : bool; ww_empty : bool; ww_alloc : option nat; ww_lock : bool; ww_set : bool }.

Definition set_clipboard_file_list_windows (w : Win32Write) (paths : list string) :
    option (list Call * bool) :=
  let '(wide_paths, total_chars) := wide_paths paths in
  let total_size := dropfiles_size + total_chars * 2 in
  let opened := OpenClipboard (ww_open w) in
  if negb (ww_open w) then Some ([opened], false) else
  '(calls, result) ←
    (let emptied := EmptyClipboard (ww_empty w) in
     if negb (ww_empty w) then Some ([emptied], false) else
     match ww_alloc w with
     | None => Some ([emptied; GlobalAlloc total_size false], false)
     | Some more =>
         let hmem := replicate (Z.to_nat total_size + more) 0 in
         let allocated := GlobalAlloc total_size true in
         if negb (ww_lock w) then Some ([emptied; allocated; GlobalLock false], false) else
         m ← fill_block hmem wide_paths;
         Some ([emptied; allocated; GlobalLock true; GlobalUnlock;
                SetClipboardData m (ww_set w)], ww_set w)
     end);
  Some ([opened] ++ calls ++ [CloseClipboard], result).

(** ** The two functions the program calls, by target *)

Inductive target_os := windows | linux | other_os.

(** [None] is undefined behaviour of the Windows code. *)
Definition get_clipboard_file_list (os : target_os) (exists_path : string → bool)
    (output : Command → Captured) (w : Win32Read) : option (option (list string)) :=
  match os with
  | windows => snd <$> get_clipboard_file_list_windows w
  | linux => Some (get_clipboard_file_list_linux exists_path output)
  | other_os => Some None
  end.

(** [S] is what the tools of Linux work on. *)
Definition set_clipboard_file_list_on {S : Type} (os : target_os)
    (feed : Command → string → S → S * Fed) (w : Win32Write) (paths : list string) (s : S) :
    option (S * bool) :=
  if bool_decide (paths = []) then Some (s, false) else
  match os with
  | windows => '(_, ok) ← set_clipboard_file_list_windows w paths; Some (s, ok)
  | linux => Some (set_clipboard_file_list_linux feed paths s)
  | other_os => Some (s, false)
  end.

(** ** What a double null-terminated list is *)

Section reads.
Context (k : nat) (m : block).

(** The consecutive units of [k] bytes from [pos] on are [us]. *)
Fixpoint reads (pos : usize) (us : list Z) : Prop :=
  match us with
  | [] => True
  | u :: us' => load k m pos = Some u ∧ reads (pos + Z.of_nat k) us'
  end.

Lemma reads_app pos us vs :
  reads pos (us ++ vs) ↔ reads pos us ∧ reads (pos + Z.of_nat k * Z.of_nat (length us)) vs.
Proof.
  revert pos. induction us as [|u us IH]; intros pos; cbn [app reads length].
  - rewrite Z.mul_0_r, Z.add_0_r. tauto.
  - rewrite IH, Nat2Z.inj_succ.
    replace (pos + Z.of_nat k + Z.of_nat k * Z.of_nat (length us))
      with (pos + Z.of_nat k * Z.succ (Z.of_nat (length us))) by lia. tauto.
Qed.

Lemma reads_entry pos p us :
  reads pos ((p ++ [0]) ++ us) ↔
  reads pos (p ++ [0]) ∧ reads (pos + Z.of_nat k * Z.of_nat (length p) + Z.of_nat k) us.
Proof.
  rewrite reads_app, length_app. cbn [length].
  replace (pos + Z.of_nat k * Z.of_nat (length p + 1))
    with (pos + Z.of_nat k * Z.of_nat (length p) + Z.of_nat k) by lia. done.
Qed.

Lemma load_bounds pos u : load k m pos = Some u → 0 ≤ pos ∧ pos + Z.of_nat k ≤ Z.of_nat (length m).
Proof.
  unfold load, valid_access. destruct (Z.leb_spec 0 pos); [|done].
  destruct (_ =? 0); [|done]. destruct (Z.leb_spec (pos + Z.of_nat k) (Z.of_nat (length m))); [lia|done].
Qed.

(** The units of a list are within the block. *)
Lemma reads_length pos us :
  (0 < k)%nat → us ≠ [] → reads pos us → pos + Z.of_nat (length us) ≤ Z.of_nat (length m).
Proof.
  intros Hk. revert pos. induction us as [|u [|u' us] IH]; intros pos Hus; [done| |].
  - intros [Hl _]. apply load_bounds in Hl. simpl. lia.
  - intros [_ Hr]. apply IH in Hr; [|done]. cbn [length] in *. lia.
Qed.

Lemma from_raw_parts_reads pos us n :
  from_raw_parts k m pos n = Some us ↔ length us = n ∧ reads pos us.
Proof.
  revert pos us. induction n as [|n IH]; intros pos us; cbn [from_raw_parts].
  - destruct us; naive_solver.
  - destruct us as [|u us]; cbn [reads length].
    + split; [|by intros [? _]]. destruct (load k m pos); [|done]. simpl.
      destruct (from_raw_parts _ _ _ _); done.
    + destruct (load k m pos) as [u'|]; simpl; [|naive_solver].
      destruct (from_raw_parts k m (pos + Z.of_nat k) n) as [us'|] eqn:Hus; simpl.
      * apply IH in Hus as [Hlen Hr]. split; [intros [= <- <-]; naive_solver|].
        intros (Hl & [= <-] & Hr'). do 2 f_equal.
        assert (Some us = Some us') as [= ->]; [|done]. rewrite <- (proj2 (IH (pos + Z.of_nat k) us)).
        -- by apply IH.
        -- split; [lia|done].
      * split; [done|]. intros (Hl & _ & Hr). rewrite (proj2 (IH (pos + Z.of_nat k) us)) in Hus; [done|].
        split; [lia|done].
Qed.

Lemma scan_reads fuel pos len p :
  (length p < fuel)%nat → 0 ∉ p → reads pos (p ++ [0]) →
  scan k m fuel pos len =
    Some (pos + Z.of_nat k * Z.of_nat (length p), (len + length p)%nat).
Proof.
  revert fuel pos len. induction p as [|u p IH]; intros [|fuel] pos len Hf Hp; simpl in Hf; try lia;
    cbn [app reads scan]; intros [-> Hr]; cbn [mbind option_bind].
  - simpl. do 2 f_equal; lia.
  - apply not_elem_of_cons in Hp as [Hu Hp]. destruct (Z.eqb_spec u 0); [by subst|].
    rewrite IH by (done || lia). cbn [length]. do 2 f_equal; lia.
Qed.

Lemma scan_inv fuel pos len pos' len' :
  scan k m fuel pos len = Some (pos', len') →
  ∃ p, (0 ∉ p) ∧ reads pos (p ++ [0])
    ∧ pos' = pos + Z.of_nat k * Z.of_nat (length p) ∧ len' = (len + length p)%nat.
Proof.
  revert pos len. induction fuel as [|fuel IH]; intros pos len; [done|]. cbn [scan].
  destruct (load k m pos) as [u|] eqn:Hl; [|done]. cbn [mbind option_bind].
  destruct (Z.eqb_spec u 0) as [->|Hu].
  - intros [= <- <-]. exists []. simpl. split; [apply not_elem_of_nil|]. repeat split; [done|lia|lia].
  - intros (p & Hp & Hr & -> & ->)%IH. exists (u :: p). cbn [app reads length].
    split; [by apply not_elem_of_cons|]. repeat split; [done|done|lia|lia].
Qed.
End reads.

(** The units of a list of entries, each followed by a null, with a last null. *)
Definition entry (p : list Z) : Prop := p ≠ [] ∧ 0 ∉ p.
Definition terminated (ps : list (list Z)) : list Z := concat ((λ p, p ++ [0]) <$> ps) ++ [0].

Lemma terminated_cons p ps : terminated (p :: ps) = (p ++ [0]) ++ terminated ps.
Proof. unfold terminated. rewrite fmap_cons. cbn [concat]. by rewrite <- app_assoc. Qed.

Lemma terminated_not_nil ps : terminated ps ≠ [].
Proof. unfold terminated. by destruct (concat _). Qed.

Section read_list_spec.
Context (k : nat) (decode : list Z → string) (m : block) (Hk : (0 < k)%nat).

Lemma read_list_reads fuel pos ps :
  (length ps < fuel)%nat → Forall entry ps → reads k m pos (terminated ps) →
  read_list k decode m fuel pos = Some (decode <$> ps).
Proof using Hk.
  revert fuel pos. induction ps as [|p ps IH]; intros [|fuel] pos Hf Hps; simpl in Hf; try lia.
  { intros [Hl _]. cbn [read_list]. by rewrite Hl. }
  rewrite terminated_cons. intros [Hp Hrest]%reads_entry.
  apply Forall_cons in Hps as [[Hne Hp0] Hps].
  pose proof (reads_length k m pos (p ++ [0]) Hk ltac:(by destruct p) Hp) as Hlen.
  rewrite length_app in Hlen. simpl in Hlen.
  cbn [read_list]. destruct p as [|u p]; [done|]. pose proof Hp as [Hl _]. rewrite Hl.
  cbn [mbind option_bind]. pose proof Hp0 as [Hu _]%not_elem_of_cons.
  pose proof (load_bounds _ _ _ _ Hl) as [Hpos _].
  destruct (Z.eqb_spec u 0); [by subst|].
  rewrite (scan_reads k m _ pos 0 (u :: p)) by (done || lia). cbn [mbind option_bind].
  rewrite (proj2 (from_raw_parts_reads k m pos (u :: p) _)).
  2: { split; [done|]. by apply reads_app in Hp as [? _]. }
  cbn [mbind option_bind]. rewrite IH; [done|lia|done|done].
Qed.

Lemma read_list_inv fuel pos fs :
  read_list k decode m fuel pos = Some fs →
  ∃ ps, fs = decode <$> ps ∧ Forall entry ps ∧ reads k m pos (terminated ps).
Proof using Type.
  revert pos fs. induction fuel as [|fuel IH]; intros pos fs; [done|]. cbn [read_list].
  destruct (load k m pos) as [u|] eqn:Hl; [|done]. cbn [mbind option_bind].
  destruct (Z.eqb_spec u 0) as [->|Hu]; [intros [= <-]; by exists []|].
  destruct (scan _ _ _ _ _) as [[pos' len]|] eqn:Hscan; [|done]. cbn [mbind option_bind].
  apply scan_inv in Hscan as (p & Hp0 & Hp & -> & ->).
  destruct (from_raw_parts _ _ _ _) as [slice|] eqn:Hslice; [|done]. cbn [mbind option_bind].
  rewrite (proj2 (from_raw_parts_reads k m pos p _)) in Hslice
    by (split; [done|]; by apply reads_app in Hp as [? _]). injection Hslice as <-.
  destruct (read_list _ _ _ _ _) as [files|] eqn:Hfiles; [|done]. intros [= <-].
  apply IH in Hfiles as (ps & -> & Hps & Hr). exists (p :: ps). split; [done|]. split.
  - constructor; [|done]. split; [|done]. intros ->. destruct Hp as [Hl' _]. congruence.
  - rewrite terminated_cons, reads_entry. by split.
Qed.

(** The loops read the entries of a double null-terminated list; without one they run
    out of the block. *)
Lemma read_list_iff pos fs :
  read_list k decode m (S (length m)) pos = Some fs ↔
  ∃ ps, fs = decode <$> ps ∧ Forall entry ps ∧ reads k m pos (terminated ps).
Proof using Hk.
  split; [apply read_list_inv|]. intros (ps & -> & Hps & Hr). apply read_list_reads; try done.
  pose proof (reads_length _ _ _ _ Hk (terminated_not_nil ps) Hr) as Hlen.
  assert (0 ≤ pos) as Hpos.
  { destruct (terminated ps) as [|u us] eqn:Ht; [by apply terminated_not_nil in Ht|].
    destruct Hr as [Hl _]. by apply load_bounds in Hl as [? _]. }
  assert (length ps ≤ length (terminated ps))%nat; [|lia].
  clear. induction ps as [|p ps IH]; [simpl; lia|]. rewrite terminated_cons, !length_app. simpl. lia.
Qed.
End read_list_spec.

(** ** Writing a block *)

Lemma valid_access_app k a b :
  (k ≤ length b)%nat → Z.of_nat (length a) mod Z.of_nat k = 0 →
  valid_access k (a ++ b) (Z.of_nat (length a)) = true.
Proof.
  intros Hk Ha. unfold valid_access. rewrite Ha, length_app.
  rewrite (proj2 (Z.leb_le 0 _)), (proj2 (Z.leb_le _ _)) by lia. done.
Qed.

Lemma store_app k a b v :
  (k ≤ length b)%nat → Z.of_nat (length a) mod Z.of_nat k = 0 →
  store k (a ++ b) (Z.of_nat (length a)) v = Some (a ++ le_bytes k v ++ drop k b).
Proof.
  intros Hk Ha. unfold store. rewrite valid_access_app by done.
  rewrite Nat2Z.id, take_app_length. do 3 f_equal. rewrite drop_app_ge by lia. f_equal. lia.
Qed.

Lemma load_app k a b v :
  Z.of_nat (length a) mod Z.of_nat k = 0 → fits (8 * Z.of_nat k) v →
  load k (a ++ le_bytes k v ++ b) (Z.of_nat (length a)) = Some v.
Proof.
  intros Ha Hv. unfold load. rewrite valid_access_app; [|rewrite length_app, le_bytes_length; lia|done].
  rewrite Nat2Z.id, drop_app_length. rewrite take_app_le by by rewrite le_bytes_length.
  rewrite take_ge by by rewrite le_bytes_length. f_equal. apply le_value_bytes.
  unfold fits in Hv. by rewrite Z.pow_mul_r in Hv by lia.
Qed.

Definition units_bytes (us : list u16) : list u8 := concat (le_bytes 2 <$> us).

Lemma units_bytes_cons u us : units_bytes (u :: us) = le_bytes 2 u ++ units_bytes us.
Proof. done. Qed.
Lemma units_bytes_app us vs : units_bytes (us ++ vs) = units_bytes us ++ units_bytes vs.
Proof. unfold units_bytes. by rewrite fmap_app, concat_app. Qed.
Lemma units_bytes_length us : length (units_bytes us) = (2 * length us)%nat.
Proof.
  induction us as [|u us IH]; [done|]. rewrite units_bytes_cons, length_app, le_bytes_length, IH.
  simpl. lia.
Qed.

Lemma even_mod (n : nat) : Z.of_nat (2 * n) mod 2 = 0.
Proof. rewrite Nat2Z.inj_mul. rewrite Z.mul_comm. by apply Z.mod_mul. Qed.

(** Writing units into a block after an even number of bytes. *)
Lemma store_units_app n a b us :
  length a = (2 * n)%nat → (2 * length us ≤ length b)%nat →
  store_units (a ++ b) (Z.of_nat (length a)) us =
    Some (a ++ units_bytes us ++ drop (2 * length us) b,
          Z.of_nat (length (a ++ units_bytes us))).
Proof.
  revert n a b. induction us as [|u us IH]; intros n a b Ha Hb; cbn [store_units].
  { cbn [length units_bytes]. by rewrite app_nil_r. }
  cbn [length] in Hb. rewrite store_app by (lia || (rewrite Ha; apply even_mod)).
  cbn [mbind option_bind]. rewrite app_assoc.
  replace (Z.of_nat (length a) + 2) with (Z.of_nat (length (a ++ le_bytes 2 u)))
    by (rewrite length_app, le_bytes_length; lia).
  rewrite (IH (S n)); [|rewrite length_app, le_bytes_length; lia|rewrite length_drop; lia].
  rewrite units_bytes_cons, drop_drop, <- !app_assoc.
  cbn [length]. do 6 f_equal. lia.
Qed.

Lemma store_paths_app n a b ws :
  length a = (2 * n)%nat → (2 * length (concat ws) ≤ length b)%nat →
  store_paths (a ++ b) (Z.of_nat (length a)) ws =
    Some (a ++ units_bytes (concat ws) ++ drop (2 * length (concat ws)) b,
          Z.of_nat (length (a ++ units_bytes (concat ws)))).
Proof.
  revert n a b. induction ws as [|w ws IH]; intros n a b Ha Hb; cbn [store_paths].
  { cbn [concat length units_bytes]. by rewrite app_nil_r. }
  cbn [concat] in *. rewrite length_app in Hb. rewrite (store_units_app n) by (done || lia).
  cbn [mbind option_bind]. rewrite app_assoc.
  rewrite (IH (n + length w)%nat);
    [|rewrite length_app, units_bytes_length; lia|rewrite length_drop; lia].
  rewrite units_bytes_app, drop_drop, <- !app_assoc, (length_app w). do 6 f_equal. lia.
Qed.

Definition HEADER : DROPFILES := mk_DROPFILES 20 0 0 0 1.

(** Whatever the memory held. *)
Lemma store_dropfiles_any m :
  (20 ≤ length m)%nat → store_dropfiles m = Some (DROPFILES_bytes HEADER ++ drop 20 m).
Proof.
  intros Hm. unfold store_dropfiles. change (as_u32 dropfiles_size) with 20.
  assert (∀ a v, (length a + 4 ≤ 20)%nat → Z.of_nat (length a) mod 4 = 0 →
    store 4 (a ++ drop (length a) m) (Z.of_nat (length a)) v =
      Some ((a ++ le_bytes 4 v) ++ drop (length a + 4) m)) as Hstore.
  { intros a v Ha Hal. rewrite store_app by (done || rewrite length_drop; lia).
    by rewrite drop_drop, app_assoc. }
  pose proof (Hstore [] 20 ltac:(simpl; lia) eq_refl : store 4 m 0 20 = _) as ->.
  do 3 (cbn [mbind option_bind]; rewrite Hstore by (done || (cbn; lia))).
  exact (Hstore (le_bytes 4 20 ++ replicate 12 0) 1 ltac:(cbn; lia) eq_refl).
Qed.

(** The block the program writes: the header, the paths, zeros. *)
Definition hdrop_block (ws : list (list u16)) (more : nat) : block :=
  DROPFILES_bytes HEADER ++ units_bytes (concat ws ++ [0]) ++ replicate more 0.

(** Every byte that was asked for is written, whatever the memory held. *)
Lemma fill_block_any m ws :
  (20 + 2 * (length (concat ws) + 1) ≤ length m)%nat →
  fill_block m ws = Some (hdrop_block ws 0 ++ drop (20 + 2 * (length (concat ws) + 1)) m).
Proof.
  intros Hm. unfold fill_block. rewrite store_dropfiles_any by lia. cbn [mbind option_bind].
  set (h := DROPFILES_bytes HEADER). change dropfiles_size with (Z.of_nat (length h)).
  rewrite (store_paths_app 10) by (done || rewrite length_drop; lia).
  cbn [mbind option_bind]. rewrite app_assoc.
  assert (length (h ++ units_bytes (concat ws)) = 2 * (10 + length (concat ws)))%nat as Hlen
    by (rewrite length_app, units_bytes_length; change (length h) with 20%nat; lia).
  rewrite store_app; [|rewrite !length_drop; lia|rewrite Hlen; apply even_mod].
  unfold hdrop_block. fold h. rewrite units_bytes_app, !drop_drop, <- !app_assoc. do 4 f_equal.
  change (units_bytes [0]) with (le_bytes 2 0). f_equal. cbn [replicate app]. f_equal. lia.
Qed.

Lemma fill_block_zeros ws more :
  fill_block (replicate (20 + 2 * (length (concat ws) + 1) + more) 0) ws = Some (hdrop_block ws more).
Proof.
  rewrite fill_block_any by (rewrite length_replicate; lia). rewrite drop_replicate.
  unfold hdrop_block. rewrite <- !app_assoc. do 4 f_equal. cbn [replicate app]. f_equal. lia.
Qed.

Lemma wide_paths_foldl paths ws n :
  foldl wide_paths_step (ws, n) paths =
    (ws ++ (wide_path <$> paths), n + Z.of_nat (length (concat (wide_path <$> paths)))).
Proof.
  revert ws n. induction paths as [|p paths IH]; intros ws n; cbn [foldl].
  { rewrite fmap_nil, app_nil_r. f_equal. simpl. lia. }
  etrans; [apply IH|]. rewrite fmap_cons, <- app_assoc. cbn [concat fst snd].
  f_equal. rewrite length_app. lia.
Qed.

Lemma wide_paths_spec paths :
  wide_paths paths =
    (wide_path <$> paths, Z.of_nat (length (concat (wide_path <$> paths)) + 1)).
Proof. unfold wide_paths. rewrite wide_paths_foldl. cbn [app]. f_equal. lia. Qed.

Definition win32_ok (w : Win32Write) : bool :=
  ww_open w && ww_empty w && bool_decide (is_Some (ww_alloc w)) && ww_lock w && ww_set w.

(** The calls of the writer, one line per place where it stops. *)
Lemma set_windows_eq w paths :
  let ws := wide_path <$> paths in
  let size := 20 + Z.of_nat (length (concat ws) + 1) * 2 in
  set_clipboard_file_list_windows w paths = Some (
    [OpenClipboard (ww_open w)] ++
    (if ww_open w then
       [EmptyClipboard (ww_empty w)] ++
       (if ww_empty w then
          match ww_alloc w with
          | None => [GlobalAlloc size false]
          | Some more =>
              [GlobalAlloc size true; GlobalLock (ww_lock w)] ++
              (if ww_lock w
               then [GlobalUnlock; SetClipboardData (hdrop_block ws more) (ww_set w)] else [])
          end else []) ++ [CloseClipboard]
     else []), win32_ok w).
Proof.
  unfold set_clipboard_file_list_windows, win32_ok. rewrite wide_paths_spec.
  destruct (ww_open w); [|done]. cbn [negb]. destruct (ww_empty w); [|done]. cbn [negb].
  destruct (ww_alloc w) as [more|]; [|done]. destruct (ww_lock w); [|done]. cbn [negb].
  unfold dropfiles_size.
  replace (Z.to_nat _ + more)%nat
    with (20 + 2 * (length (concat (wide_path <$> paths)) + 1) + more)%nat by lia.
  by rewrite fill_block_zeros.
Qed.

(** ** Paths in UTF-16 *)

Lemma wtf8_lossy_cons b l :
  b ≠ 237 ∨ (∃ b1 l', l = b1 :: l' ∧ b1 < 160) → wtf8_lossy (b :: l) = b :: wtf8_lossy l.
Proof.
  intros Hb. cbn [wtf8_lossy]. destruct l as [|b1 [|b2 l]]; try done.
  destruct (Z.eqb_spec b 237) as [->|]; [|done]. destruct Hb as [|(? & ? & [= <- <-] & ?)]; [done|].
  rewrite (proj2 (Z.leb_gt _ _)) by lia. done.
Qed.

Lemma wtf8_lossy_char c l :
  is_scalar c → wtf8_lossy (encode_utf8 c ++ l) = encode_utf8 c ++ wtf8_lossy l.
Proof.
  unfold is_scalar, encode_utf8. intros Hc.
  destruct (Z.ltb_spec c 128); cbn [app]; [by rewrite wtf8_lossy_cons by lia|].
  destruct (Z.ltb_spec c 2048); cbn [app]; [rewrite !wtf8_lossy_cons; [done|..]; left; div_mod_lia|].
  destruct (Z.ltb_spec c 65536); cbn [app].
  - rewrite (wtf8_lossy_cons (128 + c / 64 mod 64)), (wtf8_lossy_cons (128 + c mod 64))
      || rewrite (wtf8_lossy_cons (224 + c / 4096)), (wtf8_lossy_cons (128 + c / 64 mod 64)),
           (wtf8_lossy_cons (128 + c mod 64)); [done|..]; try (left; div_mod_lia).
    destruct (decide (c / 4096 = 13)); [|left; lia]. right. eexists _, _. split; [done|].
    div_mod_lia.
  - rewrite !wtf8_lossy_cons; [done|..]; left; div_mod_lia.
Qed.

Lemma wtf8_lossy_chars cs :
  Forall is_scalar cs → wtf8_lossy (concat (encode_utf8 <$> cs)) = concat (encode_utf8 <$> cs).
Proof.
  induction 1 as [|c cs Hc Hcs IH]; [done|]. rewrite fmap_cons. cbn [concat].
  by rewrite wtf8_lossy_char, IH.
Qed.

(** A path that is a Rust string. *)
Lemma to_string_lossy_windows_valid p : valid_str p → to_string_lossy_windows p = p.
Proof.
  intros Hv. destruct (chars_fuel_valid _ _ (bytes_of_string_fits p) Hv) as [Hcs Hb].
  unfold to_string_lossy_windows. rewrite <- Hb, wtf8_lossy_chars, Hb by done.
  apply string_of_bytes_of_string.
Qed.

(** The paths the program can put on the clipboard: Rust strings that are not empty
    and have no null character. *)
Definition windows_path (p : string) : Prop :=
  valid_str p ∧ p ≠ EmptyString ∧ 0 ∉ bytes_of_string p.

Lemma chars_no_null p : windows_path p → 0 ∉ chars p.
Proof.
  intros (Hv & _ & Hnul) Hin. apply Hnul.
  destruct (chars_fuel_valid _ _ (bytes_of_string_fits p) Hv) as [_ Hb].
  rewrite <- Hb. fold (chars p).
  apply list_elem_of_split in Hin as (c1 & c2 & ->).
  rewrite fmap_app, fmap_cons, concat_app. cbn [concat]. rewrite !elem_of_app.
  right. left. by left.
Qed.

Lemma wide_path_entry p :
  windows_path p → wide_path p = encode_utf16 p ++ [0] ∧ entry (encode_utf16 p)
    ∧ Forall (fits 16) (encode_utf16 p).
Proof.
  intros Hp. pose proof Hp as (Hv & Hne & _). unfold wide_path.
  rewrite to_string_lossy_windows_valid by done.
  pose proof (encode_utf16_units p Hv (chars_no_null p Hp)) as Hu. split; [done|]. split.
  - split; [by apply encode_utf16_not_nil|]. rewrite Forall_forall in Hu.
    intros H0%Hu. lia.
  - eapply Forall_impl; [exact Hu|]. unfold fits. change (2 ^ 16) with 65536. simpl. lia.
Qed.

(** Reading back units that were written. *)
Lemma reads_units a us b n :
  length a = (2 * n)%nat → Forall (fits 16) us →
  reads 2 (a ++ units_bytes us ++ b) (Z.of_nat (length a)) us.
Proof.
  intros Ha Hus. revert a n Ha. induction Hus as [|u us Hu Hus IH]; intros a n Ha; [done|].
  cbn [reads]. rewrite units_bytes_cons, <- app_assoc. split.
  - apply load_app; [|done]. rewrite Ha. apply even_mod.
  - rewrite app_assoc. replace (Z.of_nat (length a) + Z.of_nat 2)
      with (Z.of_nat (length (a ++ le_bytes 2 u))) by (rewrite length_app, le_bytes_length; lia).
    apply (IH _ (S n)). rewrite length_app, le_bytes_length. lia.
Qed.

Lemma load_header m :
  load 4 (DROPFILES_bytes HEADER ++ m) 0 = Some 20
  ∧ load 4 (DROPFILES_bytes HEADER ++ m) 16 = Some 1.
Proof.
  assert (∀ pos, pos = 0 ∨ pos = 16 → valid_access 4 (DROPFILES_bytes HEADER ++ m) pos = true)
    as Hvalid.
  { intros pos Hpos. unfold valid_access. rewrite length_app.
    change (length (DROPFILES_bytes HEADER)) with 20%nat.
    rewrite (proj2 (Z.leb_le (pos + _) _)) by lia. by destruct Hpos as [-> | ->]. }
  unfold load. by rewrite !Hvalid by auto.
Qed.

(** The block of a list of paths reads as these paths. *)
Lemma read_hdrop_block paths rest :
  Forall windows_path paths →
  read_dropfiles (hdrop_block (wide_path <$> paths) 0 ++ rest) = Some paths.
Proof.
  intros Hpaths. unfold read_dropfiles, hdrop_block. rewrite <- !app_assoc.
  destruct (load_header (units_bytes (concat (wide_path <$> paths) ++ [0])
    ++ replicate 0 0 ++ rest)) as [-> ->].
  cbn [mbind option_bind]. change (as_bool 1) with true. cbv beta iota.
  apply read_list_iff; [lia|]. exists (encode_utf16 <$> paths).
  assert (concat (wide_path <$> paths) ++ [0] = terminated (encode_utf16 <$> paths)) as ->.
  { unfold terminated. do 2 f_equal. rewrite <- list_fmap_compose. apply list_fmap_ext.
    intros i p Hp. apply (Forall_lookup_1 _ _ _ _ Hpaths) in Hp. by apply wide_path_entry. }
  split; [|split].
  - rewrite <- list_fmap_compose. symmetry. rewrite <- (list_fmap_id paths) at 2.
    apply list_fmap_ext. intros i p [Hv _]%(Forall_lookup_1 _ _ _ _ Hpaths).
    by apply from_utf16_encode.
  - apply Forall_fmap. eapply Forall_impl; [exact Hpaths|].
    intros p Hp. by apply wide_path_entry.
  - apply (reads_units (DROPFILES_bytes HEADER) _ _ 10); [done|].
    unfold terminated. apply Forall_app. split; [|by repeat constructor].
    apply Forall_concat, Forall_fmap, Forall_fmap. eapply Forall_impl; [exact Hpaths|].
    intros p Hp. cbn [compose]. apply Forall_app. split; [by apply wide_path_entry|].
    by repeat constructor.
Qed.

(** A larger block is the same block followed by more zeros. *)
Lemma hdrop_block_more ws more rest :
  hdrop_block ws more ++ rest = hdrop_block ws 0 ++ replicate more 0 ++ rest.
Proof. unfold hdrop_block. by rewrite <- !app_assoc. Qed.

(** ** The protocol of the calls *)

(** What the program holds: the open clipboard, a lock on a block, a block it
    allocated and still owns. *)
Record Held := mk_Held { clip : bool; lock : bool; mine : bool }.
Definition nothing_held : Held := mk_Held false false false.

(** The documented conditions of each call, [None] when one is violated. *)
Definition call_step (h : Held) (c : Call) : option Held :=
  match c with
  | IsClipboardFormatAvailable _ => Some h
  | OpenClipboard ok => if clip h then None else Some (mk_Held ok (lock h) (mine h))
  | GetClipboardData _ | EmptyClipboard _ => if clip h then Some h else None
  | GlobalLock ok => if lock h then None else Some (mk_Held (clip h) ok (mine h))
  | GlobalUnlock => if lock h then Some (mk_Held (clip h) false (mine h)) else None
  | GlobalAlloc _ ok => if mine h then None else Some (mk_Held (clip h) (lock h) ok)
  | SetClipboardData _ ok =>
      if clip h && mine h && negb (lock h) then Some (mk_Held true false (negb ok)) else None
  | CloseClipboard =>
      if clip h && negb (lock h) then Some (mk_Held false false (mine h)) else None
  end.
Fixpoint protocol (h : Held) (calls : list Call) : option Held :=
  match calls with
  | [] => Some h
  | c :: calls' => h' ← call_step h c; protocol h' calls'
  end.

(** The block is lost: the program allocated it, and then failed. *)
Definition block_leaked (w : Win32Write) : bool :=
  ww_open w && ww_empty w && bool_decide (is_Some (ww_alloc w)) && negb (ww_lock w && ww_set w).

(** A list that was written is put on the clipboard last of all, and is read back. *)
Lemma windows_list_written (w : Win32Write) (paths : list string) :
  win32_ok w = true → paths ≠ [] → Forall windows_path paths →
  ∃ pre m, set_clipboard_file_list_windows w paths =
      Some (pre ++ [SetClipboardData m true; CloseClipboard], true)
    ∧ ∀ rest, snd <$> get_clipboard_file_list_windows (mk_Win32Read true true true (Some (m ++ rest)))
        = Some (Some paths).
Proof.
  intros Hw Hne Hpaths. pose proof (set_windows_eq w paths) as Heq. rewrite Hw in Heq.
  unfold win32_ok in Hw. rewrite !andb_true_iff, bool_decide_eq_true in Hw.
  destruct Hw as [[[[Ho He] [more Ha]] Hl] Hs]. cbn zeta in Heq.
  rewrite Ho, He, Ha, Hl, Hs in Heq.
  eexists [_; _; _; _; _], (hdrop_block (wide_path <$> paths) more).
  split; [exact Heq|]. intros rest.
  unfold get_clipboard_file_list_windows. cbn [wr_available wr_open wr_data wr_lock negb].
  rewrite hdrop_block_more, read_hdrop_block by done. cbn [mbind option_bind].
  by rewrite bool_decide_false.
Qed.

(** ** Properties *)

(** C18: the program writes within the block it allocated, and writes all of it.
    Whatever Win32 answers and whatever the paths are, every store of
    [set_clipboard_file_list_windows] is aligned and inside the block of the size it
    asked [GlobalAlloc] for, and the block it gives to the clipboard is the header, the
    paths with a null after each, a null, and zeros. The zeros of the allocation are not
    needed: filling a block that held anything gives the same bytes as far as the size
    asked for, the last null among them, and leaves what comes after. It returns [true]
    exactly when every call succeeded. *)
Theorem dropfiles_write_in_bounds (w : Win32Write) (paths : list string) :
  let written := hdrop_block (wide_path <$> paths) 0 in
  ∃ calls, set_clipboard_file_list_windows w paths = Some (calls, win32_ok w)
    ∧ (∀ size ok, GlobalAlloc size ok ∈ calls → size = Z.of_nat (length written))
    ∧ (∀ m ok, SetClipboardData m ok ∈ calls →
        ∃ more, ww_alloc w = Some more ∧ m = hdrop_block (wide_path <$> paths) more)
    ∧ ∀ held beyond, length held = length written →
        fill_block (held ++ beyond) (wide_paths paths).1 = Some (written ++ beyond).
Proof.
  intros written. rewrite set_windows_eq. eexists. split; [done|].
  assert (∀ ws, length (hdrop_block ws 0) = 20 + 2 * (length (concat ws) + 1))%nat as Hlen.
  { intros ws. unfold hdrop_block. rewrite !length_app, units_bytes_length, length_app.
    change (length (DROPFILES_bytes HEADER)) with 20%nat. simpl length. lia. }
  assert (∀ ws, 20 + Z.of_nat (length (concat ws) + 1) * 2 = Z.of_nat (length (hdrop_block ws 0)))
    as Hsize by (intros ws; rewrite Hlen; lia).
  rewrite Hsize. split; [|split].
  1, 2: destruct (ww_open w), (ww_empty w), (ww_alloc w) as [more|], (ww_lock w);
    (intros ? ?; rewrite ?elem_of_app, !elem_of_cons, ?elem_of_nil; naive_solver).
  - intros held beyond Hheld. unfold written in Hheld. rewrite Hlen in Hheld.
    rewrite wide_paths_spec. cbn [fst]. rewrite fill_block_any by (rewrite length_app; lia).
    by rewrite <- Hheld, drop_app_length.
Qed.

(** C17: what was written is read back: the paths that [set_clipboard_file_list_windows]
    put on the clipboard are those that [get_clipboard_file_list_windows] finds, in
    order, even when the block has grown ([rest]). *)
Theorem dropfiles_roundtrip (w : Win32Write) (paths : list string) :
  win32_ok w = true → paths ≠ [] → Forall windows_path paths →
  ∃ calls m, set_clipboard_file_list_windows w paths = Some (calls, true)
    ∧ SetClipboardData m true ∈ calls
    ∧ ∀ rest, snd <$> get_clipboard_file_list_windows (mk_Win32Read true true true (Some (m ++ rest)))
        = Some (Some paths).
Proof.
  intros Hw Hne Hpaths. destruct (windows_list_written w paths Hw Hne Hpaths) as (pre & m & Hset & Hread).
  exists (pre ++ [SetClipboardData m true; CloseClipboard]), m. split; [done|]. split; [|done].
  apply elem_of_app. right. left.
Qed.

Lemma dropfiles_roundtrip_witness :
  let paths := ["C:\Users\me\notes.txt"; "C:\été"] in
  Forall windows_path paths ∧
  ∃ calls m, set_clipboard_file_list_windows (mk_Win32Write true true (Some 4%nat) true true) paths
      = Some (calls, true)
    ∧ SetClipboardData m true ∈ calls
    ∧ ∀ rest, snd <$> get_clipboard_file_list_windows (mk_Win32Read true true true (Some (m ++ rest)))
        = Some (Some paths).
Proof.
  intros paths. assert (Forall windows_path paths) as Hpaths.
  { repeat constructor; try done; intros Hin; apply (bool_decide_eq_true_2 _) in Hin;
      vm_compute in Hin; discriminate. }
  split; [exact Hpaths|]. by apply dropfiles_roundtrip.
Defined.

(** C31: reading a block. [read_dropfiles] finds exactly the entries of a double
    null-terminated list that starts at [pFiles], of 16-bit units when [fWide] is set and
    of bytes otherwise; without such a list inside the block the behaviour is undefined. *)
Theorem read_dropfiles_iff (m : block) (fs : list string) :
  read_dropfiles m = Some fs ↔
  ∃ wide base ps, load 4 m 16 = Some wide ∧ load 4 m 0 = Some base
    ∧ Forall entry ps
    ∧ reads (if as_bool wide then 2 else 1) m base (terminated ps)
    ∧ fs = (if as_bool wide then from_utf16_lossy else from_utf8_lossy) <$> ps.
Proof.
  unfold read_dropfiles. destruct (load 4 m 16) as [wide|]; [|naive_solver].
  destruct (load 4 m 0) as [base|]; [|naive_solver]. cbn [mbind option_bind].
  destruct (as_bool wide) eqn:Hwide; rewrite read_list_iff by lia; (split;
    [intros (ps & -> & Hps & Hr); exists wide, base, ps; by rewrite Hwide
    |intros (? & ? & ps & [= <-] & [= <-] & Hps & Hr & ->); rewrite Hwide in *; by exists ps]).
Qed.

(** C32: the calls follow the protocol of the Win32 clipboard. On every path, with every
    answer, the clipboard and the locks that were obtained are released and no call is
    made without what it needs; the writer loses its block exactly when it could not be
    locked or put on the clipboard. *)
Theorem windows_calls_follow_protocol :
  (∀ w calls r, get_clipboard_file_list_windows w = Some (calls, r) →
     protocol nothing_held calls = Some nothing_held) ∧
  (∀ w paths, (fst <$> set_clipboard_file_list_windows w paths) ≫= protocol nothing_held =
     Some (mk_Held false false (block_leaked w))).
Proof.
  split.
  - intros [av op da lk] calls r. unfold get_clipboard_file_list_windows.
    destruct av, op, da, lk as [m|]; cbn; try (intros [= <- <-]; reflexivity).
    destruct (read_dropfiles m); [|done]. cbn. intros [= <- <-]. reflexivity.
  - intros [op em al lk se] paths. rewrite set_windows_eq.
    destruct op, em, al as [more|], lk, se; reflexivity.
Qed.

Lemma windows_calls_follow_protocol_witness :
  let w := mk_Win32Read true true true (Some (hdrop_block (wide_path <$> ["C:\a"]) 0)) in
  ∃ calls, get_clipboard_file_list_windows w = Some (calls, Some ["C:\a"])
    ∧ protocol nothing_held calls = Some nothing_held.
Proof.
  intros w. eexists. split; [reflexivity|].
  by apply (proj1 windows_calls_follow_protocol w _ (Some ["C:\a"])).
Defined.

(** ** Malformed blocks, and what is lost *)

(** A block without the last null: the loops leave it, since the size of the block is
    never asked for. *)
Example unterminated_block_undefined :
  let m := DROPFILES_bytes HEADER ++ units_bytes [67; 0] in
  get_clipboard_file_list_windows (mk_Win32Read true true true (Some m)) = None.
Proof. reflexivity. Qed.

(** A list in the ANSI code page is read as UTF-8. *)
Example ansi_path_mangled :
  let m := DROPFILES_bytes (mk_DROPFILES 20 0 0 0 0) ++ [67; 58; 92; 233; 0; 0] in
  read_dropfiles m = Some ["C:\�"].
Proof. reflexivity. Qed.

(** A block that cannot be put on the clipboard is not freed. *)
Example block_not_freed :
  block_leaked (mk_Win32Write true true (Some 0%nat) true false) = true.
Proof. reflexivity. Qed.

(** On Linux the dispatch is the function of [UriList]. *)
Lemma set_clipboard_file_list_on_linux {S : Type} feed w paths (s : S) :
  set_clipboard_file_list_on linux feed w paths s = Some (set_clipboard_file_list feed paths s).
Proof. unfold set_clipboard_file_list_on, set_clipboard_file_list. by case_bool_decide. Qed.
