(* ===== verification/Files.v ===== *)
(** * Files on the clipboard ([src/main.rs])

    Collecting the files of a directory, saving received files, and reducing the
    saved paths to the top-level ones that go to the clipboard, on Unix.  The
    file system is a state [F] with the calls the code makes. *)

From S2P Require Import Prelude RustStr Content.

Local Open Scope Z_scope.

(** ** [std::path] on Unix

    A path is a [string]; two paths are equal when their components are. *)

Inductive Component := RootDir | CurDir | ParentDir | Normal (name : string).

#[export] Instance Component_eq_dec : EqDecision Component.
Proof. solve_decision. Defined.

Definition SLASH : Ascii.ascii := "/"%char.
Definition is_absolute (p : string) : bool := starts_with "/" p.

Definition component_of (piece : string) : option Component :=
  if decide (piece = ""%string) then None
  else if decide (piece = "."%string) then None
  else if decide (piece = ".."%string) then Some ParentDir
  else Some (Normal piece).

(** [Path::components]: empty pieces and dots are skipped, but a leading dot. *)
Definition components (p : string) : list Component :=
  (if is_absolute p then [RootDir]
   else match split_char SLASH p with "."%string :: _ => [CurDir] | _ => [] end)
  ++ omap component_of (split_char SLASH p).

Definition as_os_str (c : Component) : string :=
  match c with RootDir => "/" | CurDir => "." | ParentDir => ".." | Normal name => name end.

(** [Path::join]: an absolute argument replaces the path. *)
Fixpoint ends_with_slash (p : string) : bool :=
  match p with
  | EmptyString => false
  | String a EmptyString => Ascii.eqb a SLASH
  | String _ p' => ends_with_slash p'
  end.
Definition path_join (base name : string) : string :=
  if is_absolute name then name
  else if bool_decide (base = ""%string) || ends_with_slash base then base +:+ name
  else base +:+ "/" +:+ name.

(** The path of some components. *)
Definition path_of (cs : list Component) : string := foldl (λ p c, path_join p (as_os_str c)) "" cs.

(** [Path::parent]. *)
Definition parent (p : string) : option string :=
  match last (components p) with
  | None | Some RootDir => None
  | Some _ => Some (path_of (take (pred (length (components p))) (components p)))
  end.

(** The components of [Path::strip_prefix]. *)
Definition strip_prefix_components (base p : string) : option (list Component) :=
  let cb := components base in
  if bool_decide (take (length cb) (components p) = cb)
  then Some (drop (length cb) (components p)) else None.

(** ** The file system *)

Class FileSystem := {
  F : Type;
  (** [read_dir]: an entry that cannot be read is [None], else its path and its
      name ([to_string_lossy]). *)
  fs_read_dir : F → string → option (list (option (string * string)));
  fs_is_file : F → string → bool;
  fs_is_dir : F → string → bool;
  fs_read : F → string → option (list u8);
  fs_exists : F → string → bool;
  (** Calls that change it; [false] is an error. *)
  fs_create_dir_all : string → F → F * bool;
  fs_write : string → list u8 → F → F * bool;
  fs_set_permissions : string → Z → F → F * bool;
}.

Section files.
Context `{FileSystem}.

(** ** Collecting *)

(** The body of the loop over the entries, [collect] being the recursive call. *)
Definition collect_entry (fs : F) (collect : string → string → list FileEntry → list FileEntry)
    (prefix : string) (entries : list FileEntry) (entry : option (string * string)) :
    list FileEntry :=
  match entry with
  | None => entries
  | Some (path, name) =>
      let relative_name := prefix +:+ "/" +:+ name in
      if fs_is_file fs path then
        match fs_read fs path with
        | Some file_bytes => entries ++ [mk_FileEntry relative_name file_bytes]
        | None => entries
        end
      else if fs_is_dir fs path then collect path relative_name entries
      else entries
  end.

(** [collect_dir_files]; [fuel] bounds the depth of the recursion. *)
Fixpoint collect_dir_files (fuel : nat) (fs : F) (dir prefix : string)
    (entries : list FileEntry) : list FileEntry :=
  match fuel with
  | O => entries
  | S fuel' =>
      match fs_read_dir fs dir with
      | None => entries
      | Some read_dir =>
          foldl (collect_entry fs (collect_dir_files fuel' fs) prefix) entries read_dir
      end
  end.

(** ** Saving *)

(** [Path::join] on Windows, for a relative name. *)
Definition BACKSLASH : Ascii.ascii := Ascii.ascii_of_nat 92.
Definition windows_join (base name : string) : string :=
  match rev (bytes_of_string base) with
  | [] => name
  | b :: _ =>
      if (b =? 92) || (b =? 47) then base +:+ name else base +:+ String BACKSLASH name
  end.

(** [get_file_receive_dir]; [windows] is [cfg!(target_os = "windows")], [home_dir] what
    [dirs::home_dir] answers.  The rest of the file is on Unix. *)
Definition get_file_receive_dir_on (windows : bool) (home_dir : option string) : string :=
  if windows then windows_join (default "."%string home_dir) "temp" else "/tmp".
Definition get_file_receive_dir : string := "/tmp".

Example receive_dirs :
  (∀ home, get_file_receive_dir_on false home = get_file_receive_dir)
  ∧ get_file_receive_dir_on true (Some "C:\Users\me"%string) = "C:\Users\me\temp"%string
  ∧ get_file_receive_dir_on true None = ".\temp"%string.
Proof. done. Qed.

(** One file: the path when it was written. *)
Definition save_file (dest_dir : string) (fs : F) (file : string * list u8) : F * option string :=
  let '(name, bytes) := file in
  let dest_path := path_join dest_dir name in
  let '(fs, parent_ok) :=
    match parent dest_path with
    | Some p => if negb (fs_exists fs p) then fs_create_dir_all p fs else (fs, true)
    | None => (fs, true)
    end in
  if negb parent_ok then (fs, None)
  else
    match fs_write dest_path bytes fs with
    | (fs, true) =>
        let '(fs, _) := fs_set_permissions dest_path 420 fs in
        (fs, Some dest_path)
    | (fs, false) => (fs, None)
    end.

Fixpoint save_files (dest_dir : string) (fs : F) (files : list (string * list u8)) :
    F * list string :=
  match files with
  | [] => (fs, [])
  | file :: files' =>
      let '(fs, saved) := save_file dest_dir fs file in
      let '(fs, saved_paths) := save_files dest_dir fs files' in
      (fs, match saved with Some p => p :: saved_paths | None => saved_paths end)
  end.

Definition save_received_files (fs : F) (files : list (string * list u8)) : F * list string :=
  let dest_dir := get_file_receive_dir in
  match fs_create_dir_all dest_dir fs with
  | (fs, false) => (fs, [])
  | (fs, true) => save_files dest_dir fs files
  end.
End files.

(** ** Reducing to top-level paths *)

(** The path that [path] contributes, when it contributes one. *)
Definition top_path (dest_dir path : string) : option string :=
  match strip_prefix_components dest_dir path with
  | Some (first :: _) => Some (path_join dest_dir (as_os_str first))
  | Some [] => None
  | None => Some path
  end.

(** Insertion in a [HashSet<PathBuf>]: an equal path is kept. *)
Definition insert_path (set : list string) (p : string) : list string :=
  if existsb (λ q, bool_decide (components q = components p)) set then set else set ++ [p].

(** [iter_order] is the order in which the hash set is iterated. *)
Definition deduplicate_to_top_level_paths (iter_order : list string → list string)
    (saved_paths : list string) : list string :=
  let dest_dir := get_file_receive_dir in
  iter_order (foldl insert_path [] (omap (top_path dest_dir) saved_paths)).

(** ** Lemmas on paths *)

(** The components a relative name adds. *)
Definition name_components (name : string) : list Component :=
  omap component_of (split_char SLASH name).

Lemma components_join name :
  is_absolute name = false →
  components (path_join get_file_receive_dir name) =
    [RootDir; Normal "tmp"] ++ name_components name.
Proof.
  intros Hrel. unfold path_join. rewrite Hrel.
  change (bool_decide (get_file_receive_dir = ""%string) || ends_with_slash get_file_receive_dir)
    with false. cbn [andb]. unfold components, name_components.
  change (get_file_receive_dir +:+ "/" +:+ name) with (String SLASH ("tmp" +:+ String SLASH name)).
  change (is_absolute (String SLASH ("tmp" +:+ String SLASH name))) with true.
  change (split_char SLASH (String SLASH ("tmp" +:+ String SLASH name)))
    with (""%string :: split_char SLASH ("tmp" +:+ String SLASH name)).
  rewrite split_char_app_sep by done. done.
Qed.

(** A name without an absolute path or a parent component. *)
Definition safe_name (name : string) : Prop :=
  is_absolute name = false ∧ ".."%string ∉ split_char SLASH name.

Lemma component_of_Some piece c :
  component_of piece = Some c →
  (c = ParentDir ∧ piece = ".."%string) ∨
  (c = Normal piece ∧ piece ≠ ""%string ∧ piece ≠ "."%string ∧ piece ≠ ".."%string).
Proof. unfold component_of. repeat case_decide; naive_solver. Qed.

Lemma safe_components name :
  safe_name name → ∀ c, c ∈ name_components name → ∃ piece, c = Normal piece
    ∧ piece ∈ split_char SLASH name ∧ component_of piece = Some c.
Proof.
  intros [_ Hdd] c (piece & Hin & Hc)%list_elem_of_omap.
  destruct (component_of_Some _ _ Hc) as [[-> ->]|[-> _]]; [done|]. eauto.
Qed.

Lemma split_char_pieces c s : Forall (λ piece, mem_char c piece = false) (split_char c s).
Proof.
  induction s as [|a s IH]; cbn; [by repeat constructor|].
  destruct (Ascii.eqb a c) eqn:Ha; [by constructor|].
  destruct (split_char c s) as [|p ps]; [by repeat constructor; cbn; rewrite Ha|].
  inversion IH; subst. constructor; [cbn; by rewrite Ha|done].
Qed.

(** A piece of a path as a path of its own. *)
Lemma name_components_piece piece :
  mem_char SLASH piece = false → name_components piece = omap component_of [piece].
Proof. intros Hp. unfold name_components. by rewrite split_char_no_sep. Qed.

Lemma is_absolute_piece piece : mem_char SLASH piece = false → is_absolute piece = false.
Proof.
  destruct piece as [|a p]; [done|]. cbn. intros [Ha _]%orb_false_iff.
  unfold is_absolute, starts_with. cbn [strip_prefix]. apply bool_decide_false.
  destruct (Ascii.eqb_spec "/"%char a) as [<-|]; [by rewrite Ascii.eqb_refl in Ha|]. by intros [].
Qed.

Section lemmas.
Context `{FileSystem}.

Lemma save_file_path dest fs name bytes fs' p :
  save_file dest fs (name, bytes) = (fs', Some p) → p = path_join dest name.
Proof.
  unfold save_file. destruct (match parent _ with Some _ => _ | None => _ end) as [fs1 ok].
  destruct ok; [|done]. cbn [negb]. destruct (fs_write _ _ fs1) as [fs2 []]; [|done].
  destruct (fs_set_permissions _ _ fs2) as [fs3 ?]. by intros [= _ <-].
Qed.

Lemma save_files_paths dest fs files fs' saved :
  save_files dest fs files = (fs', saved) →
  ∀ p, p ∈ saved → ∃ name bytes, (name, bytes) ∈ files ∧ p = path_join dest name.
Proof.
  revert fs saved. induction files as [|[name bytes] files IH]; intros fs saved; cbn [save_files].
  { intros [= _ <-] p Hp. by apply elem_of_nil in Hp. }
  destruct (save_file dest fs (name, bytes)) as [fs1 o] eqn:Hs.
  destruct (save_files dest fs1 files) as [fs2 saved'] eqn:Hss. intros [= -> <-] p Hp.
  destruct o as [q|].
  - apply elem_of_cons in Hp as [->|Hp].
    + exists name, bytes. split; [left|by eapply save_file_path].
    + destruct (IH _ _ Hss p Hp) as (n & b & Hin & ->). exists n, b. split; [by right|done].
  - destruct (IH _ _ Hss p Hp) as (n & b & Hin & ->). exists n, b. split; [by right|done].
Qed.

(** ** Collecting a directory tree *)

#[warnings="-register-all"]
Inductive Tree := Leaf (bytes : list u8) | Dir (children : list (string * Tree)).

(** The files of a tree, in order, with the names the code gives them. *)
Fixpoint tree_files (prefix : string) (t : Tree) : list FileEntry :=
  match t with
  | Leaf bytes => [mk_FileEntry prefix bytes]
  | Dir children =>
      (fix files (l : list (string * Tree)) : list FileEntry :=
         match l with
         | [] => []
         | (name, t') :: l' => tree_files (prefix +:+ "/" +:+ name) t' ++ files l'
         end) children
  end.

Fixpoint depth (t : Tree) : nat :=
  match t with
  | Leaf _ => O
  | Dir children =>
      S ((fix deepest (l : list (string * Tree)) : nat :=
            match l with [] => O | (_, t') :: l' => Nat.max (depth t') (deepest l') end) children)
  end.

(** The tree [t] is at [path] in the file system. *)
Fixpoint tree_at (fs : F) (path : string) (t : Tree) : Prop :=
  match t with
  | Leaf bytes => fs_is_file fs path = true ∧ fs_read fs path = Some bytes
  | Dir children =>
      fs_is_file fs path = false ∧ fs_is_dir fs path = true
      ∧ fs_read_dir fs path = Some ((λ c, Some (path_join path c.1, c.1)) <$> children)
      ∧ (fix all (l : list (string * Tree)) : Prop :=
           match l with
           | [] => True
           | (name, t') :: l' => tree_at fs (path_join path name) t' ∧ all l'
           end) children
  end.

(** The files of a tree that lies on the disk. *)
Lemma collect_tree fuel fs dir prefix children entries :
  tree_at fs dir (Dir children) → (depth (Dir children) ≤ fuel)%nat →
  collect_dir_files fuel fs dir prefix entries = entries ++ tree_files prefix (Dir children).
Proof.
  revert dir prefix children entries. induction fuel as [|fuel IH];
    intros dir prefix children entries; [cbn; lia|].
  cbn [tree_at depth collect_dir_files]. intros (_ & _ & -> & Hall) Hd.
  cbn [tree_files]. revert entries Hall Hd.
  induction children as [|[name t] children IHc]; intros entries Hall Hd.
  { cbn. by rewrite app_nil_r. }
  destruct Hall as [Ht Hall]. rewrite fmap_cons. cbn [foldl fst].
  set (rest := (fix files (l : list (string * Tree)) : list FileEntry := _) children) in *.
  rewrite app_assoc. rewrite <- (IHc (entries ++ tree_files (prefix +:+ "/" +:+ name) t)); [|done|lia].
  f_equal. unfold collect_entry. destruct t as [bytes|ch].
  - destruct Ht as [-> ->]. done.
  - pose proof Ht as (-> & -> & _). apply IH; [done|]. cbn [depth] in Hd |- *. lia.
Qed.

(** C29: Collecting a directory returns every file of its tree, named by its path
    from the directory's name, in directory order, after what was collected before;
    the depth of the tree is enough fuel. *)
Theorem collect_dir_files_complete fuel fs dir prefix children entries :
  tree_at fs dir (Dir children) → (depth (Dir children) ≤ fuel)%nat →
  collect_dir_files fuel fs dir prefix entries = entries ++ tree_files prefix (Dir children).
Proof. apply collect_tree. Qed.
End lemmas.

(** ** What the code relies on *)

(** The file that a path denotes, whether it exists or not: parent components are
    resolved and links followed; the two names of a hard link denote one file, and so do
    two spellings of a name where the file system does not tell them apart. *)
Class FileIdentity `{FileSystem} := {
  FileId : Type;
  file_at : F → string → FileId;
}.

(** Which calls leave what a path denotes, and what can be read from it, alone.  A file
    that was written has the bytes written.  Making directories, and setting the mode
    [rw-r--r--], keep what could be read; a write keeps what could be read from other
    files.  No call makes or removes a link. *)
Class FileSystemLaws `{FileIdentity} : Prop := {
  write_read p b fs fs' : fs_write p b fs = (fs', true) → fs_read fs' p = Some b;
  write_other p b q c fs fs' ok :
    fs_write p b fs = (fs', ok) → file_at fs q ≠ file_at fs p →
    fs_read fs q = Some c → fs_read fs' q = Some c;
  write_identity p b q fs fs' ok : fs_write p b fs = (fs', ok) → file_at fs' q = file_at fs q;
  create_dir_read p q c fs fs' ok :
    fs_create_dir_all p fs = (fs', ok) → fs_read fs q = Some c → fs_read fs' q = Some c;
  create_dir_identity p q fs fs' ok :
    fs_create_dir_all p fs = (fs', ok) → file_at fs' q = file_at fs q;
  set_permissions_read p q c fs fs' ok :
    fs_set_permissions p 420 fs = (fs', ok) → fs_read fs q = Some c → fs_read fs' q = Some c;
  set_permissions_identity p m q fs fs' ok :
    fs_set_permissions p m fs = (fs', ok) → file_at fs' q = file_at fs q;
}.

Section theorems.
Context `{FileSystem}.

Section identity.
Context `{!FileIdentity} `{!FileSystemLaws}.

(** Creating the parent directory of a path when it does not exist. *)
Lemma make_parent_same (parent : option string) fs fs' ok :
  match parent with
  | Some p => if negb (fs_exists fs p) then fs_create_dir_all p fs else (fs, true)
  | None => (fs, true)
  end = (fs', ok) →
  (∀ q, file_at fs' q = file_at fs q) ∧ ∀ q c, fs_read fs q = Some c → fs_read fs' q = Some c.
Proof.
  destruct parent as [p|]; [|by intros [= <- _]]. destruct (negb _); [|by intros [= <- _]].
  intros Hc. split; [intros q; by eapply create_dir_identity|intros q c; by eapply create_dir_read].
Qed.

Lemma save_file_read dest fs name bytes fs' o :
  save_file dest fs (name, bytes) = (fs', o) →
  (∀ q, file_at fs' q = file_at fs q)
  ∧ (∀ q c, file_at fs q ≠ file_at fs (path_join dest name) → fs_read fs q = Some c → fs_read fs' q = Some c)
  ∧ (is_Some o → fs_read fs' (path_join dest name) = Some bytes).
Proof.
  unfold save_file. set (p := path_join dest name).
  destruct (match parent p with Some _ => _ | None => _ end) as [fs1 ok] eqn:Hpar.
  apply make_parent_same in Hpar as [Hid1 Hread1].
  destruct ok; cbn [negb]; [|intros [= <- <-]; split; [done|]; split; [by auto|by intros []]].
  destruct (fs_write p bytes fs1) as [fs2 ok] eqn:Hw.
  assert (∀ q c, file_at fs q ≠ file_at fs p → fs_read fs q = Some c → fs_read fs2 q = Some c) as Hread2.
  { intros q c Hq Hc. eapply write_other; [exact Hw|by rewrite !Hid1|by apply Hread1]. }
  assert (∀ q, file_at fs2 q = file_at fs q) as Hid2
    by (intros q; by rewrite (write_identity _ _ q _ _ _ Hw)).
  destruct ok; [|by intros [= <- <-]; split; [done|]; split; [done|intros []]].
  destruct (fs_set_permissions p 420 fs2) as [fs3 ok3] eqn:Hs. intros [= <- <-]. split; [|split].
  - intros q. by rewrite (set_permissions_identity _ _ q _ _ _ Hs).
  - intros q c Hq Hc. eapply set_permissions_read; [exact Hs|by apply Hread2].
  - intros _. eapply set_permissions_read; [exact Hs|by eapply write_read].
Qed.

(** The other files of a transfer leave a file alone. *)
Lemma save_files_other dest fs files fs' saved q c :
  save_files dest fs files = (fs', saved) →
  file_at fs q ∉ ((λ f, file_at fs (path_join dest f.1)) <$> files) →
  fs_read fs q = Some c → fs_read fs' q = Some c.
Proof.
  revert fs saved. induction files as [|[name bytes] files IH]; intros fs saved; cbn [save_files].
  { by intros [= <- _]. }
  destruct (save_file dest fs (name, bytes)) as [fs1 o] eqn:Hs.
  destruct (save_files dest fs1 files) as [fs2 saved'] eqn:Hss. intros [= -> _].
  destruct (save_file_read _ _ _ _ _ _ Hs) as (Hid & Hother & _).
  rewrite fmap_cons, not_elem_of_cons. intros [Hq Hqs] Hc.
  eapply (IH _ _ Hss); [|by apply Hother]. rewrite Hid.
  by rewrite (list_fmap_ext _ (λ f, file_at fs (path_join dest f.1)) files) by (intros; apply Hid).
Qed.
End identity.

(** C39: Every received file that was saved has a path under the receive directory, whose
    further components are those of its name, when the names are relative and have no
    parent component. *)
Theorem saved_inside_receive_dir fs files fs' saved p :
  Forall (λ f, safe_name f.1) files →
  save_received_files fs files = (fs', saved) → p ∈ saved →
  ∃ name bytes, (name, bytes) ∈ files
    ∧ components p = [RootDir; Normal "tmp"] ++ name_components name
    ∧ ParentDir ∉ components p.
Proof.
  intros Hsafe. unfold save_received_files. destruct (fs_create_dir_all _ fs) as [fs1 []].
  2:{ intros [= _ <-] Hp. by apply elem_of_nil in Hp. }
  intros Hsave Hp. destruct (save_files_paths _ _ _ _ _ Hsave p Hp) as (name & bytes & Hin & ->).
  rewrite Forall_forall in Hsafe. specialize (Hsafe _ Hin). simpl in Hsafe.
  exists name, bytes. split; [done|]. rewrite components_join by apply Hsafe. split; [done|].
  rewrite elem_of_app. intros [Hc|Hc]; [set_solver|].
  by destruct (safe_components name Hsafe _ Hc) as (piece & [=] & _).
Qed.

(** What was saved has the bytes received. *)
Lemma save_received_read `{!FileIdentity, !FileSystemLaws} fs files fs' saved name bytes :
  NoDup ((λ f, file_at fs (path_join get_file_receive_dir f.1)) <$> files) →
  save_received_files fs files = (fs', saved) →
  (name, bytes) ∈ files → path_join get_file_receive_dir name ∈ saved →
  fs_read fs' (path_join get_file_receive_dir name) = Some bytes.
Proof.
  unfold save_received_files. destruct (fs_create_dir_all _ fs) as [fs1 ok] eqn:Hmk.
  rewrite (list_fmap_ext _ (λ f, file_at fs1 (path_join get_file_receive_dir f.1)) files)
    by (intros; symmetry; by eapply create_dir_identity).
  clear Hmk. destruct ok; [|by intros _ [= _ <-] _ Hp%elem_of_nil].
  clear fs. revert fs1 saved. generalize get_file_receive_dir as dest. intros dest.
  induction files as [|[n b] files IH]; intros fs saved; cbn [save_files];
    [by intros _ _ Hin%elem_of_nil|].
  rewrite fmap_cons, NoDup_cons. cbn [fst]. intros [Hn Hnd].
  destruct (save_file dest fs (n, b)) as [fs1 o] eqn:Hs.
  destruct (save_files dest fs1 files) as [fs2 saved'] eqn:Hss. intros [= -> <-] Hin Hsaved.
  destruct (save_file_read _ _ _ _ _ _ Hs) as (Hid & _ & Hown).
  rewrite (list_fmap_ext _ (λ f, file_at fs1 (path_join dest f.1)) files) in Hnd by (intros; by rewrite Hid).
  apply elem_of_cons in Hin as [[= -> ->]|Hin].
  - eapply (save_files_other dest); [exact Hss| |apply Hown].
    + rewrite Hid. by rewrite (list_fmap_ext _ (λ f, file_at fs (path_join dest f.1)) files) by (intros; apply Hid).
    + destruct o as [q|]; [by eexists|]. exfalso. apply Hn.
      destruct (save_files_paths _ _ _ _ _ Hss _ Hsaved) as (n' & b' & Hin' & Hp').
      rewrite Hp'. by apply (list_elem_of_fmap_2 (λ f, file_at fs (path_join dest f.1)) _ (n', b')).
  - eapply (IH fs1 _ Hnd Hss Hin). destruct o as [q|]; [|done].
    apply elem_of_cons in Hsaved as [Hq|]; [|done]. exfalso. apply Hn.
    apply save_file_path in Hs. subst q. rewrite <- Hq.
    by apply (list_elem_of_fmap_2 (λ f, file_at fs (path_join dest f.1)) _ (name, bytes)).
Qed.

(** C28: After a transfer is saved, each saved file has the bytes received, when the
    paths of its names denote different files: links, parent components and all. *)
Theorem saved_files_readable `{!FileIdentity, !FileSystemLaws} fs files fs' saved name bytes :
  NoDup ((λ f, file_at fs (path_join get_file_receive_dir f.1)) <$> files) →
  save_received_files fs files = (fs', saved) →
  (name, bytes) ∈ files → path_join get_file_receive_dir name ∈ saved →
  fs_read fs' (path_join get_file_receive_dir name) = Some bytes.
Proof. apply save_received_read. Qed.
End theorems.

(** *** Top-level paths *)

Lemma insert_path_spec set p :
  NoDup (components <$> set) →
  NoDup (components <$> insert_path set p)
  ∧ (∀ q, q ∈ insert_path set p → q ∈ set ∨ q = p)
  ∧ (∀ q, q ∈ set → q ∈ insert_path set p)
  ∧ ∃ q, q ∈ insert_path set p ∧ components q = components p.
Proof.
  intros Hnd. unfold insert_path.
  destruct (existsb (λ q, bool_decide (components q = components p)) set) eqn:Hex.
  - apply existsb_exists in Hex as (q & Hq & Heq%bool_decide_eq_true).
    apply list_elem_of_In in Hq. split; [done|]. split; [by auto|]. split; [by auto|]. by exists q.
  - assert (components p ∉ components <$> set) as Hnew.
    { intros (q & Hc & Hq)%list_elem_of_fmap. apply list_elem_of_In in Hq.
      assert (existsb (λ q, bool_decide (components q = components p)) set = true) as Ht
        by (apply existsb_exists; exists q; by rewrite bool_decide_true). congruence. }
    rewrite fmap_app. split; [|split; [|split]].
    + apply NoDup_app. split; [done|]. split; [|apply NoDup_singleton].
      by intros c Hc ->%list_elem_of_singleton.
    + intros q. rewrite elem_of_app, list_elem_of_singleton. tauto.
    + intros q Hq. apply elem_of_app. by left.
    + exists p. split; [set_solver|done].
Qed.

Lemma insert_paths_spec l set :
  NoDup (components <$> set) →
  let r := foldl insert_path set l in
  NoDup (components <$> r) ∧ (∀ q, q ∈ r → q ∈ set ∨ q ∈ l)
  ∧ (∀ q, q ∈ set ∨ q ∈ l → ∃ q', q' ∈ r ∧ components q' = components q).
Proof.
  revert set. induction l as [|p l IH]; intros set Hnd; simpl.
  { split; [done|]. split; [by auto|]. intros q [Hq|[]%elem_of_nil]. eauto. }
  destruct (insert_path_spec set p Hnd) as (Hnd' & Hsub & Hsup & (p' & Hp' & Hc)).
  destruct (IH _ Hnd') as (H1 & H2 & H3). split; [done|]. split.
  - intros q Hq. rewrite elem_of_cons. destruct (H2 q Hq) as [Hs|]; [|by auto].
    destruct (Hsub q Hs); auto.
  - intros q. rewrite elem_of_cons. intros [Hq|[->|Hq]].
    + apply H3. auto.
    + destruct (H3 p') as (q' & Hq' & Hc'); [by auto|]. exists q'. split; [done|]. congruence.
    + apply H3. auto.
Qed.

Lemma top_path_name name t rest :
  is_absolute name = false → name_components name = Normal t :: rest →
  top_path get_file_receive_dir (path_join get_file_receive_dir name) =
    Some (path_join get_file_receive_dir t).
Proof.
  intros Hrel Hname. unfold top_path, strip_prefix_components. rewrite components_join by done.
  rewrite Hname. change (components get_file_receive_dir) with [RootDir; Normal "tmp"]. done.
Qed.

(** The reduced paths are the first components of the names. *)
Lemma top_level_paths iter_order names :
  (∀ l, iter_order l ≡ₚ l) →
  Forall (λ name, safe_name name ∧ name_components name ≠ []) names →
  let result := deduplicate_to_top_level_paths iter_order
                  (path_join get_file_receive_dir <$> names) in
  NoDup result
  ∧ ∀ q, q ∈ result ↔ ∃ name t rest, name ∈ names ∧ name_components name = Normal t :: rest
                        ∧ q = path_join get_file_receive_dir t.
Proof.
  intros Hperm Hnames. unfold deduplicate_to_top_level_paths.
  set (tops := omap _ _). destruct (insert_paths_spec tops [] ltac:(constructor)) as (Hnd & Hsub & Hsup).
  assert (∀ q, q ∈ tops ↔ ∃ name t rest, name ∈ names ∧ name_components name = Normal t :: rest
    ∧ q = path_join get_file_receive_dir t) as Htops.
  { intros q. unfold tops. rewrite list_elem_of_omap. rewrite Forall_forall in Hnames. split.
    - intros (p & (name & -> & Hin)%list_elem_of_fmap & Htop).
      destruct (Hnames name Hin) as [Hsafe Hne].
      destruct (name_components name) as [|c rest] eqn:Hnc; [done|].
      destruct (safe_components name Hsafe c) as (piece & -> & _); [rewrite Hnc; left|].
      exists name, piece, rest. split; [done|]. split; [done|].
      rewrite (top_path_name name piece rest) in Htop by (done || apply Hsafe). congruence.
    - intros (name & t & rest & Hin & Hnc & ->). destruct (Hnames name Hin) as [Hsafe _].
      exists (path_join get_file_receive_dir name).
      split; [by apply list_elem_of_fmap_2|]. by apply (top_path_name name t rest), Hnc; apply Hsafe. }
  assert (∀ q, q ∈ tops → ∃ t, components q = [RootDir; Normal "tmp"; Normal t]
    ∧ q = path_join get_file_receive_dir t) as Hcanon.
  { intros q (name & t & rest & Hin & Hnc & ->)%Htops. exists t. split; [|done].
    rewrite Forall_forall in Hnames. destruct (Hnames name Hin) as [Hsafe _].
    destruct (safe_components name Hsafe (Normal t)) as (piece & [= <-] & Hpiece & Hco);
      [rewrite Hnc; left|].
    pose proof (split_char_pieces SLASH name) as Hall. rewrite Forall_forall in Hall.
    specialize (Hall _ Hpiece). rewrite components_join by by apply is_absolute_piece.
    rewrite name_components_piece by done. cbn [omap list_omap]. by rewrite Hco. }
  split.
  - rewrite Hperm. eapply NoDup_fmap_1. exact Hnd.
  - intros q. rewrite Hperm, <- Htops. split; [by intros [[]%elem_of_nil|]%Hsub|].
    intros Hq. destruct (Hsup q) as (q' & Hq' & Hc); [by right|].
    assert (q' ∈ tops) as Hq'' by (destruct (Hsub q' Hq') as [[]%elem_of_nil|]; done).
    destruct (Hcanon q Hq) as (t & Ht & ->), (Hcanon q' Hq'') as (t' & Ht' & ->).
    rewrite Ht, Ht' in Hc. by simplify_eq.
Qed.


(** ** Witnesses *)

(** A file system without links, as a map from resolved paths to bytes, and a set of
    directories. *)
Definition encode_component (c : Component) : option (option (option string)) :=
  match c with
  | RootDir => None | CurDir => Some None | ParentDir => Some (Some None)
  | Normal s => Some (Some (Some s))
  end.
Definition decode_component (o : option (option (option string))) : Component :=
  match o with
  | None => RootDir | Some None => CurDir | Some (Some None) => ParentDir
  | Some (Some (Some s)) => Normal s
  end.
#[export] Instance Component_countable : Countable Component.
Proof. apply (inj_countable' encode_component decode_component). by intros []. Defined.

Definition toy_step (path : list Component) (c : Component) : list Component :=
  match c with
  | RootDir => [RootDir]
  | CurDir => path
  | ParentDir => if bool_decide (path = [RootDir]) then path else removelast path
  | Normal _ => path ++ [c]
  end.
Definition toy_resolve (p : string) : list Component := foldl toy_step [] (components p).

Record toy_fs := mk_toy_fs {
  toy_files : gmap (list Component) (list u8);
  toy_dirs : list (string * list string);
}.

#[export] Instance toy_file_system : FileSystem := {|
  F := toy_fs;
  fs_read_dir fs p :=
    match find (λ d, bool_decide (d.1 = p)) (toy_dirs fs) with
    | Some (_, names) => Some ((λ n, Some (path_join p n, n)) <$> names)
    | None => None
    end;
  fs_is_file fs p := bool_decide (is_Some (toy_files fs !! toy_resolve p));
  fs_is_dir fs p := existsb (λ d, bool_decide (d.1 = p)) (toy_dirs fs);
  fs_read fs p := toy_files fs !! toy_resolve p;
  fs_exists fs p := true;
  fs_create_dir_all _ fs := (fs, true);
  fs_write p b fs := (mk_toy_fs (<[toy_resolve p := b]> (toy_files fs)) (toy_dirs fs), true);
  fs_set_permissions _ _ fs := (fs, true);
|}.

#[export] Instance toy_file_identity : FileIdentity := {| file_at _ := toy_resolve |}.

#[export] Instance toy_file_system_laws : FileSystemLaws.
Proof.
  split.
  - intros p b fs fs' [= <-]. apply lookup_insert_eq.
  - intros p b q c fs fs' ok [= <- _] Hne Hc. cbn. by rewrite lookup_insert_ne.
  - done.
  - by intros p q c fs fs' ok [= <- _].
  - done.
  - by intros p q c fs fs' ok [= <- _].
  - done.
Qed.

Definition wit_tree : Tree := Dir [("a.txt"%string, Leaf [1]); ("sub"%string, Dir [("b"%string, Leaf [2; 3])])].
Definition wit_fs : @F toy_file_system := mk_toy_fs
  {[ toy_resolve "/home/d/a.txt" := [1]; toy_resolve "/home/d/sub/b" := [2; 3] ]}
  [("/home/d", ["a.txt"; "sub"]); ("/home/d/sub", ["b"])]%string.
Definition wit_received : list (string * list u8) := [("d/a.txt"%string, [1]); ("d/sub/b"%string, [2; 3])].
Definition empty_fs : @F toy_file_system := mk_toy_fs ∅ [].

Lemma collect_dir_files_complete_witness :
  collect_dir_files 2 wit_fs "/home/d" "d" [] =
    [mk_FileEntry "d/a.txt" [1]; mk_FileEntry "d/sub/b" [2; 3]].
Proof.
  apply (collect_dir_files_complete 2 wit_fs "/home/d" "d"
    [("a.txt"%string, Leaf [1]); ("sub"%string, Dir [("b"%string, Leaf [2; 3])])] []);
    [repeat split|simpl; lia].
Defined.

Lemma wit_received_safe : Forall (λ f : string * list u8, safe_name f.1) wit_received.
Proof.
  repeat constructor; (apply (bool_decide_unpack (".."%string ∉ _)); by vm_compute).
Qed.

Lemma saved_inside_receive_dir_witness :
  ∃ name bytes, (name, bytes) ∈ wit_received
    ∧ components "/tmp/d/a.txt" = [RootDir; Normal "tmp"] ++ name_components name
    ∧ ParentDir ∉ components "/tmp/d/a.txt".
Proof.
  eapply (saved_inside_receive_dir empty_fs wit_received
    (save_received_files empty_fs wit_received).1 (save_received_files empty_fs wit_received).2);
    [apply wit_received_safe|apply surjective_pairing|].
  apply (bool_decide_unpack (_ ∈ _)). by vm_compute.
Defined.

Lemma saved_files_readable_witness :
  fs_read (save_received_files empty_fs wit_received).1 "/tmp/d/sub/b" = Some [2; 3].
Proof.
  apply (saved_files_readable empty_fs wit_received (save_received_files empty_fs wit_received).1
    (save_received_files empty_fs wit_received).2 "d/sub/b" [2; 3]).
  - apply (bool_decide_unpack (NoDup _)). by vm_compute.
  - apply surjective_pairing.
  - right. left.
  - apply (bool_decide_unpack (_ ∈ _)). by vm_compute.
Defined.


(** Two names of one file: the second file overwrites the first. *)
Example same_file_overwritten :
  let '(fs, saved) := save_received_files empty_fs [("a/../b"%string, [1]); ("b"%string, [2])] in
  saved = ["/tmp/a/../b"; "/tmp/b"]%string
  ∧ fs_read fs "/tmp/a/../b" = Some [2] ∧ fs_read fs "/tmp/b" = Some [2].
Proof. by vm_compute. Qed.

(** A received name that is absolute, or climbs with parent components, is written
    outside the receive directory. *)
Example received_name_escapes :
  (save_received_files empty_fs [("/etc/cron.d/job"%string, [0]); ("../home/x"%string, [1])]).2
    = ["/etc/cron.d/job"; "/tmp/../home/x"]%string
  ∧ fs_read (save_received_files empty_fs [("/etc/cron.d/job"%string, [0])]).1 "/etc/cron.d/job"
      = Some [0].
Proof. split; by vm_compute. Qed.
