(* ===== verification/Dedup.v ===== *)
(** * Clipboard synchronisation ([src/main.rs])

    Reading local clipboard changes, writing received contents, and the shared
    deduplication state that is meant to keep a received content from being sent
    back.  The clipboard ([arboard] and the native file lists), the image codec
    and the hash are parameters. *)

From S2P Require Import Prelude RustStr Content Files.

Local Open Scope Z_scope.

(** ** What the program talks to *)

(** A width, a height and RGBA bytes. *)
Abbreviation ImageData := (Z * Z * list u8)%type.

Class ClipboardApi := {
  Clip : Type;
  (** [Clipboard::new] succeeds. *)
  clip_new : Clip → bool;
  (** [native_clipboard::get_clipboard_file_list], [get_image], [get_text]. *)
  clip_files : Clip → option (list string);
  clip_image : Clip → option ImageData;
  clip_text : Clip → option string;
  (** [native_clipboard::set_clipboard_file_list], [set_image], [set_text]:
      [false] is a failure. *)
  clip_set_files : list string → Clip → Clip * bool;
  clip_set_image : ImageData → Clip → Clip * bool;
  clip_set_text : string → Clip → Clip * bool;
}.

(** The paths and texts that the clipboard gives back as they were written: the
    formats of the native clipboards do not carry all of them. *)
Class ClipboardScope `{ClipboardApi} := {
  path_kept : string → Prop;
  text_kept : string → Prop;
}.

(** What a successful write leaves on the clipboard. *)
Class ClipboardLaws `{ClipboardScope} : Prop := {
  set_files_get ps c c' :
    Forall path_kept ps → clip_set_files ps c = (c', true) → clip_files c' = Some ps;
  set_files_none ps c c' : clip_set_files ps c = (c', false) → clip_new c' = clip_new c;
  set_text_get t c c' :
    text_kept t → clip_set_text t c = (c', true) →
    clip_files c' = None ∧ clip_image c' = None ∧ clip_text c' = Some t;
  set_image_get i c c' :
    clip_set_image i c = (c', true) → clip_files c' = None ∧ clip_image c' = Some i ∧ clip_new c' = clip_new c;
}.

(** The [image] crate: [RgbaImage::from_raw], [write_to] in PNG format,
    [load_from_memory] followed by [to_rgba8], and the parts of an image. *)
Class ImageCodec := {
  RgbaImage : Type;
  from_raw : u32 → u32 → list u8 → option RgbaImage;
  write_to_png : RgbaImage → option (list u8);
  DynamicImage : Type;
  load_from_memory : list u8 → option DynamicImage;
  to_rgba8 : DynamicImage → RgbaImage;
  img_width : RgbaImage → u32;
  img_height : RgbaImage → u32;
  into_raw : RgbaImage → list u8;
}.

Definition encode_rgba_to_png `{ImageCodec} (rgba : list u8) (width height : u32) : option (list u8) :=
  img_buf ← from_raw width height rgba;
  write_to_png img_buf.

Definition decode_png_to_rgba `{ImageCodec} (png_bytes : list u8) : option ImageData :=
  img ← load_from_memory png_bytes;
  let rgba := to_rgba8 img in
  Some (img_width rgba, img_height rgba, into_raw rgba).

(** ** The state *)

Record DeduplicationState := mk_Dedup {
  last_text : option string;
  last_image_hash : option u64;
  last_files_hash : option u64;
}.

(** [DeduplicationState::new]. *)
Definition new_dedup : DeduplicationState := mk_Dedup None None None.

Definition CHANNEL_CAPACITY : nat := 32.

Section sync.
Context `{ClipboardApi} `{ImageCodec} `{FileSystem}.
(** [DefaultHasher] over the bytes written to it. *)
Context (finish : list u8 → u64).
(** The depth of directories, and the iteration order of a hash set. *)
Context (fuel : nat) (iter_order : list string → list string).

Record App := mk_App {
  dedup : DeduplicationState;
  (** A thread panicked while it held the lock. *)
  poisoned : bool;
  clip : Clip;
  fs : F;
  (** The channel to the network; [None] when it is closed. *)
  channel : option (list ClipboardContent);
}.

Definition set_dedup (a : App) d := mk_App d (poisoned a) (clip a) (fs a) (channel a).
Definition set_clip (a : App) c := mk_App (dedup a) (poisoned a) c (fs a) (channel a).
Definition set_fs (a : App) f := mk_App (dedup a) (poisoned a) (clip a) f (channel a).
Definition set_channel (a : App) q := mk_App (dedup a) (poisoned a) (clip a) (fs a) q.

(** [sender.try_send]; a full or closed channel drops the content. *)
Definition try_send (content : ClipboardContent) (a : App) : App :=
  match channel a with
  | Some q => if bool_decide (length q < CHANNEL_CAPACITY)%nat
              then set_channel a (Some (q ++ [content])) else a
  | None => a
  end.

(** ** Hashes *)

(** [Hash] of a slice writes its length, then the bytes; of a string, the bytes
    and 255. *)
Definition hash_bytes (data : list u8) : u64 :=
  finish (le_bytes 8 (Z.of_nat (length data)) ++ data).
Definition hash_file_paths (paths : list string) : u64 :=
  finish (concat ((λ p, bytes_of_string (to_string_lossy p) ++ [255]) <$> paths)).

(** ** Reading a local change *)

(** [Path::file_name], lossily. *)
Definition file_name (p : string) : option string :=
  match last (components p) with Some (Normal n) => Some (to_string_lossy n) | _ => None end.

(** The body of the loop over the copied paths. *)
Definition read_path (fs : F) (entries : list FileEntry) (path : string) : list FileEntry :=
  if fs_is_file fs path then
    let name := default "unknown"%string (file_name path) in
    match fs_read fs path with
    | Some file_bytes => entries ++ [mk_FileEntry name file_bytes]
    | None => entries
    end
  else if fs_is_dir fs path then
    let dir_name := default "unknown_dir"%string (file_name path) in
    collect_dir_files fuel fs path dir_name entries
  else entries.

Definition files_content (entries : list FileEntry) : option ClipboardContent :=
  match entries with
  | [] => None
  | [entry] => Some (File (fe_name entry) (fe_bytes entry))
  | _ => Some (Files entries)
  end.

Definition on_files (a : App) (file_paths : list string) : App :=
  let h := hash_file_paths file_paths in
  if poisoned a then a
  else if bool_decide (last_files_hash (dedup a) = Some h) then a
  else
    let a := set_dedup a (mk_Dedup None None (Some h)) in
    let entries := foldl (read_path (fs a)) [] file_paths in
    match files_content entries with
    | Some content => try_send content a
    | None => a
    end.

Definition on_image (a : App) (img_data : ImageData) : App :=
  let '(width, height, bytes) := img_data in
  let h := hash_bytes bytes in
  if poisoned a then a
  else if bool_decide (last_image_hash (dedup a) = Some h) then a
  else
    let a := set_dedup a (mk_Dedup None (Some h) None) in
    match encode_rgba_to_png bytes (as_u32 width) (as_u32 height) with
    | Some png_bytes => try_send (Image png_bytes) a
    | None => a
    end.

Definition on_text (a : App) (contents : string) : App :=
  if poisoned a then a
  else if bool_decide (last_text (dedup a) = Some contents) then a
  else
    let a := set_dedup a (mk_Dedup (Some contents) None None) in
    try_send (Text contents) a.

Definition get_clipboard_content (a : App) : App :=
  match clip_files (clip a) with
  | Some file_paths => on_files a file_paths
  | None =>
      if negb (clip_new (clip a)) then a
      else
        match clip_image (clip a) with
        | Some img_data => on_image a img_data
        | None =>
            match clip_text (clip a) with
            | Some contents => on_text a contents
            | None => a
            end
        end
  end.

(** [Handler::on_clipboard_change]. *)
Definition on_clipboard_change (a : App) : App := get_clipboard_content a.

(** What the handler tells the monitor to do next; with this handler it goes on, after a
    change and after an error, looking once in [sleep_interval] milliseconds where it
    has to look by itself. *)
Inductive CallbackResult := Next | StopMonitor | StopWithError.
Definition handle_clipboard_change (a : App) : App * CallbackResult := (on_clipboard_change a, Next).
Definition on_clipboard_error (a : App) : App * CallbackResult := (a, Next).
Definition sleep_interval : Z := 1000.

(** ** Writing a received content *)

(** [if let Ok(mut guard) = dedup.lock()]. *)
Definition with_lock (a : App) (f : DeduplicationState → DeduplicationState) : App :=
  if poisoned a then a else set_dedup a (f (dedup a)).

Definition set_file_clipboard (saved_paths : list string) (a : App) : App :=
  if bool_decide (saved_paths = []) then a
  else
    let h := hash_file_paths saved_paths in
    let a := with_lock a (λ _, mk_Dedup None None (Some h)) in
    match clip_set_files saved_paths (clip a) with
    | (c, true) => set_clip a c
    | (c, false) =>
        let a := set_clip a c in
        let path_text := join NL (to_string_lossy <$> saved_paths) in
        let a := with_lock a (λ d, mk_Dedup (Some path_text) (last_image_hash d) (last_files_hash d)) in
        if negb (clip_new (clip a)) then a
        else let '(c, _) := clip_set_text path_text (clip a) in set_clip a c
    end.

Definition set_clipboard_content (content : ClipboardContent) (a : App) : App :=
  if negb (clip_new (clip a)) then a
  else
    match content with
    | Text text =>
        let a := with_lock a (λ _, mk_Dedup (Some text) None None) in
        let '(c, _) := clip_set_text text (clip a) in set_clip a c
    | Image png_bytes =>
        let h := hash_bytes png_bytes in
        let a := with_lock a (λ _, mk_Dedup None (Some h) None) in
        match decode_png_to_rgba png_bytes with
        | Some img => let '(c, _) := clip_set_image img (clip a) in set_clip a c
        | None => a
        end
    | File name bytes =>
        let '(fs, saved_paths) := save_received_files (fs a) [(name, bytes)] in
        set_file_clipboard saved_paths (set_fs a fs)
    | Files files =>
        let file_refs := (λ f, (fe_name f, fe_bytes f)) <$> files in
        let '(fs, saved_paths) := save_received_files (fs a) file_refs in
        let clipboard_paths := deduplicate_to_top_level_paths iter_order saved_paths in
        set_file_clipboard clipboard_paths (set_fs a fs)
    end.

(** [channel_proxy]: the messages received before the shutdown. *)
Definition channel_proxy (messages : list ClipboardContent) (a : App) : App :=
  foldl (λ a message, set_clipboard_content message a) a messages.

(** The paths a received content puts on the clipboard. *)
Definition received_paths (a : App) (content : ClipboardContent) : list string :=
  match content with
  | File name bytes => (save_received_files (fs a) [(name, bytes)]).2
  | Files files =>
      deduplicate_to_top_level_paths iter_order
        (save_received_files (fs a) ((λ f, (fe_name f, fe_bytes f)) <$> files)).2
  | _ => []
  end.

(** ** Lemmas *)

Lemma try_send_same content a :
  dedup (try_send content a) = dedup a ∧ poisoned (try_send content a) = poisoned a
  ∧ clip (try_send content a) = clip a ∧ fs (try_send content a) = fs a.
Proof. unfold try_send. destruct (channel a); [|done]. by case_bool_decide. Qed.

(** What the deduplication state, or the lost lock, makes the code skip. *)
Definition skips_files (a : App) ps := poisoned a = true ∨ last_files_hash (dedup a) = Some (hash_file_paths ps).
Definition skips_image (a : App) (i : ImageData) :=
  poisoned a = true ∨ last_image_hash (dedup a) = Some (hash_bytes i.2).
Definition skips_text (a : App) t := poisoned a = true ∨ last_text (dedup a) = Some t.

Lemma on_files_skip a ps : skips_files a ps → on_files a ps = a.
Proof. unfold on_files. intros [->|Hl]; [done|]. destruct (poisoned a); [done|]. by rewrite bool_decide_true. Qed.
Lemma on_image_skip a i : skips_image a i → on_image a i = a.
Proof.
  destruct i as [[w h] bytes]. unfold on_image. intros [->|Hl]; [done|].
  destruct (poisoned a); [done|]. by rewrite bool_decide_true.
Qed.
Lemma on_text_skip a t : skips_text a t → on_text a t = a.
Proof. unfold on_text. intros [->|Hl]; [done|]. destruct (poisoned a); [done|]. by rewrite bool_decide_true. Qed.

Lemma on_files_after a ps :
  clip (on_files a ps) = clip a ∧ poisoned (on_files a ps) = poisoned a ∧ skips_files (on_files a ps) ps.
Proof.
  unfold on_files, skips_files. destruct (poisoned a) eqn:Hp; [by auto|].
  case_bool_decide; [by auto|]. destruct (files_content _) as [content|]; [|by auto].
  edestruct (try_send_same content) as (-> & -> & -> & _). by auto.
Qed.
Lemma on_image_after a i :
  clip (on_image a i) = clip a ∧ poisoned (on_image a i) = poisoned a ∧ skips_image (on_image a i) i.
Proof.
  destruct i as [[w h] bytes]. unfold on_image, skips_image. destruct (poisoned a) eqn:Hp; [by auto|].
  case_bool_decide; [by auto|]. destruct (encode_rgba_to_png _ _ _) as [png|]; [|by auto].
  edestruct (try_send_same (Image png)) as (-> & -> & -> & _). by auto.
Qed.
Lemma on_text_after a t :
  clip (on_text a t) = clip a ∧ poisoned (on_text a t) = poisoned a ∧ skips_text (on_text a t) t.
Proof.
  unfold on_text, skips_text. destruct (poisoned a) eqn:Hp; [by auto|].
  case_bool_decide; [by auto|]. edestruct (try_send_same (Text t)) as (-> & -> & -> & _). by auto.
Qed.

Lemma with_lock_same a f :
  poisoned (with_lock a f) = poisoned a ∧ clip (with_lock a f) = clip a
  ∧ fs (with_lock a f) = fs a ∧ channel (with_lock a f) = channel a
  ∧ (poisoned (with_lock a f) = true ∨ dedup (with_lock a f) = f (dedup a)).
Proof. unfold with_lock. destruct (poisoned a) eqn:Hp; cbn; split_and!; auto. Qed.

(** The paths can be put on the clipboard: as files, or else as a text. *)
Definition files_writable `{!ClipboardScope} (ps : list string) (c : Clip) : Prop :=
  let path_text := join NL (to_string_lossy <$> ps) in
  ((clip_set_files ps c).2 = true ∧ Forall path_kept ps)
  ∨ ((clip_set_files ps c).2 = false ∧ text_kept path_text
     ∧ (clip_set_text path_text (clip_set_files ps c).1).2 = true).

(** Writing saved paths to the clipboard makes the program skip the change. *)
Lemma set_file_clipboard_quiet `{!ClipboardScope, !ClipboardLaws} ps a :
  ps ≠ [] → clip_new (clip a) = true → files_writable ps (clip a) →
  let a' := set_file_clipboard ps a in get_clipboard_content a' = a' ∧ channel a' = channel a.
Proof.
  intros Hps Hnew Hset. unfold set_file_clipboard. rewrite bool_decide_false by done.
  set (f := λ _ : DeduplicationState, _). destruct (with_lock_same a f) as (Hp & -> & _ & Hch & Hd).
  unfold files_writable in Hset. destruct (clip_set_files ps (clip a)) as [c ok] eqn:Hf.
  cbn [fst snd] in Hset. destruct ok.
  - destruct Hset as [[_ Hkept]|[? _]]; [|done]. cbn zeta. unfold get_clipboard_content. cbn [clip set_clip channel].
    rewrite (set_files_get _ _ _ Hkept Hf). split; [|done]. apply on_files_skip.
    destruct Hd as [Hd|Hd]; [by left|right; cbn [dedup set_clip]; by rewrite Hd].
  - set (g := λ d : DeduplicationState, _). cbn zeta.
    destruct (with_lock_same (set_clip (with_lock a f) c) g) as (Hp' & -> & _ & Hch' & Hd').
    cbn [clip set_clip]. rewrite (set_files_none _ _ _ Hf), Hnew. cbn [negb].
    destruct Hset as [[? _]|(_ & Hkept & Hset)]; [done|]. destruct (clip_set_text _ c) as [c' ok] eqn:Ht.
    cbn in Hset. subst ok. destruct (set_text_get _ _ _ Hkept Ht) as (Hg1 & Hg2 & Hg3).
    unfold get_clipboard_content. cbn [clip set_clip channel] in *. rewrite Hg1, Hg2, Hg3.
    split; [|by rewrite Hch']. destruct (clip_new c'); [|done]. apply on_text_skip.
    destruct Hd' as [Hd'|Hd']; [by left|right; cbn [dedup set_clip]; by rewrite Hd'].
Qed.

(** ** Theorems *)

(** The content on the clipboard, as the program sends it. *)
Definition clipboard_value (a : App) : option ClipboardContent :=
  match clip_files (clip a), clip_image (clip a), clip_text (clip a) with
  | Some ps, _, _ => files_content (foldl (read_path (fs a)) [] ps)
  | None, Some (w, h, rgba), _ => Image <$> encode_rgba_to_png rgba (as_u32 w) (as_u32 h)
  | None, None, Some t => Some (Text t)
  | None, None, None => None
  end.

(** It is what was last sent or received. *)
Definition unchanged (a : App) : Prop :=
  match clip_files (clip a), clip_image (clip a), clip_text (clip a) with
  | Some ps, _, _ => last_files_hash (dedup a) = Some (hash_file_paths ps)
  | None, Some i, _ => last_image_hash (dedup a) = Some (hash_bytes i.2)
  | None, None, t => last_text (dedup a) = t
  end.

(** What a look at a changed clipboard sends and records. *)
Lemma change_sent a q :
  poisoned a = false → clip_new (clip a) = true → channel a = Some q → ¬ unchanged a →
  channel (get_clipboard_content a) =
    match clipboard_value a with
    | Some content => Some (if decide (length q < 32)%nat then q ++ [content] else q)
    | None => Some q
    end
  ∧ (is_Some (clipboard_value a) → unchanged (get_clipboard_content a)).
Proof.
  assert (∀ content b, channel b = Some q →
    channel (try_send content b) = Some (if decide (length q < 32)%nat then q ++ [content] else q)) as Hsend.
  { intros content b Hb. unfold try_send. rewrite Hb. fold CHANNEL_CAPACITY.
    case_bool_decide; case_decide; by rewrite ?Hb. }
  intros Hp Hnew Hq. unfold unchanged, clipboard_value, get_clipboard_content. intros Hun.
  destruct (clip_files (clip a)) as [ps|] eqn:Hf.
  { destruct (on_files_after a ps) as (-> & Hp' & Hs). rewrite Hf. unfold on_files in *. rewrite Hp in *.
    rewrite bool_decide_false in * by done. cbn [fs set_dedup] in *.
    destruct (files_content _) as [content|]; (split; [by auto|]); [intros _|by intros []].
    by destruct Hs as [Hs|]; [congruence|]. }
  rewrite Hnew. cbn [negb]. destruct (clip_image (clip a)) as [[[w h] rgba]|] eqn:Hi.
  { destruct (on_image_after a (w, h, rgba)) as (-> & Hp' & Hs). rewrite Hf, Hi. unfold on_image in *. rewrite Hp in *.
    rewrite bool_decide_false in * by done.
    destruct (encode_rgba_to_png _ _ _) as [png|]; (split; [by cbn; auto|]); [intros _|by intros []].
    by destruct Hs as [Hs|]; [congruence|]. }
  destruct (clip_text (clip a)) as [t|] eqn:Ht; [|split; [done|by intros []]].
  destruct (on_text_after a t) as (-> & Hp' & Hs). rewrite Hf, Hi, Ht. unfold on_text in *. rewrite Hp in *.
  rewrite bool_decide_false in * by done. split; [by auto|intros _].
  by destruct Hs as [Hs|]; [congruence|].
Qed.

(** Looking at an unchanged clipboard changes nothing. *)
Lemma unchanged_quiet a : unchanged a → get_clipboard_content a = a.
Proof.
  unfold unchanged, get_clipboard_content. destruct (clip_files (clip a)) as [ps|].
  { intros Hu. apply on_files_skip. by right. }
  destruct (clip_image (clip a)) as [i|], (clip_new (clip a)); cbn [negb]; try done.
  { intros Hu. apply on_image_skip. by right. }
  destruct (clip_text (clip a)) as [t|]; [|done]. intros Hu. apply on_text_skip. by right.
Qed.

(** C7: A changed clipboard is sent: the files if there are any, with the contents
    of directories, else the image as a PNG, else the text; an unchanged one is
    not, and nothing is when 32 contents are waiting. *)
Theorem clipboard_change_sent a q :
  poisoned a = false → clip_new (clip a) = true → channel a = Some q → ¬ unchanged a →
  channel (get_clipboard_content a) =
    match clipboard_value a with
    | Some content => Some (if decide (length q < 32)%nat then q ++ [content] else q)
    | None => Some q
    end
  ∧ (is_Some (clipboard_value a) → unchanged (get_clipboard_content a)).
Proof. apply change_sent. Qed.

(** A clipboard change is sent at most once: looking at an unchanged clipboard
    again changes nothing. *)
Theorem unchanged_clipboard_not_resent a :
  get_clipboard_content (get_clipboard_content a) = get_clipboard_content a.
Proof.
  destruct (clip_files (clip a)) as [ps|] eqn:Hf.
  { assert (get_clipboard_content a = on_files a ps) as -> by (unfold get_clipboard_content; by rewrite Hf).
    destruct (on_files_after a ps) as (Hc & _ & Hskip). unfold get_clipboard_content at 1.
    rewrite Hc, Hf. by apply on_files_skip. }
  destruct (clip_new (clip a)) eqn:Hnew.
  2:{ unfold get_clipboard_content. rewrite Hf, Hnew. cbn [negb]. by rewrite Hf, Hnew. }
  destruct (clip_image (clip a)) as [i|] eqn:Hi.
  { assert (get_clipboard_content a = on_image a i) as ->
      by (unfold get_clipboard_content; by rewrite Hf, Hnew, Hi).
    destruct (on_image_after a i) as (Hc & _ & Hskip). unfold get_clipboard_content at 1.
    rewrite Hc, Hf, Hnew, Hi. by apply on_image_skip. }
  destruct (clip_text (clip a)) as [t|] eqn:Ht.
  - assert (get_clipboard_content a = on_text a t) as ->
      by (unfold get_clipboard_content; by rewrite Hf, Hnew, Hi, Ht).
    destruct (on_text_after a t) as (Hc & _ & Hskip). unfold get_clipboard_content at 1.
    rewrite Hc, Hf, Hnew, Hi, Ht. by apply on_text_skip.
  - assert (get_clipboard_content a = a) as -> by (unfold get_clipboard_content; by rewrite Hf, Hnew, Hi, Ht).
    unfold get_clipboard_content. by rewrite Hf, Hnew, Hi, Ht.
Qed.

(** What a received content that could be written leaves is no change. *)
Lemma received_quiet `{!ClipboardScope, !ClipboardLaws} a content :
  clip_new (clip a) = true →
  match content with
  | Text t => text_kept t ∧ (clip_set_text t (clip a)).2 = true
  | Image _ => False
  | _ => received_paths a content ≠ [] ∧ files_writable (received_paths a content) (clip a)
  end →
  let a' := set_clipboard_content content a in
  get_clipboard_content a' = a' ∧ channel a' = channel a.
Proof.
  intros Hnew Hset. unfold set_clipboard_content. rewrite Hnew. cbn [negb].
  destruct content as [t|png|name bytes|files]; [|done| |].
  - cbn zeta. set (f := λ _ : DeduplicationState, _).
    destruct (with_lock_same a f) as (_ & -> & _ & Hch & Hd).
    destruct Hset as [Hkept Hset].
    destruct (clip_set_text t (clip a)) as [c ok] eqn:Ht. cbn in Hset. subst ok.
    destruct (set_text_get _ _ _ Hkept Ht) as (Hg1 & Hg2 & Hg3).
    unfold get_clipboard_content. cbn [clip set_clip channel]. rewrite Hg1, Hg2, Hg3. split; [|done].
    destruct (clip_new c); [|done]. apply on_text_skip.
    destruct Hd as [Hd|Hd]; [by left|right; cbn [dedup set_clip]; by rewrite Hd].
  - unfold received_paths in Hset. destruct Hset as [Hne Hset].
    destruct (save_received_files (fs a) [(name, bytes)]) as [fs' saved].
    exact (set_file_clipboard_quiet saved (set_fs a fs') Hne Hnew Hset).
  - unfold received_paths in Hset. destruct Hset as [Hne Hset].
    destruct (save_received_files (fs a) _) as [fs' saved].
    exact (set_file_clipboard_quiet _ (set_fs a fs') Hne Hnew Hset).
Qed.

(** C19: When the look at the clipboard follows the reaction to a received text, or to
    received files of which some were saved, with nothing in between, and the clipboard
    was written (natively, or else as text) with something it gives back as written,
    then the look sends nothing and changes nothing.  A text the clipboard would give
    back as something else, a look in the middle of the reaction, and images are
    outside of this: [Clipboards.file_uri_text_becomes_file],
    [Threads.received_text_echoed] and [received_image_echoed_iff] are sent on. *)
Theorem received_not_echoed `{!ClipboardScope, !ClipboardLaws} a content :
  clip_new (clip a) = true →
  match content with
  | Text t => text_kept t ∧ (clip_set_text t (clip a)).2 = true
  | Image _ => False
  | _ => received_paths a content ≠ [] ∧ files_writable (received_paths a content) (clip a)
  end →
  let a' := set_clipboard_content content a in
  get_clipboard_content a' = a' ∧ channel a' = channel a.
Proof. apply received_quiet. Qed.

(** A received image, and the look that follows. *)
Lemma image_echoed `{!ClipboardScope, !ClipboardLaws} a png w h rgba png' q :
  clip_new (clip a) = true → poisoned a = false → channel a = Some q →
  (length q < CHANNEL_CAPACITY)%nat →
  decode_png_to_rgba png = Some (w, h, rgba) → (clip_set_image (w, h, rgba) (clip a)).2 = true →
  encode_rgba_to_png rgba (as_u32 w) (as_u32 h) = Some png' →
  channel (get_clipboard_content (set_clipboard_content (Image png) a)) =
    if decide (hash_bytes png = hash_bytes rgba) then Some q else Some (q ++ [Image png']).
Proof.
  intros Hnew Hp Hq Hlen Hdec Hset Henc. unfold set_clipboard_content, with_lock.
  rewrite Hnew, Hp, Hdec. cbn [negb clip set_dedup].
  destruct (clip_set_image _ (clip a)) as [c ok] eqn:Hi. cbn in Hset. subst ok.
  destruct (set_image_get _ _ _ Hi) as (Hg1 & Hg2 & Hg3).
  unfold get_clipboard_content. cbn [clip set_clip]. rewrite Hg1, Hg2, Hg3, Hnew. cbn [negb].
  unfold on_image. cbn [poisoned dedup set_clip set_dedup last_image_hash channel]. rewrite Hp, Henc.
  destruct (decide (hash_bytes png = hash_bytes rgba)) as [->|Hne].
  - by rewrite bool_decide_true.
  - rewrite bool_decide_false by congruence. unfold try_send. cbn [channel set_dedup set_clip].
    rewrite Hq, bool_decide_true by done. done.
Qed.
(** A received image is sent back by the clipboard change it causes unless the
    hash of its PNG bytes equals the hash of its pixels: the two sides of the
    deduplication hash different bytes. *)
Theorem received_image_echoed_iff `{!ClipboardScope, !ClipboardLaws} a png w h rgba png' q :
  clip_new (clip a) = true → poisoned a = false → channel a = Some q →
  (length q < CHANNEL_CAPACITY)%nat →
  decode_png_to_rgba png = Some (w, h, rgba) → (clip_set_image (w, h, rgba) (clip a)).2 = true →
  encode_rgba_to_png rgba (as_u32 w) (as_u32 h) = Some png' →
  channel (get_clipboard_content (set_clipboard_content (Image png) a)) =
    if decide (hash_bytes png = hash_bytes rgba) then Some q else Some (q ++ [Image png']).
Proof. apply image_echoed. Qed.
End sync.

(** ** Witnesses *)

Record toy_clip := mk_toy_clip {
  tc_files : option (list string);
  tc_image : option ImageData;
  tc_text : option string;
}.

#[export] Instance toy_clipboard : ClipboardApi := {|
  Clip := toy_clip;
  clip_new _ := true;
  clip_files := tc_files;
  clip_image := tc_image;
  clip_text := tc_text;
  clip_set_files ps _ := (mk_toy_clip (Some ps) None None, true);
  clip_set_image i _ := (mk_toy_clip None (Some i) None, true);
  clip_set_text t _ := (mk_toy_clip None None (Some t), true);
|}.

#[export] Instance toy_scope : ClipboardScope := {| path_kept _ := True; text_kept _ := True |}.

#[export] Instance toy_clipboard_laws : ClipboardLaws.
Proof.
  split; [by intros ps c c' _ [= <-]|done|by intros t c c' _ [= <-]|by intros i c c' [= <-]].
Qed.

(** A codec that stores the sides before the pixels. *)
#[export] Instance toy_codec : ImageCodec := {|
  RgbaImage := ImageData;
  from_raw w h rgba := Some (w, h, rgba);
  write_to_png i := let '(w, h, rgba) := i in Some (w :: h :: rgba);
  DynamicImage := ImageData;
  load_from_memory png := match png with w :: h :: rgba => Some (w, h, rgba) | _ => None end;
  to_rgba8 i := i;
  img_width i := i.1.1;
  img_height i := i.1.2;
  into_raw i := i.2;
|}.

Definition toy_finish (l : list u8) : u64 := foldl (λ h b, as_u64 (31 * h + b + 1)) 0 l.

(** The directory of [wit_tree] was copied. *)
Definition wit_app : App := mk_App new_dedup false
  (mk_toy_clip (Some ["/home/d"%string]) None None : @Clip toy_clipboard) wit_fs (Some []).

Lemma clipboard_change_sent_witness :
  channel (get_clipboard_content toy_finish 2 wit_app) =
    Some [Files [mk_FileEntry "d/a.txt" [1]; mk_FileEntry "d/sub/b" [2; 3]]].
Proof. by apply (clipboard_change_sent toy_finish 2 wit_app []). Defined.

Definition wit_content : ClipboardContent :=
  Files [mk_FileEntry "d/a.txt" [1]; mk_FileEntry "d/sub/b" [2; 3]].

Lemma received_not_echoed_witness :
  channel (get_clipboard_content toy_finish 2
    (set_clipboard_content toy_finish (λ l, l) wit_content wit_app)) = Some [].
Proof.
  destruct (received_not_echoed toy_finish 2 (λ l, l) wit_app wit_content) as [-> ->];
    [done| |done]. split; [by vm_compute|]. left. split; [done|]. by apply Forall_true.
Defined.

Lemma received_image_echoed_iff_witness :
  channel (get_clipboard_content toy_finish 2
    (set_clipboard_content toy_finish (λ l, l) (Image [1; 1; 5; 6; 7; 8]) wit_app))
    = Some [Image [1; 1; 5; 6; 7; 8]].
Proof.
  rewrite (received_image_echoed_iff toy_finish 2 (λ l, l) wit_app _ 1 1 [5; 6; 7; 8]
    [1; 1; 5; 6; 7; 8] []); try done.
  simpl. unfold CHANNEL_CAPACITY. lia.
Defined.

(** A change that finds the channel full is remembered as sent, and never is. *)
Example full_channel_loses_change :
  let a := mk_App new_dedup false (mk_toy_clip None None (Some "new"%string) : @Clip toy_clipboard)
             empty_fs (Some (replicate 32 (Text "old"))) in
  let a1 := get_clipboard_content toy_finish 2 a in
  get_clipboard_content toy_finish 2 (set_channel a1 (Some [])) = set_channel a1 (Some [])
  ∧ channel a1 = channel a.
Proof. by split. Qed.
