(* ===== verification/Clipboards.v ===== *)
(** * The native clipboards behind [ClipboardApi]

    [Dedup.v] is proved against the interface [ClipboardApi] and its laws.  Here the
    file lists of [UriList.v] and [DropFiles.v] are put behind it: the clipboard of an
    X11 desktop, and the Windows clipboard.  What a list writes is what is read from the
    state it leaves: the tools and Win32 are classes of operations on that state.  Texts
    and images go through the [arboard] crate, whose operations and laws are classes
    too. *)

From S2P Require Import Prelude RustStr Utf16 Content Files UriList DropFiles Dedup.

Local Open Scope Z_scope.

(** [arboard::Clipboard] on the state [S]: [new], [get_image], [get_text], [set_image],
    [set_text]. *)
Class Arboard (S : Type) := {
  arb_new : S → bool;
  arb_image : S → option ImageData;
  arb_text : S → option string;
  arb_set_image : ImageData → S → S * bool;
  arb_set_text : string → S → S * bool;
}.

(** ** X11 *)

(** [arboard] and the tools share the selection of an X11 desktop: a text is not offered
    as a list, an image neither as a list nor as a text; and [wl-copy] does not work
    without Wayland. *)
Class X11Laws `{ClipboardTools} `{!Arboard Selection} : Prop := {
  wl_copy_fails content s : fed_ok (feed wl_copy_gnome content s).2 = false;
  feed_new c content s : arb_new (feed c content s).1 = arb_new s;
  x11_set_text t s s' :
    arb_set_text t s = (s', true) →
    arb_text s' = Some t ∧ arb_image s' = None
    ∧ nothing (output s' xclip_out) ∧ nothing (output s' wl_paste_out)
    ∧ nothing_but (bytes_of_string t) (output s' xsel_out);
  x11_set_image i s s' :
    arb_set_image i s = (s', true) →
    arb_image s' = Some i ∧ arb_new s' = arb_new s
    ∧ nothing (output s' xclip_out) ∧ nothing (output s' wl_paste_out) ∧ nothing (output s' xsel_out);
}.

Section x11.
Context `{ClipboardTools} `{!Arboard Selection} (exists_path : string → bool).

#[local] Instance x11_clipboard : ClipboardApi := {|
  Clip := Selection;
  clip_new := arb_new;
  clip_files s := get_clipboard_file_list_linux exists_path (output s);
  clip_image := arb_image;
  clip_text := arb_text;
  clip_set_files := set_clipboard_file_list feed;
  clip_set_image := arb_set_image;
  clip_set_text := arb_set_text;
|}.

(** Existing files with printable names without a percent sign; texts that are not
    taken for a list of files. *)
#[local] Instance x11_scope : ClipboardScope := {|
  path_kept p := plain_path p ∧ exists_path p = true;
  text_kept t := valid_str t ∧ starts_with "file://" t = false;
|}.

(** There is no list when the X11 tools find at most a text that is none. *)
Lemma no_list_read out t :
  nothing (out xclip_out) → nothing (out wl_paste_out) → nothing_but (bytes_of_string t) (out xsel_out) →
  valid_str t → starts_with "file://" t = false →
  get_clipboard_file_list_linux exists_path out = None.
Proof.
  intros Hxclip Hwl Hxsel Hv Hs. unfold get_clipboard_file_list_linux.
  assert (try_read_uri_list_x11 out = None) as ->.
  { unfold try_read_uri_list_x11.
    destruct (out xclip_out) as [|[] stdout]; [|by rewrite Hxclip|];
      (destruct (out xsel_out) as [|[] stdout']; [done|destruct Hxsel as [-> | ->]; [done|]|done];
       by rewrite from_utf8_lossy_valid, Hs). }
  unfold try_read_uri_list_wayland. by destruct (out wl_paste_out) as [|[] stdout]; [|rewrite Hwl|].
Qed.

Lemma set_list_new `{!X11Laws} ps s : arb_new (set_clipboard_file_list feed ps s).1 = arb_new s.
Proof.
  unfold set_clipboard_file_list, set_clipboard_file_list_linux, set_clipboard_wayland,
    set_clipboard_mime_xclip. case_bool_decide; [done|].
  pose proof (feed_new wl_copy_gnome (gnome_files ps) s) as Hnew1.
  destruct (feed wl_copy_gnome _ s) as [s1 f1]. destruct (fed_ok f1); [done|].
  pose proof (feed_new wl_copy_uri (uri_list ps) s1) as Hnew2.
  destruct (feed wl_copy_uri _ s1) as [s2 f2]. destruct (fed_ok f2); [by cbn in *; congruence|].
  pose proof (feed_new (xclip_in "text/uri-list") (uri_list ps) s2) as Hnew3.
  destruct (feed (xclip_in _) _ s2) as [s3 f3]. destruct (fed_ok f3); by cbn in *; congruence.
Qed.

Lemma x11_laws `{!ClipboardToolsLaws, !X11Laws} : ClipboardLaws.
Proof.
  split; cbn [clip_set_files clip_files clip_new clip_set_text clip_set_image clip_text clip_image
    x11_clipboard].
  - intros ps s s' Hkept Hset. apply Forall_and in Hkept as [Hplain Hex].
    rewrite (file_list_written exists_path ps s s'); [|by intros ->|done..].
    unfold gnome_accepts. by rewrite wl_copy_fails.
  - intros ps s s' Hset. pose proof (set_list_new ps s) as Hnew. by rewrite Hset in Hnew.
  - intros t s s' [Hv Hs] (Ht & Hi & Hxclip & Hwl & Hxsel)%x11_set_text.
    split; [by eapply no_list_read|done].
  - intros i s s' (Hi & Hnew & Hxclip & Hwl & Hxsel)%x11_set_image. split; [|done].
    apply (no_list_read _ ""%string); try done.
    unfold nothing, nothing_but in *. destruct (output s' xsel_out) as [|[] ?]; [done|by left|done].
Qed.
End x11.

(** ** Windows *)

(** The clipboard of Windows: what Win32 will answer to the reader and to the writer, and
    what the calls of the writer leave. *)
Class Win32 := {
  Win : Type;
  win_read : Win → Win32Read;
  win_write : Win → Win32Write;
  win_after : list Call → Win → Win;
}.

(** The block that was put on the clipboard is what the reader locks, though it may have
    grown; [arboard] puts texts and images, not lists. *)
Class Win32Laws `{Win32} `{!Arboard Win} : Prop := {
  win_set_data calls m s :
    ∃ more, win_read (win_after (calls ++ [SetClipboardData m true; CloseClipboard]) s) =
      mk_Win32Read true true true (Some (m ++ more));
  win_after_new calls s : arb_new (win_after calls s) = arb_new s;
  win_set_text t s s' :
    arb_set_text t s = (s', true) →
    arb_text s' = Some t ∧ arb_image s' = None ∧ wr_available (win_read s') = false;
  win_set_image i s s' :
    arb_set_image i s = (s', true) →
    arb_image s' = Some i ∧ arb_new s' = arb_new s ∧ wr_available (win_read s') = false;
}.

Section windows.
Context `{Win32} `{!Arboard Win}.

#[local] Instance win_clipboard : ClipboardApi := {|
  Clip := Win;
  clip_new := arb_new;
  clip_files s :=
    match get_clipboard_file_list_windows (win_read s) with
    | Some (_, files) => files
    | None => None
    end;
  clip_image := arb_image;
  clip_text := arb_text;
  clip_set_files ps s :=
    if bool_decide (ps = []) then (s, false)
    else match set_clipboard_file_list_windows (win_write s) ps with
         | Some (calls, ok) => (win_after calls s, ok)
         | None => (s, false)
         end;
  clip_set_image := arb_set_image;
  clip_set_text := arb_set_text;
|}.

#[local] Instance win_scope : ClipboardScope := {|
  path_kept := windows_path; text_kept _ := True |}.

Lemma no_list_available r : wr_available r = false → get_clipboard_file_list_windows r = Some ([IsClipboardFormatAvailable false], None).
Proof. unfold get_clipboard_file_list_windows. by intros ->. Qed.

Lemma win_laws `{!Win32Laws} : ClipboardLaws.
Proof.
  split; cbn [clip_set_files clip_files clip_new clip_set_text clip_set_image clip_text clip_image
    win_clipboard].
  - intros ps s s' Hkept. case_bool_decide as Hps; [done|].
    destruct (win32_ok (win_write s)) eqn:Hok;
      [|rewrite set_windows_eq, Hok; by intros [= _ ?]].
    destruct (windows_list_written (win_write s) ps Hok Hps Hkept) as (calls & m & -> & Hread).
    intros [= <-]. destruct (win_set_data calls m s) as [more ->]. specialize (Hread more).
    by destruct (get_clipboard_file_list_windows _) as [[? files]|]; [injection Hread as ->|].
  - intros ps s s'. case_bool_decide; [by intros [= <-]|].
    destruct (set_clipboard_file_list_windows _ ps) as [[calls ok]|]; [|by intros [= <-]].
    intros [= <- _]. apply win_after_new.
  - intros t s s' _ (Ht & Hi & Hno)%win_set_text. by rewrite no_list_available.
  - intros i s s' (Hi & Hnew & Hno)%win_set_image. by rewrite no_list_available.
Qed.
End windows.

(** ** Property *)

(** C23: the native clipboards are what the rest of the program takes them for. On an X11
    desktop whose tools work as documented, the Linux code gives back every list of
    existing files that it wrote, when their names are printable ASCII without percent
    signs; a text that does not begin with [file://], and an image, are not taken for a
    list. The Windows code gives back every list of non-empty Unicode paths that it
    wrote. With [arboard] keeping texts and images, every theorem proved from
    [ClipboardLaws] holds of either. *)
Theorem native_clipboards_keep_contents
    `{!ClipboardTools, !ClipboardToolsLaws, !Arboard Selection, !X11Laws}
    `{!Win32, !Arboard Win, !Win32Laws} exists_path :
  @ClipboardLaws (x11_clipboard exists_path) (x11_scope exists_path)
  ∧ @ClipboardLaws win_clipboard win_scope.
Proof. split; [exact (x11_laws exists_path)|exact win_laws]. Qed.

(** ** Witness *)

(** A selection with a list, a text or an image, without Wayland. *)
Record X11 := mk_X11 {
  x_uris : option (list u8); x_text : option string; x_image : option ImageData }.

Definition x11_output (c : X11) (cmd : Command) : Captured :=
  if decide (cmd = xclip_out) then
    match x_uris c with Some b => Exited true b | None => Exited false [] end
  else if decide (cmd = xsel_out) then
    match x_text c with Some t => Exited true (bytes_of_string t) | None => Exited false [] end
  else NotStarted.
Definition x11_feed (cmd : Command) (content : string) (c : X11) : X11 * Fed :=
  if decide (cmd = xclip_in "text/uri-list")
  then (mk_X11 (Some (bytes_of_string content)) None None, FedExited true) else (c, FedNotStarted).

#[local] Instance x11_tools : ClipboardTools := {|
  Selection := X11; output := x11_output; feed := x11_feed |}.
#[local] Instance x11_tools_laws : ClipboardToolsLaws.
Proof. split; intros content c c'; cbn; by intros [= <-]. Qed.
#[local] Instance x11_arboard : Arboard (@Selection x11_tools) := {|
  arb_new _ := true;
  arb_image := x_image;
  arb_text := x_text;
  arb_set_image i _ := (mk_X11 None None (Some i), true);
  arb_set_text t _ := (mk_X11 None (Some t) None, true);
|}.
#[local] Instance x11_arboard_laws : X11Laws.
Proof.
  split; [done|done| |].
  - intros t c c' [= <-]. split; [done|]. split; [done|]. split; [done|]. split; [done|]. by right.
  - by intros i c c' [= <-].
Qed.

(** A clipboard of Windows that nobody else holds, and enough memory. *)
Record WinState := mk_Win {
  w_hdrop : option (list u8); w_text : option string; w_image : option ImageData }.

#[local] Instance win32_state : Win32 := {|
  Win := WinState;
  win_read c := mk_Win32Read (bool_decide (is_Some (w_hdrop c))) true true (w_hdrop c);
  win_write _ := mk_Win32Write true true (Some 0%nat) true true;
  win_after calls c :=
    match last (omap (λ call, match call with SetClipboardData m true => Some m | _ => None end) calls) with
    | Some m => mk_Win (Some m) None None
    | None => c
    end;
|}.
#[local] Instance win32_arboard : Arboard (@Win win32_state) := {|
  arb_new _ := true;
  arb_image := w_image;
  arb_text := w_text;
  arb_set_image i _ := (mk_Win None None (Some i), true);
  arb_set_text t _ := (mk_Win None (Some t) None, true);
|}.

#[local] Instance win32_arboard_laws : Win32Laws.
Proof.
  split.
  - intros calls m s. exists []. rewrite app_nil_r. cbn [win_read win_after win32_state].
    rewrite omap_app. cbn [omap list_omap]. rewrite last_snoc. cbn [w_hdrop].
    by rewrite bool_decide_true by by eexists.
  - done.
  - by intros t s s' [= <-].
  - by intros i s s' [= <-].
Qed.

Lemma native_clipboards_keep_contents_witness :
  let _ := x11_clipboard (λ _, true) in
  clip_files (clip_set_files ["/tmp/report one.pdf"; "/tmp/b"]%string (mk_X11 None None None)).1 =
    Some ["/tmp/report one.pdf"; "/tmp/b"]%string.
Proof.
  destruct (native_clipboards_keep_contents (λ _, true)) as [Hx11 _].
  apply (set_files_get (ClipboardLaws:=Hx11)) with (c := mk_X11 None None None); [|reflexivity].
  eapply Forall_impl; [exact wit_paths_plain|]. by intros p Hp.
Defined.

(** A text that begins with [file://] and names a file comes back as a file. *)
Example file_uri_text_becomes_file :
  let _ := x11_clipboard (λ _, true) in
  clip_files (clip_set_text "file:///etc/hosts" (mk_X11 None None None)).1 = Some ["/etc/hosts"].
Proof. by vm_compute. Qed.
