(* ===== verification/EndToEnd.v ===== *)
(** * A copied directory, from one machine to the other ([src/main.rs], [src/network.rs])

    The composition of the parts: a directory is copied on one machine, its files
    travel through both event loops, are saved on the other machine, and the
    directory is on its clipboard. *)

From S2P Require Import Prelude RustStr Content Transfer Libp2p NetAddr NetLoop Sync Files Dedup.

Local Open Scope Z_scope.

(** ** Names in a tree *)

(** The name of a directory entry. *)
Definition piece_ok (s : string) : Prop :=
  mem_char SLASH s = false ∧ component_of s = Some (Normal s).

(** Entries have names, each once in its directory. *)
Fixpoint tree_ok (t : Tree) : Prop :=
  match t with
  | Leaf _ => True
  | Dir children =>
      NoDup (fst <$> children)
      ∧ (fix all (l : list (string * Tree)) : Prop :=
           match l with
           | [] => True
           | (name, t') :: l' => piece_ok name ∧ tree_ok t' ∧ all l'
           end) children
  end.

Lemma tree_induction (P : Tree → Prop) :
  (∀ bytes, P (Leaf bytes)) →
  (∀ children, Forall (λ c, P c.2) children → P (Dir children)) → ∀ t, P t.
Proof.
  intros Hleaf Hdir. fix IH 1. intros [bytes|children]; [apply Hleaf|]. apply Hdir.
  induction children as [|[name t] children IHc]; constructor; [apply IH|exact IHc].
Qed.

Lemma split_char_app (c : Ascii.ascii) s1 s2 :
  split_char c (s1 +:+ String c s2) = split_char c s1 ++ split_char c s2.
Proof.
  induction s1 as [|a s1 IH]; cbn [split_char].
  { rewrite string_app_nil. cbn [split_char]. by rewrite Ascii.eqb_refl. }
  rewrite string_app_cons. cbn [split_char]. rewrite IH. destruct (Ascii.eqb a c); [done|].
  destruct (split_char c s1) as [|p ps] eqn:Hs; [|done].
  destruct s1 as [|b s1]; simpl in Hs; [done|]. by repeat case_match.
Qed.

Lemma name_components_child prefix name :
  piece_ok name →
  name_components (prefix +:+ "/" +:+ name) = name_components prefix ++ [Normal name].
Proof.
  intros [Hm Hc]. unfold name_components. change ("/" +:+ name) with (String SLASH name).
  rewrite split_char_app, omap_app, (split_char_no_sep SLASH name Hm). cbn [omap list_omap].
  by rewrite Hc.
Qed.

Lemma safe_name_child prefix name :
  prefix ≠ EmptyString → safe_name prefix → piece_ok name → safe_name (prefix +:+ "/" +:+ name).
Proof.
  intros Hne [Habs Hdd] [Hm Hc]. split.
  - destruct prefix as [|a p]; [done|]. rewrite string_app_cons.
    unfold is_absolute, starts_with in *. cbn [strip_prefix] in *.
    by destruct (Ascii.eqb _ a).
  - change ("/" +:+ name) with (String SLASH name).
    rewrite split_char_app, (split_char_no_sep SLASH name Hm). rewrite elem_of_app.
    intros [Hin|Heq%list_elem_of_singleton]; [done|]. subst name. by vm_compute in Hc.
Qed.

(** What holds of the files of a tree under a name. *)
Definition named_under (prefix : string) (files : list FileEntry) : Prop :=
  Forall (λ e, safe_name (fe_name e)
    ∧ ∃ path, name_components (fe_name e) = name_components prefix ++ path) files
  ∧ NoDup ((λ e, name_components (fe_name e)) <$> files).

(** The entries of a directory, one subtree after the other. *)
Lemma children_named prefix children :
  NoDup (fst <$> children) → prefix ≠ EmptyString → safe_name prefix →
  Forall (λ c, piece_ok c.1 ∧ named_under (prefix +:+ "/" +:+ c.1) (tree_files (prefix +:+ "/" +:+ c.1) c.2))
    children →
  Forall (λ e, safe_name (fe_name e) ∧ ∃ n path, n ∈ fst <$> children
    ∧ name_components (fe_name e) = name_components prefix ++ Normal n :: path)
    (tree_files prefix (Dir children))
  ∧ NoDup ((λ e, name_components (fe_name e)) <$> tree_files prefix (Dir children)).
Proof.
  intros Hnd Hne Hsafe Hall. revert Hnd.
  induction Hall as [|[name t] children [Hpiece [Hnames Hfirst]] Hall IH]; intros Hnd;
    [split; constructor|].
  rewrite fmap_cons in Hnd. apply NoDup_cons in Hnd as [Hname Hnd].
  destruct (IH Hnd) as [Hrest Hrestnd]. cbn [fst snd] in *.
  change (tree_files prefix (Dir ((name, t) :: children))) with
    (tree_files (prefix +:+ "/" +:+ name) t ++ tree_files prefix (Dir children)).
  rewrite Forall_forall in Hnames, Hrest. split.
  - apply Forall_forall. intros e [He|He]%elem_of_app.
    + destruct (Hnames e He) as [Hs [path Hp]]. split; [done|]. exists name, path.
      rewrite fmap_cons, Hp, name_components_child, <- app_assoc by done. split; [by left|done].
    + destruct (Hrest e He) as [Hs (n & path & Hn & Hp)]. split; [done|].
      exists n, path. split; [by right|done].
  - rewrite fmap_app. apply NoDup_app. split; [done|]. split; [|done].
    intros cs (e & -> & He)%list_elem_of_fmap (e' & Heq & He')%list_elem_of_fmap.
    destruct (Hnames e He) as [_ [path Hp]], (Hrest e' He') as [_ (n & path' & Hn & Hp')].
    rewrite Hp, Hp', name_components_child, <- app_assoc in Heq by done.
    apply app_inv_head in Heq. by injection Heq as -> _.
Qed.

(** The files of a tree have safe names under the prefix, all different. *)
Lemma tree_files_names t prefix :
  tree_ok t → prefix ≠ EmptyString → safe_name prefix → named_under prefix (tree_files prefix t).
Proof.
  revert prefix. induction t as [bytes|children IH] using tree_induction; intros prefix Hok Hne Hsafe.
  { split; [|apply NoDup_singleton]. constructor; [|constructor]. split; [done|]. exists [].
    by rewrite app_nil_r. }
  destruct Hok as [Hnd Hall].
  destruct (children_named prefix children Hnd Hne Hsafe) as [Hnames Hndf].
  - clear Hnd. induction IH as [|[name t] children Ht IH IHc]; [constructor|].
    destruct Hall as (Hpiece & Htok & Hall). constructor; [|by apply IHc]. split; [done|].
    apply Ht; [done|by destruct prefix|by apply safe_name_child].
  - split; [|done]. eapply Forall_impl; [exact Hnames|]. intros e (Hs & n & path & _ & ->).
    split; [done|]. by eexists.
Qed.

(** ** The journey *)

Section journey.
Context `{Libp2p} `{Bincode} `{!BincodeLaws} `{Digest} `{Zstd} `{!ZstdLaws}.
Context `{ClipboardApi} `{!ClipboardScope} `{!ClipboardLaws} `{ImageCodec}
  `{FileSystem} `{!FileIdentity} `{!FileSystemLaws}.
Context (finish : list u8 → u64) (iter_order : list string → list string).
Context (iter_order_perm : ∀ l, iter_order l ≡ₚ l).
Implicit Types a : App.

(** A directory was copied: the change sends the content of its files, if it has any. *)
Lemma copied_directory_sent fuel a dir name children :
  clip_files (clip a) = Some [dir] → file_name dir = Some name →
  tree_at (fs a) dir (Dir children) → (depth (Dir children) ≤ fuel)%nat →
  poisoned a = false → ¬ unchanged finish a → channel a = Some [] →
  channel (on_clipboard_change finish fuel a) =
    Some (option_list (files_content (tree_files name (Dir children)))).
Proof.
  intros Hclip Hname Htree Hdepth Hp Hun Hch.
  unfold on_clipboard_change, get_clipboard_content. unfold unchanged in Hun. rewrite Hclip in *.
  unfold on_files. rewrite Hp, bool_decide_false by done. cbn [set_dedup fs foldl].
  unfold read_path. pose proof Htree as (-> & -> & _). rewrite Hname.
  change (default "unknown_dir"%string (Some name)) with name.
  rewrite (collect_tree fuel (fs a) dir name children []) by done. cbn [app].
  destruct (files_content _) as [content|]; [|done].
  unfold try_send. cbn [channel set_dedup]. rewrite Hch.
  by rewrite bool_decide_true by (unfold CHANNEL_CAPACITY; simpl; lia).
Qed.

Definition refs_of (files : list FileEntry) : list (string * list u8) :=
  (λ f, (fe_name f, fe_bytes f)) <$> files.
Definition saved_path (name : string) : string := path_join get_file_receive_dir name.

(** The receive directory has no links in it: its names denote files of their own. *)
Definition no_links (fs : F) : Prop :=
  ∀ n n', safe_name n → safe_name n' →
    file_at fs (saved_path n) = file_at fs (saved_path n') → name_components n = name_components n'.

(** Files with safe, different names are different files. *)
Lemma refs_distinct fs prefix files :
  no_links fs → named_under prefix files →
  NoDup ((λ f : string * list u8, file_at fs (saved_path f.1)) <$> refs_of files).
Proof.
  intros Hlinks [Hnames Hnd]. unfold refs_of. rewrite <- list_fmap_compose.
  induction files as [|e files IH]; [constructor|]. rewrite !fmap_cons in *.
  apply Forall_cons in Hnames as [[Hsafe _] Hnames]. apply NoDup_cons in Hnd as [Hnew Hnd].
  apply NoDup_cons. split; [|by apply IH]. intros (e' & Heq & He')%list_elem_of_fmap. apply Hnew.
  rewrite Forall_forall in Hnames. destruct (Hnames e' He') as [Hsafe' _].
  apply Hlinks in Heq; [|done..]. cbn [fst] in Heq. rewrite Heq.
  by apply (list_elem_of_fmap_2 (λ e, name_components (fe_name e))).
Qed.

(** The only top-level path of the files of one directory. *)
Lemma top_level_of_directory name files :
  piece_ok name → files ≠ [] → named_under name files →
  deduplicate_to_top_level_paths iter_order (saved_path <$> (fe_name <$> files)) = [saved_path name].
Proof using iter_order_perm.
  intros [Hm Hc] Hne [Hnames _].
  assert (name_components name = [Normal name]) as Hname
    by (rewrite name_components_piece by done; cbn; by rewrite Hc).
  destruct (top_level_paths iter_order (fe_name <$> files) iter_order_perm) as [Hnd Htop].
  { apply Forall_fmap. eapply Forall_impl; [exact Hnames|]. intros e [Hs [path Hp]]. cbn [compose].
    split; [done|]. by rewrite Hp, Hname. }
  fold saved_path in Hnd, Htop. set (result := deduplicate_to_top_level_paths _ _) in *.
  assert (∀ q, q ∈ result → q = saved_path name) as Hall.
  { intros q (n & t & rest & Hin & Hnc & ->)%Htop. apply list_elem_of_fmap in Hin as (e & -> & He).
    rewrite Forall_forall in Hnames. destruct (Hnames e He) as [_ [path Hp]].
    rewrite Hp, Hname in Hnc. by injection Hnc as -> _. }
  assert (saved_path name ∈ result) as Hin.
  { destruct files as [|e files]; [done|]. apply Forall_cons in Hnames as [[_ [path Hp]] _].
    apply Htop. exists (fe_name e), name, path. split; [by left|]. by rewrite Hp, Hname. }
  destruct result as [|q [|q' result]]; [by apply elem_of_nil in Hin| |].
  - by rewrite (Hall q) by by left.
  - exfalso. rewrite (Hall q), (Hall q') in Hnd by (by left || by right; left).
    apply NoDup_cons in Hnd as [Hnot _]. apply Hnot. by left.
Qed.

(** Files that were saved and whose paths become one path on the clipboard. *)
Lemma saved_and_pasted name files p a :
  named_under name files → no_links (fs a) →
  (save_received_files (fs a) (refs_of files)).2 = saved_path <$> (fe_name <$> files) →
  (clip_set_files [p] (clip a)).2 = true → path_kept p →
  let a' := set_file_clipboard finish [p] (set_fs a (save_received_files (fs a) (refs_of files)).1) in
  Forall (λ e, fs_read (fs a') (saved_path (fe_name e)) = Some (fe_bytes e)) files
  ∧ clip_files (clip a') = Some [p].
Proof using All.
  intros Hnamed Hlinks Hsaved Hset Hkept.
  destruct (save_received_files (fs a) (refs_of files)) as [fs' saved] eqn:Hsave.
  cbn [fst snd] in *. subst saved. unfold set_file_clipboard. rewrite bool_decide_false by done.
  destruct (with_lock_same (set_fs a fs') (λ _, mk_Dedup None None
    (Some (hash_file_paths finish [p])))) as (_ & -> & Hfs & _).
  cbn [clip set_fs]. destruct (clip_set_files _ (clip a)) as [c ok] eqn:Hc. cbn [snd] in Hset. subst ok.
  cbn zeta. cbn [set_clip fs clip]. rewrite Hfs. cbn [fs set_fs]. split.
  - apply Forall_forall. intros e He.
    apply (save_received_read (fs a) (refs_of files) fs' (saved_path <$> (fe_name <$> files))
      (fe_name e) (fe_bytes e)); [by eapply refs_distinct|done| |].
    + by apply (list_elem_of_fmap_2 (λ f, (fe_name f, fe_bytes f))).
    + by apply list_elem_of_fmap_2, list_elem_of_fmap_2.
  - apply (set_files_get [p] (clip a) c); [by repeat constructor|done].
Qed.

(** What can be pasted: the directory, but only the file of a directory with one. *)
Definition pasted_path (name : string) (files : list FileEntry) : string :=
  match files with [e] => saved_path (fe_name e) | _ => saved_path name end.

(** The content of the files of one directory is received: they can be read under the
    receive directory, and the path to paste is on the clipboard. *)
Lemma directory_received name files content a :
  piece_ok name → named_under name files → files_content files = Some content → no_links (fs a) →
  (save_received_files (fs a) (refs_of files)).2 = saved_path <$> (fe_name <$> files) →
  clip_new (clip a) = true → (clip_set_files [pasted_path name files] (clip a)).2 = true →
  path_kept (pasted_path name files) →
  let a' := set_clipboard_content finish iter_order content a in
  Forall (λ e, fs_read (fs a') (saved_path (fe_name e)) = Some (fe_bytes e)) files
  ∧ clip_files (clip a') = Some [pasted_path name files].
Proof using All.
  intros Hname Hnamed Hcontent Hlinks Hsaved Hnew Hset Hkept.
  pose proof (saved_and_pasted name files _ a Hnamed Hlinks Hsaved Hset Hkept) as Hdone.
  unfold set_clipboard_content. rewrite Hnew. cbn [negb].
  destruct files as [|e [|e' files]]; [done| |]; injection Hcontent as <-;
    [change [(fe_name e, fe_bytes e)] with (refs_of [e])|fold (refs_of (e :: e' :: files))];
    destruct (save_received_files (fs a) _) as [fs' saved]; cbn [fst snd] in *; subst saved.
  - exact Hdone.
  - rewrite (top_level_of_directory name) by done. exact Hdone.
Qed.

(** C2: a directory copied on one machine can be pasted on another. The change is sent as
    the content of the files of the directory, and is not sent when there are none; the
    loop of the sender publishes the messages of this content; if they reach an idle
    receiver (in any order between the first and the last, within the timeout), the last
    thing its loop hands to the clipboard is the content; and then, when it could be
    saved and written, every file of the directory can be read under the receive
    directory with its bytes, and the receiver's clipboard holds the directory, or the
    file itself when the directory has only one. *)
Theorem copied_directory_arrives fuel sender dir name children :
  let files := tree_files name (Dir children) in
  clip_files (clip sender) = Some [dir] → file_name dir = Some name →
  tree_at (fs sender) dir (Dir children) → (depth (Dir children) ≤ fuel)%nat →
  poisoned sender = false → ¬ unchanged finish sender →
  channel sender = Some [] → piece_ok name → tree_ok (Dir children) →
  channel (on_clipboard_change finish fuel sender) = Some (option_list (files_content files))
  ∧ ∀ content uuid msgs b bs zs topic boot now d view rest loop1 boot' arrivals loop2 receiver,
  files_content files = Some content →
  (* its loop *)
  (∀ raw, content_to_bytes content = Ok raw → transferable raw) →
  split_to_network_messages uuid content = Ok msgs →
  Forall2 (λ m b, message_to_bytes m = Ok b) msgs (b :: bs) →
  pending_chunks loop1 = [] → d ≤ HANDLER_TIMEOUT → timely rest → length rest = length bs →
  (* the way *)
  mapM (outbound_transform topic) (b :: bs) = Some zs →
  delivered uuid zs arrivals → Forall (λ i, arrival_duration i ≤ HANDLER_TIMEOUT) arrivals →
  (* the receiver *)
  pending_chunks loop2 = [] → sizes_ok (chunk_states loop2) → no_links (fs receiver) →
  (save_received_files (fs receiver) (refs_of files)).2 = saved_path <$> (fe_name <$> files) →
  clip_new (clip receiver) = true →
  (clip_set_files [pasted_path name files] (clip receiver)).2 = true →
  path_kept (pasted_path name files) →
  (∃ loop1', iterations boot ((now, d, view, LocalClipboard uuid content) :: rest) loop1 =
       Done (Some loop1', Publish <$> b :: bs))
  ∧ (∃ loop2' others, iterations boot' (omap as_input arrivals) loop2 =
       Done (Some loop2', ClipboardSend <$> others ++ [content]))
  ∧ let receiver' := set_clipboard_content finish iter_order content receiver in
    Forall (λ e, fs_read (fs receiver') (saved_path (fe_name e)) = Some (fe_bytes e)) files
    ∧ clip_files (clip receiver') = Some [pasted_path name files].
Proof using All.
  intros files Hclip Hname Htree Hdepth Hpois Hun Hch Hpiece Hok.
  split; [by apply (copied_directory_sent fuel sender dir)|].
  intros content uuid msgs b bs zs topic boot now d view rest loop1 boot' arrivals loop2 receiver
    Hcontent Htrans Hsplit Hm Hp Hd Ht Hrest Hz Hdel Hdur Hp' Hsz Hlinks Hsaved Hnew Hset Hkept.
  destruct (content_travels uuid content msgs b bs zs topic boot now d view rest loop1 boot'
    arrivals loop2) as [Hsent Harrives]; [done..|].
  split; [done|]. split; [done|]. pose proof Hpiece as [Hmem Hcomp].
  apply directory_received; try done.
  apply (tree_files_names (Dir children)); [done| |].
  - intros ->. by vm_compute in Hcomp.
  - split; [by apply is_absolute_piece|]. rewrite split_char_no_sep by done.
    intros Heq%list_elem_of_singleton. subst name. by vm_compute in Hcomp.
Qed.
End journey.

(** ** Witness *)

From S2P Require Import Codec.

Definition wit_children : list (string * Tree) :=
  [("a.txt"%string, Leaf [1]); ("sub"%string, Dir [("b"%string, Leaf [2; 3])])].
Definition wit_files : list FileEntry := [mk_FileEntry "d/a.txt" [1]; mk_FileEntry "d/sub/b" [2; 3]].
Definition wit_bytes : list u8 :=
  match message_to_bytes (Direct (Files wit_files)) with Ok b => b | Err _ => [] end.
Definition wit_receiver : App := mk_App new_dedup false
  (mk_toy_clip None None None : @Clip toy_clipboard) empty_fs (Some []).
Definition wit_arrival_files : arrival :=
  (at_once 5, 0, wit_view, mk_RawMessage None (37 :: wit_bytes) None "p2p_clipboard").

(** The toy file system has no links. *)
Lemma safe_resolve n : safe_name n → toy_resolve (saved_path n) = [RootDir; Normal "tmp"] ++ name_components n.
Proof.
  intros Hsafe. unfold toy_resolve, saved_path. rewrite components_join by apply Hsafe.
  pose proof (safe_components n Hsafe) as Hn. rewrite foldl_app.
  change (foldl toy_step [] [RootDir; Normal "tmp"]) with [RootDir; Normal "tmp"].
  generalize [RootDir; Normal "tmp"] as path.
  induction (name_components n) as [|c cs IH]; intros path; [by rewrite app_nil_r|].
  destruct (Hn c) as (piece & -> & _); [by left|]. cbn [foldl toy_step].
  rewrite IH by (intros c Hc; apply Hn; by right). by rewrite <- app_assoc.
Qed.
Lemma toy_no_links fs : no_links fs.
Proof.
  intros n n' Hn Hn' Heq. cbn [file_at toy_file_identity] in Heq.
  rewrite !safe_resolve in Heq by done. by apply app_inv_head in Heq.
Qed.

Lemma copied_directory_arrives_witness :
  channel (on_clipboard_change toy_finish 2 wit_app) = Some [Files wit_files]
  ∧ let receiver' := set_clipboard_content toy_finish (λ l, l) (Files wit_files) wit_receiver in
    Forall (λ e, fs_read (fs receiver') (saved_path (fe_name e)) = Some (fe_bytes e)) wit_files
    ∧ clip_files (clip receiver') = Some ["/tmp/d"%string].
Proof.
  edestruct (copied_directory_arrives toy_finish (λ l, l) (λ l, Permutation_refl l) 2 wit_app
    "/home/d" "d" wit_children) as [Hsent Harrives]; try reflexivity.
  - repeat split.
  - intros Hun. discriminate Hun.
  - split; reflexivity.
  - split; [apply (bool_decide_unpack (NoDup _)); by vm_compute|].
    repeat (split; [try done; try apply NoDup_singleton; try by split|]); done.
  - split; [exact Hsent|].
    edestruct (Harrives (Files wit_files) "id"%string [Direct (Files wit_files)] wit_bytes []
      [37 :: wit_bytes] "p2p_clipboard"%string None (at_once 0) 0 wit_view [] init_state None
      [wit_arrival_files] init_state wit_receiver) as (_ & _ & Hrecv); try reflexivity.
    + intros raw [= <-]. by vm_compute.
    + constructor; [by vm_compute|constructor].
    + done.
    + constructor.
    + apply (delivered_one "id" wit_arrival_files).
    + by constructor.
    + apply map_Forall_empty.
    + apply toy_no_links.
    + exact Hrecv.
Defined.

(** A directory with one file comes out as the file, outside its directory; one without
    files is not sent. *)
Example small_directories :
  let machine children files := mk_App new_dedup false
    (mk_toy_clip (Some ["/home/d"%string]) None None : @Clip toy_clipboard)
    (mk_toy_fs files [("/home/d"%string, children)]) (Some []) in
  channel (on_clipboard_change toy_finish 2 (machine [] ∅)) = Some []
  ∧ channel (on_clipboard_change toy_finish 2 (machine ["a"%string] {[ toy_resolve "/home/d/a" := [1] ]})) =
      Some [File "d/a" [1]]
  ∧ clip_files (clip (set_clipboard_content toy_finish (λ l, l) (File "d/a" [1]) wit_receiver)) =
      Some ["/tmp/d/a"%string].
Proof. split; [|split]; by vm_compute. Qed.
