(* ===== verification/Main.v ===== *)
(** * Start and supervision ([src/main.rs])

    The command line, the log, and the loop of [main] that starts the parts of the
    program again whenever the network has returned. *)

From S2P Require Import Prelude RustStr Libp2p Content Transfer NetAddr NetLoop MdnsConfig Startup Files.

Local Open Scope Z_scope.

(** ** The log *)

(** What the machine answers: the directory of the program, whether the probe file
    can be written to [/var/log], the home directory. *)
Record LogEnv := mk_LogEnv {
  exe_dir : option string;
  var_log_writable : bool;
  home_dir : option string;
}.

(** [windows] is [cfg!(target_os = "windows")]. *)
Definition get_log_file_path (windows : bool) (e : LogEnv) : string :=
  if windows then windows_join (default "."%string (exe_dir e)) "log"
  else
    let var_log := "/var/log"%string in
    if var_log_writable e then var_log
    else path_join (path_join (path_join (default "."%string (home_dir e)) ".local") "share")
           "p2p-clipboard".

Inductive LevelFilter := ErrorLevel | WarnLevel | InfoLevel | DebugLevel.
Inductive LogField := DateTime | TimeOnly | Level | Target | Line | ThreadName | Message.
Inductive Sink := Stdout | LogFile (path : string).

(** A [fern::Dispatch]. *)
Record Dispatch := mk_Dispatch {
  d_format : list LogField;
  d_level : LevelFilter;
  d_level_for : list (string * LevelFilter);
  d_chain : Sink;
}.

Definition console_levels : list (string * LevelFilter) :=
  [("libp2p_gossipsub", WarnLevel); ("libp2p_identify", WarnLevel); ("libp2p_kad", WarnLevel);
   ("libp2p_tcp", WarnLevel); ("yamux", WarnLevel); ("multistream_select", WarnLevel)]%string.
Definition file_levels : list (string * LevelFilter) :=
  [("libp2p_gossipsub", InfoLevel); ("libp2p_identify", InfoLevel); ("libp2p_kad", InfoLevel);
   ("libp2p_tcp", WarnLevel); ("yamux", WarnLevel); ("multistream_select", WarnLevel)]%string.

Definition fallback_dispatch : Dispatch :=
  mk_Dispatch [DateTime; Level; Target; Message] InfoLevel console_levels Stdout.
Definition stdout_dispatch : Dispatch :=
  mk_Dispatch [TimeOnly; Level; Message] InfoLevel console_levels Stdout.
Definition file_dispatch (path : string) : Dispatch :=
  mk_Dispatch [DateTime; Level; Target; Line; ThreadName; Message] DebugLevel file_levels (LogFile path).

Inductive InitError := IoError | SetLoggerError.

(** [create_dir_all], [OpenOptions::open] and [Dispatch::apply]; [date_str] is the date. *)
Definition init_logging (create_dir_all open : string → bool) (apply : bool) (date_str : string)
    (windows : bool) (e : LogEnv) : result InitError (list Dispatch) :=
  let log_dir := get_log_file_path windows e in
  let join := if windows then windows_join else path_join in
  if negb (create_dir_all log_dir) then
    if apply then Ok [fallback_dispatch] else Err SetLoggerError
  else
    let log_file_path := join log_dir ("p2p-clipboard-" +:+ date_str +:+ ".log") in
    if negb (open log_file_path) then Err IoError
    else if apply then Ok [stdout_dispatch; file_dispatch log_file_path] else Err SetLoggerError.

(** ** The command line *)

Record Args := mk_Args {
  connect : option (list string);
  key : option string;
  listen : option string;
  psk : option string;
  no_mdns : bool;
}.

(** ** The loop *)

(** How [start_network] ends: it returns, with an error or without, it ends the process
    with status 1, or it panics. *)
Inductive NetEnd := NetReturned | NetError | NetExited | NetPanicked.

(** The event loop runs on a task of its own: a panic of it is an error of
    [start_network]. *)
Definition net_end {A} (s : startup A) (run_panics : bool) : NetEnd :=
  match s with
  | Started _ => if run_panics then NetError else NetReturned
  | Fails => NetError
  | Exits => NetExited
  | Panics => NetPanicked
  end.

(** What one round of the loop meets: whether the monitor could be created, and how the
    network ended. *)
Record Round := mk_Round { monitor_created : bool; ended : NetEnd }.

(** What [main] does; [n] numbers the rounds, each with its own deduplication state,
    channels, proxy and monitor. *)
Inductive Action :=
| NewState (n : nat)
| SpawnProxy (n : nat)
| SpawnMonitor (n : nat) (created : bool)
| StartNetwork (n : nat) (args : Args)
| SignalMonitor (n : nat)
| StopProxy (n : nat).

Inductive Status := Running | Exited (code : Z) | MainPanicked.

Definition main_round (args : Args) (n : nat) (r : Round) : list Action * Status :=
  let actions := [NewState n; SpawnProxy n; SpawnMonitor n (monitor_created r); StartNetwork n args] in
  match ended r with
  | NetReturned =>
      (actions ++ (if monitor_created r then [SignalMonitor n] else []) ++ [StopProxy n], Running)
  | NetError | NetExited => (actions, Exited 1)
  | NetPanicked => (actions, MainPanicked)
  end.

Fixpoint main_loop (args : Args) (n : nat) (rounds : list Round) : list Action * Status :=
  match rounds with
  | [] => ([], Running)
  | r :: rounds' =>
      match main_round args n r with
      | (actions, Running) =>
          let '(actions', status) := main_loop args (S n) rounds' in (actions ++ actions', status)
      | (actions, status) => (actions, status)
      end
  end.

Definition main (logging : result InitError (list Dispatch)) (args : Args) (rounds : list Round) :
    list Action * Status :=
  match logging with
  | Err _ => ([], Exited 1)
  | Ok _ => main_loop args 0 rounds
  end.

(** ** What has been told to stop *)

(** The rounds whose proxy, and whose monitor, was started and has not been told to
    stop.  [main] waits for neither to end: a proxy that was told can still handle the
    content it is at, beside the proxy of the next round, and the sleeping callbacks
    of the retry thread ([RetryThread.v]) are told nothing; they find their channel
    closed when they wake. *)
Definition tasks : Type := gset nat * gset nat.
Definition track (t : tasks) (a : Action) : tasks :=
  match a with
  | SpawnProxy n => ({[n]} ∪ t.1, t.2)
  | SpawnMonitor n true => (t.1, {[n]} ∪ t.2)
  | SignalMonitor n => (t.1, t.2 ∖ {[n]})
  | StopProxy n => (t.1 ∖ {[n]}, t.2)
  | _ => t
  end.
Definition not_told_to_stop (actions : list Action) : tasks := foldl track (∅, ∅) actions.

Lemma round_tells_all args n r actions :
  main_round args n r = (actions, Running) → foldl track (∅, ∅) actions = (∅, ∅).
Proof.
  unfold main_round. destruct r as [[] []]; cbn [ended monitor_created]; intros [= <-];
    cbn [foldl app track fst snd]; f_equal; set_solver.
Qed.

(** In a round the network is started after its proxy and its monitor. *)
Lemma round_network args n r acts s :
  main_round args n r = (acts, s) →
  ∀ before i args' after, acts = before ++ StartNetwork i args' :: after →
    args' = args ∧ (foldl track (∅, ∅) before).1 = {[i]} ∧ (foldl track (∅, ∅) before).2 ⊆ {[i]}.
Proof.
  intros Hr before i args' after Heq.
  assert (∃ tail, acts = [NewState n; SpawnProxy n; SpawnMonitor n (monitor_created r);
      StartNetwork n args] ++ tail ∧ tail ⊆ [SignalMonitor n; StopProxy n]) as (tail & -> & Htail).
  { unfold main_round in Hr. destruct r as [[] []]; cbn in Hr; injection Hr as <- <-;
      (eexists; split; [reflexivity|]); set_solver. }
  assert (StartNetwork i args' ∉ tail) as Hno by (intros Hin%Htail; set_solver).
  do 3 (destruct before as [|? before]; cbn [app] in Heq; [discriminate Heq|];
        injection Heq as <- Heq).
  destruct before as [|? before]; cbn [app] in Heq; injection Heq as <- Heq.
  - subst. split; [done|]. destruct (monitor_created r); cbn; split; set_solver.
  - subst tail. destruct Hno. apply elem_of_app. right. by left.
Qed.

Lemma main_loop_tasks args n rounds acts status :
  main_loop args n rounds = (acts, status) →
  (status = Running → not_told_to_stop acts = (∅, ∅))
  ∧ ∀ before i args' after, acts = before ++ StartNetwork i args' :: after →
      args' = args ∧ (not_told_to_stop before).1 = {[i]} ∧ (not_told_to_stop before).2 ⊆ {[i]}.
Proof.
  revert n acts. unfold not_told_to_stop.
  induction rounds as [|r rounds IH]; intros n acts; cbn [main_loop].
  { intros [= <- <-]. split; [done|]. by intros [|]. }
  destruct (main_round args n r) as [a s] eqn:Hr.
  pose proof (round_network args n r a s Hr) as Hround.
  destruct s; [|intros [= <- <-]; by split..].
  destruct (main_loop args (S n) rounds) as [a' s'] eqn:Hrest. intros [= <- <-].
  destruct (IH _ _ Hrest) as [Hrun Hnet]. apply round_tells_all in Hr.
  split; [intros Hs; rewrite foldl_app, Hr; by apply Hrun|].
  intros before i args' after Heq.
  apply app_eq_inv in Heq as [(k & Ha & Hk)|(k & -> & Hk)].
  - destruct k as [|x k].
    + rewrite app_nil_r in Ha. subst before. rewrite Hr. by apply (Hnet [] i args' after).
    + cbn in Hk. injection Hk as <- Hk. by eapply Hround.
  - rewrite foldl_app, Hr. by eapply Hnet.
Qed.

(** The program ends exactly when the log cannot be set up, or the network fails to
    start or ends in an error, an exit or a panic; a network that returned is started
    again with the same arguments, and whenever it is started, the proxies and the
    monitors of all earlier rounds have been told to stop. *)
Theorem main_stops_earlier_rounds (logging : result InitError (list Dispatch)) args rounds acts status :
  main logging args rounds = (acts, status) →
  (status = Running ↔ (∃ ds, logging = Ok ds) ∧ Forall (λ r, ended r = NetReturned) rounds)
  ∧ (status = Running → not_told_to_stop acts = (∅, ∅))
  ∧ ∀ before i args' after, acts = before ++ StartNetwork i args' :: after →
      args' = args ∧ (not_told_to_stop before).1 = {[i]} ∧ (not_told_to_stop before).2 ⊆ {[i]}.
Proof.
  unfold main. destruct logging as [ds|e].
  2: { intros [= <- <-]. split; [split; [done|by intros [[] _]]|]. split; [done|]. by intros []. }
  intros Hmain. split; [|by eapply main_loop_tasks].
  assert (status = Running ↔ Forall (λ r, ended r = NetReturned) rounds) as ->.
  2: { split; [intros ?; split; [by eexists|done]|by intros [_ ?]]. }
  revert acts Hmain. generalize 0%nat. induction rounds as [|r rounds IH]; intros n acts; cbn [main_loop].
  { intros [= _ <-]. by split. }
  rewrite Forall_cons. unfold main_round. destruct r as [created []]; cbn [ended];
    try (intros [= _ <-]; split; [done|by intros [? _]]).
  destruct (main_loop args (S n) rounds) as [a' s'] eqn:Hrest. intros [= _ <-].
  apply IH in Hrest. naive_solver.
Qed.

Lemma main_stops_earlier_rounds_witness :
  let args := mk_Args None None None None false in
  let rounds := [mk_Round true (net_end (Started ()) false); mk_Round false NetReturned;
                 mk_Round true (net_end (Started ()) true)] in
  (main (Ok [stdout_dispatch]) args rounds).2 = Exited 1
  ∧ not_told_to_stop (main (Ok [stdout_dispatch]) args (take 2 rounds)).1 = (∅, ∅).
Proof.
  intros args rounds. split; [reflexivity|].
  destruct (main_stops_earlier_rounds (Ok [stdout_dispatch]) args (take 2 rounds)
    (main (Ok [stdout_dispatch]) args (take 2 rounds)).1 Running eq_refl) as (_ & Hleft & _).
  by apply Hleft.
Defined.
