(* ===== verification/Convergence.v ===== *)
(** * Coming to rest ([src/main.rs] and [src/network.rs] together)

    What one copy leads to in a group of machines: every other clipboard holds the
    content and the group comes to rest; except for images, which may be passed on for
    ever. *)

From S2P Require Import Prelude RustStr Content Transfer Libp2p NetAddr NetLoop Sync Files Dedup.

Local Open Scope Z_scope.

Section convergence.
Context `{Libp2p} `{Bincode} `{!BincodeLaws} `{Digest} `{Zstd} `{!ZstdLaws}.
Context `{ClipboardApi} `{!ClipboardScope} `{!ClipboardLaws} `{ImageCodec} `{FileSystem}.
Context (finish : list u8 → u64) (fuel : nat) (iter_order : list string → list string).

(** ** One receiver *)

(** The content can be put on the clipboard, which gives it back as it was written. *)
Definition can_take (content : ClipboardContent) (a : App) : Prop :=
  clip_new (clip a) = true ∧
  match content with
  | Text t => text_kept t ∧ (clip_set_text t (clip a)).2 = true
  | Image _ => False
  | _ => received_paths iter_order a content ≠ []
         ∧ files_writable (received_paths iter_order a content) (clip a)
  end.

(** The text is on the clipboard, or the paths of the files saved from [a] are, as files
    or as a text. *)
Definition holds (content : ClipboardContent) (a a' : App) : Prop :=
  let ps := received_paths iter_order a content in
  match content with
  | Text t => clip_files (clip a') = None ∧ clip_image (clip a') = None ∧ clip_text (clip a') = Some t
  | _ => clip_files (clip a') = Some ps
         ∨ (clip_files (clip a') = None ∧ clip_text (clip a') = Some (join NL (to_string_lossy <$> ps)))
  end.

Lemma set_file_clipboard_holds ps a :
  ps ≠ [] → clip_new (clip a) = true → files_writable ps (clip a) →
  let a' := set_file_clipboard finish ps a in
  clip_files (clip a') = Some ps
  ∨ (clip_files (clip a') = None ∧ clip_text (clip a') = Some (join NL (to_string_lossy <$> ps))).
Proof.
  intros Hps Hnew Hset. unfold set_file_clipboard. rewrite bool_decide_false by done.
  set (f := λ _ : DeduplicationState, _). destruct (with_lock_same a f) as (_ & -> & _).
  unfold files_writable in Hset. destruct (clip_set_files ps (clip a)) as [c ok] eqn:Hf.
  cbn [fst snd] in Hset. destruct ok.
  - destruct Hset as [[_ Hkept]|[? _]]; [|done]. left. by eapply set_files_get.
  - destruct Hset as [[? _]|(_ & Hkept & Hset)]; [done|]. right.
    set (g := λ d : DeduplicationState, _). cbn zeta.
    destruct (with_lock_same (set_clip (with_lock a f) c) g) as (_ & -> & _).
    cbn [clip set_clip]. rewrite (set_files_none _ _ _ Hf), Hnew. cbn [negb].
    destruct (clip_set_text _ c) as [c' ok] eqn:Ht. cbn in Hset. subst ok.
    by destruct (set_text_get _ _ _ Hkept Ht) as (? & _ & ?).
Qed.

Lemma set_content_holds content a :
  can_take content a → holds content a (set_clipboard_content finish iter_order content a).
Proof.
  intros [Hnew Hset]. unfold holds, set_clipboard_content. rewrite Hnew. cbn [negb].
  destruct content as [t|png|name bytes|files]; [|done| |].
  - set (f := λ _ : DeduplicationState, _). destruct (with_lock_same a f) as (_ & -> & _).
    destruct Hset as [Hkept Hset]. destruct (clip_set_text t (clip a)) as [c ok] eqn:Ht.
    cbn in Hset. subst ok. by eapply set_text_get.
  - unfold received_paths in *. destruct Hset as [Hne Hset].
    destruct (save_received_files (fs a) [(name, bytes)]) as [fs' saved].
    exact (set_file_clipboard_holds saved (set_fs a fs') Hne Hnew Hset).
  - unfold received_paths in *. destruct Hset as [Hne Hset].
    destruct (save_received_files (fs a) _) as [fs' saved].
    exact (set_file_clipboard_holds _ (set_fs a fs') Hne Hnew Hset).
Qed.

(** Receiving never sends. *)
Lemma set_file_clipboard_channel ps a : channel (set_file_clipboard finish ps a) = channel a.
Proof.
  unfold set_file_clipboard. case_bool_decide; [done|].
  set (f := λ _ : DeduplicationState, _). destruct (with_lock_same a f) as (_ & _ & _ & Hch & _).
  destruct (clip_set_files _ _) as [c []]; cbn zeta; [done|].
  set (g := λ d : DeduplicationState, _).
  destruct (with_lock_same (set_clip (with_lock a f) c) g) as (_ & _ & _ & Hch' & _).
  destruct (negb _); [by rewrite Hch'|]. destruct (clip_set_text _ _) as [c' ok]. cbn. by rewrite Hch'.
Qed.

Lemma set_content_channel content a :
  channel (set_clipboard_content finish iter_order content a) = channel a.
Proof.
  unfold set_clipboard_content. destruct (negb _); [done|]. destruct content as [t|png|name bytes|files].
  - set (f := λ _ : DeduplicationState, _). destruct (with_lock_same a f) as (_ & _ & _ & Hch & _).
    by destruct (clip_set_text _ _).
  - set (f := λ _ : DeduplicationState, _). destruct (with_lock_same a f) as (_ & _ & _ & Hch & _).
    destruct (decode_png_to_rgba png); [|done]. by destruct (clip_set_image _ _).
  - destruct (save_received_files _ _) as [fs' saved]. by rewrite set_file_clipboard_channel.
  - destruct (save_received_files _ _) as [fs' saved]. by rewrite set_file_clipboard_channel.
Qed.

Lemma channel_proxy_channel l a : channel (channel_proxy finish iter_order l a) = channel a.
Proof.
  unfold channel_proxy. revert a. induction l as [|c l IH]; intros a; [done|]. cbn [foldl].
  by rewrite IH, set_content_channel.
Qed.

(** ** The group *)

(** Another machine: its clipboard side, its loop, and what arrives there. *)
Record Receiver := mk_Receiver {
  r_app : App;
  r_loop : RunState;
  r_boot : option PeerEndpointCache;
  r_arrivals : list arrival;
}.

(** An idle machine that the messages [zs] of the transfer reach, and that can take the
    content whatever it has taken before. *)
Definition reached (uuid : string) (zs : list (list u8)) (content : ClipboardContent)
    (r : Receiver) : Prop :=
  delivered uuid zs (r_arrivals r)
  ∧ Forall (λ a, arrival_duration a ≤ HANDLER_TIMEOUT) (r_arrivals r)
  ∧ pending_chunks (r_loop r) = [] ∧ sizes_ok (chunk_states (r_loop r))
  ∧ ∀ others, can_take content (channel_proxy finish iter_order others (r_app r)).

(** The loop hands the content over last; it is put on the clipboard, and looking at the
    clipboard afterwards sends nothing. *)
Definition at_rest_with (content : ClipboardContent) (r : Receiver) : Prop :=
  ∃ loop' others,
    iterations (r_boot r) (omap as_input (r_arrivals r)) (r_loop r) =
      Done (Some loop', ClipboardSend <$> others ++ [content])
    ∧ let before := channel_proxy finish iter_order others (r_app r) in
      let after := channel_proxy finish iter_order (others ++ [content]) (r_app r) in
      holds content before after
      ∧ on_clipboard_change finish fuel after = after ∧ channel after = channel (r_app r).

(** C3: one copy brings every machine of the group to the same content, and then to rest.
    A text, a file or files copied on one machine are sent once; the loop publishes the
    messages; on every machine they reach (the first before and the last after the
    others, these in any order, repeated, and among other transfers), the content is what
    the clipboard ends up with, and neither that machine nor the sender has anything more
    to send. *)
Theorem content_reaches_everyone content sender uuid msgs b bs zs topic boot now d view rest loop
    (receivers : list Receiver) :
  (* the sender *)
  clipboard_value fuel sender = Some content → ¬ unchanged finish sender →
  clip_new (clip sender) = true → poisoned sender = false → channel sender = Some [] →
  (* its loop *)
  (∀ raw, content_to_bytes content = Ok raw → transferable raw) →
  split_to_network_messages uuid content = Ok msgs →
  Forall2 (λ m b, message_to_bytes m = Ok b) msgs (b :: bs) →
  pending_chunks loop = [] → d ≤ HANDLER_TIMEOUT → timely rest → length rest = length bs →
  (* the way and the receivers *)
  mapM (outbound_transform topic) (b :: bs) = Some zs →
  Forall (reached uuid zs content) receivers →
  channel (on_clipboard_change finish fuel sender) = Some [content]
  ∧ (∃ loop', iterations boot ((now, d, view, LocalClipboard uuid content) :: rest) loop =
       Done (Some loop', Publish <$> b :: bs))
  ∧ Forall (at_rest_with content) receivers
  ∧ let sent := set_channel (on_clipboard_change finish fuel sender) (Some []) in
    on_clipboard_change finish fuel sent = sent.
Proof.
  intros Hval Hun Hnew Hp Hch Htrans Hsplit Hm Hpend Hd Ht Hlen Hz Hall.
  destruct (change_sent finish fuel sender [] Hp Hnew Hch Hun) as [Hsent Hafter].
  rewrite Hval in Hsent. split; [exact Hsent|]. split; [|split].
  - destruct (publish_content boot now d view uuid content msgs b bs rest loop) as (s & Hrun & _);
      [done..|by exists s].
  - eapply Forall_impl; [exact Hall|]. intros r (Hdel & Hdur & Hp' & Hsz & Htake).
    destruct (content_received uuid content msgs b bs zs topic (r_boot r) (r_arrivals r) (r_loop r))
      as (loop' & others & Hrun); [done..|].
    exists loop', others. split; [exact Hrun|].
    unfold channel_proxy. rewrite foldl_app. cbn [foldl].
    fold (channel_proxy finish iter_order others (r_app r)). set (before := channel_proxy _ _ _ _).
    specialize (Htake others). fold before in Htake. split; [by apply set_content_holds|].
    destruct Htake as [Hnew' Hset].
    destruct (received_quiet finish fuel iter_order before content Hnew' Hset) as [Hq Hch'].
    split; [exact Hq|]. rewrite Hch'. apply channel_proxy_channel.
  - apply unchanged_quiet. apply Hafter. by eexists.
Qed.

(** ** Images *)

(** A machine receives a content and looks at its clipboard; what it then sends. *)
Definition bounce (content : ClipboardContent) (a : App) : option (ClipboardContent * App) :=
  let a := on_clipboard_change finish fuel (set_clipboard_content finish iter_order content a) in
  match channel a with
  | Some (content' :: q) => Some (content', set_channel a (Some q))
  | _ => None
  end.

(** Two machines in turn; the content on its way after [n] turns, [None] when they have
    come to rest. *)
Fixpoint bounces (n : nat) (content : ClipboardContent) (a b : App) : option ClipboardContent :=
  match n with
  | O => Some content
  | S n' => '(content', a') ← bounce content a; bounces n' content' b a'
  end.

Definition idle (a : App) : Prop :=
  clip_new (clip a) = true ∧ poisoned a = false ∧ channel a = Some [].

Lemma bounce_image a png w h rgba png' :
  idle a → decode_png_to_rgba png = Some (w, h, rgba) →
  encode_rgba_to_png rgba (as_u32 w) (as_u32 h) = Some png' →
  hash_bytes finish png ≠ hash_bytes finish rgba →
  (clip_set_image (w, h, rgba) (clip a)).2 = true →
  ∃ a', bounce (Image png) a = Some (Image png', a') ∧ idle a'.
Proof.
  intros (Hnew & Hp & Hch) Hdec Henc Hne Hset.
  pose proof (image_echoed finish fuel iter_order a png w h rgba png' [] Hnew Hp Hch
    ltac:(apply Nat.lt_0_succ) Hdec Hset Henc) as Hsent.
  rewrite decide_False in Hsent by done. cbn [app] in Hsent.
  unfold bounce, on_clipboard_change. rewrite Hsent. eexists. split; [reflexivity|].
  unfold idle. cbn [clip poisoned channel set_channel].
  unfold set_clipboard_content, with_lock. rewrite Hnew, Hp, Hdec. cbn [negb clip set_dedup].
  destruct (clip_set_image _ (clip a)) as [c ok] eqn:Hi. cbn in Hset. subst ok.
  destruct (set_image_get _ _ _ Hi) as (Hg1 & Hg2 & Hg3).
  unfold get_clipboard_content. cbn [clip set_clip]. rewrite Hg1, Hg2, Hg3, Hnew. cbn [negb].
  edestruct (on_image_after finish) as (-> & -> & _). cbn. by rewrite Hg3.
Qed.

(** C20: the clipboard never comes to rest with an image.  On clipboards that accept the
    image, with a lossless codec and a hash that tells the PNG files from the pixels,
    whoever receives a copied image sends it on at the next look at its clipboard: two
    machines that each receive what the other sent send it to and fro at every turn.
    Whether the turns go on is up to the messages.  An image above the size of a chunk is
    sent in messages that are all different from those of any other sending, so that
    nothing of gossipsub's suppression of repeated messages ends it.  A smaller one is one
    message, the same every time, which gossipsub takes for the same. *)
Theorem image_never_rests a b png w h rgba png' raw :
  idle a → idle b →
  decode_png_to_rgba png = Some (w, h, rgba) → hash_bytes finish png ≠ hash_bytes finish rgba →
  encode_rgba_to_png rgba (as_u32 w) (as_u32 h) = Some png' →
  decode_png_to_rgba png' = Some (w, h, rgba) → hash_bytes finish png' ≠ hash_bytes finish rgba →
  (∀ c, clip_new c = true → (clip_set_image (w, h, rgba) c).2 = true) →
  content_to_bytes (Image png') = Ok raw → transferable raw →
  (∀ n, bounces (S n) (Image png) a b = Some (Image png'))
  ∧ (CHUNK_DATA_SIZE < Z.of_nat (length raw) →
     ∀ uuid1 uuid2 msgs1 msgs2 m1 m2 b1 b2, uuid1 ≠ uuid2 →
      split_to_network_messages uuid1 (Image png') = Ok msgs1 →
      split_to_network_messages uuid2 (Image png') = Ok msgs2 →
      m1 ∈ msgs1 → m2 ∈ msgs2 → message_to_bytes m1 = Ok b1 → message_to_bytes m2 = Ok b2 → b1 ≠ b2)
  ∧ (Z.of_nat (length raw) ≤ CHUNK_DATA_SIZE →
     ∀ uuid, split_to_network_messages uuid (Image png') = Ok [Direct (Image png')]).
Proof.
  intros Ha Hb Hdec Hne Henc Hdec' Hne' Hset Hraw Htrans. split; [|split].
  - intros n. cbn [bounces].
    destruct (bounce_image a png w h rgba png' Ha Hdec Henc Hne) as (a' & -> & Ha');
      [by apply Hset, Ha|]. cbn [mbind option_bind]. clear Ha a.
    revert a' b Ha' Hb. induction n as [|n IH]; intros a b Ha Hb; [done|]. cbn [bounces].
    destruct (bounce_image b png' w h rgba png' Hb Hdec' Henc Hne') as (b' & -> & Hb');
      [by apply Hset, Hb|]. cbn [mbind option_bind]. by apply IH.
  - intros Hlarge uuid1 uuid2 msgs1 msgs2 m1 m2 b1 b2 Huuid Hs1 Hs2 Hm1 Hm2 Hb1 Hb2 <-.
    assert (∀ uuid msgs m, split_to_network_messages uuid (Image png') = Ok msgs → m ∈ msgs →
      message_tid m = Some uuid) as Htid.
    { intros uuid msgs m Hs Hm. destruct (split_large uuid (Image png') raw Hraw Hlarge Htrans) as [Heq _].
      rewrite Heq in Hs. injection Hs as <-. apply elem_of_cons in Hm as [->|Hm]; [done|].
      apply elem_of_app in Hm as [Hm| ->%list_elem_of_singleton]; [|done].
      by apply elem_of_lookup_imap in Hm as (k & c & -> & _). }
    apply deserialize_serialize_message in Hb1, Hb2. rewrite Hb1 in Hb2. injection Hb2 as ->.
    apply Huuid. pose proof (Htid _ _ _ Hs1 Hm1) as Ht1. rewrite (Htid _ _ _ Hs2 Hm2) in Ht1. congruence.
  - intros Hsmall uuid. by eapply split_small.
Qed.
End convergence.

(** ** Witnesses *)

From S2P Require Import Codec.

Definition text_app (t : option string) : App :=
  mk_App new_dedup false (mk_toy_clip None None t : @Clip toy_clipboard) empty_fs (Some []).

Lemma content_reaches_everyone_witness :
  channel (on_clipboard_change toy_finish 0 (text_app (Some "hi"%string))) = Some [Text "hi"]
  ∧ at_rest_with toy_finish 0 (λ l, l) (Text "hi")
      (mk_Receiver (text_app None) init_state None [wit_arrival]).
Proof.
  destruct (content_reaches_everyone toy_finish 0 (λ l, l) (Text "hi") (text_app (Some "hi"%string))
    "id" [Direct (Text "hi")] hi_bytes [] [37 :: hi_bytes] "p2p_clipboard" None (at_once 0) 0 wit_view []
    init_state [mk_Receiver (text_app None) init_state None [wit_arrival]])
    as (Hsent & _ & Hall & _); try done.
  - intros raw [= <-]. by vm_compute.
  - constructor; [by vm_compute|constructor].
  - constructor.
  - constructor; [|constructor]. split; [apply (delivered_one "id" wit_arrival)|].
    split; [by constructor|]. split; [reflexivity|]. split; [apply map_Forall_empty|done].
  - split; [exact Hsent|]. by apply Forall_cons in Hall as [Hall _].
Defined.

(** A two-megabyte image, and a hash that is the length. *)
Lemma image_never_rests_witness :
  ∃ png, ∀ n, bounces (λ l, Z.of_nat (length l)) 0 (λ l, l) (S n) (Image png) (text_app None)
    (text_app None) = Some (Image png).
Proof.
  assert (∃ p : list u8, Z.of_nat (length p) = 2000000) as [p Hp].
  { exists (replicate (Z.to_nat 2000000) 0). rewrite length_replicate. by apply Z2Nat.id. }
  exists (1 :: 1 :: p).
  assert (hash_bytes (λ l, Z.of_nat (length l)) (1 :: 1 :: p) ≠
    hash_bytes (λ l, Z.of_nat (length l)) p) as Hne.
  { unfold hash_bytes. rewrite !length_app, !le_bytes_length. cbn [length]. lia. }
  assert (Z.of_nat (length (1 :: 1 :: p)) = 2000002) as Hlen by (cbn [length]; lia).
  apply (image_never_rests (λ l, Z.of_nat (length l)) 0 (λ l, l) (text_app None) (text_app None)
    (1 :: 1 :: p) 1 1 p (1 :: 1 :: p) (1 :: le_bytes 8 (Z.of_nat (length (1 :: 1 :: p))) ++ 1 :: 1 :: p));
    try done.
  - apply codec_image_raw. by rewrite Hlen.
  - unfold transferable.
    rewrite length_cons, length_app, le_bytes_length, Nat2Z.inj_succ, Nat2Z.inj_add, Hlen. done.
Defined.
