(* ===== verification/Threads.v ===== *)
(** * The two users of the deduplication state ([src/main.rs])

    The clipboard monitor runs [get_clipboard_content] on a thread of its own,
    [channel_proxy] runs [set_clipboard_content] on another; they share the
    deduplication state, under a lock, and the clipboard, without one.  Here both
    functions are cut at their accesses to what is shared, and run in any order,
    together with the user, the file system and the network. *)

From S2P Require Import Prelude RustStr Content Files Dedup.

Local Open Scope Z_scope.

(** What the monitor read from the clipboard. *)
Inductive Observation := ObsFiles (ps : list string) | ObsImage (i : ImageData) | ObsText (t : string).

(** Where the monitor is in [get_clipboard_content]: before it, after finding no
    files, after finding no image, before the lock, after it. *)
Inductive MonitorPc :=
| MIdle
| MNoFiles
| MNoImage
| MObserved (o : Observation)
| MRecorded (o : Observation).

(** Where the proxy is in [set_clipboard_content]: outside, before writing a text
    or an image, before and after locking in [set_file_clipboard], and before and
    after the lock of its fallback. *)
Inductive ProxyPc :=
| PIdle
| PWriteText (t : string)
| PWriteImage (i : ImageData)
| PSaved (ps : list string)
| PWriteFiles (ps : list string)
| PFallback (ps : list string)
| PFallbackText (t : string).

Section threads.
Context `{ClipboardApi} `{ImageCodec} `{FileSystem}.
Context (finish : list u8 → u64) (fuel : nat) (iter_order : list string → list string).

(** ** The monitor *)

(** The locked section. *)
Definition matches (d : DeduplicationState) (o : Observation) : bool :=
  match o with
  | ObsFiles ps => bool_decide (last_files_hash d = Some (hash_file_paths finish ps))
  | ObsImage i => bool_decide (last_image_hash d = Some (hash_bytes finish i.2))
  | ObsText t => bool_decide (last_text d = Some t)
  end.
Definition recorded (o : Observation) : DeduplicationState :=
  match o with
  | ObsFiles ps => mk_Dedup None None (Some (hash_file_paths finish ps))
  | ObsImage i => mk_Dedup None (Some (hash_bytes finish i.2)) None
  | ObsText t => mk_Dedup (Some t) None None
  end.

(** What is sent for an observation; files are read at this point. *)
Definition content_of (a : App) (o : Observation) : option ClipboardContent :=
  match o with
  | ObsFiles ps => files_content (foldl (read_path fuel (fs a)) [] ps)
  | ObsImage (w, h, rgba) => Image <$> encode_rgba_to_png rgba (as_u32 w) (as_u32 h)
  | ObsText t => Some (Text t)
  end.

Definition monitor_step (a : App) (pc : MonitorPc) : App * MonitorPc :=
  match pc with
  | MIdle =>
      (a, match clip_files (clip a) with Some ps => MObserved (ObsFiles ps) | None => MNoFiles end)
  | MNoFiles =>
      (a, if negb (clip_new (clip a)) then MIdle
          else match clip_image (clip a) with Some i => MObserved (ObsImage i) | None => MNoImage end)
  | MNoImage =>
      (a, match clip_text (clip a) with Some t => MObserved (ObsText t) | None => MIdle end)
  | MObserved o =>
      if poisoned a then (a, MIdle)
      else if matches (dedup a) o then (a, MIdle)
      else (set_dedup a (recorded o), MRecorded o)
  | MRecorded o =>
      (match content_of a o with Some content => try_send content a | None => a end, MIdle)
  end.

(** ** The proxy *)

Definition proxy_receive (a : App) (content : ClipboardContent) : App * ProxyPc :=
  if negb (clip_new (clip a)) then (a, PIdle)
  else
    match content with
    | Text t => (with_lock a (λ _, mk_Dedup (Some t) None None), PWriteText t)
    | Image png =>
        (with_lock a (λ _, mk_Dedup None (Some (hash_bytes finish png)) None),
         match decode_png_to_rgba png with Some i => PWriteImage i | None => PIdle end)
    | File name bytes =>
        let '(fs, saved_paths) := save_received_files (fs a) [(name, bytes)] in
        (set_fs a fs, PSaved saved_paths)
    | Files files =>
        let '(fs, saved_paths) :=
          save_received_files (fs a) ((λ f, (fe_name f, fe_bytes f)) <$> files) in
        (set_fs a fs, PSaved (deduplicate_to_top_level_paths iter_order saved_paths))
    end.

Definition proxy_step (a : App) (pc : ProxyPc) : App * ProxyPc :=
  match pc with
  | PIdle => (a, PIdle)
  | PWriteText t => (set_clip a (clip_set_text t (clip a)).1, PIdle)
  | PWriteImage i => (set_clip a (clip_set_image i (clip a)).1, PIdle)
  | PSaved ps =>
      if bool_decide (ps = []) then (a, PIdle)
      else (with_lock a (λ _, mk_Dedup None None (Some (hash_file_paths finish ps))), PWriteFiles ps)
  | PWriteFiles ps =>
      let '(c, ok) := clip_set_files ps (clip a) in
      (set_clip a c, if (ok : bool) then PIdle else PFallback ps)
  | PFallback ps =>
      let path_text := join NL (to_string_lossy <$> ps) in
      (with_lock a (λ d, mk_Dedup (Some path_text) (last_image_hash d) (last_files_hash d)),
       PFallbackText path_text)
  | PFallbackText t =>
      (if negb (clip_new (clip a)) then a else set_clip a (clip_set_text t (clip a)).1, PIdle)
  end.

(** ** Without interruption *)

(** [n] steps of the monitor, up to the end of the function. *)
Fixpoint monitor_run (n : nat) (a : App) (pc : MonitorPc) : App * MonitorPc :=
  match n with
  | O => (a, pc)
  | S n' =>
      match monitor_step a pc with
      | (a, MIdle) => (a, MIdle)
      | (a, pc) => monitor_run n' a pc
      end
  end.
Fixpoint proxy_run (n : nat) (a : App) (pc : ProxyPc) : App * ProxyPc :=
  match n with
  | O => (a, pc)
  | S n' => let '(a, pc) := proxy_step a pc in proxy_run n' a pc
  end.

(** The locked section and the sending, against the handlers of one kind. *)
Definition on_observation (a : App) (o : Observation) : App :=
  match o with
  | ObsFiles ps => on_files finish fuel a ps
  | ObsImage i => on_image finish a i
  | ObsText t => on_text a t
  end.

Lemma monitor_observed n a o : monitor_run (S (S n)) a (MObserved o) = (on_observation a o, MIdle).
Proof.
  cbn [monitor_run monitor_step].
  destruct o as [ps|[[w h] rgba]|t]; cbn [on_observation matches recorded content_of snd].
  - unfold on_files. destruct (poisoned a); [done|]. by case_bool_decide.
  - unfold on_image. destruct (poisoned a); [done|]. case_bool_decide; [done|].
    cbn [monitor_step content_of]. by destruct (encode_rgba_to_png _ _ _).
  - unfold on_text. destruct (poisoned a); [done|]. by case_bool_decide.
Qed.

Lemma proxy_files n a ps :
  proxy_run (S (S (S (S n)))) a (PSaved ps) = (set_file_clipboard finish ps a, PIdle).
Proof.
  assert (∀ k a, proxy_run k a PIdle = (a, PIdle)) as Hidle by (intros k; by induction k).
  unfold set_file_clipboard. cbn [proxy_run proxy_step]. case_bool_decide; [apply Hidle|].
  cbn [proxy_run proxy_step]. destruct (clip_set_files _ _) as [c []]; cbn [proxy_run proxy_step];
    [apply Hidle|].
  set (b := with_lock (set_clip _ c) _). destruct (clip_new (clip b)); cbn [negb]; [|by rewrite Hidle].
  destruct (clip_set_text _ (clip b)). apply Hidle.
Qed.

(** Run without interruption, the steps of the monitor are
    [get_clipboard_content] and those of the proxy [set_clipboard_content]. *)
Theorem steps_compose a content :
  monitor_run 5 a MIdle = (get_clipboard_content finish fuel a, MIdle)
  ∧ (let '(b, pc) := proxy_receive a content in proxy_run 4 b pc) =
      (set_clipboard_content finish iter_order content a, PIdle).
Proof.
  split.
  - cbn [monitor_run monitor_step]. unfold get_clipboard_content.
    destruct (clip_files (clip a)) as [ps|]; [by apply (monitor_observed 2 a (ObsFiles ps))|].
    cbn [monitor_step]. destruct (clip_new (clip a)); cbn [negb]; [|done].
    destruct (clip_image (clip a)) as [i|]; [by apply (monitor_observed 1 a (ObsImage i))|].
    cbn [monitor_step]. destruct (clip_text (clip a)) as [t|]; [|done].
    apply (monitor_observed 0 a (ObsText t)).
  - unfold proxy_receive, set_clipboard_content. destruct (clip_new (clip a)); [|done]. cbn [negb].
    destruct content as [t|png|name bytes|files].
    + set (b := with_lock a _). cbn [proxy_run proxy_step]. by destruct (clip_set_text t (clip b)).
    + set (b := with_lock a _). destruct (decode_png_to_rgba png) as [i|]; [|done].
      cbn [proxy_run proxy_step]. by destruct (clip_set_image i (clip b)).
    + destruct (save_received_files _ _) as [f saved]. exact (proxy_files 0 (set_fs a f) _).
    + destruct (save_received_files _ _) as [f saved]. exact (proxy_files 0 (set_fs a f) _).
Qed.

(** ** Interleavings *)

Record Sys := mk_Sys { app : App; monitor : MonitorPc; proxy : ProxyPc }.

(** A step of the monitor or the proxy; a message for an idle proxy; a change of
    the clipboard by another program, or of the files; the network taking a
    content or closing the channel. *)
Inductive sys_step : Sys → Sys → Prop :=
| step_monitor s a pc :
    monitor_step (app s) (monitor s) = (a, pc) → sys_step s (mk_Sys a pc (proxy s))
| step_receive s content a pc :
    proxy s = PIdle → proxy_receive (app s) content = (a, pc) → sys_step s (mk_Sys a (monitor s) pc)
| step_proxy s a pc :
    proxy_step (app s) (proxy s) = (a, pc) → sys_step s (mk_Sys a (monitor s) pc)
| step_copy s c : sys_step s (mk_Sys (set_clip (app s) c) (monitor s) (proxy s))
| step_files s f : sys_step s (mk_Sys (set_fs (app s) f) (monitor s) (proxy s))
| step_take s content q :
    channel (app s) = Some (content :: q) →
    sys_step s (mk_Sys (set_channel (app s) (Some q)) (monitor s) (proxy s))
| step_close s : sys_step s (mk_Sys (set_channel (app s) None) (monitor s) (proxy s)).

(** An execution from [s], with the states it went through, last first. *)
Inductive execution (s : Sys) : list Sys → Prop :=
| execution_start : execution s [s]
| execution_step s1 s2 h : execution s (s1 :: h) → sys_step s1 s2 → execution s (s2 :: s1 :: h).

(** The clipboard held the observation in one of the states. *)
Definition on_clipboard (h : list Sys) (o : Observation) : Prop :=
  ∃ s, s ∈ h ∧
    match o with
    | ObsFiles ps => clip_files (clip (app s)) = Some ps
    | ObsImage i => clip_image (clip (app s)) = Some i
    | ObsText t => clip_text (clip (app s)) = Some t
    end.
(** A content was made of what the clipboard held, with the files of some state. *)
Definition shown (h : list Sys) (content : ClipboardContent) : Prop :=
  ∃ o s, on_clipboard h o ∧ s ∈ h ∧ content_of (app s) o = Some content.

Definition sys_ok (h : list Sys) (s : Sys) : Prop :=
  match monitor s with MObserved o | MRecorded o => on_clipboard h o | _ => True end
  ∧ ∀ q, channel (app s) = Some q → Forall (shown h) q.

Lemma on_clipboard_cons s h o : on_clipboard h o → on_clipboard (s :: h) o.
Proof. intros (s' & Hs & Ho). exists s'. split; [by right|done]. Qed.
Lemma shown_cons s h content : shown h content → shown (s :: h) content.
Proof. intros (o & s' & Ho & Hs & Hc). exists o, s'. split; [by apply on_clipboard_cons|]. split; [by right|done]. Qed.

Lemma sys_ok_cons s' h s : sys_ok h s → sys_ok (s' :: h) s.
Proof.
  intros [Hm Hq]. split.
  - destruct (monitor s); auto using on_clipboard_cons.
  - intros q Hch. eapply Forall_impl; [by apply Hq|]. intros c. apply shown_cons.
Qed.

(** Only sending adds to the channel. *)
Lemma monitor_step_channel a pc :
  channel (monitor_step a pc).1 = channel a
  ∨ ∃ o content q, pc = MRecorded o ∧ content_of a o = Some content ∧ channel a = Some q
      ∧ channel (monitor_step a pc).1 = Some (q ++ [content]).
Proof.
  destruct pc as [| | |o|o]; cbn [monitor_step]; try by left.
  - left. by destruct (poisoned a), (matches (dedup a) o).
  - destruct (content_of a o) as [content|] eqn:Hc; [|by left]. cbn [fst]. unfold try_send.
    destruct (channel a) as [q|] eqn:Hq; [|by left]. case_bool_decide; [|by left].
    right. by exists o, content, q.
Qed.

Lemma monitor_step_pc a pc o :
  (monitor_step a pc).2 = MObserved o ∨ (monitor_step a pc).2 = MRecorded o →
  pc = MObserved o ∨
  match o with
  | ObsFiles ps => clip_files (clip a) = Some ps
  | ObsImage i => clip_image (clip a) = Some i
  | ObsText t => clip_text (clip a) = Some t
  end.
Proof.
  destruct pc as [| | |o'|o']; cbn [monitor_step snd].
  - destruct (clip_files (clip a)) eqn:Hf; naive_solver.
  - destruct (negb _), (clip_image (clip a)) eqn:Hf; naive_solver.
  - destruct (clip_text (clip a)) eqn:Hf; naive_solver.
  - destruct (poisoned a), (matches (dedup a) o'); naive_solver.
  - intros []; simplify_eq.
Qed.

Lemma proxy_step_channel a pc : channel (proxy_step a pc).1 = channel a.
Proof.
  destruct pc; cbn [proxy_step]; try done; repeat case_match; try done; simplify_eq/=;
    by edestruct with_lock_same as (_ & _ & _ & -> & _).
Qed.
Lemma proxy_receive_channel a content : channel (proxy_receive a content).1 = channel a.
Proof.
  unfold proxy_receive. destruct (negb _); [done|].
  destruct content; repeat case_match; try done; cbn [fst];
    by edestruct with_lock_same as (_ & _ & _ & -> & _).
Qed.

(** A step of the monitor keeps the invariant, with the state before it in [h]. *)
Lemma sys_ok_monitor h s a pc :
  s ∈ h → sys_ok h s → monitor_step (app s) (monitor s) = (a, pc) → sys_ok h (mk_Sys a pc (proxy s)).
Proof.
  intros Hin [Hm Hq] Hs. pose proof (monitor_step_channel (app s) (monitor s)) as Hch.
  pose proof (monitor_step_pc (app s) (monitor s)) as Hpc. rewrite Hs in Hch, Hpc. cbn [fst snd] in *.
  assert (∀ o, pc = MObserved o ∨ pc = MRecorded o → on_clipboard h o) as Ho.
  { intros o Heq. destruct (Hpc o Heq) as [Hmon|Hclip]; [by rewrite Hmon in Hm|by exists s]. }
  split; cbn [monitor app]; [destruct pc; auto|].
  intros q Hq'. destruct Hch as [Heq|(o & content & q0 & Hmon & Hc & Hq0 & Heq)].
  - apply Hq. congruence.
  - assert (q = q0 ++ [content]) as -> by congruence. apply Forall_app. split; [by apply Hq|].
    constructor; [|constructor]. exists o, s. by rewrite Hmon in Hm.
Qed.

Lemma execution_ok s h :
  monitor s = MIdle → channel (app s) = Some [] → execution s h → ∃ s' h', h = s' :: h' ∧ sys_ok h s'.
Proof.
  intros Hidle Hch. induction 1 as [|s1 s2 h Hex (s1' & h' & [= <- <-] & Hok) Hstep].
  { exists s, []. split; [done|]. split; [by rewrite Hidle|].
    intros q Hq. rewrite Hch in Hq. injection Hq as <-. constructor. }
  exists s2, (s1 :: h). split; [done|]. apply (sys_ok_cons s2) in Hok.
  assert (s1 ∈ s2 :: s1 :: h) as Hin by (right; left). revert Hin Hok.
  generalize (s2 :: s1 :: h) as H'. intros H' Hin Hok. pose proof Hok as [Hm Hq].
  destruct Hstep as [s1 a pc Hs|s1 content a pc Hp Hs|s1 a pc Hs|s1 c|s1 f|s1 content q Ht|s1];
    [by eapply sys_ok_monitor|..]; (split; [exact Hm|]); cbn [app channel set_clip set_fs set_channel];
    try exact Hq.
  - intros q Hq'. apply Hq. rewrite <- (proxy_receive_channel (app s1) content). by rewrite Hs.
  - intros q Hq'. apply Hq. rewrite <- (proxy_step_channel (app s1) (proxy s1)). by rewrite Hs.
  - intros q' [= <-]. specialize (Hq _ Ht). by apply Forall_cons in Hq as [_ Hq].
  - done.
Qed.

(** C35: However the monitor, the proxy, the user, the file system and the network
    interleave, every content waiting for the network was made of what the
    clipboard held, with the files of some moment. *)
Theorem waiting_was_copied s h :
  monitor s = MIdle → channel (app s) = Some [] → execution s h →
  ∃ s' h', h = s' :: h' ∧ ∀ q, channel (app s') = Some q → Forall (shown h) q.
Proof.
  intros Hidle Hch Hex. destruct (execution_ok s h Hidle Hch Hex) as (s' & h' & -> & _ & Hq).
  by exists s', h'.
Qed.
End threads.

(** ** A received text that is sent back *)

(** The clipboard holds "old", copied by the user and not yet seen. *)
Definition race_start : Sys := mk_Sys
  (mk_App new_dedup false (mk_toy_clip None None (Some "old"%string) : @Clip toy_clipboard)
     empty_fs (Some [])) MIdle PIdle.

Definition race_receive (s : Sys) : Sys :=
  let '(a, pc) := proxy_receive toy_finish (λ l, l) (app s) (Text "new") in mk_Sys a (monitor s) pc.
Definition race_monitor (s : Sys) : Sys :=
  let '(a, pc) := monitor_step toy_finish 0 (app s) (monitor s) in mk_Sys a pc (proxy s).
Definition race_proxy (s : Sys) : Sys :=
  let '(a, pc) := proxy_step toy_finish (app s) (proxy s) in mk_Sys a (monitor s) pc.

(** The states after each of some steps, last first. *)
Fixpoint race_run (steps : list (Sys → Sys)) (h : list Sys) : list Sys :=
  match steps, h with
  | step :: steps', s :: _ => race_run steps' (step s :: h)
  | _, _ => h
  end.

(** The proxy updates the deduplication state for "new"; the monitor sees "old";
    the proxy writes "new"; the monitor sees "new". *)
Definition race_history : list Sys :=
  race_run (race_receive :: replicate 5 race_monitor ++ [race_proxy] ++ replicate 5 race_monitor)
    [race_start].

Lemma race_execution : execution toy_finish 0 (λ l, l) race_start race_history.
Proof.
  unfold race_history. cbn [replicate Datatypes.app race_run].
  assert (∀ s h, execution toy_finish 0 (λ l, l) race_start (s :: h) →
    execution toy_finish 0 (λ l, l) race_start (race_monitor s :: s :: h)) as Hmon.
  { intros s h Hex. eapply execution_step; [done|]. unfold race_monitor.
    destruct (monitor_step _ _ _ _) eqn:Hs. by apply step_monitor. }
  assert (∀ s h, execution toy_finish 0 (λ l, l) race_start (s :: h) →
    execution toy_finish 0 (λ l, l) race_start (race_proxy s :: s :: h)) as Hproxy.
  { intros s h Hex. eapply execution_step; [done|]. unfold race_proxy.
    destruct (proxy_step _ _ _) eqn:Hs. by apply step_proxy. }
  do 5 apply Hmon. apply Hproxy. do 5 apply Hmon.
  eapply execution_step; [apply execution_start|]. unfold race_receive.
  destruct (proxy_receive _ _ _ _) eqn:Hs. by eapply step_receive.
Qed.

(** Updating the deduplication state before writing the clipboard does not keep a
    received content from being sent back, when the monitor looks in between. *)
Example received_text_echoed :
  channel <$> (app <$> head race_history) = Some (Some [Text "old"; Text "new"]).
Proof. by vm_compute. Qed.

Lemma waiting_was_copied_witness :
  ∃ s' h', race_history = s' :: h'
    ∧ ∀ q, channel (app s') = Some q → Forall (shown 0 race_history) q.
Proof. by apply (waiting_was_copied toy_finish 0 (λ l, l) race_start), race_execution. Defined.
