(* ===== verification/Fleet.v ===== *)
(** * A fleet of machines ([src/main.rs] and [src/network.rs] together)

    Any number of machines, each with its clipboard, its monitor and proxy threads
    ([Threads.v]), its event loop ([NetLoop.v]) and the channels between them, on a
    network that loses, repeats, delays and reorders what they publish.  Several
    contents may be under way at once, in all directions. *)

From S2P Require Import Prelude RustStr Content Transfer Libp2p NetAddr NetLoop Sync Files Dedup.
From S2P Require Import Threads.

Local Open Scope Z_scope.

(** ** Messages that belong to a content *)

Section genuine.
Context `{Libp2p} `{Bincode} `{!BincodeLaws} `{Digest}.

(** The transfers that were started: ids and contents. *)
Implicit Types tr : gmap string ClipboardContent.

(** One of the messages a started transfer consists of. *)
Definition genuine tr (m : NetworkMessage) : Prop :=
  ∃ uuid content raw msgs, tr !! uuid = Some content
    ∧ content_to_bytes content = Ok raw ∧ transferable raw
    ∧ split_to_network_messages uuid content = Ok msgs ∧ m ∈ msgs.

(** The chunks received are chunks of the transfer, each in its place. *)
Definition partial_copy tr (tid : string) (st : ChunkReceiveState) : Prop :=
  ∃ content raw, tr !! tid = Some content ∧ content_to_bytes content = Ok raw
    ∧ let cs := chunks (Z.to_nat CHUNK_DATA_SIZE) raw in
      total_chunks st = Z.of_nat (length cs) ∧ total_size st ≤ ISIZE_MAX
      ∧ ∀ i d, received st !! i = Some d → ∃ k, i = Z.of_nat k ∧ cs !! k = Some d.

(** A message as bytes to publish, and as a loop holds it back. *)
Definition genuine_bytes tr (b : list u8) : Prop :=
  ∃ m, genuine tr m ∧ message_to_bytes m = Ok b.
Definition loop_genuine tr (st : RunState) : Prop :=
  map_Forall (partial_copy tr) (chunk_states st) ∧ Forall (genuine_bytes tr) (pending_chunks st).

(** What a genuine message says. *)
Lemma genuine_cases tr m :
  genuine tr m →
  ∃ uuid content raw, tr !! uuid = Some content ∧ content_to_bytes content = Ok raw
    ∧ let cs := chunks (Z.to_nat CHUNK_DATA_SIZE) raw in
      m = Direct content
      ∨ (m = ChunkStart uuid (Z.of_nat (length cs)) (sha256_hex raw) (Z.of_nat (length raw))
         ∧ Z.of_nat (length raw) ≤ ISIZE_MAX)
      ∨ (∃ k c, m = Chunk uuid (Z.of_nat k) c ∧ cs !! k = Some c)
      ∨ m = ChunkEnd uuid.
Proof.
  intros (uuid & content & raw & msgs & Htr & Hraw & Htrans & Hsplit & Hm).
  exists uuid, content, raw. split; [done|]. split; [done|]. intros cs.
  destruct (decide (Z.of_nat (length raw) ≤ CHUNK_DATA_SIZE)) as [Hsmall|Hlarge].
  { rewrite (split_small uuid content raw) in Hsplit by done. injection Hsplit as <-.
    left. by apply list_elem_of_singleton in Hm. }
  destruct (split_large uuid content raw Hraw ltac:(lia) Htrans) as [Heq Hcnt].
  rewrite Heq in Hsplit. injection Hsplit as <-. right.
  apply elem_of_cons in Hm as [->|Hm].
  { left. split; [done|]. unfold transferable, CHUNK_DATA_SIZE, U32_MAX, ISIZE_MAX in *. lia. }
  apply elem_of_app in Hm as [Hm| ->%list_elem_of_singleton]; [|by right; right].
  right. left. apply elem_of_lookup_imap in Hm as (k & c & -> & Hk). exists k, c.
  split; [|done]. fold cs in Hk, Hcnt. apply lookup_lt_Some in Hk.
  by rewrite wrap_small by (apply fits_u32; lia).
Qed.

(** A transfer whose chunks are all there delivers its content, and no other. *)
Lemma finish_partial_copy tr tid st content :
  partial_copy tr tid st → finish_transfer st = Done (Some content) → tr !! tid = Some content.
Proof.
  intros (content' & raw & Htr & Hraw & Htotal & _ & Hrcv). unfold finish_transfer.
  destruct (_ =? _); [|done]. intros (full & Hcap & Hgather)%bind_Done.
  assert (full = []) as -> by (unfold vec_with_capacity in Hcap; destruct (_ <? _); [done|by injection Hcap]).
  destruct (gather_chunks _ _ _) as [data|] eqn:Hg; [|done].
  apply gather_chunks_Some in Hg as (ds & Hds & ->).
  assert (ds = chunks (Z.to_nat CHUNK_DATA_SIZE) raw) as ->.
  { rewrite Htotal in Hds. apply list_eq. intros k.
    pose proof (Forall2_length _ _ _ Hds) as Hlen. rewrite length_seqZ, Nat2Z.id in Hlen.
    destruct (ds !! k) as [d|] eqn:Hk.
    - destruct (Forall2_lookup_r _ _ _ _ _ Hds Hk) as (i & Hi & Hd).
      apply lookup_seqZ in Hi as [-> _]. apply Hrcv in Hd as (k' & Heq & Hk').
      by replace k with k' by lia.
    - symmetry. apply lookup_ge_None. rewrite Hlen. by apply lookup_ge_None. }
  cbn [app] in Hgather. rewrite chunks_concat in Hgather by apply chunk_size_pos.
  case_bool_decide; [done|]. apply deserialize_serialize_content in Hraw.
  change (content_from_bytes ([] ++ raw)) with (deserialize_content raw) in Hgather.
  rewrite Hraw in Hgather. by injection Hgather as <-.
Qed.

Lemma handle_net_msg_genuine tr now m sts sts' out :
  genuine tr m → map_Forall (partial_copy tr) sts → handle_net_msg now m sts = Done (sts', out) →
  map_Forall (partial_copy tr) sts' ∧ ∀ content, out = Some content → ∃ uuid, tr !! uuid = Some content.
Proof.
  intros (uuid & content & raw & Htr & Hraw & Hm)%genuine_cases Hsts.
  destruct Hm as [->|[[-> Hsz]|[(k & c & -> & Hk)| ->]]]; cbn [handle_net_msg].
  - intros [= <- <-]. split; [done|]. intros ? [= <-]. by exists uuid.
  - intros [= <- <-]. split; [|done]. apply map_Forall_insert_2; [|done].
    exists content, raw. repeat (split; [done|]). intros i d. cbn. by rewrite lookup_empty.
  - destruct (sts !! uuid) as [st|] eqn:Hst; intros [= <- <-]; [|done]. split; [|done].
    apply map_Forall_insert_2; [|done].
    destruct (Hsts uuid st Hst) as (content' & raw' & Htr' & Hraw' & Htotal & Hsz & Hrcv).
    assert (content' = content) as -> by congruence. assert (raw' = raw) as -> by congruence.
    exists content, raw. repeat (split; [done|]). intros i d. cbn [received set_received].
    destruct (decide (i = Z.of_nat k)) as [->|Hne]; [|rewrite lookup_insert_ne by done; apply Hrcv].
    rewrite lookup_insert_eq. intros [= <-]. by exists k.
  - destruct (sts !! uuid) as [st|] eqn:Hst; [|by intros [= <- <-]].
    intros (out' & Hout & [= <- ->])%bind_Done. split; [by apply map_Forall_delete|].
    intros content' ->. exists uuid. eapply finish_partial_copy; [by apply Hsts|done].
Qed.

(** A start of another transfer takes nothing back. *)
Lemma genuine_mono tr tr' m : tr ⊆ tr' → genuine tr m → genuine tr' m.
Proof.
  intros Hsub (uuid & content & raw & msgs & Htr & Hrest). exists uuid, content, raw, msgs.
  split; [by eapply lookup_weaken|done].
Qed.
Lemma genuine_bytes_mono tr tr' b : tr ⊆ tr' → genuine_bytes tr b → genuine_bytes tr' b.
Proof. intros Hsub (m & Hm & Hb). exists m. split; [by eapply genuine_mono|done]. Qed.
Lemma loop_genuine_mono tr tr' st : tr ⊆ tr' → loop_genuine tr st → loop_genuine tr' st.
Proof.
  intros Hsub [Hc Hp]. split.
  - intros tid s Hs. destruct (Hc tid s Hs) as (content & raw & Htr & Hrest).
    exists content, raw. split; [by eapply lookup_weaken|done].
  - eapply Forall_impl; [exact Hp|]. intros b. by apply genuine_bytes_mono.
Qed.
End genuine.

(** ** What the loop makes of them *)

Section loop.
Context `{Libp2p} `{Bincode} `{!BincodeLaws} `{Digest}.
Implicit Types tr : gmap string ClipboardContent.

Definition clipboard_send (c : Cmd) : option ClipboardContent :=
  match c with ClipboardSend content => Some content | _ => None end.
Definition publish (c : Cmd) : option (list u8) :=
  match c with Publish b => Some b | _ => None end.

(** Neither for the clipboard nor for gossipsub. *)
Definition quiet (c : Cmd) : Prop := clipboard_send c = None ∧ publish c = None.
Definition keeps_transfers (st st' : RunState) : Prop :=
  chunk_states st' = chunk_states st ∧ pending_chunks st' = pending_chunks st.


Lemma quiet_fmap {A} (f : A → Cmd) l : (∀ x, quiet (f x)) → Forall quiet (f <$> l).
Proof. intros Hf. apply Forall_fmap, Forall_true. exact Hf. Qed.

Lemma quiet_transport_errors p es b st st' cmds b' :
  on_transport_errors p es b st = (st', cmds, b') → keeps_transfers st st' ∧ Forall quiet cmds.
Proof.
  revert b st st' cmds. induction es as [|[a e] es IH]; intros b st st' cmds; cbn [on_transport_errors].
  { intros [= <- <- <-]. by repeat constructor. }
  destruct (on_transport_error p a e st) as [[s1 c1] b1] eqn:Hone.
  destruct (on_transport_errors p es (b || b1) s1) as [[s2 c2] b2] eqn:Hrest. intros [= <- <- <-].
  apply IH in Hrest as [[Hc Hp] Hq].
  assert (keeps_transfers st s1 ∧ Forall quiet c1) as [[Hc1 Hp1] Hq1].
  { revert Hone. unfold on_transport_error, record_failure.
    repeat case_match; intros [= <- <- <-]; by repeat constructor. }
  split; [split; congruence|]. by apply Forall_app.
Qed.

Definition is_transfer_event (ev : LoopEvent) : bool :=
  match ev with LocalClipboard _ _ | GossipMessage _ => true | _ => false end.

(** The other events neither touch the transfers nor send or publish anything. *)
Lemma quiet_handle_event boot now view ev st st' cmds p :
  is_transfer_event ev = false → handle_event boot now view ev st = Done (st', cmds, p) →
  keeps_transfers st st' ∧ Forall quiet cmds ∧ p = None.
Proof.
  intros Hev Hh. unfold keeps_transfers.
  destruct ev; cbn [handle_event is_transfer_event] in *; try done;
    try (injection Hh as <- <- <-; by repeat constructor).
  - apply bind_Done in Hh as (l & _ & [= <- <- <-]). repeat split. apply Forall_app.
    split; [case_match; [|constructor]|]; apply quiet_fmap; by split.
  - apply bind_Done in Hh as (l & _ & [= <- <- <-]). repeat split.
    constructor; [done|]. apply Forall_app. split; [|by repeat constructor].
    repeat case_match; by repeat constructor.
  - unfold on_expired_listen_addr, record_failure in Hh. apply bind_Done in Hh as (l & _ & [= Hif]).
    revert Hif. repeat case_match; intros [= <- <- <-]; by repeat constructor.
  - injection Hh as Hh. revert Hh. unfold on_connection_closed, record_failure.
    repeat case_match; intros [= <- <- <-]; by repeat constructor.
  - injection Hh as Hh. unfold on_outgoing_connection_error in Hh.
    destruct (match error with DialTransport errors => _ | _ => _ end) as [[s c] b] eqn:Hm.
    assert ((chunk_states s = chunk_states st ∧ pending_chunks s = pending_chunks st)
      ∧ Forall quiet c) as [Hk Hq].
    { destruct error; try (injection Hm as <- <- <-; by repeat constructor).
      by eapply quiet_transport_errors. }
    destruct b; [destruct peer_id|]; injection Hh as <- <- <-; (split; [exact Hk|]); (split; [|done]);
      try done. apply Forall_app. split; [done|by repeat constructor].
  - injection Hh as <- <- <-. repeat split. apply quiet_fmap. by split.
  - injection Hh as <- <- <-. repeat split. apply quiet_fmap. by split.
  - unfold on_retry_callback in Hh. case_match; [|injection Hh as <- <- <-; by repeat constructor].
    apply bind_Done in Hh as (ok & _ & [= Hif]). revert Hif.
    repeat case_match; intros [= <- <- <-]; by repeat constructor.
  - injection Hh as <- <- <-. repeat split. apply Forall_app. split; [apply quiet_fmap; by split|].
    apply Forall_app. split; [|by repeat constructor]. repeat case_match; by repeat constructor.
Qed.

Lemma queue_messages_genuine tr net_msgs first pending f p :
  Forall (genuine tr) net_msgs → Forall (genuine_bytes tr) (option_list first) →
  Forall (genuine_bytes tr) pending → queue_messages net_msgs first pending = (f, p) →
  Forall (genuine_bytes tr) (option_list f) ∧ Forall (genuine_bytes tr) p.
Proof.
  intros Hms. revert first pending. induction Hms as [|m ms Hm Hms IH]; intros first pending Hf Hp;
    cbn [queue_messages]; [by intros [= <- <-]|].
  destruct (message_to_bytes m) as [b|] eqn:Hb; [|by apply IH].
  assert (genuine_bytes tr b) as Hg by by exists m.
  destruct first; apply IH; try done; [|by repeat constructor].
  apply Forall_app. split; [done|by repeat constructor].
Qed.

(** What an event taken by a loop brings in. *)
Definition genuine_event tr (ev : LoopEvent) : Prop :=
  match ev with
  | LocalClipboard uuid content =>
      tr !! uuid = Some content ∧ ∀ raw, content_to_bytes content = Ok raw → transferable raw
  | GossipMessage data => ∃ m, genuine tr m ∧ message_from_bytes data = Ok m
  | _ => True
  end.

(** What an iteration leaves and asks for. *)
Definition genuine_result tr (st : RunState) (cmds : list Cmd) : Prop :=
  loop_genuine tr st ∧ Forall (genuine_bytes tr) (omap publish cmds)
  ∧ Forall (λ content, ∃ uuid, tr !! uuid = Some content) (omap clipboard_send cmds).

Lemma genuine_local tr uuid content st st' cmds p :
  genuine_event tr (LocalClipboard uuid content) → loop_genuine tr st →
  on_local_clipboard uuid content st = (st', cmds, p) →
  genuine_result tr st' (cmds ++ (Publish <$> option_list p)).
Proof.
  intros [Htr Htrans] [Hc Hp]. unfold on_local_clipboard.
  destruct (split_to_network_messages uuid content) as [msgs|] eqn:Hsplit.
  2: { by intros [= <- <- <-]. }
  pose proof Hsplit as (raw & Hraw & _)%bind_Ok.
  assert (Forall (genuine tr) msgs) as Hms.
  { apply Forall_forall. intros m Hm. exists uuid, content, raw, msgs. by auto. }
  assert (∀ b, Forall (genuine_bytes tr) (option_list b) →
    Forall (genuine_bytes tr) (omap publish (Publish <$> option_list b))) as Hpub by by intros [b|].
  assert (∀ b : option (list u8), Forall (λ content, ∃ uuid, tr !! uuid = Some content)
    (omap clipboard_send (Publish <$> option_list b))) as Hsend by by intros [b|].
  destruct msgs as [|m [|m' ms]].
  - intros [= <- <- <-]. by repeat split.
  - intros [= <- <- <-]. cbn [app]. split; [by split|]. split; [|apply Hsend]. apply Hpub.
    apply Forall_cons in Hms as [Hm _]. destruct (message_to_bytes m) as [b|] eqn:Hb; [|done].
    constructor; [by exists m|done].
  - destruct (queue_messages _ None _) as [f q] eqn:Hq. intros [= <- <- <-]. cbn [app].
    eapply queue_messages_genuine in Hq as [Hf Hq]; [|exact Hms|constructor|exact Hp].
    split; [by split|]. split; [by apply Hpub|apply Hsend].
Qed.

Lemma genuine_handle_event tr boot now view ev st st' cmds p :
  genuine_event tr ev → loop_genuine tr st → handle_event boot now view ev st = Done (st', cmds, p) →
  genuine_result tr st' (cmds ++ (Publish <$> option_list p)).
Proof.
  intros Hev Hg Hh. destruct (is_transfer_event ev) eqn:Hk.
  - destruct ev as [uuid content|data| | | | | | | | | | | | | |]; try done; cbn [handle_event] in Hh.
    { injection Hh as Hh. by eapply genuine_local. }
    destruct Hev as (m & Hm & Hdata), Hg as [Hc Hp].
    apply bind_Done in Hh as ([cs out] & Hrecv & [= <- <- <-]).
    rewrite (handle_message_bytes _ _ m) in Hrecv by done.
    eapply handle_net_msg_genuine in Hrecv as [Hcs Hout]; [|done..].
    cbn [option_list fmap list_fmap]. rewrite app_nil_r. destruct out as [content|].
    + split; [by split|]. split; [constructor|]. constructor; [by apply Hout|constructor].
    + split; [by split|]. split; constructor.
  - destruct (quiet_handle_event _ _ _ _ _ _ _ _ Hk Hh) as ([Hcs Hps] & Hq & ->).
    cbn [option_list fmap list_fmap]. rewrite app_nil_r. split.
    { unfold loop_genuine. by rewrite Hcs, Hps. }
    clear Hh. induction Hq as [|c cmds [Hsend Hpub] Hq IH]; [split; constructor|].
    cbn [omap list_omap]. by rewrite Hsend, Hpub.
Qed.

(** The result of an iteration: a loop that took too long returns, and is started again
    with nothing. *)
Definition loop_result (r : iteration_result) : RunState * list Cmd :=
  match r with Continue st cmds => (st, cmds) | Restart cmds => (init_state, cmds) end.

Lemma genuine_iteration tr boot now d view ev st r :
  (pending_chunks st = [] → genuine_event tr ev) → loop_genuine tr st →
  iteration boot now d view ev st = Done r →
  genuine_result tr (loop_result r).1 (loop_result r).2.
Proof.
  intros Hev [Hc Hp] Hit. unfold iteration in Hit.
  set (st1 := set_chunks _ st) in Hit. assert (loop_genuine tr st1) as Hg1.
  { split; [|done]. intros tid s. unfold st1. cbn [chunk_states set_chunks].
    rewrite cleanup_lookup. intros Hl. apply (Hc tid). by cases_p2p. }
  apply bind_Done in Hit as ([[s cs] p] & Hs & [= <-]).
  assert (genuine_result tr s (cs ++ (Publish <$> option_list p))) as (Hl & Hpub & Hsend).
  { change (pending_chunks st) with (pending_chunks st1) in *.
    destruct (pending_chunks st1) as [|b q] eqn:Hq; [by eapply genuine_handle_event; eauto|].
    injection Hs as <- <- <-. destruct Hg1 as [Hc1 Hp1]. rewrite Hq in Hp1.
    apply Forall_cons in Hp1 as [Hb Hp1]. cbn [app option_list fmap list_fmap].
    split; [by split|]. split; [by repeat constructor|constructor]. }
  destruct (HANDLER_TIMEOUT <? d); cbn [loop_result fst snd]; [|exact (conj Hl (conj Hpub Hsend))].
  rewrite omap_app in Hsend. apply Forall_app in Hsend as [Hsend _].
  rewrite omap_app in Hpub. apply Forall_app in Hpub as [Hpub _].
  split; [|by split]. split; [apply map_Forall_empty|constructor].
Qed.
End loop.

(** ** The fleet *)

Section fleet.
Context `{Libp2p} `{Bincode} `{!BincodeLaws} `{Digest} `{Zstd} `{!ZstdLaws}.
Context `{ClipboardApi} `{ImageCodec} `{FileSystem}.
Context (finish : list u8 → u64) (fuel : nat) (iter_order : list string → list string).
Context (gossipsub_topic : string).

(** A machine: its clipboard threads, its loop, the channel from the loop to the proxy,
    and the time of its loop's last event. *)
Record Machine := mk_Machine {
  m_sys : Sys;
  m_loop : RunState;
  m_inbox : list ClipboardContent;
  m_now : Z;
}.

(** [wire] holds everything ever published, compressed.  [transfers] is not in the
    program: the contents the loops took, by the ids they were given. *)
Record Fleet := mk_Fleet {
  machines : list Machine;
  wire : gset (list u8);
  transfers : gmap string ClipboardContent;
}.

(** What the loop of [main] starts with, on a machine with a clipboard and files. *)
Definition started_machine (c : Clip) (f : F) (now : Z) : Machine :=
  mk_Machine (mk_Sys (mk_App new_dedup false c f (Some [])) MIdle PIdle) init_state [] now.

Definition set_app (m : Machine) (a : App) : Machine :=
  mk_Machine (mk_Sys a (monitor (m_sys m)) (proxy (m_sys m))) (m_loop m) (m_inbox m) (m_now m).

(** Steps of one machine: of its monitor, of its proxy, which takes a content when it
    is idle, of its user and its other programs, and of [main] starting again, with all
    its state new.  [main] does not wait for the old proxy, which may be writing, and may
    take some of the contents it was given before it sees that it is to stop. *)
Inductive local_step (m : Machine) : Machine → Prop :=
| local_monitor a pc :
    monitor_step finish fuel (app (m_sys m)) (monitor (m_sys m)) = (a, pc) →
    local_step m (mk_Machine (mk_Sys a pc (proxy (m_sys m))) (m_loop m) (m_inbox m) (m_now m))
| local_receive content inbox a pc :
    m_inbox m = content :: inbox → proxy (m_sys m) = PIdle →
    proxy_receive finish iter_order (app (m_sys m)) content = (a, pc) →
    local_step m (mk_Machine (mk_Sys a (monitor (m_sys m)) pc) (m_loop m) inbox (m_now m))
| local_proxy a pc :
    proxy_step finish (app (m_sys m)) (proxy (m_sys m)) = (a, pc) →
    local_step m (mk_Machine (mk_Sys a (monitor (m_sys m)) pc) (m_loop m) (m_inbox m) (m_now m))
| local_copy c : local_step m (set_app m (set_clip (app (m_sys m)) c))
| local_files f : local_step m (set_app m (set_fs (app (m_sys m)) f))
| local_restart inbox pc :
    sublist inbox (m_inbox m) → pc = PIdle ∨ pc = proxy (m_sys m) →
    let a := mk_App new_dedup false (clip (app (m_sys m))) (fs (app (m_sys m))) (Some []) in
    local_step m (mk_Machine (mk_Sys a MIdle pc) init_state inbox (m_now m)).

(** What a loop without pending chunks may be given: the next content of its channel
    with a new id, or any message from the wire. *)
Definition offered (f : Fleet) (m : Machine) (ev : LoopEvent) : Prop :=
  match ev with
  | LocalClipboard uuid content =>
      head <$> channel (app (m_sys m)) = Some (Some content) ∧ transfers f !! uuid = None
      ∧ ∀ raw, content_to_bytes content = Ok raw → transferable raw
  | GossipMessage bytes =>
      ∃ raw_message message, raw_data raw_message ∈ wire f
        ∧ inbound_transform raw_message = Some message ∧ data message = bytes
  | _ => True
  end.

(** The content a loop takes from its channel, with its id. *)
Definition taken (m : Machine) (ev : LoopEvent) : option (string * ClipboardContent) :=
  match pending_chunks (m_loop m), ev with
  | [], LocalClipboard uuid content => Some (uuid, content)
  | _, _ => None
  end.

Definition after_iteration (m : Machine) (now : Times) (ev : LoopEvent) (r : iteration_result) : Machine :=
  let a := app (m_sys m) in
  let a := match taken m ev with Some _ => set_channel a (tail <$> channel a) | None => a end in
  mk_Machine (mk_Sys a (monitor (m_sys m)) (proxy (m_sys m))) (loop_result r).1
    (m_inbox m ++ omap clipboard_send (loop_result r).2) (t_event now).

Definition published (r : iteration_result) : list (list u8) :=
  omap (outbound_transform gossipsub_topic) (omap publish (loop_result r).2).

Inductive fleet_step (f : Fleet) : Fleet → Prop :=
| fleet_local i m m' :
    machines f !! i = Some m → local_step m m' →
    fleet_step f (mk_Fleet (<[i := m']> (machines f)) (wire f) (transfers f))
| fleet_loop i m boot now d view ev r :
    machines f !! i = Some m → (pending_chunks (m_loop m) = [] → offered f m ev) →
    m_now m ≤ t_head now ≤ t_event now → 0 ≤ d →
    iteration boot now d view ev (m_loop m) = Done r →
    (length (m_inbox (after_iteration m now ev r)) ≤ CHANNEL_CAPACITY)%nat →
    fleet_step f (mk_Fleet (<[i := after_iteration m now ev r]> (machines f))
      (wire f ∪ list_to_set (published r))
      (match taken m ev with
       | Some (uuid, content) => <[uuid := content]> (transfers f)
       | None => transfers f
       end)).

(** Machines that were just started, on a silent network. *)
Definition started_fleet (f : Fleet) : Prop :=
  Forall (λ m, ∃ c fs now, m = started_machine c fs now) (machines f) ∧ wire f = ∅ ∧ transfers f = ∅.

(** The states a fleet went through, the last first. *)
Inductive fleet_run (start : Fleet) : list Fleet → Prop :=
| fleet_run_start : fleet_run start [start]
| fleet_run_step f f' h : fleet_run start (f :: h) → fleet_step f f' → fleet_run start (f' :: f :: h).

(** The states of machine [i]; a content was made of what was on a clipboard. *)
Definition states_of (i : nat) (h : list Fleet) : list Sys :=
  omap (λ f, m_sys <$> machines f !! i) h.
Definition was_copied (h : list Fleet) (content : ClipboardContent) : Prop :=
  ∃ i, shown fuel (states_of i h) content.

(** ** The invariant *)

Definition machine_ok (h : list Fleet) (f : Fleet) (i : nat) (m : Machine) : Prop :=
  Threads.sys_ok fuel (states_of i h) (m_sys m)
  ∧ loop_genuine (transfers f) (m_loop m) ∧ Forall (was_copied h) (m_inbox m)
  ∧ (length (m_inbox m) ≤ CHANNEL_CAPACITY)%nat.

Definition fleet_ok (h : list Fleet) (f : Fleet) : Prop :=
  (∀ i m, machines f !! i = Some m → machine_ok h f i m)
  ∧ (∀ z, z ∈ wire f →
       ∃ b, genuine_bytes (transfers f) b ∧ outbound_transform gossipsub_topic b = Some z)
  ∧ map_Forall (λ _, was_copied h) (transfers f).

Lemma states_of_cons i f h :
  states_of i (f :: h) = option_list (m_sys <$> machines f !! i) ++ states_of i h.
Proof. unfold states_of. simpl. by destruct (m_sys <$> machines f !! i). Qed.

Lemma was_copied_cons f h content : was_copied h content → was_copied (f :: h) content.
Proof.
  intros [i Hi]. exists i. rewrite states_of_cons. destruct (m_sys <$> _); [by apply shown_cons|done].
Qed.

Lemma sys_ok_states f h i s : Threads.sys_ok fuel (states_of i h) s → Threads.sys_ok fuel (states_of i (f :: h)) s.
Proof. rewrite states_of_cons. destruct (m_sys <$> _); [apply sys_ok_cons|done]. Qed.

Lemma fleet_ok_cons f' h f : fleet_ok h f → fleet_ok (f' :: h) f.
Proof.
  intros (Hm & Hw & Ht). split; [|split; [done|]].
  - intros i m (Hs & Hl & Hi & Hlen)%Hm. split; [by apply sys_ok_states|]. split; [done|].
    split; [|done]. eapply Forall_impl; [exact Hi|]. intros c. apply was_copied_cons.
  - intros uuid c Hc. by eapply was_copied_cons, Ht.
Qed.

(** A step that leaves the monitor alone and does not add to its channel. *)
Lemma sys_ok_channel h s s' :
  monitor s' = monitor s →
  (∀ q', channel (app s') = Some q' → ∃ q, channel (app s) = Some q ∧ q' ⊆ q) →
  Threads.sys_ok fuel h s → Threads.sys_ok fuel h s'.
Proof.
  intros Hmon Hch [Hm Hq]. split; [by rewrite Hmon|]. intros q' (q & Hq0 & Hsub)%Hch.
  specialize (Hq q Hq0). rewrite Forall_forall in *. auto.
Qed.

Lemma machine_ok_started h f i c fs now : machine_ok h f i (started_machine c fs now).
Proof.
  split; [split; [done|by intros q [= <-]]|].
  split; [split; [apply map_Forall_empty|constructor]|]. split; [constructor|apply Nat.le_0_l].
Qed.

Lemma machine_ok_restarted h f i m a pc inbox :
  channel a = Some [] → inbox `sublist_of` m_inbox m → machine_ok h f i m →
  machine_ok h f i (mk_Machine (mk_Sys a MIdle pc) init_state inbox (m_now m)).
Proof.
  intros Ha Hsub (_ & _ & Hinbox & Hlen).
  split; [split; [done|by intros q; cbn [app m_sys]; rewrite Ha; intros [= <-]]|].
  split; [split; [apply map_Forall_empty|exact (Forall_nil_2 _)]|]. cbn [m_inbox]. split.
  - rewrite Forall_forall in Hinbox |- *. intros c Hc. by eapply Hinbox, elem_of_sublist.
  - apply sublist_length in Hsub. lia.
Qed.

Lemma machine_ok_local h f i m m' :
  machines f !! i = Some m → f ∈ h → machine_ok h f i m → local_step m m' → machine_ok h f i m'.
Proof.
  intros Hi Hin (Hs & Hl & Hinbox & Hlen) Hstep.
  assert (m_sys m ∈ states_of i h) as Hseen.
  { apply list_elem_of_omap. exists f. split; [done|]. by rewrite Hi. }
  destruct Hstep as [a pc Hstep|content inbox a pc Hin' Hidle Hstep|a pc Hstep|c|g|inbox pc Hsub Hpc];
    [| | | | |by eapply machine_ok_restarted];
    (split; [|split; [exact Hl|split; [try exact Hinbox|try exact Hlen]]]).
  - by eapply (sys_ok_monitor finish fuel iter_order).
  - apply (sys_ok_channel _ (m_sys m)); [done| |exact Hs]. cbn [app m_sys].
    pose proof (proxy_receive_channel finish iter_order (app (m_sys m)) content) as Hch.
    rewrite Hstep in Hch. cbn in Hch. rewrite Hch. by eauto.
  - rewrite Hin' in Hinbox. by apply Forall_cons in Hinbox as [_ ?].
  - rewrite Hin' in Hlen. cbn [length m_inbox] in *. lia.
  - apply (sys_ok_channel _ (m_sys m)); [done| |exact Hs]. cbn [app m_sys].
    pose proof (proxy_step_channel finish (app (m_sys m)) (proxy (m_sys m))) as Hch.
    rewrite Hstep in Hch. cbn in Hch. rewrite Hch. by eauto.
  - apply (sys_ok_channel _ (m_sys m)); [done| |exact Hs]. by eauto.
  - apply (sys_ok_channel _ (m_sys m)); [done| |exact Hs]. by eauto.
Qed.

(** What a loop takes from the channel was on the clipboard. *)
Lemma offered_genuine h f i m ev :
  fleet_ok h f → machines f !! i = Some m → (pending_chunks (m_loop m) = [] → offered f m ev) →
  let tr := match taken m ev with
            | Some (uuid, content) => <[uuid := content]> (transfers f)
            | None => transfers f
            end in
  transfers f ⊆ tr ∧ map_Forall (λ _, was_copied h) tr
  ∧ (pending_chunks (m_loop m) = [] → genuine_event tr ev).
Proof.
  intros (Hm & Hw & Ht) Hi Hoff. unfold taken.
  destruct (pending_chunks (m_loop m)) as [|b q] eqn:Hp; [|by destruct ev].
  specialize (Hoff eq_refl). destruct ev as [uuid content|bytes| | | | | | | | | | | | | |]; try done.
  - destruct Hoff as (Hhead & Hnew & Htrans). split; [by apply insert_subseteq|]. split.
    + apply map_Forall_insert_2; [|done]. exists i. destruct (Hm i m Hi) as ([_ Hq] & _).
      destruct (channel (app (m_sys m))) as [[|c q]|]; try done. injection Hhead as ->.
      specialize (Hq _ eq_refl). by apply Forall_cons in Hq as [Hq _].
    + intros _. split; [by rewrite lookup_insert_eq|done].
  - split; [done|]. split; [done|]. intros _. destruct Hoff as (raw & msg & Hz & Hdec & <-).
    destruct (Hw _ Hz) as (b & (m' & Hgen & Hb) & Hout). exists m'. split; [done|].
    apply bind_Some in Hout as (z & Henc & [= Heq]). rewrite <- Heq in *.
    apply bind_Some in Hdec as (buf & Hdec & [= <-]). cbn [data].
    apply decode_encode in Henc. rewrite Heq, Hdec in Henc. injection Henc as ->.
    by apply deserialize_serialize_message.
Qed.

Lemma fleet_ok_step h f f' : f ∈ h → fleet_ok h f → fleet_step f f' → fleet_ok h f'.
Proof.
  intros Hin Hok Hstep. pose proof Hok as (Hm & Hw & Ht).
  destruct Hstep as [i m m' Hi Hstep|i m boot now d view ev r Hi Hoff Hclock Hd Hit Hcap].
  - split; [|by split]. intros j mj. cbn [machines].
    intros [(<- & <- & _)|[Hne Hj]]%list_lookup_insert_Some; [|by apply Hm].
    exact (machine_ok_local h f i m m' Hi Hin (Hm i m Hi) Hstep).
  - destruct (offered_genuine h f i m ev Hok Hi Hoff) as (Hsub & Htr & Hev). cbn zeta in *.
    set (tr := match taken m ev with Some _ => _ | None => _ end) in *.
    destruct (Hm i m Hi) as (Hs & Hl & Hinbox & Hlen).
    eapply genuine_iteration in Hit as (Hloop & Hpub & Hsend);
      [|exact Hev|by eapply loop_genuine_mono].
    split; [|split; [|exact Htr]].
    + intros j mj. cbn [machines].
      intros [(-> & <- & _)|[Hne (Hs' & Hl' & Hi' & Hlen')%Hm]]%list_lookup_insert_Some.
      * split; [|split; [exact Hloop|split; [|exact Hcap]]].
        -- apply (sys_ok_channel _ (m_sys m)); [done| |exact Hs]. cbn [app after_iteration m_sys].
           destruct (taken m ev); [|by eauto]. cbn [channel set_channel].
           destruct (channel _) as [q|]; [|done]. intros q' [= <-]. exists q. split; [done|].
           destruct q; set_solver.
        -- cbn [m_inbox after_iteration]. apply Forall_app. split; [done|].
           eapply Forall_impl; [exact Hsend|]. intros content [uuid Hc]. by apply (Htr uuid).
      * split; [done|]. split; [by eapply loop_genuine_mono|by split].
    + intros z [(b & Hb & Hz)%Hw|Hz]%elem_of_union.
      * exists b. split; [by eapply genuine_bytes_mono|done].
      * apply elem_of_list_to_set, list_elem_of_omap in Hz as (b & Hb & Hz). exists b.
        split; [|done]. rewrite Forall_forall in Hpub. by apply Hpub.
Qed.

Lemma fleet_run_ok start h :
  started_fleet start → fleet_run start h → ∃ f h', h = f :: h' ∧ fleet_ok h f.
Proof.
  intros (Hms & Hw & Ht). induction 1 as [|f f' h Hrun (f0 & h0 & [= <- <-] & Hok) Hstep].
  - exists start, []. split; [done|]. rewrite Forall_forall in Hms. split; [|split].
    + intros i m Hi. destruct (Hms m) as (c & g & t & ->); [by eapply list_elem_of_lookup_2|].
      apply machine_ok_started.
    + rewrite Hw. set_solver.
    + rewrite Ht. apply map_Forall_empty.
  - exists f', (f :: h). split; [done|]. eapply fleet_ok_step; [right; left| |done].
    by apply fleet_ok_cons.
Qed.

(** C1: nothing is invented, whatever happens.  Any number of machines copy, send and
    receive at the same time, their threads interleaved in any way, on a network that
    loses, repeats and reorders messages, and the network of a machine may be started
    again at any time: every content a loop has handed to its clipboard was made of what
    had been on the clipboard of one of the machines, by the time it was handed over;
    a text was there as it is. *)
Theorem received_was_copied start f h i m content :
  started_fleet start → fleet_run start (f :: h) →
  machines f !! i = Some m → content ∈ m_inbox m →
  was_copied (f :: h) content
  ∧ ∀ t, content = Text t →
      ∃ j f' m', f' ∈ f :: h ∧ machines f' !! j = Some m' ∧ clip_text (clip (app (m_sys m'))) = Some t.
Proof.
  intros Hstart Hrun Hi Hc.
  destruct (fleet_run_ok start _ Hstart Hrun) as (f0 & h0 & [= <- <-] & Hm & _).
  destruct (Hm i m Hi) as (_ & _ & Hinbox & _). rewrite Forall_forall in Hinbox.
  specialize (Hinbox _ Hc). split; [done|]. intros t ->.
  destruct Hinbox as [j (o & s & (s' & Hs' & Ho) & _ & Hmade)].
  destruct o as [ps|[[w hh] rgba]|t']; cbn [content_of] in Hmade.
  - unfold files_content in Hmade. by repeat case_match.
  - by apply fmap_Some in Hmade as (? & _ & ?).
  - injection Hmade as ->. apply list_elem_of_omap in Hs' as (f' & Hf' & Heq).
    destruct (machines f' !! j) as [m'|] eqn:Hj; [|done]. injection Heq as <-.
    by exists j, f', m'.
Qed.
End fleet.

(** ** Witness *)

From S2P Require Import Codec.

(** A text is on the clipboard of the first of two machines: its monitor sees it, its
    loop publishes it, and the loop of the second receives it. *)
Definition text_clip (t : option string) : toy_clip := mk_toy_clip None None t.
Definition wit_fleet : Fleet :=
  mk_Fleet [started_machine (text_clip (Some "hi"%string) : Clip) empty_fs 0;
            started_machine (text_clip None : Clip) empty_fs 0] ∅ ∅.

Definition run_monitor (f : Fleet) : Fleet :=
  match machines f !! 0%nat with
  | Some m =>
      let '(a, pc) := monitor_step toy_finish 0 (app (m_sys m)) (monitor (m_sys m)) in
      mk_Fleet (<[0%nat := mk_Machine (mk_Sys a pc (proxy (m_sys m))) (m_loop m) (m_inbox m) (m_now m)]>
        (machines f)) (wire f) (transfers f)
  | None => f
  end.
Definition run_loop (i : nat) (ev : LoopEvent) (f : Fleet) : Fleet :=
  match machines f !! i with
  | Some m =>
      match iteration None (at_once 0) 0 wit_view ev (m_loop m) with
      | Done r =>
          mk_Fleet (<[i := after_iteration m (at_once 0) ev r]> (machines f))
            (wire f ∪ list_to_set (published "p2p_clipboard" r))
            (match taken m ev with
             | Some (uuid, content) => <[uuid := content]> (transfers f)
             | None => transfers f
             end)
      | Panic => f
      end
  | None => f
  end.

Definition wit_fleet_states : list Fleet :=
  let f1 := run_monitor wit_fleet in let f2 := run_monitor f1 in let f3 := run_monitor f2 in
  let f4 := run_monitor f3 in let f5 := run_monitor f4 in
  let f6 := run_loop 0 (LocalClipboard "id" (Text "hi")) f5 in
  let f7 := run_loop 1 (GossipMessage hi_bytes) f6 in
  [f7; f6; f5; f4; f3; f2; f1; wit_fleet].

(** Before the loops have moved: the text waits in the first machine's channel. *)
Lemma wit_monitor_run :
  fleet_run toy_finish 0 (λ l, l) "p2p_clipboard" wit_fleet (drop 2 wit_fleet_states).
Proof.
  unfold wit_fleet_states. cbn zeta. cbn [drop].
  do 5 (eapply fleet_run_step; [|eapply (fleet_local _ _ _ _ _ 0); [reflexivity|];
    apply local_monitor; reflexivity]). constructor.
Qed.

Lemma wit_fleet_started : started_fleet wit_fleet.
Proof. split; [|by split]. repeat constructor; by do 3 eexists. Qed.

Lemma wit_fleet_run :
  fleet_run toy_finish 0 (λ l, l) "p2p_clipboard" wit_fleet wit_fleet_states.
Proof.
  unfold wit_fleet_states. cbn zeta.
  eapply fleet_run_step; [eapply fleet_run_step; [exact wit_monitor_run|]|].
  - eapply (fleet_loop _ _ _ _ _ 0 _ None (at_once 0) 0 wit_view
      (LocalClipboard "id" (Text "hi"))); [reflexivity| |done|done|reflexivity|apply Nat.leb_le; reflexivity].
    intros _. split; [reflexivity|]. split; [reflexivity|]. intros raw [= <-]. by vm_compute.
  - eapply (fleet_loop _ _ _ _ _ 1 _ None (at_once 0) 0 wit_view
      (GossipMessage hi_bytes)); [reflexivity| |done|done|reflexivity|apply Nat.leb_le; reflexivity].
    intros _. exists (mk_RawMessage None (37 :: hi_bytes) None "p2p_clipboard"). eexists.
    split; [|split; reflexivity]. by apply elem_of_union_r, elem_of_list_to_set; left.
Qed.

Lemma received_was_copied_witness :
  ∃ m, (head wit_fleet_states ≫= λ f, machines f !! 1%nat) = Some m ∧ m_inbox m = [Text "hi"]
    ∧ was_copied 0 wit_fleet_states (Text "hi").
Proof.
  eexists. split; [reflexivity|]. split; [reflexivity|].
  eapply (received_was_copied toy_finish 0 (λ l, l) "p2p_clipboard" wit_fleet _ _ 1);
    [exact wit_fleet_started|exact wit_fleet_run|reflexivity|by left].
Defined.
