(* ===== verification/FleetProgress.v ===== *)
(** * No state of a fleet is stuck ([src/main.rs] and [src/network.rs] together)

    From whatever [Fleet.v] can reach, what waits for the network of one machine can be
    delivered to another. *)

From S2P Require Import Prelude RustStr Content Transfer Libp2p NetAddr NetLoop Sync Files Dedup.
From S2P Require Import Threads Fleet.

Local Open Scope Z_scope.

Section progress.
Context `{Libp2p} `{Bincode} `{!BincodeLaws} `{Digest} `{Zstd} `{!ZstdLaws}.
Context `{ClipboardApi} `{ImageCodec} `{FileSystem}.
Context (finish : list u8 → u64) (fuel : nat) (iter_order : list string → list string).
Context (gossipsub_topic : string).

Abbreviation run := (fleet_run finish fuel iter_order gossipsub_topic).
Abbreviation step := (fleet_step finish fuel iter_order gossipsub_topic).

(** [f'] comes after [f], which is the last state of [h]. *)
Definition leads_to (start : Fleet) (f f' : Fleet) : Prop :=
  ∀ h, run start (f :: h) → ∃ h', run start (f' :: h') ∧ suffix (f :: h) (f' :: h').

Lemma leads_to_refl start f : leads_to start f f.
Proof. intros h Hrun. by exists h. Qed.
Lemma leads_to_trans start f1 f2 f3 :
  leads_to start f1 f2 → leads_to start f2 f3 → leads_to start f1 f3.
Proof.
  intros H12 H23 h Hrun. destruct (H12 h Hrun) as (h' & Hrun' & Hsuf).
  destruct (H23 h' Hrun') as (h'' & Hrun'' & Hsuf'). exists h''. split; [done|]. by etrans.
Qed.
Lemma leads_to_step start f f' : step f f' → leads_to start f f'.
Proof.
  intros Hs h Hrun. exists (f :: h). split; [by eapply fleet_run_step|]. by apply suffix_cons_r.
Qed.

(** ** One machine's loop, while nothing else moves *)

(** The machine with another loop, and contents added to its inbox. *)
Definition with_loop (m : Machine) (a : App) (st : RunState) (inbox : list ClipboardContent) : Machine :=
  mk_Machine (mk_Sys a (monitor (m_sys m)) (proxy (m_sys m))) st (m_inbox m ++ inbox) (m_now m).

Lemma with_loop_again m a st inbox a' st' inbox' :
  with_loop (with_loop m a st inbox) a' st' inbox' = with_loop m a' st' (inbox ++ inbox').
Proof. unfold with_loop. cbn. by rewrite app_assoc. Qed.

(** Events a loop may be given that do not take a content. *)
Definition admissible (w : gset (list u8)) (ev : LoopEvent) : Prop :=
  match ev with
  | LocalClipboard _ _ => False
  | GossipMessage bytes =>
      ∃ raw_message message, raw_data raw_message ∈ w
        ∧ inbound_transform raw_message = Some message ∧ data message = bytes
  | _ => True
  end.

(** What a run of iterations at one instant makes of the fleet. *)
Definition moved (start f f' : Fleet) (i : nat) (m m' : Machine) (cmds : list Cmd) : Prop :=
  leads_to start f f' ∧ machines f' = <[i := m']> (machines f)
  ∧ wire f' = wire f ∪ list_to_set (omap (outbound_transform gossipsub_topic) (omap publish cmds))
  ∧ transfers f' = transfers f.

Lemma run_step start f i m ev view st' cmds :
  machines f !! i = Some m → admissible (wire f) ev →
  iteration None (at_once (m_now m)) 0 view ev (m_loop m) = Done (NetLoop.Continue st' cmds) →
  (length (m_inbox m ++ omap clipboard_send cmds) ≤ CHANNEL_CAPACITY)%nat →
  ∃ f', moved start f f' i m (with_loop m (app (m_sys m)) st' (omap clipboard_send cmds)) cmds.
Proof.
  intros Hi Hev Hit Hcap.
  assert (taken m ev = None) as Htaken by (unfold taken; by destruct (pending_chunks _), ev).
  assert (pending_chunks (m_loop m) = [] → offered f m ev) as Hoff by (intros _; by destruct ev).
  pose proof (fleet_loop finish fuel iter_order gossipsub_topic f i m None (at_once (m_now m)) 0 view ev
    (NetLoop.Continue st' cmds) Hi Hoff ltac:(by split) ltac:(done) Hit) as Hstep.
  unfold after_iteration, published in Hstep. rewrite Htaken in Hstep.
  cbn [loop_result fst snd m_inbox] in Hstep. specialize (Hstep Hcap).
  eexists. split; [by apply leads_to_step|]. done.
Qed.

Lemma run_inputs start inputs f i m st' cmds :
  machines f !! i = Some m →
  Forall (λ x, x.1.1.1 = at_once (m_now m) ∧ x.1.1.2 = 0 ∧ admissible (wire f) x.2) inputs →
  iterations None inputs (m_loop m) = Done (Some st', cmds) →
  (length (m_inbox m ++ omap clipboard_send cmds) ≤ CHANNEL_CAPACITY)%nat →
  ∃ f', moved start f f' i m (with_loop m (app (m_sys m)) st' (omap clipboard_send cmds)) cmds.
Proof.
  revert f m cmds. induction inputs as [|[[[now d] view] ev] inputs IH]; intros f m cmds Hi Hadm Hrun Hcap.
  { injection Hrun as <- <-. exists f. split; [apply leads_to_refl|]. split; [|split; [set_solver|done]].
    symmetry. apply list_insert_id. unfold with_loop. cbn [omap list_omap]. rewrite app_nil_r.
    by destruct m as [[] ? ? ?]. }
  apply Forall_cons in Hadm as [(Hnow & Hd & Hev) Hadm]. cbn [fst snd] in *. subst now d.
  cbn [iterations] in Hrun. apply bind_Done in Hrun as ([st1 c1|c1] & Hit & Hrun); [|done].
  apply bind_Done in Hrun as ([o c2] & Hrun & [= -> <-]). rewrite omap_app in *.
  destruct (run_step start f i m ev view st1 c1 Hi Hev Hit) as (f1 & Hlead1 & Hm1 & Hw1 & Ht1);
    [rewrite !length_app in *; lia|].
  destruct (IH f1 (with_loop m (app (m_sys m)) st1 (omap clipboard_send c1)) c2)
    as (f2 & Hlead2 & Hm2 & Hw2 & Ht2).
  - rewrite Hm1. apply list_lookup_insert_eq. by eapply lookup_lt_Some.
  - eapply Forall_impl; [exact Hadm|]. intros x (Hn & Hz & Ha). split; [done|]. split; [done|].
    destruct (x.2); try done. destruct Ha as (raw & msg & Hin & Hrest). exists raw, msg.
    split; [|done]. rewrite Hw1. by apply elem_of_union_l.
  - exact Hrun.
  - cbn [with_loop m_inbox]. by rewrite <- app_assoc.
  - exists f2. split; [by eapply leads_to_trans|]. rewrite Hm2, Hm1, Hw2, Hw1, Ht2, Ht1.
    rewrite list_insert_insert_eq, with_loop_again. split; [done|]. split; [|done].
    rewrite !omap_app, list_to_set_app_L. set_solver.
Qed.

(** ** Publishing *)

Lemma publishes_fmap (bs : list (list u8)) :
  omap publish (Publish <$> bs : list Cmd) = bs
  ∧ omap clipboard_send (Publish <$> bs : list Cmd) = [].
Proof. induction bs as [|b bs [IH1 IH2]]; [done|]. rewrite fmap_cons. cbn. by rewrite IH1. Qed.

(** Pending chunks are published. *)
Lemma drain (view : SwarmView) start f i m :
  machines f !! i = Some m → (length (m_inbox m) ≤ CHANNEL_CAPACITY)%nat →
  ∃ f' st', pending_chunks st' = []
    ∧ moved start f f' i m (with_loop m (app (m_sys m)) st' []) (Publish <$> pending_chunks (m_loop m)).
Proof.
  intros Hi Hcap.
  set (inputs := replicate (length (pending_chunks (m_loop m))) (at_once (m_now m), 0, view, IdleTick)).
  destruct (pending_published None inputs (m_loop m)) as (st' & Hrun & Hp).
  { by apply Forall_replicate. }
  { apply length_replicate. }
  destruct (publishes_fmap (pending_chunks (m_loop m))) as [_ Hsend].
  destruct (run_inputs start inputs f i m st' (Publish <$> pending_chunks (m_loop m)) Hi) as (f' & Hmoved).
  - by apply Forall_replicate.
  - exact Hrun.
  - by rewrite Hsend, app_nil_r.
  - exists f', st'. split; [done|]. by rewrite Hsend in Hmoved.
Qed.

(** The loop takes the content that waits, and publishes the first message. *)
Lemma take_content (view : SwarmView) start f i m content q uuid msgs b bs :
  machines f !! i = Some m → channel (app (m_sys m)) = Some (content :: q) →
  pending_chunks (m_loop m) = [] → transfers f !! uuid = None →
  (∀ raw, content_to_bytes content = Ok raw → transferable raw) →
  split_to_network_messages uuid content = Ok msgs →
  Forall2 (λ m b, message_to_bytes m = Ok b) msgs (b :: bs) →
  (length (m_inbox m) ≤ CHANNEL_CAPACITY)%nat →
  ∃ f' st', leads_to start f f' ∧ pending_chunks st' = bs
    ∧ machines f' = <[i := with_loop m (set_channel (app (m_sys m)) (Some q)) st' []]> (machines f)
    ∧ wire f' = wire f ∪ list_to_set (omap (outbound_transform gossipsub_topic) [b]).
Proof.
  intros Hi Hch Hp Hnew Htrans Hsplit Hm Hcap.
  set (st1 := NetLoop.set_chunks (cleanup_stale_chunk_states (m_now m) (chunk_states (m_loop m))) (m_loop m)).
  assert (iteration None (at_once (m_now m)) 0 view (LocalClipboard uuid content) (m_loop m) =
    Done (NetLoop.Continue (set_pending bs st1) [Publish b])) as Hit.
  { unfold iteration. cbn [NetLoop.set_chunks pending_chunks]. rewrite Hp. cbn [handle_event t_head at_once].
    fold st1. rewrite (on_local_clipboard_spec _ _ _ _ _ st1 Hsplit Hm). cbn [mbind outcome_bind].
    assert (pending_chunks st1 = []) as -> by exact Hp. reflexivity. }
  assert (taken m (LocalClipboard uuid content) = Some (uuid, content)) as Htaken
    by (unfold taken; by rewrite Hp).
  pose proof (fleet_loop finish fuel iter_order gossipsub_topic f i m None (at_once (m_now m)) 0 view
    (LocalClipboard uuid content) (NetLoop.Continue (set_pending bs st1) [Publish b]) Hi) as Hstep.
  specialize (Hstep ltac:(intros _; split; [by rewrite Hch|done]) ltac:(by split) ltac:(done) Hit).
  unfold after_iteration, published in Hstep. rewrite Htaken, Hch in Hstep.
  specialize (Hstep ltac:(cbn; by rewrite app_nil_r)).
  eexists _, (set_pending bs st1). split; [by apply leads_to_step|]. split; [done|]. by split.
Qed.

(** All messages of the content that waits get onto the wire. *)
Lemma send_all (view : SwarmView) start f i m content q uuid msgs b bs zs :
  machines f !! i = Some m → channel (app (m_sys m)) = Some (content :: q) →
  transfers f !! uuid = None →
  (∀ raw, content_to_bytes content = Ok raw → transferable raw) →
  split_to_network_messages uuid content = Ok msgs →
  Forall2 (λ m b, message_to_bytes m = Ok b) msgs (b :: bs) →
  mapM (outbound_transform gossipsub_topic) (b :: bs) = Some zs →
  (length (m_inbox m) ≤ CHANNEL_CAPACITY)%nat →
  ∃ f' m', leads_to start f f' ∧ machines f' = <[i := m']> (machines f) ∧ ∀ z, z ∈ zs → z ∈ wire f'.
Proof.
  intros Hi Hch Hnew Htrans Hsplit Hm Hz Hlen.
  pose proof (lookup_lt_Some _ _ _ Hi) as Hlt.
  destruct (drain view start f i m Hi Hlen) as (f1 & st1 & Hp1 & Hl1 & Hm1 & _ & Ht1).
  set (m1 := with_loop m (app (m_sys m)) st1 []) in *.
  destruct (take_content view start f1 i m1 content q uuid msgs b bs)
    as (f2 & st2 & Hl2 & Hp2 & Hm2 & Hw2); [|done..|by rewrite Ht1|done|done|done| |].
  { rewrite Hm1. by apply list_lookup_insert_eq. }
  { cbn. by rewrite app_nil_r. }
  set (m2 := with_loop m1 _ st2 []) in *.
  destruct (drain view start f2 i m2) as (f3 & st3 & Hp3 & Hl3 & Hm3 & Hw3 & _).
  { rewrite Hm2. apply list_lookup_insert_eq. by rewrite Hm1, length_insert. }
  { cbn. by rewrite !app_nil_r. }
  exists f3. eexists. split; [by do 2 (eapply leads_to_trans; [done|])|]. split.
  { by rewrite Hm3, Hm2, Hm1, !list_insert_insert_eq. }
  apply mapM_Some in Hz. intros z (k & Hk)%list_elem_of_lookup.
  destruct (Forall2_lookup_r _ _ _ _ _ Hz Hk) as (x & Hx & Hxz).
  rewrite Hw3, Hw2. cbn [m_loop m2 with_loop]. rewrite Hp2.
  rewrite (proj1 (publishes_fmap bs)). destruct k as [|k]; cbn [lookup list_lookup] in Hx.
  - injection Hx as <-. apply elem_of_union_l, elem_of_union_r, elem_of_list_to_set.
    apply list_elem_of_omap. exists b. by split; [left|].
  - apply elem_of_union_r, elem_of_list_to_set, list_elem_of_omap. exists x.
    split; [by eapply list_elem_of_lookup_2|done].
Qed.

(** ** Receiving *)

(** The messages after which a content may be handed over. *)
Definition final (m : NetworkMessage) : bool :=
  match m with Direct _ | ChunkEnd _ => true | _ => false end.

Lemma sends_bounded boot t (view : SwarmView) msgs bs st st' cmds :
  Forall2 (λ m b, message_to_bytes m = Ok b) msgs bs → pending_chunks st = [] →
  iterations boot ((λ b, (at_once t, 0, view, GossipMessage b)) <$> bs) st = Done (Some st', cmds) →
  (length (omap clipboard_send cmds) ≤ length (filter (λ m, final m = true) msgs))%nat.
Proof.
  intros Hm. revert st cmds. induction Hm as [|m b msgs bs Hb Hm IH]; intros st cmds Hp.
  { intros [= _ <-]. done. }
  rewrite fmap_cons. cbn [iterations]. intros ([st1 c1|c1] & Hit & Hrun)%bind_Done; [|done].
  apply bind_Done in Hrun as ([o c2] & Hrun & [= -> <-]). rewrite omap_app, length_app.
  unfold iteration in Hit. cbn [NetLoop.set_chunks pending_chunks] in Hit. rewrite Hp in Hit.
  cbn [handle_event] in Hit. unfold on_gossip_message in Hit. cbn [chunk_states NetLoop.set_chunks] in Hit.
  apply deserialize_serialize_message in Hb. rewrite (handle_message_bytes _ _ m) in Hit by done.
  apply bind_Done in Hit as ([[s c] p] & Hh & [= <- <-]).
  apply bind_Done in Hh as ([cs out] & Hh & [= <- <- <-]).
  eapply IH in Hrun; [|done]. cbn [option_list fmap list_fmap]. rewrite app_nil_r.
  assert (length (omap clipboard_send (ClipboardSend <$> option_list out)) ≤
    if final m then 1 else 0)%nat as Hout.
  { destruct m; cbn [final handle_net_msg] in *; [destruct out; cbn; lia| | |destruct out; cbn; lia].
    - by injection Hh as _ <-.
    - destruct (_ !! transfer_id); by injection Hh as _ <-. }
  rewrite filter_cons. destruct (final m); case_decide; try done; cbn [length]; lia.
Qed.

Lemma one_final uuid content msgs :
  split_to_network_messages uuid content = Ok msgs →
  length (filter (λ m, final m = true) msgs) = 1%nat.
Proof.
  unfold split_to_network_messages. intros (raw & _ & Hif)%bind_Ok. case_bool_decide.
  { by injection Hif as <-. }
  injection Hif as <-. cbn [app]. rewrite filter_cons_False by done. rewrite filter_app.
  rewrite length_app. cbn [filter list_filter]. rewrite filter_nothing; [done|].
  apply Forall_forall. intros m (k & c & -> & _)%elem_of_lookup_imap. done.
Qed.

(** The messages on their way, all at one instant. *)
Definition arrivals_at (t : Z) (view : SwarmView) (zs : list (list u8)) : list arrival :=
  (λ z, (at_once t, 0, view, mk_RawMessage None z None gossipsub_topic)) <$> zs.

Lemma arrivals_data t view zs : (λ a : arrival, raw_data a.2) <$> arrivals_at t view zs = zs.
Proof. unfold arrivals_at. rewrite <- list_fmap_compose. apply list_fmap_id. Qed.

Lemma arrivals_delivered uuid t view z zs :
  delivered uuid (z :: zs) (arrivals_at t view (z :: zs)).
Proof.
  set (arr z := (at_once t, 0, view, mk_RawMessage None z None gossipsub_topic) : arrival).
  destruct zs as [|last body _] using rev_ind.
  { apply (delivered_one uuid (arr z)). }
  replace (arrivals_at t view (z :: body ++ [last])) with (arr z :: arrivals_at t view body ++ [arr last])
    by (unfold arrivals_at; by rewrite fmap_cons, fmap_app).
  assert (∀ z', in_time (arr z) (arr z')) as Htime.
  { intros z'. unfold in_time, within_timeout. cbn. rewrite Z.sub_diag. done. }
  apply (delivered_chunked uuid (arr z) (arrivals_at t view body) (arr last) body); [| |done].
  - by rewrite arrivals_data.
  - apply Forall_fmap, Forall_forall. intros z' Hz'. split; [apply Htime|by left].
Qed.

Lemma arrivals_inputs t view bs zs :
  mapM (outbound_transform gossipsub_topic) bs = Some zs →
  omap as_input (arrivals_at t view zs) = (λ b, (at_once t, 0, view, GossipMessage b)) <$> bs
  ∧ ∀ b, b ∈ bs → ∃ z, z ∈ zs ∧ decode_all z = Some b.
Proof.
  revert zs. induction bs as [|b bs IH]; intros zs; cbn [mapM].
  { intros [= <-]. split; [done|]. by intros b ?%elem_of_nil. }
  intros (z & Hz & (zs' & Hzs & [= <-])%bind_Some)%bind_Some. destruct (IH _ Hzs) as [IH1 IH2].
  apply bind_Some in Hz as (z' & Hz & [= ->]). apply decode_encode in Hz. split.
  - unfold arrivals_at. rewrite !fmap_cons. cbn [omap list_omap]. unfold as_input at 1, inbound_transform.
    cbn [snd raw_data]. rewrite Hz. cbn [mbind option_bind]. unfold arrivals_at in IH1. by rewrite IH1.
  - intros b' [->|(z' & Hin & Hd)%IH2]%elem_of_cons; [exists z|exists z']; (split; [|done]);
      [by left|by right].
Qed.

(** An idle loop receives the messages of a content that are on the wire. *)
Lemma deliver (view : SwarmView) start f j m uuid content msgs b bs zs :
  machines f !! j = Some m → pending_chunks (m_loop m) = [] → sizes_ok (chunk_states (m_loop m)) →
  (∀ raw, content_to_bytes content = Ok raw → transferable raw) →
  split_to_network_messages uuid content = Ok msgs →
  Forall2 (λ m b, message_to_bytes m = Ok b) msgs (b :: bs) →
  mapM (outbound_transform gossipsub_topic) (b :: bs) = Some zs → (∀ z, z ∈ zs → z ∈ wire f) →
  (length (m_inbox m) < CHANNEL_CAPACITY)%nat →
  ∃ f' st', leads_to start f f'
    ∧ machines f' = <[j := with_loop m (app (m_sys m)) st' [content]]> (machines f).
Proof.
  intros Hj Hp Hsz Htrans Hsplit Hm Hz Hwire Hcap.
  set (arrs := arrivals_at (m_now m) view zs).
  destruct (arrivals_inputs (m_now m) view _ _ Hz) as [Hin Hdec]. fold arrs in Hin.
  assert (delivered uuid zs arrs) as Hdel.
  { destruct zs as [|z zs]; [by apply bind_Some in Hz as (? & _ & (? & _ & ?)%bind_Some)|].
    apply arrivals_delivered. }
  destruct (content_received uuid content msgs b bs zs gossipsub_topic None arrs (m_loop m))
    as (st' & others & Hrun); [done..|by apply Forall_fmap, Forall_true|done|done|].
  rewrite Hin in Hrun. pose proof (sends_bounded _ _ _ _ _ _ _ _ Hm Hp Hrun) as Hlen.
  rewrite (one_final _ _ _ Hsplit) in Hlen.
  assert (∀ l : list ClipboardContent, omap clipboard_send (ClipboardSend <$> l : list Cmd) = l) as Hsends
    by (induction l as [|c l IH]; [done|]; rewrite fmap_cons; cbn; by rewrite IH).
  rewrite Hsends, length_app in Hlen. destruct others as [|c others]; [|cbn in Hlen; lia]. cbn [app] in *.
  destruct (run_inputs start ((λ x, (at_once (m_now m), 0, view, GossipMessage x)) <$> b :: bs)
    f j m st' (ClipboardSend <$> [content]) Hj) as (f' & Hlead & Hms & _); [|exact Hrun| |].
  - apply Forall_fmap, Forall_forall. intros b' (z & Hz' & Hd)%Hdec. split; [done|]. split; [done|].
    exists (mk_RawMessage None z None gossipsub_topic). eexists. split; [by apply Hwire|].
    unfold inbound_transform. cbn [raw_data snd compose]. rewrite Hd. by split.
  - rewrite Hsends, length_app. cbn [length]. lia.
  - rewrite Hsends in Hms. by exists f', st'.
Qed.

(** ** The theorem *)

Lemma partial_sizes (tr : gmap string ClipboardContent) st : loop_genuine tr st → sizes_ok (chunk_states st).
Proof. intros [Hc _] tid s Hs. by destruct (Hc tid s Hs) as (? & ? & _ & _ & _ & Hsz & _). Qed.

(** C4: no state is stuck.  Whatever has happened in a fleet, the first content that waits
    for the network of a machine can still be delivered to any other machine with room
    for it: from every reachable state some steps of the two loops lead to a state where
    it has been handed to the other machine's clipboard.  The content is one that can be
    serialised, compressed and transferred; its id is new. *)
Theorem delivery_always_possible (view : SwarmView) start h f i j m mj content q uuid msgs b bs zs :
  started_fleet start → run start (f :: h) →
  machines f !! i = Some m → machines f !! j = Some mj → i ≠ j →
  channel (app (m_sys m)) = Some (content :: q) → transfers f !! uuid = None →
  (∀ raw, content_to_bytes content = Ok raw → transferable raw) →
  split_to_network_messages uuid content = Ok msgs →
  Forall2 (λ m b, message_to_bytes m = Ok b) msgs (b :: bs) →
  mapM (outbound_transform gossipsub_topic) (b :: bs) = Some zs →
  (length (m_inbox mj) < CHANNEL_CAPACITY)%nat →
  ∃ f' h' mj', run start (f' :: h') ∧ suffix (f :: h) (f' :: h')
    ∧ machines f' !! j = Some mj' ∧ m_inbox mj' = m_inbox mj ++ [content].
Proof.
  intros Hstart Hrun Hi Hj Hij Hch Hnew Htrans Hsplit Hm Hz Hcap.
  destruct (fleet_run_ok _ _ _ _ start _ Hstart Hrun) as (? & ? & [= <- <-] & Hok & _).
  destruct (Hok i m Hi) as (_ & _ & _ & Hlen).
  destruct (send_all view start f i m content q uuid msgs b bs zs)
    as (f1 & m1 & Hl1 & Hm1 & Hw1); [done..|].
  assert (machines f1 !! j = Some mj) as Hj1 by (rewrite Hm1; by rewrite list_lookup_insert_ne).
  destruct (drain view start f1 j mj Hj1 ltac:(lia)) as (f2 & st2 & Hp2 & Hl2 & Hm2 & Hw2 & _).
  set (m2 := with_loop mj _ st2 []) in *.
  destruct (leads_to_trans _ _ _ _ Hl1 Hl2 h Hrun) as (h2 & Hrun2 & Hsuf2).
  assert (machines f2 !! j = Some m2) as Hj2.
  { rewrite Hm2. apply list_lookup_insert_eq. by eapply lookup_lt_Some. }
  destruct (fleet_run_ok _ _ _ _ start _ Hstart Hrun2) as (? & ? & [= <- <-] & Hok2 & _).
  destruct (Hok2 j m2 Hj2) as (_ & Hgen & _).
  destruct (deliver view start f2 j m2 uuid content msgs b bs zs) as (f3 & st3 & Hl3 & Hm3);
    [done|done|by eapply partial_sizes|done..| | |].
  { intros z Hin. rewrite Hw2. by apply elem_of_union_l, Hw1. }
  { cbn. by rewrite app_nil_r. }
  destruct (Hl3 h2 Hrun2) as (h3 & Hrun3 & Hsuf3).
  exists f3, h3. eexists. split; [done|]. split; [by etrans|]. split.
  - rewrite Hm3. apply list_lookup_insert_eq. by eapply lookup_lt_Some.
  - cbn. by rewrite app_nil_r.
Qed.
End progress.

(** ** Witness *)

From S2P Require Import Codec.

(** The text waits for the network of the first machine, and reaches the second. *)
Lemma delivery_always_possible_witness :
  ∃ f' h' m, fleet_run toy_finish 0 (λ l, l) "p2p_clipboard" wit_fleet (f' :: h')
    ∧ suffix (drop 2 wit_fleet_states) (f' :: h')
    ∧ machines f' !! 1%nat = Some m ∧ m_inbox m = [Text "hi"].
Proof.
  epose proof (delivery_always_possible (H:=list_libp2p) toy_finish 0 (λ l, l) "p2p_clipboard" wit_view
    wit_fleet _ _ 0 1 _ _ (Text "hi") [] "id" [Direct (Text "hi")] hi_bytes [] [37 :: hi_bytes]
    wit_fleet_started wit_monitor_run eq_refl eq_refl ltac:(done) eq_refl eq_refl) as Hd.
  destruct Hd as (f' & h' & m & Hrun & Hsuf & Hm & Hin);
    [|reflexivity| |reflexivity|apply Nat.leb_le; reflexivity|].
  - intros raw [= <-]. by vm_compute.
  - constructor; [reflexivity|constructor].
  - exists f', h', m. split; [exact Hrun|]. split; [exact Hsuf|]. split; [exact Hm|exact Hin].
Defined.
